(** * ODLM-Ontology: the ontology service over a labelled property graph

    A shallow embedding of [code/core/databases/neo4j/neo4j_service.py]
    (class [Neo4jService]) and [code/core/ontology.py] (class
    [OntologyService]).

    - Python values are the dynamic type [Py]; a Python [dict] is an
      insertion-ordered association list.
    - The graph store is a list of nodes and a list of relationships; every
      Cypher text the two classes send is given its meaning as a function on
      that graph.
    - A method is a computation in the monad [M]: it threads the [World]
      (graph, pending store faults, clock, logged warnings) and either
      returns a value or raises [Exception(msg)].

    What the model leaves out: [logger] calls other than [logger.warning];
    labels, relationship types and property keys that are not plain
    identifiers (the source splices them into the query text); the values
    Neo4j refuses as properties; [str.upper] beyond the ASCII letters; escapes
    in [repr] of a string.  The predicates [label_name], [sendable] and
    [is_ascii] at the end of the definitions say which names, values and
    text the model covers.  The order in which Neo4j enumerates matches is
    taken to be storage order, and [ORDER BY] to be stable. *)

From Stdlib Require Import String Ascii List ZArith Bool Lia Arith DecimalString Permutation.
Import ListNotations.
Open Scope string_scope.
Set Warnings "-register-all".

(* ================================================================= *)
(** ** Python values *)

Inductive Py : Type :=
| PNone
| PBool (b : bool)
| PInt (z : Z)
| PStr (s : string)
| PList (l : list Py)
| PDict (d : list (string * Py))
| PNode (id : nat) (labels : list string) (props : list (string * Py))
| PRel (id : nat) (src : nat) (type : string) (dst : nat) (props : list (string * Py)).

Definition Dict := list (string * Py).

(** Python [==]; [True == 1] and [False == 0], as [bool] is an [int]. *)
Fixpoint py_eqb (a b : Py) {struct a} : bool :=
  match a, b with
  | PNone, PNone => true
  | PBool x, PBool y => Bool.eqb x y
  | PBool x, PInt y => Z.eqb (if x then 1 else 0) y
  | PInt x, PBool y => Z.eqb x (if y then 1 else 0)
  | PInt x, PInt y => Z.eqb x y
  | PStr x, PStr y => String.eqb x y
  | PList x, PList y =>
      (fix go (x y : list Py) {struct x} : bool :=
         match x, y with
         | [], [] => true
         | u :: x', v :: y' => py_eqb u v && go x' y'
         | _, _ => false
         end) x y
  | PDict x, PDict y =>
      (fix go (x y : list (string * Py)) {struct x} : bool :=
         match x, y with
         | [], [] => true
         | (k, u) :: x', (k', v) :: y' => String.eqb k k' && py_eqb u v && go x' y'
         | _, _ => false
         end) x y
  | PNode i _ _, PNode j _ _ => Nat.eqb i j
  | PRel i _ _ _ _, PRel j _ _ _ _ => Nat.eqb i j
  | _, _ => false
  end.

(** [x in xs] for a list or a set of values. *)
Definition py_in (x : Py) (xs : list Py) : bool := existsb (py_eqb x) xs.

(** [bool(x)]. *)
Definition truthy (x : Py) : bool :=
  match x with
  | PNone => false
  | PBool b => b
  | PInt z => negb (Z.eqb z 0)
  | PStr s => negb (String.eqb s "")
  | PList l => negb (Nat.eqb (length l) 0)
  | PDict d => negb (Nat.eqb (length d) 0)
  | PNode _ _ props => negb (Nat.eqb (length props) 0)
  | PRel _ _ _ _ props => negb (Nat.eqb (length props) 0)
  end.

(** Values that can be put in a [set] or used as a [dict] key. *)
Definition hashable (x : Py) : bool :=
  match x with
  | PList _ | PDict _ => false
  | _ => true
  end.

Definition type_name (x : Py) : string :=
  match x with
  | PNone => "NoneType" | PBool _ => "bool" | PInt _ => "int" | PStr _ => "str"
  | PList _ => "list" | PDict _ => "dict" | PNode _ _ _ => "Node"
  | PRel _ _ _ _ _ => "Relationship"
  end.

(* ----------------------------------------------------------------- *)
(** *** Strings *)

Definition nl : string := String (ascii_of_nat 10) EmptyString.

Fixpoint str_map (f : ascii -> ascii) (s : string) : string :=
  match s with
  | EmptyString => EmptyString
  | String c s' => String (f c) (str_map f s')
  end.

(** [str.upper] and [str.lower] on ASCII text ([is_ascii] below): the letters
    [a] to [z] and nothing else change.  Python also changes letters beyond
    ASCII, so for other text [upper] is not [str.upper]. *)
Definition upper_char (c : ascii) : ascii :=
  let n := nat_of_ascii c in
  if Nat.leb 97 n && Nat.leb n 122 then ascii_of_nat (n - 32) else c.

Definition lower_char (c : ascii) : ascii :=
  let n := nat_of_ascii c in
  if Nat.leb 65 n && Nat.leb n 90 then ascii_of_nat (n + 32) else c.

Definition upper (s : string) : string := str_map upper_char s.
Definition lower (s : string) : string := str_map lower_char s.

(** [s.replace(a, b)] for one-character [a] and [b]. *)
Definition replace_char (a b : ascii) (s : string) : string :=
  str_map (fun c => if Ascii.eqb c a then b else c) s.

(** [needle in hay]. *)
Fixpoint contains (needle hay : string) : bool :=
  prefix needle hay ||
  match hay with
  | EmptyString => false
  | String _ hay' => contains needle hay'
  end.

Definition str_of_Z (z : Z) : string := NilZero.string_of_int (Z.to_int z).
Definition str_of_nat (n : nat) : string := str_of_Z (Z.of_nat n).

(** [repr(x)]: strings are quoted (escapes are not modelled), containers
    show their elements. *)
Fixpoint py_repr (x : Py) : string :=
  match x with
  | PNone => "None"
  | PBool true => "True"
  | PBool false => "False"
  | PInt z => str_of_Z z
  | PStr s => "'" ++ s ++ "'"
  | PList l =>
      "[" ++ String.concat ", "
               ((fix go (l : list Py) : list string :=
                   match l with [] => [] | u :: l' => py_repr u :: go l' end) l)
          ++ "]"
  | PDict d =>
      "{" ++ String.concat ", "
               ((fix go (d : list (string * Py)) : list string :=
                   match d with
                   | [] => []
                   | (k, u) :: d' => ("'" ++ k ++ "': " ++ py_repr u) :: go d'
                   end) d)
          ++ "}"
  | PNode i _ _ => "<Node " ++ str_of_nat i ++ ">"
  | PRel i _ _ _ _ => "<Relationship " ++ str_of_nat i ++ ">"
  end.

(** [str(x)], what an f-string inserts. *)
Definition py_str (x : Py) : string :=
  match x with
  | PStr s => s
  | _ => py_repr x
  end.

(* ----------------------------------------------------------------- *)
(** *** Dictionaries *)

Fixpoint dict_get (k : string) (d : Dict) : option Py :=
  match d with
  | [] => None
  | (k', v) :: d' => if String.eqb k k' then Some v else dict_get k d'
  end.

(** [d.get(k)] and [d.get(k, default)]. *)
Definition get (k : string) (d : Dict) : Py :=
  match dict_get k d with Some v => v | None => PNone end.

Definition get_or (k : string) (dflt : Py) (d : Dict) : Py :=
  match dict_get k d with Some v => v | None => dflt end.

Definition has_key (k : string) (d : Dict) : bool :=
  match dict_get k d with Some _ => true | None => false end.

(** [d[k] = v]: an existing key keeps its place, a new one goes last. *)
Fixpoint dict_set (k : string) (v : Py) (d : Dict) : Dict :=
  match d with
  | [] => [(k, v)]
  | (k', v') :: d' =>
      if String.eqb k k' then (k, v) :: d' else (k', v') :: dict_set k v d'
  end.

(** [d.update(other)]. *)
Definition dict_update (d other : Dict) : Dict :=
  fold_left (fun acc kv => dict_set (fst kv) (snd kv) acc) other d.

Fixpoint dict_remove (k : string) (d : Dict) : Dict :=
  match d with
  | [] => []
  | (k', v) :: d' =>
      if String.eqb k k' then dict_remove k d' else (k', v) :: dict_remove k d'
  end.

Definition keys (d : Dict) : list string := map fst d.

Definition str_in (s : string) (l : list string) : bool := existsb (String.eqb s) l.

(** The integer under a key of a result dictionary, [d.get(k, 0)]. *)
Definition get_nat (k : string) (d : Dict) : nat :=
  match dict_get k d with
  | Some (PInt z) => Z.to_nat z
  | Some (PBool true) => 1
  | _ => 0
  end.

Definition PNat (n : nat) : Py := PInt (Z.of_nat n).

(* ================================================================= *)
(** ** The graph store *)

Record Node := mkNode { n_id : nat; n_labels : list string; n_props : Dict }.

Record Edge := mkEdge {
  e_id : nat; e_src : nat; e_type : string; e_dst : nat; e_props : Dict }.

(** Nodes and relationships in storage order; [g_next] is the next free
    identifier. *)
Record Graph := mkGraph { g_nodes : list Node; g_edges : list Edge; g_next : nat }.

Definition node_py (n : Node) : Py := PNode (n_id n) (n_labels n) (n_props n).
Definition edge_py (e : Edge) : Py :=
  PRel (e_id e) (e_src e) (e_type e) (e_dst e) (e_props e).

Definition has_label (l : string) (n : Node) : bool := str_in l (n_labels n).

(** [n.k]: a property that is not set reads as [null]. *)
Definition prop (k : string) (n : Node) : Py := get k (n_props n).

Definition node_by_id (g : Graph) (i : nat) : option Node :=
  find (fun n => Nat.eqb (n_id n) i) (g_nodes g).

(* ----------------------------------------------------------------- *)
(** *** Cypher values: equality, order *)

Definition and3 (a b : option bool) : option bool :=
  match a, b with
  | Some false, _ | _, Some false => Some false
  | Some true, Some true => Some true
  | _, _ => None
  end.

(** Cypher [a = b], three-valued: [None] is [null]. *)
Fixpoint cy_eq3 (a b : Py) {struct a} : option bool :=
  match a, b with
  | PNone, _ => None
  | _, PNone => None
  | PBool x, PBool y => Some (Bool.eqb x y)
  | PInt x, PInt y => Some (Z.eqb x y)
  | PStr x, PStr y => Some (String.eqb x y)
  | PList x, PList y =>
      (fix go (x y : list Py) {struct x} : option bool :=
         match x, y with
         | [], [] => Some true
         | u :: x', v :: y' => and3 (cy_eq3 u v) (go x' y')
         | _, _ => Some false
         end) x y
  | _, _ => Some false
  end.

(** A [WHERE] keeps a row only when its predicate is [true]. *)
Definition cy_eqb (a b : Py) : bool :=
  match cy_eq3 a b with Some true => true | _ => false end.

Definition cy_neqb (a b : Py) : bool :=
  match cy_eq3 a b with Some false => true | _ => false end.

(** [x IN xs]. *)
Definition cy_in (x : Py) (xs : list Py) : bool := existsb (cy_eqb x) xs.

Definition rank (x : Py) : nat :=
  match x with
  | PDict _ => 0 | PNode _ _ _ => 1 | PRel _ _ _ _ _ => 2 | PList _ => 3
  | PStr _ => 4 | PBool _ => 5 | PInt _ => 6 | PNone => 7
  end.

(** The order [ORDER BY] sorts by; [Eq] is also the sameness [DISTINCT]
    uses ([null] is the same as [null], and sorts last). *)
Fixpoint cy_cmp (a b : Py) {struct a} : comparison :=
  match a, b with
  | PNone, PNone => Eq
  | PBool x, PBool y =>
      match x, y with false, true => Lt | true, false => Gt | _, _ => Eq end
  | PInt x, PInt y => Z.compare x y
  | PStr x, PStr y => String.compare x y
  | PList x, PList y =>
      (fix go (x y : list Py) {struct x} : comparison :=
         match x, y with
         | [], [] => Eq
         | [], _ :: _ => Lt
         | _ :: _, [] => Gt
         | u :: x', v :: y' =>
             match cy_cmp u v with Eq => go x' y' | c => c end
         end) x y
  | PDict x, PDict y =>
      (fix go (x y : list (string * Py)) {struct x} : comparison :=
         match x, y with
         | [], [] => Eq
         | [], _ :: _ => Lt
         | _ :: _, [] => Gt
         | (k, u) :: x', (k', v) :: y' =>
             match String.compare k k' with
             | Eq => match cy_cmp u v with Eq => go x' y' | c => c end
             | c => c
             end
         end) x y
  | PNode i _ _, PNode j _ _ => Nat.compare i j
  | PRel i _ _ _ _, PRel j _ _ _ _ => Nat.compare i j
  | _, _ => Nat.compare (rank a) (rank b)
  end.

Definition cy_leb (a b : Py) : bool :=
  match cy_cmp a b with Gt => false | _ => true end.

Definition cy_same (a b : Py) : bool :=
  match cy_cmp a b with Eq => true | _ => false end.

(** A stable insertion sort, the model of [ORDER BY]. *)
Fixpoint insert_by {A} (leb : A -> A -> bool) (x : A) (l : list A) : list A :=
  match l with
  | [] => [x]
  | y :: l' => if leb x y then x :: l else y :: insert_by leb x l'
  end.

Fixpoint sort_by {A} (leb : A -> A -> bool) (l : list A) : list A :=
  match l with
  | [] => []
  | x :: l' => insert_by leb x (sort_by leb l')
  end.

(** [ORDER BY k1, k2, ...] on rows: the columns in turn. *)
Definition order_by (cols : list string) (rows : list Dict) : list Dict :=
  sort_by (fun r1 r2 =>
             cy_leb (PList (map (fun c => get c r1) cols))
                    (PList (map (fun c => get c r2) cols))) rows.

(** [RETURN DISTINCT]: the first of each group of same rows is kept. *)
Fixpoint distinct (rows : list Dict) : list Dict :=
  match rows with
  | [] => []
  | r :: rows' =>
      r :: filter (fun r' => negb (cy_same (PDict r) (PDict r'))) (distinct rows')
  end.

(** The distinct identifiers of a list. *)
Definition nodup_nat (l : list nat) : list nat := nodup Nat.eq_dec l.

Definition mem_nat (x : nat) (l : list nat) : bool := existsb (Nat.eqb x) l.

(* ----------------------------------------------------------------- *)
(** *** Node patterns *)

(** A property of a node pattern is a literal or a [$parameter]. *)
Inductive PatVal := Lit (v : Py) | Param (name : string).

(** The pattern [:L1:L2 {k1: v1, ...}] that stands inside [MATCH (n ...)]. *)
Record NodePattern := mkPattern {
  pat_labels : list string; pat_props : list (string * PatVal) }.

(** Parameters are looked up when the query runs; a missing one is a client
    error of the store. *)
Fixpoint resolve_props (params : Dict) (ps : list (string * PatVal))
  : string + Dict :=
  match ps with
  | [] => inr []
  | (k, Lit v) :: ps' =>
      match resolve_props params ps' with
      | inr d => inr ((k, v) :: d)
      | inl e => inl e
      end
  | (k, Param x) :: ps' =>
      match dict_get x params with
      | None => inl ("Expected parameter(s): " ++ x)
      | Some v =>
          match resolve_props params ps' with
          | inr d => inr ((k, v) :: d)
          | inl e => inl e
          end
      end
  end.

(** [(n:L1:L2 {k1: v1, ...})] matches [n]. *)
Definition match_node (labels : list string) (props : Dict) (n : Node) : bool :=
  forallb (fun l => has_label l n) labels &&
  forallb (fun kv => cy_eqb (prop (fst kv) n) (snd kv)) props.

Definition opt_label (label : option string) : list string :=
  match label with Some l => [l] | None => [] end.

(** [MATCH (n:label {name: $name})], the nodes in storage order. *)
Definition named (label : option string) (name : Py) (g : Graph) : list Node :=
  filter (match_node (opt_label label) [("name", name)]) (g_nodes g).

(* ----------------------------------------------------------------- *)
(** *** Queries *)

(** The counters of a result summary. *)
Record Counters := mkCounters {
  c_nodes_created : nat; c_nodes_deleted : nat;
  c_relationships_created : nat; c_relationships_deleted : nat;
  c_properties_set : nat; c_labels_added : nat; c_labels_removed : nat;
  c_indexes_added : nat; c_indexes_removed : nat;
  c_constraints_added : nat; c_constraints_removed : nat }.

Definition no_counters : Counters := mkCounters 0 0 0 0 0 0 0 0 0 0 0.

(** What running a query gives: the records, the summary counters and the
    graph afterwards. *)
Record Answer := mkAnswer {
  a_rows : list Dict; a_counters : Counters; a_graph : Graph }.

(** A query text with its parameters, by its meaning: a client error
    message, or an answer. *)
Definition Cypher := Graph -> string + Answer.

Definition reading (rows : Graph -> list Dict) : Cypher :=
  fun g => inr (mkAnswer (rows g) no_counters g).

(** [SET n.k = v]: setting [null] removes the property. *)
Definition set_prop (k : string) (v : Py) (props : Dict) : Dict :=
  match v with
  | PNone => dict_remove k props
  | _ => dict_set k v props
  end.

(** [SET n += map]. *)
Definition set_props (props map : Dict) : Dict :=
  fold_left (fun acc kv => set_prop (fst kv) (snd kv) acc) map props.

Definition with_props (n : Node) (props : Dict) : Node :=
  mkNode (n_id n) (n_labels n) props.

(** [MATCH (n:label {name: $name}) RETURN count(n) > 0 as exists] *)
Definition cy_name_exists (label : option string) (name : Py) : Cypher :=
  reading (fun g =>
    [[("exists", PBool (negb (Nat.eqb (length (named label name g)) 0)))]]).

(** [MATCH (n:label {name: $name}) RETURN n] *)
Definition cy_get_node (label : option string) (name : Py) : Cypher :=
  reading (fun g => map (fun n => [("n", node_py n)]) (named label name g)).

(** [MATCH (n {name: $name})
     RETURN n.name as name, labels(n) as labels, properties(n) as properties
     ORDER BY labels(n)] *)
Definition cy_find_by_name (name : Py) : Cypher :=
  reading (fun g =>
    order_by ["labels"]
      (map (fun n => [("name", prop "name" n);
                      ("labels", PList (map PStr (n_labels n)));
                      ("properties", PDict (n_props n))])
           (named None name g))).

(** [MATCH (p:Property) WHERE p.name IN $property_names
     RETURN p.name as property_name, p.property_type as property_type] *)
Definition cy_property_types (property_names : list Py) : Cypher :=
  reading (fun g =>
    map (fun p => [("property_name", prop "name" p);
                   ("property_type", prop "property_type" p)])
        (filter (fun p => has_label "Property" p &&
                          cy_in (prop "name" p) property_names)
                (g_nodes g))).

(** The [HAS_PROPERTY] relationships out of node [i] that carry
    [required = true] and end in a [:Property] node, with that node. *)
Definition required_of (g : Graph) (i : nat) : list (Edge * Node) :=
  flat_map (fun r =>
    if String.eqb (e_type r) "HAS_PROPERTY" && Nat.eqb (e_src r) i
       && cy_eqb (get "required" (e_props r)) (PBool true)
    then match node_by_id g (e_dst r) with
         | Some p => if has_label "Property" p then [(r, p)] else []
         | None => []
         end
    else []) (g_edges g).

Definition required_row (kind : string) (source : Py) (rp : Edge * Node) : Dict :=
  let (r, p) := rp in
  [("property_name", prop "name" p);
   ("property_type", prop "property_type" p);
   ("range_type", prop "range" p);
   ("comment", prop "comment" p);
   ("tag", prop "tag" p);
   ("required", get "required" (e_props r));
   ("default_value", get "default_value" (e_props r));
   ("inheritance_type", PStr kind);
   ("source_concept", source)].

(** [MATCH (c:label {name: $concept_name})-[r:HAS_PROPERTY]->(p:Property)
     WHERE r.required = true
     RETURN p.name as property_name, ..., 'direct' as inheritance_type,
            $concept_name as source_concept
     ORDER BY p.name] *)
Definition cy_direct_required (label : string) (concept_name : Py) : Cypher :=
  reading (fun g =>
    order_by ["property_name"]
      (flat_map (fun c => map (required_row "direct" concept_name)
                              (required_of g (n_id c)))
                (named (Some label) concept_name g))).

(** [(n)-[:SUBCLASS_OF*]->(m)]: the paths of one or more [SUBCLASS_OF]
    relationships out of node [i] that repeat no relationship and use none
    of [used]; each with its end node and the relationships used so far.
    A path has at most as many steps as there are relationships, which is
    the [fuel] the queries give. *)
Fixpoint trails (fuel : nat) (es : list Edge) (used : list nat) (i : nat)
  : list (nat * list nat) :=
  match fuel with
  | 0 => []
  | S fuel' =>
      flat_map (fun e =>
        if String.eqb (e_type e) "SUBCLASS_OF" && Nat.eqb (e_src e) i
           && negb (mem_nat (e_id e) used)
        then (e_dst e, e_id e :: used)
               :: trails fuel' es (e_id e :: used) (e_dst e)
        else []) es
  end.

Definition subclass_trails (g : Graph) (used : list nat) (i : nat)
  : list (nat * list nat) :=
  trails (length (g_edges g)) (g_edges g) used i.

(** [(c)-[:SUBCLASS_OF*]->(i)-[:SUBCLASS_OF*]->(parent)] as a predicate:
    one path, so no relationship twice over both legs. *)
Definition through (g : Graph) (c i parent : nat) : bool :=
  existsb (fun t1 =>
    Nat.eqb (fst t1) i &&
    existsb (fun t2 => Nat.eqb (fst t2) parent) (subclass_trails g (snd t1) i))
    (subclass_trails g [] c).

(** The [NOT EXISTS { ... }] subquery of the inherited query, without its
    negation:
    [MATCH (c)-[:SUBCLASS_OF*0..]->(intermediate)-[:HAS_PROPERTY]->(p)
     WHERE intermediate.name <> parent.name
       AND (c)-[:SUBCLASS_OF*]->(intermediate)-[:SUBCLASS_OF*]->(parent)] *)
Definition declared_between (g : Graph) (c : nat) (parent p : Node) : bool :=
  existsb (fun m =>
    (Nat.eqb (n_id m) c
     || existsb (fun t => Nat.eqb (fst t) (n_id m)) (subclass_trails g [] c))
    && existsb (fun r => String.eqb (e_type r) "HAS_PROPERTY"
                         && Nat.eqb (e_src r) (n_id m)
                         && Nat.eqb (e_dst r) (n_id p)) (g_edges g)
    && cy_neqb (prop "name" m) (prop "name" parent)
    && through g c (n_id m) (n_id parent))
    (g_nodes g).

(** [MATCH (c:label {name: $concept_name})-[:SUBCLASS_OF*]->(parent)
           -[r:HAS_PROPERTY]->(p:Property)
     WHERE r.required = true AND NOT EXISTS { ... }
     RETURN DISTINCT p.name as property_name, ...,
            'inherited' as inheritance_type, parent.name as source_concept
     ORDER BY parent.name, p.name] *)
Definition cy_inherited_required (label : string) (concept_name : Py) : Cypher :=
  reading (fun g =>
    order_by ["source_concept"; "property_name"]
      (distinct
         (flat_map (fun c =>
            flat_map (fun t =>
              match node_by_id g (fst t) with
              | None => []
              | Some parent =>
                  flat_map (fun rp =>
                    if declared_between g (n_id c) parent (snd rp) then []
                    else [required_row "inherited" (prop "name" parent) rp])
                    (required_of g (n_id parent))
              end) (subclass_trails g [] (n_id c)))
            (named (Some label) concept_name g)))).

(** [MERGE (n:L1:L2 {name: $name}) ON CREATE SET n += $properties RETURN n]:
    the nodes that match are returned as they are; when none does, one node
    is created. *)
Definition cy_merge_node (labels : list string) (name : Py) (properties : Dict)
  : Cypher :=
  fun g =>
    match filter (match_node labels [("name", name)]) (g_nodes g) with
    | [] =>
        match name with
        | PNone => inl "Cannot merge node using null property value for name"
        | _ =>
            let n := mkNode (g_next g) labels
                       (set_props [("name", name)] properties) in
            inr (mkAnswer [[("n", node_py n)]]
                   (mkCounters 1 0 0 0 (1 + length properties)
                               (length labels) 0 0 0 0 0)
                   (mkGraph (g_nodes g ++ [n]) (g_edges g) (S (g_next g))))
        end
    | found =>
        inr (mkAnswer (map (fun n => [("n", node_py n)]) found) no_counters g)
    end.

(** [MATCH (n:label {name: $name}) SET n.k1 = $k1, n.k2 = $k2, ... RETURN n]
    with the parameters [params] and the keys [ks] of the [SET] clause. *)
Definition cy_set_node (label : string) (params : Dict) (ks : list string)
  : Cypher :=
  fun g =>
    let hit := match_node [label] [("name", get "name" params)] in
    let upd n := with_props n
                   (fold_left (fun acc k => set_prop k (get k params) acc)
                              ks (n_props n)) in
    inr (mkAnswer (map (fun n => [("n", node_py (upd n))])
                       (filter hit (g_nodes g)))
           (mkCounters 0 0 0 0 (length (filter hit (g_nodes g)) * length ks)
                       0 0 0 0 0 0)
           (mkGraph (map (fun n => if hit n then upd n else n) (g_nodes g))
                    (g_edges g) (g_next g))).

(** [MATCH (n:label {name: $old_name})
     SET n.name = $new_name, n.updated_at = $updated_at RETURN n] *)
Definition cy_rename_node (label : string) (old_name new_name updated_at : Py)
  : Cypher :=
  fun g =>
    let hit := match_node [label] [("name", old_name)] in
    let upd n := with_props n
                   (set_prop "updated_at" updated_at
                      (set_prop "name" new_name (n_props n))) in
    inr (mkAnswer (map (fun n => [("n", node_py (upd n))])
                       (filter hit (g_nodes g)))
           (mkCounters 0 0 0 0 (2 * length (filter hit (g_nodes g)))
                       0 0 0 0 0 0)
           (mkGraph (map (fun n => if hit n then upd n else n) (g_nodes g))
                    (g_edges g) (g_next g))).

(** The rows of [MATCH (from P1) MATCH (to P2)]: every pair of a node that
    matches the first pattern and a node that matches the second. *)
Definition endpoint_pairs (labels1 : list string) (props1 : Dict)
    (labels2 : list string) (props2 : Dict) (g : Graph) : list (Node * Node) :=
  flat_map (fun a => map (fun b => (a, b))
                         (filter (match_node labels2 props2) (g_nodes g)))
           (filter (match_node labels1 props1) (g_nodes g)).

(** [(a)-[:T]->(b)] *)
Definition links (T : string) (a b : nat) (e : Edge) : bool :=
  String.eqb (e_type e) T && Nat.eqb (e_src e) a && Nat.eqb (e_dst e) b.

Definition with_patterns (from_node to_node : NodePattern) (params : Dict)
    (k : Dict -> Dict -> Graph -> Answer) : Cypher :=
  fun g =>
    match resolve_props params (pat_props from_node) with
    | inl e => inl e
    | inr props1 =>
        match resolve_props params (pat_props to_node) with
        | inl e => inl e
        | inr props2 => inr (k props1 props2 g)
        end
    end.

(** [MATCH (from P1) MATCH (to P2)
     RETURN EXISTS((from)-[:T]->(to)) as relationship_exists] *)
Definition cy_relationship_exists (from_node to_node : NodePattern)
    (T : string) (params : Dict) : Cypher :=
  with_patterns from_node to_node params (fun props1 props2 g =>
    mkAnswer
      (map (fun ab =>
              [("relationship_exists",
                PBool (existsb (links T (n_id (fst ab)) (n_id (snd ab)))
                               (g_edges g)))])
           (endpoint_pairs (pat_labels from_node) props1
                           (pat_labels to_node) props2 g))
      no_counters g).

(** The relationships [CREATE (from)-[r:T props]->(to)] adds, one for each
    row, numbered from [next]. *)
Fixpoint new_edges (next : nat) (T : string) (props : Dict)
    (pairs : list (Node * Node)) : list Edge :=
  match pairs with
  | [] => []
  | (a, b) :: pairs' =>
      mkEdge next (n_id a) T (n_id b) props :: new_edges (S next) T props pairs'
  end.

(** [MATCH (from P1) MATCH (to P2) CREATE (from)-[r:T $rel_props]->(to)
     RETURN r]; without [rel_props] the relationship has no properties. *)
Definition cy_create_relationship (from_node to_node : NodePattern)
    (T : string) (rel_props : option Dict) (params : Dict) : Cypher :=
  with_patterns from_node to_node params (fun props1 props2 g =>
    let pairs := endpoint_pairs (pat_labels from_node) props1
                                (pat_labels to_node) props2 g in
    let props := match rel_props with
                 | Some d => set_props [] d
                 | None => []
                 end in
    let created := new_edges (g_next g) T props pairs in
    mkAnswer (map (fun e => [("r", edge_py e)]) created)
      (mkCounters 0 0 (length created) 0 (length created * length props)
                  0 0 0 0 0 0)
      (mkGraph (g_nodes g) (g_edges g ++ created) (g_next g + length created))).

(** [MATCH (:Instance {name: $from_instance})-[r:T]->(:Instance) DELETE r] *)
Definition cy_delete_relationships (from_instance : Py) (T : string) : Cypher :=
  fun g =>
    let doomed e :=
      String.eqb (e_type e) T
      && existsb (fun a => Nat.eqb (n_id a) (e_src e))
                 (named (Some "Instance") from_instance g)
      && existsb (fun b => Nat.eqb (n_id b) (e_dst e) && has_label "Instance" b)
                 (g_nodes g) in
    inr (mkAnswer []
           (mkCounters 0 0 0 (length (filter doomed (g_edges g))) 0 0 0 0 0 0 0)
           (mkGraph (g_nodes g) (filter (fun e => negb (doomed e)) (g_edges g))
                    (g_next g))).

(** [(o:Instance {name: $name, instance_of: 'Object'})] *)
Definition objects_named (name : Py) (g : Graph) : list Node :=
  filter (match_node ["Instance"] [("name", name); ("instance_of", PStr "Object")])
         (g_nodes g).

(** [(o)<-[:ISOBJECTFIELDOF]-(f:Instance {instance_of: 'ObjectField'})]:
    one [f] for each such relationship into [o]. *)
Definition fields_of (g : Graph) (o : Node) : list Node :=
  flat_map (fun e =>
    if String.eqb (e_type e) "ISOBJECTFIELDOF" && Nat.eqb (e_dst e) (n_id o)
    then match node_by_id g (e_src e) with
         | Some f =>
             if match_node ["Instance"] [("instance_of", PStr "ObjectField")] f
             then [f] else []
         | None => []
         end
    else []) (g_edges g).

(** [MATCH (o:Instance {name: $name, instance_of: 'Object'})
     RETURN count(o) > 0 as exists] *)
Definition cy_object_exists (name : Py) : Cypher :=
  reading (fun g =>
    [[("exists", PBool (negb (Nat.eqb (length (objects_named name g)) 0)))]]).

(** [MATCH (o:Instance {name: $name, instance_of: 'Object'})
     OPTIONAL MATCH (o)<-[:ISOBJECTFIELDOF]-(f:Instance {instance_of: 'ObjectField'})
     RETURN 1 as objects_count, count(DISTINCT f) as fields_count]:
    one group, and no row at all when no [o] matches. *)
Definition cy_object_counts (name : Py) : Cypher :=
  reading (fun g =>
    match objects_named name g with
    | [] => []
    | os =>
        [[("objects_count", PInt 1);
          ("fields_count",
           PNat (length (nodup_nat (map n_id (flat_map (fields_of g) os)))))]]
    end).

(** [MATCH (o:Instance {name: $name, instance_of: 'Object'})
     OPTIONAL MATCH (o)<-[:ISOBJECTFIELDOF]-(f:Instance {instance_of: 'ObjectField'})
     DETACH DELETE f, o]: the matched nodes go, and with them every
    relationship that starts or ends at one of them. *)
Definition cy_object_delete (name : Py) : Cypher :=
  fun g =>
    let os := objects_named name g in
    let doomed := nodup_nat (map n_id (os ++ flat_map (fields_of g) os)) in
    let gone e := mem_nat (e_src e) doomed || mem_nat (e_dst e) doomed in
    inr (mkAnswer []
           (mkCounters 0 (length (filter (fun n => mem_nat (n_id n) doomed)
                                         (g_nodes g)))
                       0 (length (filter gone (g_edges g))) 0 0 0 0 0 0 0)
           (mkGraph (filter (fun n => negb (mem_nat (n_id n) doomed)) (g_nodes g))
                    (filter (fun e => negb (gone e)) (g_edges g))
                    (g_next g))).

(** [CREATE (n:L1:L2 $properties) RETURN n]: always a new node; a [null]
    among the properties is not stored.  This is the store for labels it can
    read and values the driver can send ([label_name], [sendable] below):
    the driver refuses, for one, an integer beyond 64 bits before anything
    is sent, and then no node is added. *)
Definition cy_create_node (labels : list string) (properties : Dict) : Cypher :=
  fun g =>
    let n := mkNode (g_next g) labels (set_props [] properties) in
    inr (mkAnswer [[("n", node_py n)]]
           (mkCounters 1 0 0 0 (length (set_props [] properties))
                       (length labels) 0 0 0 0 0)
           (mkGraph (g_nodes g ++ [n]) (g_edges g) (S (g_next g)))).

(** [LIMIT l]: the first [l] rows; a negative [l] is refused. *)
Definition cy_limit (limit : option Z) (rows : list Dict) : string + list Dict :=
  match limit with
  | None => inr rows
  | Some l =>
      if Z.ltb l 0
      then inl ("Invalid input. '" ++ str_of_Z l
                ++ "' is not a valid value. Must be a non-negative integer.")
      else inr (firstn (Z.to_nat l) rows)
  end.

(** [MATCH (n P) RETURN n], with [LIMIT l] when a limit is given. *)
Definition cy_find_nodes (pattern : NodePattern) (limit : option Z) (params : Dict)
  : Cypher :=
  fun g =>
    match resolve_props params (pat_props pattern) with
    | inl e => inl e
    | inr props =>
        match cy_limit limit
                (map (fun n => [("n", node_py n)])
                     (filter (match_node (pat_labels pattern) props) (g_nodes g)))
        with
        | inl e => inl e
        | inr rows => inr (mkAnswer rows no_counters g)
        end
    end.

(** The three shapes of a relationship pattern around [(n)]:
    [(n)<-[r]-()], [(n)-[r]->()] and [(n)-[r]-()]. *)
Inductive Arrow := ArrowIn | ArrowOut | ArrowBoth.

(** The relationship [e] matches the pattern at node [i]; a relationship from
    a node to itself matches the undirected pattern once. *)
Definition touches (arrow : Arrow) (T : option string) (i : nat) (e : Edge) : bool :=
  match T with Some t => String.eqb (e_type e) t | None => true end
  && match arrow with
     | ArrowIn => Nat.eqb (e_dst e) i
     | ArrowOut => Nat.eqb (e_src e) i
     | ArrowBoth => Nat.eqb (e_src e) i || Nat.eqb (e_dst e) i
     end.

(** [MATCH (n P) MATCH (n)-[r:T]->() RETURN count(r) as degree], the arrow
    as [arrow] has it. *)
Definition cy_degree (pattern : NodePattern) (arrow : Arrow) (T : option string)
    (params : Dict) : Cypher :=
  fun g =>
    match resolve_props params (pat_props pattern) with
    | inl e => inl e
    | inr props =>
        inr (mkAnswer
               [[("degree",
                  PNat (length
                          (flat_map (fun n => filter (touches arrow T (n_id n))
                                                     (g_edges g))
                             (filter (match_node (pat_labels pattern) props)
                                     (g_nodes g)))))]]
               no_counters g)
    end.

(** [DETACH DELETE] of the nodes whose identifier is in [doomed]: they go,
    and with them every relationship that starts or ends at one of them. *)
Definition detach_delete (doomed : list nat) (g : Graph) : Answer :=
  let gone e := mem_nat (e_src e) doomed || mem_nat (e_dst e) doomed in
  mkAnswer []
    (mkCounters 0 (length (filter (fun n => mem_nat (n_id n) doomed) (g_nodes g)))
                0 (length (filter gone (g_edges g))) 0 0 0 0 0 0 0)
    (mkGraph (filter (fun n => negb (mem_nat (n_id n) doomed)) (g_nodes g))
             (filter (fun e => negb (gone e)) (g_edges g))
             (g_next g)).

(** [MATCH (n) DETACH DELETE n] *)
Definition cy_clear : Cypher :=
  fun g => inr (detach_delete (nodup_nat (map n_id (g_nodes g))) g).

(** [RETURN 1 as test] *)
Definition cy_return_one : Cypher := reading (fun _ => [[("test", PInt 1)]]).

(** [MATCH (n:label) RETURN count(n) as count] *)
Definition cy_count_nodes (label : option string) : Cypher :=
  reading (fun g =>
    [[("count", PNat (length (filter (match_node (opt_label label) [])
                                     (g_nodes g))))]]).

(** [MATCH (n:Instance {name: $name}) DETACH DELETE n] *)
Definition cy_delete_instance (name : Py) : Cypher :=
  fun g =>
    inr (detach_delete (nodup_nat (map n_id (named (Some "Instance") name g))) g).

(** [a CONTAINS b]: [null] unless both are strings. *)
Definition cy_contains (a b : Py) : bool :=
  match a, b with
  | PStr x, PStr y => contains y x
  | _, _ => false
  end.

(** [MATCH (n:label) WHERE n.name CONTAINS $search_term
     RETURN n.name as name, labels(n) as labels, properties(n) as properties
     ORDER BY n.name LIMIT $limit] *)
Definition cy_search (label : option string) (search_term : Py) (limit : Z)
  : Cypher :=
  fun g =>
    match cy_limit (Some limit)
            (order_by ["name"]
               (map (fun n => [("name", prop "name" n);
                               ("labels", PList (map PStr (n_labels n)));
                               ("properties", PDict (n_props n))])
                    (filter (fun n => match_node (opt_label label) [] n
                                      && cy_contains (prop "name" n) search_term)
                            (g_nodes g))))
    with
    | inl e => inl e
    | inr rows => inr (mkAnswer rows no_counters g)
    end.

(** The row both relationship queries of [get_node_details] return. *)
Definition relationship_row (r : Edge) (other : Node) : Dict :=
  [("relationship_type", PStr (e_type r));
   ("other_name", prop "name" other);
   ("other_labels", PList (map PStr (n_labels other)));
   ("rel_properties", PDict (e_props r))].

(** [MATCH (other)-[r]->(n {name: $name})
     RETURN type(r) as relationship_type, other.name as other_name,
            labels(other) as other_labels, properties(r) as rel_properties] *)
Definition cy_incoming (name : Py) : Cypher :=
  reading (fun g =>
    flat_map (fun r =>
      match node_by_id g (e_src r), node_by_id g (e_dst r) with
      | Some other, Some n =>
          if match_node [] [("name", name)] n then [relationship_row r other]
          else []
      | _, _ => []
      end) (g_edges g)).

(** [MATCH (n {name: $name})-[r]->(other)
     RETURN type(r) as relationship_type, other.name as other_name,
            labels(other) as other_labels, properties(r) as rel_properties] *)
Definition cy_outgoing (name : Py) : Cypher :=
  reading (fun g =>
    flat_map (fun r =>
      match node_by_id g (e_src r), node_by_id g (e_dst r) with
      | Some n, Some other =>
          if match_node [] [("name", name)] n then [relationship_row r other]
          else []
      | _, _ => []
      end) (g_edges g)).

(** The [HAS_PROPERTY] relationships out of node [i] that end in a
    [:Property] node, with that node. *)
Definition properties_of (g : Graph) (i : nat) : list (Edge * Node) :=
  flat_map (fun r =>
    if String.eqb (e_type r) "HAS_PROPERTY" && Nat.eqb (e_src r) i
    then match node_by_id g (e_dst r) with
         | Some p => if has_label "Property" p then [(r, p)] else []
         | None => []
         end
    else []) (g_edges g).

Definition property_row (kind source : Py) (rp : Edge * Node) : Dict :=
  let (r, p) := rp in
  [("property_name", prop "name" p);
   ("property_node", node_py p);
   ("relationship", edge_py r);
   ("inheritance_type", kind);
   ("source_concept", source)].

(** [MATCH (c:label {name: $concept_name})-[r:HAS_PROPERTY]->(p:Property)
     RETURN p.name as property_name, p as property_node, r as relationship,
            'direct' as inheritance_type, c.name as source_concept] *)
Definition cy_direct_properties (label : string) (concept_name : Py) : Cypher :=
  reading (fun g =>
    flat_map (fun c => map (property_row (PStr "direct") (prop "name" c))
                           (properties_of g (n_id c)))
             (named (Some label) concept_name g)).

(** [(a)-[:HAS_PROPERTY]->(b)] *)
Definition has_property (g : Graph) (a b : nat) : bool :=
  existsb (links "HAS_PROPERTY" a b) (g_edges g).

(** [MATCH (c:label {name: $concept_name})-[:SUBCLASS_OF*]->(parent:label)
           -[r:HAS_PROPERTY]->(p:Property)
     WHERE NOT (c)-[:HAS_PROPERTY]->(p)
     RETURN p.name as property_name, p as property_node, r as relationship,
            'inherited' as inheritance_type, parent.name as source_concept
     ORDER BY parent.name] *)
Definition cy_inherited_properties (label : string) (concept_name : Py) : Cypher :=
  reading (fun g =>
    order_by ["source_concept"]
      (flat_map (fun c =>
         flat_map (fun t =>
           match node_by_id g (fst t) with
           | None => []
           | Some parent =>
               if has_label label parent then
                 flat_map (fun rp =>
                   if has_property g (n_id c) (n_id (snd rp)) then []
                   else [property_row (PStr "inherited") (prop "name" parent) rp])
                   (properties_of g (n_id parent))
               else []
           end) (subclass_trails g [] (n_id c)))
         (named (Some label) concept_name g))).

(** [MATCH (sub:L1 {name: $subclass_name})-[:SUBCLASS_OF*]->
           (super:L2 {name: $superclass_name})
     RETURN count( * ) as relationship_exists] *)
Definition cy_subclass_paths (subclass_label : string) (subclass_name : Py)
    (superclass_label : string) (superclass_name : Py) : Cypher :=
  reading (fun g =>
    [[("relationship_exists",
       PNat (length
               (flat_map (fun sub =>
                  filter (fun t =>
                            match node_by_id g (fst t) with
                            | Some super =>
                                match_node [superclass_label]
                                           [("name", superclass_name)] super
                            | None => false
                            end) (subclass_trails g [] (n_id sub)))
                  (named (Some subclass_label) subclass_name g))))]]).

(** [(n)-[:SUBCLASS_OF*0..]->(ancestor)]: the node itself, then the ends of
    the paths out of it. *)
Definition ancestors (g : Graph) (n : Node) : list Node :=
  n :: flat_map (fun t => match node_by_id g (fst t) with
                          | Some a => [a]
                          | None => []
                          end) (subclass_trails g [] (n_id n)).

(** [CASE WHEN ancestor.name = $superclass_name THEN 'direct'
          ELSE 'inherited' END] *)
Definition direct_or_inherited (ancestor : Node) (superclass_name : Py) : Py :=
  if cy_eqb (prop "name" ancestor) superclass_name
  then PStr "direct" else PStr "inherited".

(** [MATCH (super:label {name: $superclass_name})
     MATCH (super)-[:SUBCLASS_OF*0..]->(ancestor)-[r:HAS_PROPERTY]->(p:Property)
     RETURN DISTINCT p.name as property_name, p as property_node,
            r as relationship, ancestor.name as source_concept,
            CASE ... END as inheritance_type
     ORDER BY p.name] *)
Definition cy_superclass_properties (label : string) (superclass_name : Py)
  : Cypher :=
  reading (fun g =>
    order_by ["property_name"]
      (distinct
         (flat_map (fun super =>
            flat_map (fun ancestor =>
              map (fun rp : Edge * Node =>
                     let (r, p) := rp in
                     [("property_name", prop "name" p);
                      ("property_node", node_py p);
                      ("relationship", edge_py r);
                      ("source_concept", prop "name" ancestor);
                      ("inheritance_type",
                       direct_or_inherited ancestor superclass_name)])
                  (properties_of g (n_id ancestor)))
              (ancestors g super))
            (named (Some label) superclass_name g)))).

(** [MATCH (sub:label {name: $subclass_name})
     MATCH (sub)-[:SUBCLASS_OF*0..]->(ancestor)-[:HAS_PROPERTY]->
           (p:Property {name: $prop_name})
     WHERE ancestor.name <> $superclass_name
     RETURN count( * ) as has_override,
            collect(ancestor.name)[0] as override_source]: the names of the
    ancestors other than the superclass that have the property. *)
Definition overriding (g : Graph) (label : string)
    (subclass_name prop_name superclass_name : Py) : list Py :=
  flat_map (fun sub =>
    flat_map (fun ancestor =>
      if cy_neqb (prop "name" ancestor) superclass_name
      then map (fun _ => prop "name" ancestor)
               (filter (fun rp => cy_eqb (prop "name" (snd rp)) prop_name)
                       (properties_of g (n_id ancestor)))
      else [])
      (ancestors g sub))
    (named (Some label) subclass_name g).

Definition cy_override_check (label : string)
    (subclass_name prop_name superclass_name : Py) : Cypher :=
  reading (fun g =>
    let found := overriding g label subclass_name prop_name superclass_name in
    [[("has_override", PNat (length found));
      ("override_source", hd PNone found)]]).

(** [collect(x)[0..5]]: the values that are not [null], the first five. *)
Definition sample (values : list Py) : Py :=
  PList (firstn 5 (filter (fun v => match v with PNone => false | _ => true end)
                          values)).

(** [RETURN count(n) as count, collect(n.name)[0..5] as sample_names]: one
    record, also when nothing has matched. *)
Definition counted (matches : list Node) : list Dict :=
  [[("count", PNat (length matches));
    ("sample_names", sample (map (prop "name") matches))]].

(** [NOT (n)-[]-()] *)
Definition orphaned (g : Graph) (n : Node) : bool :=
  negb (existsb (fun e => Nat.eqb (e_src e) (n_id n) || Nat.eqb (e_dst e) (n_id n))
                (g_edges g)).

Definition orphaned_nodes (g : Graph) : list Node :=
  filter (orphaned g) (g_nodes g).

(** [MATCH (n) WHERE NOT (n)-[]-()
     RETURN count(n) as count, collect(n.name)[0..5] as sample_names] *)
Definition cy_orphaned : Cypher := reading (fun g => counted (orphaned_nodes g)).

(** [(i)-[:INSTANCE_OF]->(:Concept)] *)
Definition typed_instance (g : Graph) (i : Node) : bool :=
  existsb (fun e =>
             String.eqb (e_type e) "INSTANCE_OF" && Nat.eqb (e_src e) (n_id i)
             && match node_by_id g (e_dst e) with
                | Some c => has_label "Concept" c
                | None => false
                end)
          (g_edges g).

Definition untyped_instances (g : Graph) : list Node :=
  filter (fun i => has_label "Instance" i && negb (typed_instance g i))
         (g_nodes g).

(** [MATCH (i:Instance) WHERE NOT (i)-[:INSTANCE_OF]->(:Concept)
     RETURN count(i) as count, collect(i.name)[0..5] as sample_names] *)
Definition cy_untyped_instances : Cypher :=
  reading (fun g => counted (untyped_instances g)).

(** [path = (c)-[:SUBCLASS_OF*2..]->(c)]: the paths of two or more
    [SUBCLASS_OF] relationships from [c] back to [c]. *)
Definition cycles (g : Graph) (c : Node) : list (nat * list nat) :=
  filter (fun t => Nat.eqb (fst t) (n_id c) && Nat.leb 2 (length (snd t)))
         (subclass_trails g [] (n_id c)).

(** The concept of every such path, once for each path. *)
Definition circular_paths (g : Graph) : list Node :=
  flat_map (fun c => map (fun _ => c) (cycles g c))
           (filter (has_label "Concept") (g_nodes g)).

(** [MATCH path = (c:Concept)-[:SUBCLASS_OF*2..]->(c)
     RETURN count(path) as count, collect(c.name)[0..5] as sample_names] *)
Definition cy_circular : Cypher := reading (fun g => counted (circular_paths g)).

(* ================================================================= *)
(** ** The world a method runs in *)

(** What the driver may raise instead of answering: a [ConstraintError], or
    any other exception. *)
Inductive Fault := ConstraintError (msg : string) | OtherError (msg : string).

Definition fault_msg (f : Fault) : string :=
  match f with ConstraintError m => m | OtherError m => m end.

(** [w_faults] is the fate of the coming round trips to the store, one
    entry for each: [Some f] makes that round trip raise [f] and leave the
    graph alone; [None], or no entry, lets it run.  [w_clock] is the wall
    clock, [w_warnings] what [logger.warning] has been given, latest
    last. *)
Record World := mkWorld {
  w_graph : Graph;
  w_faults : list (option Fault);
  w_clock : nat;
  w_warnings : list string }.

Inductive Outcome (A : Type) : Type :=
| Return (a : A)
| Raise (msg : string).
Arguments Return {A} a.
Arguments Raise {A} msg.

Definition M (A : Type) : Type := World -> Outcome A * World.

Definition ret {A} (a : A) : M A := fun w => (Return a, w).

Definition bind {A B} (m : M A) (k : A -> M B) : M B :=
  fun w =>
    match m w with
    | (Return a, w') => k a w'
    | (Raise e, w') => (Raise e, w')
    end.

(** [raise Exception(msg)] *)
Definition raise {A} (msg : string) : M A := fun w => (Raise msg, w).

(** [try: m  except Exception as e: handler(str(e))] *)
Definition try_except {A} (m : M A) (handler : string -> M A) : M A :=
  fun w =>
    match m w with
    | (Return a, w') => (Return a, w')
    | (Raise e, w') => handler e w'
    end.

Declare Scope monad_scope.
Delimit Scope monad_scope with monad.
Notation "x <- m ;; k" := (bind m (fun x => k))
  (at level 61, m at next level, right associativity) : monad_scope.
Notation "m ;;; k" := (bind m (fun _ => k))
  (at level 61, right associativity) : monad_scope.
Open Scope monad_scope.

(** [logger.warning(msg)] *)
Definition warn (msg : string) : M unit :=
  fun w => (Return tt,
            mkWorld (w_graph w) (w_faults w) (w_clock w) (w_warnings w ++ [msg])).

Definition isoformat (t : nat) : string := "t" ++ str_of_nat t.

(** [datetime.now().isoformat()] *)
Definition now : M Py :=
  fun w => (Return (PStr (isoformat (w_clock w))),
            mkWorld (w_graph w) (w_faults w) (S (w_clock w)) (w_warnings w)).

(** [for x in xs: body(x)] *)
Fixpoint for_each {A} (xs : list A) (body : A -> M unit) : M unit :=
  match xs with
  | [] => ret tt
  | x :: xs' => body x ;;; for_each xs' body
  end.

(** A loop that carries an accumulator. *)
Fixpoint fold_m {A S} (xs : list A) (acc : S) (body : S -> A -> M S) : M S :=
  match xs with
  | [] => ret acc
  | x :: xs' => acc' <- body acc x ;; fold_m xs' acc' body
  end.

(** [await session.run(query, parameters)] with the records and the summary
    consumed: one round trip. *)
Definition session_run (q : Cypher) (w : World) : (Fault + Answer) * World :=
  let rest := tl (w_faults w) in
  match hd None (w_faults w) with
  | Some f => (inl f, mkWorld (w_graph w) rest (w_clock w) (w_warnings w))
  | None =>
      match q (w_graph w) with
      | inl e =>
          (inl (OtherError e),
           mkWorld (w_graph w) rest (w_clock w) (w_warnings w))
      | inr a => (inr a, mkWorld (a_graph a) rest (w_clock w) (w_warnings w))
      end
  end.

(* ================================================================= *)
(** ** [Neo4jService] *)

Module Neo4jService.

(** [run_query]: all records, as dictionaries. *)
Definition run_query (q : Cypher) : M (list Dict) :=
  fun w =>
    match session_run q w with
    | (inr a, w') => (Return (a_rows a), w')
    | (inl f, w') => (Raise ("Failed to execute query: " ++ fault_msg f), w')
    end.

(** [result.single()] followed by [if record:]: the first record, or [None]
    when there is none; a record with no field counts as none. *)
Definition first_record (rows : list Dict) : option Dict :=
  match rows with
  | [] => None
  | r :: _ => if Nat.eqb (length r) 0 then None else Some r
  end.

(** [run_query_single] *)
Definition run_query_single (q : Cypher) : M (option Dict) :=
  fun w =>
    match session_run q w with
    | (inr a, w') => (Return (first_record (a_rows a)), w')
    | (inl f, w') =>
        (Raise ("Failed to execute single query: " ++ fault_msg f), w')
    end.

(** [run_query_value]: one value of the single record; the first one when
    no key is given. *)
Definition run_query_value (q : Cypher) (key : option string) : M Py :=
  record <- run_query_single q ;;
  match record with
  | Some r =>
      match key with
      | Some k => if negb (String.eqb k "") then ret (get k r)
                  else ret (match r with (_, v) :: _ => v | [] => PNone end)
      | None => ret (match r with (_, v) :: _ => v | [] => PNone end)
      end
  | None => ret PNone
  end.

Definition counters_dict (c : Counters) : Dict :=
  [("nodes_created", PNat (c_nodes_created c));
   ("nodes_deleted", PNat (c_nodes_deleted c));
   ("relationships_created", PNat (c_relationships_created c));
   ("relationships_deleted", PNat (c_relationships_deleted c));
   ("properties_set", PNat (c_properties_set c));
   ("labels_added", PNat (c_labels_added c));
   ("labels_removed", PNat (c_labels_removed c));
   ("indexes_added", PNat (c_indexes_added c));
   ("indexes_removed", PNat (c_indexes_removed c));
   ("constraints_added", PNat (c_constraints_added c));
   ("constraints_removed", PNat (c_constraints_removed c))].

(** The dictionary of a write that was skipped. *)
Definition skipped (warning : string) : Dict :=
  (("records", PList []) :: counters_dict no_counters
   ++ [("status", PStr "already_exists"); ("warning", PStr warning)])%list.

(** [execute_write]: the records and the counters of the summary; a
    [ConstraintError] that says "already exists" is a skipped write, not an
    error. *)
Definition execute_write (q : Cypher) : M Dict :=
  fun w =>
    match session_run q w with
    | (inr a, w') =>
        (Return (("records", PList (map PDict (a_rows a)))
                 :: counters_dict (a_counters a)), w')
    | (inl (ConstraintError e), w') =>
        if contains "already exists" (lower e)
        then (warn ("⚠️  Node/relationship already exists, skipping creation: " ++ e) ;;;
              ret (skipped ("Item already exists and was skipped: " ++ e))) w'
        else (Raise ("Constraint error: " ++ e), w')
    | (inl (OtherError e), w') =>
        (Raise ("Failed to execute write query: " ++ e), w')
    end.

Definition dict_truthy (d : option Dict) : bool :=
  match d with Some (_ :: _) => true | _ => false end.

(** [create_node]: a node with the label, the additional labels and the
    properties; nothing is looked up first. *)
Definition create_node (label : string) (properties : Dict)
    (additional_labels : option (list string)) : M Dict :=
  let labels := (label :: match additional_labels with
                          | Some l => l
                          | None => []
                          end)%list in
  execute_write (cy_create_node labels properties).

(** The parameters of both patterns in one dictionary, those of the target
    last. *)
Definition merged_params (from_params to_params : option Dict) : Dict :=
  let p1 := if dict_truthy from_params
            then dict_update [] (match from_params with Some d => d | None => [] end)
            else [] in
  if dict_truthy to_params
  then dict_update p1 (match to_params with Some d => d | None => [] end)
  else p1.

(** [create_relationship]: look for a relationship of the type between the
    matched nodes first, and create one only when the look-up finds none. *)
Definition create_relationship (from_node_query to_node_query : NodePattern)
    (relationship_type : string) (properties from_params to_params : option Dict)
  : M Dict :=
  let check_params := merged_params from_params to_params in
  exists_ <- run_query_value
               (cy_relationship_exists from_node_query to_node_query
                  relationship_type check_params)
               (Some "relationship_exists") ;;
  if truthy exists_ then
    warn ("⚠️  Relationship " ++ relationship_type
          ++ " already exists between nodes, skipping creation") ;;;
    ret (skipped ("Relationship " ++ relationship_type
                  ++ " already exists and was skipped"))
  else
    let params := merged_params from_params to_params in
    let params := if dict_truthy properties
                  then dict_set "rel_props"
                         (PDict (match properties with Some d => d | None => [] end))
                         params
                  else params in
    execute_write
      (cy_create_relationship from_node_query to_node_query relationship_type
         (if dict_truthy properties then properties else None) params).

(** [if label:] and [if properties:] of [find_nodes], as the parts of the
    pattern they add: the property [key] is matched with the parameter
    [$prop_key]. *)
Definition label_part (label : option string) : list string :=
  match label with
  | Some l => if String.eqb l "" then [] else [l]
  | None => []
  end.

Definition prop_conditions (properties : option Dict) : list (string * PatVal) :=
  if dict_truthy properties
  then map (fun kv => (fst kv, Param ("prop_" ++ fst kv)))
           (match properties with Some d => d | None => [] end)
  else [].

Definition prop_params (properties : option Dict) : Dict :=
  if dict_truthy properties
  then fold_left (fun params kv => dict_set ("prop_" ++ fst kv) (snd kv) params)
                 (match properties with Some d => d | None => [] end) []
  else [].

(** [if limit:]: no [LIMIT] clause for [None] and for [0]. *)
Definition limit_part (limit : option Z) : option Z :=
  match limit with
  | Some l => if Z.eqb l 0 then None else Some l
  | None => None
  end.

(** [find_nodes] *)
Definition find_nodes (label : option string) (properties : option Dict)
    (limit : option Z) : M (list Dict) :=
  run_query (cy_find_nodes (mkPattern (label_part label) (prop_conditions properties))
                           (limit_part limit) (prop_params properties)).

Definition direction_map : list (string * string) :=
  [("INCOMING", "<-[r"); ("OUTGOING", "-[r"); ("BOTH", "-[r")].

Fixpoint lookup_or (k dflt : string) (m : list (string * string)) : string :=
  match m with
  | [] => dflt
  | (k', v) :: m' => if String.eqb k k' then v else lookup_or k dflt m'
  end.

(** The relationship pattern that a prefix and a suffix spell. *)
Definition arrow_of (direction_prefix direction_suffix : string) : Arrow :=
  if String.eqb direction_prefix "<-[r" then ArrowIn
  else if String.eqb direction_suffix "]->" then ArrowOut
  else ArrowBoth.

(** [f":{relationship_type}" if relationship_type else ""] *)
Definition type_filter (relationship_type : option string) : option string :=
  match relationship_type with
  | Some t => if String.eqb t "" then None else Some t
  | None => None
  end.

(** The pattern [get_node_degree] builds for a direction. *)
Definition direction_arrow (direction : string) : Arrow :=
  let direction_prefix := lookup_or (upper direction) "-[r" direction_map in
  let direction_suffix :=
    if String.eqb (upper direction) "INCOMING" then "]-" else "]->" in
  let direction_suffix :=
    if String.eqb (upper direction) "BOTH" then "]-" else direction_suffix in
  arrow_of direction_prefix direction_suffix.

(** [get_node_degree] *)
Definition get_node_degree (node_query : NodePattern) (direction : string)
    (relationship_type : option string) (params : option Dict) : M Py :=
  result <- run_query_value
              (cy_degree node_query (direction_arrow direction)
                         (type_filter relationship_type)
                         (if dict_truthy params
                          then match params with Some d => d | None => [] end
                          else []))
              (Some "degree") ;;
  ret (if truthy result then result else PInt 0).

(** [clear_database] *)
Definition clear_database : M Dict :=
  warn "Clearing entire Neo4j database - this will delete ALL data!" ;;;
  execute_write cy_clear.

(** [ping]: whether the store answers; never an exception. *)
Definition ping : M bool :=
  try_except
    (result <- run_query_value cy_return_one None ;;
     let success := py_eqb result (PInt 1) in
     (if success then ret tt
      else warn "Neo4j ping returned unexpected result") ;;;
     ret success)
    (fun e => ret false).

(** [was_skipped_due_to_constraint] *)
Definition was_skipped_due_to_constraint (result : Dict) : bool :=
  py_eqb (get "status" result) (PStr "already_exists").

(** [get_warning_message] *)
Definition get_warning_message (result : Dict) : Py := get "warning" result.

End Neo4jService.

(* ================================================================= *)
(** ** [OntologyService] *)

Module OntologyService.
Import Neo4jService.

(** [if label:] on an optional string. *)
Definition given (label : option string) : option string :=
  match label with
  | Some l => if String.eqb l "" then None else Some l
  | None => None
  end.

(** What an f-string makes of an optional string. *)
Definition fmt (label : option string) : string :=
  match label with Some l => l | None => "None" end.

Definition as_list (x : Py) : list Py :=
  match x with PList l => l | _ => [] end.

Definition unhashable {A} (x : Py) : M A :=
  raise ("unhashable type: '" ++ type_name x ++ "'").

(** [set(xs)] and [{f(x) for x in xs}]: every element has to be hashable. *)
Fixpoint py_set (xs : list Py) : M (list Py) :=
  match xs with
  | [] => ret []
  | x :: xs' =>
      if hashable x then s <- py_set xs' ;; ret (x :: s) else unhashable x
  end.

(** [x in s] for a set [s]. *)
Definition in_set (x : Py) (s : list Py) : M bool :=
  if hashable x then ret (py_in x s) else unhashable x.

(** [check_name_exists] *)
Definition check_name_exists (name : Py) (label : option string) : M bool :=
  try_except
    (result <- run_query_value (cy_name_exists (given label) name) (Some "exists") ;;
     ret (truthy result))
    (fun e => raise ("Failed to check if name exists: " ++ e)).

(** [get_existing_node] *)
Definition get_existing_node (name : Py) (label : option string) : M Py :=
  try_except
    (result <- run_query_single (cy_get_node (given label) name) ;;
     ret (match result with Some r => get "n" r | None => PNone end))
    (fun e => raise ("Failed to get existing node: " ++ e)).

(** The loop that keeps the inherited properties whose name no direct
    property has. *)
Fixpoint not_overridden (direct_prop_names : list Py) (inherited_props : list Dict)
  : M (list Dict) :=
  match inherited_props with
  | [] => ret []
  | inherited_prop :: rest =>
      hit <- in_set (get "property_name" inherited_prop) direct_prop_names ;;
      kept <- not_overridden direct_prop_names rest ;;
      ret (if hit then kept else inherited_prop :: kept)
  end.

(** [get_required_properties_for_concept] *)
Definition get_required_properties_for_concept (concept_name concept_label : string)
    (include_inherited : bool) : M (list Dict) :=
  try_except
    (direct_props <- run_query (cy_direct_required concept_label (PStr concept_name)) ;;
     if include_inherited then
       inherited_props <-
         run_query (cy_inherited_required concept_label (PStr concept_name)) ;;
       direct_prop_names <- py_set (map (get "property_name") direct_props) ;;
       kept <- not_overridden direct_prop_names inherited_props ;;
       ret (direct_props ++ kept)%list
     else ret direct_props)
    (fun e => raise ("Failed to get required properties: " ++ e)).

(** The [prop_info] dictionary of a required property that is missing. *)
Definition prop_info (req_prop : Dict) : Dict :=
  [("name", get "property_name" req_prop);
   ("type", get_or "property_type" (PStr "Unknown") req_prop);
   ("range", get_or "range_type" (PStr "Unknown") req_prop);
   ("comment", get_or "comment" (PStr "") req_prop);
   ("tag", get_or "tag" (PStr "") req_prop);
   ("inheritance_type", get_or "inheritance_type" (PStr "unknown") req_prop);
   ("source_concept", get_or "source_concept" (PStr "unknown") req_prop);
   ("default_value", get "default_value" req_prop)].

(** The loop over the required properties: those whose name is not among
    the provided names, in order. *)
Fixpoint missing_of (provided_prop_names : list Py) (required_props : list Dict)
  : M (list Dict) :=
  match required_props with
  | [] => ret []
  | req_prop :: rest =>
      hit <- in_set (get "property_name" req_prop) provided_prop_names ;;
      more <- missing_of provided_prop_names rest ;;
      ret (if hit then more else prop_info req_prop :: more)
  end.

Definition of_kind (kind : string) (p : Dict) : bool :=
  py_eqb (get "inheritance_type" p) (PStr kind).

Definition default_info (prop : Dict) : string :=
  match get "default_value" prop with
  | PNone => ""
  | v => " [default: " ++ py_str v ++ "]"
  end.

Definition direct_line (prop : Dict) : string :=
  "  • " ++ py_str (get "name" prop) ++ " (" ++ py_str (get "type" prop) ++ ")"
  ++ default_info prop ++ " - " ++ py_str (get "comment" prop) ++ nl.

Definition inherited_line (prop : Dict) : string :=
  "  • " ++ py_str (get "name" prop) ++ " (" ++ py_str (get "type" prop) ++ ")"
  ++ default_info prop ++ " - from '" ++ py_str (get "source_concept" prop)
  ++ "' - " ++ py_str (get "comment" prop) ++ nl.

(** The message of the exception that reports the missing properties. *)
Definition missing_message (concept_label concept_name : string)
    (missing_direct missing_inherited : list Dict)
    (total direct_count inherited_count provided missing : nat) : string :=
  "❌ Missing required properties for " ++ concept_label ++ " '" ++ concept_name
  ++ "':" ++ nl
  ++ (match missing_direct with
      | [] => ""
      | _ => nl ++ "🔴 Missing Direct Properties ("
             ++ str_of_nat (length missing_direct) ++ "):" ++ nl
             ++ String.concat "" (map direct_line missing_direct)
      end)
  ++ (match missing_inherited with
      | [] => ""
      | _ => nl ++ "🟠 Missing Inherited Properties ("
             ++ str_of_nat (length missing_inherited) ++ "):" ++ nl
             ++ String.concat "" (map inherited_line missing_inherited)
      end)
  ++ nl ++ "📊 Summary:"
  ++ nl ++ "  • Required: " ++ str_of_nat total ++ " total ("
  ++ str_of_nat direct_count ++ " direct + " ++ str_of_nat inherited_count
  ++ " inherited)"
  ++ nl ++ "  • Provided: " ++ str_of_nat provided ++ " properties"
  ++ nl ++ "  • Missing: " ++ str_of_nat missing ++ " properties".

Fixpoint nodup_str (l : list string) : list string :=
  match l with
  | [] => []
  | x :: l' => x :: filter (fun y => negb (String.eqb x y)) (nodup_str l')
  end.

(** [validate_instance_properties] *)
Definition validate_instance_properties (concept_name : string)
    (provided_properties : Dict) (concept_label : string)
    (include_inherited : bool) : M Dict :=
  try_except
    (required_props <-
       get_required_properties_for_concept concept_name concept_label
         include_inherited ;;
     let provided_prop_names := nodup_str (keys provided_properties) in
     missing_props <- missing_of (map PStr provided_prop_names) required_props ;;
     let missing_direct := filter (of_kind "direct") missing_props in
     let missing_inherited := filter (of_kind "inherited") missing_props in
     let direct_count := length (filter (of_kind "direct") required_props) in
     let inherited_count := length (filter (of_kind "inherited") required_props) in
     let validation_result :=
       [("valid", PBool (Nat.eqb (length missing_props) 0));
        ("total_required", PNat (length required_props));
        ("direct_required", PNat direct_count);
        ("inherited_required", PNat inherited_count);
        ("provided_count", PNat (length provided_prop_names));
        ("missing_properties", PList (map PDict missing_props));
        ("missing_direct", PList (map PDict missing_direct));
        ("missing_inherited", PList (map PDict missing_inherited));
        ("required_properties", PList (map PDict required_props));
        ("inheritance_enabled", PBool include_inherited)] in
     if negb (truthy (get "valid" validation_result)) then
       raise (missing_message concept_label concept_name
                missing_direct missing_inherited
                (length required_props) direct_count inherited_count
                (length provided_prop_names) (length missing_props))
     else ret validation_result)
    (fun e =>
       if contains "Missing required properties" e then raise e
       else raise ("Failed to validate instance properties: " ++ e)).

(** [find_nodes_by_name] *)
Definition find_nodes_by_name (name : string) : M (list Dict) :=
  try_except
    (run_query (cy_find_by_name (PStr name)))
    (fun e => raise ("Failed to find nodes by name: " ++ e)).

(** The first loop of [_identify_property_types]:
    [property_types[prop_name] = prop_type] for each row that has a name. *)
Definition types_of_rows (result : list Dict) : Dict :=
  fold_left (fun property_types row =>
               let prop_name := get "property_name" row in
               let prop_type := get_or "property_type" (PStr "DataProperty") row in
               if truthy prop_name
               then dict_set (py_str prop_name) prop_type property_types
               else property_types)
            result [].

Definition not_found_warning (prop_name : string) : string :=
  "Property '" ++ prop_name ++ "' not found in graph, defaulting to DataProperty".

(** The body of its second loop: a name without a type becomes a
    DataProperty, with a warning. *)
Definition default_to_data (property_types : Dict) (prop_name : string) : M Dict :=
  if negb (has_key prop_name property_types) then
    warn (not_found_warning prop_name) ;;;
    ret (dict_set prop_name (PStr "DataProperty") property_types)
  else ret property_types.

(** [{name: "DataProperty" for name in property_names}] *)
Definition all_data (property_names : list string) : Dict :=
  fold_left (fun acc name => dict_set name (PStr "DataProperty") acc)
            property_names [].

(** [_identify_property_types] *)
Definition _identify_property_types (property_names : list string) : M Dict :=
  try_except
    (match property_names with
     | [] => ret []
     | _ =>
         result <- run_query (cy_property_types (map PStr property_names)) ;;
         fold_m property_names (types_of_rows result) default_to_data
     end)
    (fun e => ret (all_data property_names)).

Section Service.

(** [self.labels_to_constrain], by default
    [["Concept", "Instance", "Property", "Class", "Individual"]]. *)
Variable labels_to_constrain : list string.

Definition conflict_message (domain_name : string) (nodes : list Dict) : string :=
  "❌ Multiple nodes found with name '" ++ domain_name ++ "':" ++ nl
  ++ String.concat nl
       (map (fun node =>
               "  • " ++ String.concat ", " (map py_str (as_list (get "labels" node))))
            nodes)
  ++ nl ++ nl ++ "💡 Please specify 'domain_label' parameter to disambiguate.".

(** The label of the single node found: the first priority label the node
    has, else the node's first label, else ["Node"]. *)
Definition primary_label_of (node_labels : list Py) : string :=
  let fallback := match node_labels with
                  | l :: _ => py_str l
                  | [] => "Node"
                  end in
  match find (fun priority_label => py_in (PStr priority_label) node_labels)
             labels_to_constrain with
  | Some l => if String.eqb l "" then fallback else l
  | None => fallback
  end.

(** [auto_detect_domain_label] *)
Definition auto_detect_domain_label (domain_name : string) : M string :=
  try_except
    (nodes <- find_nodes_by_name domain_name ;;
     match nodes with
     | [] => raise ("❌ Domain '" ++ domain_name ++ "' does not exist in the graph")
     | [node] => ret (primary_label_of (as_list (get "labels" node)))
     | _ => raise (conflict_message domain_name nodes)
     end)
    (fun e =>
       if contains "Multiple nodes found" e || contains "does not exist" e
       then raise e
       else raise ("Failed to auto-detect domain label: " ++ e)).

(* ----------------------------------------------------------------- *)
(** *** Writing nodes *)

(** [_add_common_properties] *)
Definition _add_common_properties (properties : Dict) : M Dict :=
  let properties := if negb (has_key "comment" properties)
                    then dict_set "comment" (PStr "") properties
                    else properties in
  let properties := if negb (has_key "tag" properties)
                    then dict_set "tag" (PStr "") properties
                    else properties in
  created_at <- now ;;
  ret (dict_set "created_at" created_at properties).

Definition list_truthy {A} (l : option (list A)) : list A :=
  match l with Some l => l | None => [] end.

(** [_create_node_with_merge] *)
Definition _create_node_with_merge (label name : string) (properties : Dict)
    (additional_labels : option (list string)) : M Dict :=
  try_except
    (let labels_list := (label :: list_truthy additional_labels)%list in
     execute_write (cy_merge_node labels_list (PStr name) properties))
    (fun e => raise e).

(** [_update_node] *)
Definition _update_node (name label : string) (properties : Dict) : M Dict :=
  try_except
    (updated_at <- now ;;
     let properties := dict_set "updated_at" updated_at properties in
     let params := dict_update [("name", PStr name)] properties in
     result <- execute_write (cy_set_node label params (keys properties)) ;;
     ret [("records", get_or "records" (PList []) result);
          ("nodes_created", PInt 0);
          ("nodes_updated", PInt 1);
          ("properties_set", PNat (length properties));
          ("status", PStr "updated")])
    (fun e => raise e).

(** [_rename_node] *)
Definition _rename_node (old_name label new_name : string) : M Dict :=
  try_except
    (if String.eqb old_name new_name then
       ret [("records", PList []);
            ("nodes_created", PInt 0);
            ("nodes_updated", PInt 0);
            ("properties_set", PInt 0);
            ("status", PStr "no_op")]
     else
       existing <- get_existing_node (PStr old_name) (Some label) ;;
       if negb (truthy existing) then
         raise ("Node '" ++ old_name ++ "' with label '" ++ label
                ++ "' not found for rename")
       else
         conflict <- check_name_exists (PStr new_name) (Some label) ;;
         if conflict then
           raise ("Target name '" ++ new_name ++ "' already exists for label '"
                  ++ label ++ "'")
         else
           updated_at <- now ;;
           result <- execute_write
                       (cy_rename_node label (PStr old_name) (PStr new_name)
                          updated_at) ;;
           ret [("records", get_or "records" (PList []) result);
                ("nodes_created", PInt 0);
                ("nodes_updated", PInt 1);
                ("properties_set", PInt 1);
                ("status", PStr "renamed")])
    (fun e => raise e).

(* ----------------------------------------------------------------- *)
(** *** ObjectProperty helpers *)

(** A value of an ObjectProperty is one target or a list of targets. *)
Definition target_names (target_value : Py) : list Py :=
  match target_value with
  | PList l => l
  | v => [v]
  end.

(** Every target of every property, in the order the loops visit them. *)
Definition all_targets (object_properties : Dict) : list (string * Py) :=
  flat_map (fun kv => map (fun t => (fst kv, t)) (target_names (snd kv)))
           object_properties.

Definition missing_target_line (missing : string * Py) : string :=
  "  • Property '" ++ fst missing ++ "' targets '" ++ py_str (snd missing)
  ++ "' (Instance not found)" ++ nl.

Definition missing_targets_message (missing_targets : list (string * Py)) : string :=
  "❌ ObjectProperty validation failed. Missing target instances:" ++ nl
  ++ String.concat "" (map missing_target_line missing_targets)
  ++ nl ++ "💡 Please create these Instance nodes before creating relationships to them.".

(** [_validate_object_property_targets] *)
Definition _validate_object_property_targets (object_properties : Dict) : M unit :=
  try_except
    (missing_targets <-
       fold_m (all_targets object_properties) []
         (fun missing_targets pt =>
            target_exists <- check_name_exists (snd pt) (Some "Instance") ;;
            if negb target_exists then
              warn ("ObjectProperty target not found: " ++ fst pt ++ " -> "
                    ++ py_str (snd pt)) ;;;
              ret (missing_targets ++ [pt])%list
            else ret missing_targets) ;;
     match missing_targets with
     | [] => ret tt
     | _ => raise (missing_targets_message missing_targets)
     end)
    (fun e =>
       if contains "ObjectProperty validation failed" e then raise e
       else raise ("Failed to validate ObjectProperty targets: " ++ e)).

(** [prop_name.upper().replace(" ", "_").replace("-", "_")] *)
Definition rel_type_of (prop_name : string) : string :=
  replace_char "-" "_" (replace_char " " "_" (upper prop_name)).

(** [_create_object_property_relationships]: one relationship for each
    target; a target that fails is recorded and the loop goes on. *)
Definition _create_object_property_relationships (instance_name : string)
    (object_properties : Dict) : M (list Dict) :=
  try_except
    (fold_m (all_targets object_properties) []
       (fun results pt =>
          let prop_name := fst pt in
          let target_name := snd pt in
          r <- try_except
                 (created_at <- now ;;
                  let rel_properties :=
                    [("property_name", PStr prop_name);
                     ("property_type", PStr "ObjectProperty");
                     ("created_at", created_at)] in
                  let rel_type := rel_type_of prop_name in
                  relationship_result <-
                    create_relationship
                      (mkPattern ["Instance"] [("name", Param "from_instance")])
                      (mkPattern ["Instance"] [("name", Param "to_instance")])
                      rel_type (Some rel_properties)
                      (Some [("from_instance", PStr instance_name)])
                      (Some [("to_instance", target_name)]) ;;
                  if was_skipped_due_to_constraint relationship_result then
                    ret [("property", PStr prop_name);
                         ("target", target_name);
                         ("relationship_type", PStr rel_type);
                         ("success", PBool true);
                         ("status", PStr "already_exists");
                         ("relationships_created", PInt 0);
                         ("warning", get_warning_message relationship_result)]
                  else
                    ret [("property", PStr prop_name);
                         ("target", target_name);
                         ("relationship_type", PStr rel_type);
                         ("success", PBool true);
                         ("status", PStr "created");
                         ("relationships_created",
                          get_or "relationships_created" (PInt 1)
                                 relationship_result)])
                 (fun rel_error =>
                    ret [("property", PStr prop_name);
                         ("target", target_name);
                         ("relationship_type", PStr (rel_type_of prop_name));
                         ("success", PBool false);
                         ("error", PStr rel_error);
                         ("relationships_created", PInt 0)]) ;;
          ret (results ++ [r])%list))
    (fun e => raise ("Failed to create ObjectProperty relationships: " ++ e)).

(** [_replace_object_property_relationships]: the relationships of each
    property in the call are deleted first, then created anew. *)
Definition _replace_object_property_relationships (instance_name : string)
    (object_properties : Dict) : M (list Dict) :=
  try_except
    (for_each object_properties (fun kv =>
       run_query (cy_delete_relationships (PStr instance_name)
                                          (rel_type_of (fst kv))) ;;;
       ret tt) ;;;
     created <- _create_object_property_relationships instance_name
                  object_properties ;;
     ret created)
    (fun e => raise ("Failed to replace ObjectProperty relationships: " ++ e)).

(* ----------------------------------------------------------------- *)
(** *** Instances *)

Definition nonempty (d : Dict) : bool := negb (Nat.eqb (length d) 0).

(** [dict(node)]: the properties of a node. *)
Definition node_dict (x : Py) : Dict :=
  match x with
  | PNode _ _ props => props
  | PDict d => d
  | _ => []
  end.

(** [{k: v for k, v in properties.items() if k != "name"}] *)
Definition without_name (properties : Dict) : Dict :=
  filter (fun kv => negb (String.eqb (fst kv) "name")) properties.

(** The loop that puts every property but [name] in the bucket of its type;
    the pair is [(data_properties, object_properties)]. *)
Definition split_properties (property_types properties : Dict) : Dict * Dict :=
  fold_left (fun buckets kv =>
               let prop_name := fst kv in
               let prop_value := snd kv in
               if String.eqb prop_name "name" then buckets
               else
                 let prop_type :=
                   get_or prop_name (PStr "DataProperty") property_types in
                 if py_eqb prop_type (PStr "ObjectProperty")
                 then (fst buckets, dict_set prop_name prop_value (snd buckets))
                 else (dict_set prop_name prop_value (fst buckets), snd buckets))
            properties ([], []).

(** [requested_new_name and requested_new_name != instance_name] *)
Definition rename_requested (requested_new_name : option string)
    (instance_name : string) : bool :=
  match requested_new_name with
  | Some r => negb (String.eqb r "") && negb (String.eqb r instance_name)
  | None => false
  end.

Definition succeeded (r : Dict) : bool := truthy (get_or "success" (PBool false) r).

(** [create_instance_node] is one long method; its steps are given here one
    by one, in the order of the source, and put together below. *)

(** [requested_new_name]: the [name] among the properties, when it is a
    string. *)
Definition requested_name (properties : option Dict) : option string :=
  if dict_truthy properties
  then match dict_get "name" (match properties with Some d => d | None => [] end) with
       | Some (PStr s) => Some s
       | _ => None
       end
  else None.

(** "Validate that concept exists if auto-relationship is enabled": the
    label of the concept is detected when none is given, and the concept has
    to exist under it.  The result is [concept_label] as the rest of the
    method sees it. *)
Definition resolve_concept (instance_name concept_type : string)
    (concept_label : option string) (auto_create_relationship : bool)
  : M (option string) :=
  if auto_create_relationship then
    label <- match given concept_label with
             | Some l => ret l
             | None => auto_detect_domain_label concept_type
             end ;;
    concept_node <- get_existing_node (PStr concept_type) (Some label) ;;
    if negb (truthy concept_node) then
      raise ("❌ Concept '" ++ concept_type ++ "' with label '" ++ label
             ++ "' does not exist in the graph. Cannot create instance '"
             ++ instance_name ++ "' for non-existent concept.")
    else ret (Some label)
  else ret concept_label.

(** "Separate properties into DataProperties and ObjectProperties" *)
Definition classify_properties (properties : option Dict) : M (Dict * Dict) :=
  if dict_truthy properties then
    let props := match properties with Some d => d | None => [] end in
    property_types <-
      _identify_property_types
        (filter (fun p => negb (String.eqb p "name")) (keys props)) ;;
    ret (split_properties property_types props)
  else ret ([], []).

(** "Validate required properties if validation is enabled" *)
Definition check_required_properties (validate_required_properties : bool)
    (concept_type : string) (properties : option Dict)
    (concept_label : option string) : M unit :=
  if validate_required_properties && dict_truthy properties then
    validate_instance_properties concept_type
      (without_name (match properties with Some d => d | None => [] end))
      (fmt concept_label) true ;;; ret tt
  else if validate_required_properties then
    validate_instance_properties concept_type [] (fmt concept_label) true ;;;
    ret tt
  else ret tt.

(** "Validate ObjectProperty targets exist if auto-creation is enabled" *)
Definition check_object_property_targets
    (auto_create_object_property_relationships : bool)
    (object_properties : Dict) : M unit :=
  if auto_create_object_property_relationships && nonempty object_properties
  then _validate_object_property_targets object_properties
  else ret tt.

(** The branch [if existing_node:]. *)
Definition existing_instance (existing_node : Py)
    (instance_name concept_type : string) (properties : option Dict)
    (allow_update validate_required_properties : bool)
    (concept_label : option string)
    (auto_create_object_property_relationships : bool)
    (data_properties object_properties : Dict) : M Dict :=
  let requested_new_name := requested_name properties in
  if allow_update && dict_truthy properties then
    (if validate_required_properties then
       validate_instance_properties concept_type
         (dict_update (node_dict existing_node)
            (without_name (match properties with Some d => d | None => [] end)))
         (fmt concept_label) true ;;; ret tt
     else ret tt) ;;;
    instance_name <-
      (if rename_requested requested_new_name instance_name then
         _rename_node instance_name "Instance"
           (match requested_new_name with Some r => r | None => "" end) ;;;
         ret (match requested_new_name with Some r => r | None => "" end)
       else ret instance_name) ;;
    update_result <- _update_node instance_name "Instance" data_properties ;;
    if auto_create_object_property_relationships && nonempty object_properties
    then
      obj_rel_results <-
        _replace_object_property_relationships instance_name object_properties ;;
      ret (dict_set "object_property_relationships"
             (PList (map PDict obj_rel_results)) update_result)
    else ret update_result
  else
    if rename_requested requested_new_name instance_name then
      raise "Rename requested but allow_update is False"
    else
      ret [("records", PList [PDict [("n", existing_node)]]);
           ("nodes_created", PInt 0);
           ("nodes_updated", PInt 0);
           ("properties_set", PInt 0);
           ("status", PStr "already_exists");
           ("auto_relationship_created", PBool false)].

(** The rest of the method, when no such instance exists: the node is
    created, then the classification edge and the ObjectProperty edges,
    these two on a best-effort basis. *)
Definition new_instance (instance_name concept_type : string)
    (properties : option Dict) (additional_labels : option (list string))
    (concept_label : option string)
    (auto_create_relationship auto_create_object_property_relationships : bool)
    (data_properties object_properties : Dict) : M Dict :=
  let final_instance_name :=
    match requested_name properties with
    | Some r => if String.eqb r "" then instance_name else r
    | None => instance_name
    end in
  let node_properties :=
    [("name", PStr final_instance_name); ("instance_of", PStr concept_type)] in
  let node_properties :=
    if nonempty data_properties
    then dict_update node_properties data_properties
    else node_properties in
  node_properties <- _add_common_properties node_properties ;;
  result <- _create_node_with_merge "Instance" final_instance_name
              node_properties additional_labels ;;
  result <-
    (if auto_create_relationship then
       try_except
         (created_at <- now ;;
          relationship_result <-
            create_relationship
              (mkPattern ["Instance"] [("name", Param "instance_name")])
              (mkPattern [fmt concept_label] [("name", Param "concept_name")])
              "IS_INSTANCE_OF"
              (Some [("created_at", created_at)])
              (Some [("instance_name", PStr final_instance_name)])
              (Some [("concept_name", PStr concept_type)]) ;;
          ret (dict_set "relationships_created"
                 (get_or "relationships_created" (PInt 0) relationship_result)
                 (dict_set "auto_relationship_created" (PBool true) result)))
         (fun rel_error =>
            warn ("⚠️ Instance '" ++ final_instance_name
                  ++ "' created but failed to create IS_INSTANCE_OF relationship: "
                  ++ rel_error) ;;;
            ret (dict_set "relationship_error" (PStr rel_error)
                   (dict_set "auto_relationship_created" (PBool false) result)))
     else ret (dict_set "auto_relationship_created" (PBool false) result)) ;;
  result <-
    (if auto_create_object_property_relationships && nonempty object_properties
     then
       try_except
         (obj_rel_results <-
            _create_object_property_relationships final_instance_name
              object_properties ;;
          let result :=
            dict_set "object_property_relationships"
              (PList (map PDict obj_rel_results)) result in
          let result :=
            dict_set "object_properties_created"
              (PNat (length (filter succeeded obj_rel_results))) result in
          let result :=
            dict_set "object_properties_failed"
              (PNat (length (filter (fun r => negb (succeeded r))
                                    obj_rel_results))) result in
          let total_obj_rels :=
            list_sum (map (get_nat "relationships_created")
                          (filter succeeded obj_rel_results)) in
          ret (dict_set "relationships_created"
                 (PNat (get_nat "relationships_created" result + total_obj_rels))
                 result))
         (fun obj_error =>
            warn ("⚠️ Instance '" ++ instance_name
                  ++ "' created but failed to create ObjectProperty relationships: "
                  ++ obj_error) ;;;
            ret (dict_set "object_properties_failed"
                   (PNat (length object_properties))
                   (dict_set "object_properties_created" (PInt 0)
                      (dict_set "object_property_error" (PStr obj_error)
                         result))))
     else
       ret (dict_set "object_properties_failed" (PInt 0)
              (dict_set "object_properties_created" (PInt 0) result))) ;;
  let operations :=
    1 + (if truthy (get_or "auto_relationship_created" (PBool false) result)
         then 1 else 0)
    + get_nat "object_properties_created" result in
  ret (dict_set "total_operations" (PNat operations) result).

(** [create_instance_node] *)
Definition create_instance_node (instance_name concept_type : string)
    (properties : option Dict) (additional_labels : option (list string))
    (allow_update validate_required_properties : bool)
    (concept_label : option string)
    (auto_create_relationship auto_create_object_property_relationships : bool)
  : M Dict :=
  try_except
    (concept_label <-
       resolve_concept instance_name concept_type concept_label
         auto_create_relationship ;;
     buckets <- classify_properties properties ;;
     let data_properties := fst buckets in
     let object_properties := snd buckets in
     check_required_properties validate_required_properties concept_type
       properties concept_label ;;;
     check_object_property_targets auto_create_object_property_relationships
       object_properties ;;;
     existing_node <- get_existing_node (PStr instance_name) (Some "Instance") ;;
     if truthy existing_node then
       existing_instance existing_node instance_name concept_type properties
         allow_update validate_required_properties concept_label
         auto_create_object_property_relationships
         data_properties object_properties
     else
       new_instance instance_name concept_type properties additional_labels
         concept_label auto_create_relationship
         auto_create_object_property_relationships
         data_properties object_properties)
    (fun e => raise ("Failed to create instance node: " ++ e)).

(* ----------------------------------------------------------------- *)
(** *** Concepts and custom nodes *)

(** [{"name": name}], updated with the properties of the call when there
    are any. *)
Definition named_properties (name : string) (properties : option Dict) : Dict :=
  let node_properties := [("name", PStr name)] in
  if dict_truthy properties
  then dict_update node_properties
         (match properties with Some d => d | None => [] end)
  else node_properties.

(** [create_concept_node] *)
Definition create_concept_node (concept_name : string) (properties : option Dict)
    (additional_labels : option (list string)) (allow_update : bool) : M Dict :=
  try_except
    (existing_node <- get_existing_node (PStr concept_name) (Some "Concept") ;;
     if truthy existing_node then
       if allow_update && dict_truthy properties then
         _update_node concept_name "Concept"
           (match properties with Some d => d | None => [] end)
       else
         ret [("records", PList [PDict [("n", existing_node)]]);
              ("nodes_created", PInt 0);
              ("nodes_updated", PInt 0);
              ("properties_set", PInt 0);
              ("status", PStr "already_exists")]
     else
       node_properties <-
         _add_common_properties (named_properties concept_name properties) ;;
       result <- _create_node_with_merge "Concept" concept_name node_properties
                   additional_labels ;;
       ret result)
    (fun e => raise ("Failed to create concept node: " ++ e)).

(** [create_custom_node] *)
Definition create_custom_node (label name : string) (properties : option Dict)
    (additional_labels : option (list string)) : M Dict :=
  try_except
    (node_properties <-
       _add_common_properties (named_properties name properties) ;;
     result <- create_node label node_properties additional_labels ;;
     ret result)
    (fun e => raise ("Failed to create custom node: " ++ e)).

(* ----------------------------------------------------------------- *)
(** *** Relationships *)

(** [rel_properties = properties or {}] *)
Definition or_empty (properties : option Dict) : Dict :=
  if dict_truthy properties
  then match properties with Some d => d | None => [] end
  else [].

(** [create_subclass_relationship] *)
Definition create_subclass_relationship (subclass_name superclass_name : string)
    (properties : option Dict) (subclass_label superclass_label : string)
  : M Dict :=
  try_except
    (let rel_properties := or_empty properties in
     created_at <- now ;;
     let rel_properties := dict_set "created_at" created_at rel_properties in
     result <- create_relationship
                 (mkPattern [subclass_label] [("name", Param "subclass_name")])
                 (mkPattern [superclass_label] [("name", Param "superclass_name")])
                 "SUBCLASS_OF" (Some rel_properties)
                 (Some [("subclass_name", PStr subclass_name)])
                 (Some [("superclass_name", PStr superclass_name)]) ;;
     ret result)
    (fun e => raise ("Failed to create subclass relationship: " ++ e)).

(** [create_instance_relationship] *)
Definition create_instance_relationship (instance_name concept_name : string)
    (properties : option Dict) (instance_label concept_label : string) : M Dict :=
  try_except
    (let rel_properties := or_empty properties in
     created_at <- now ;;
     let rel_properties := dict_set "created_at" created_at rel_properties in
     result <- create_relationship
                 (mkPattern [instance_label] [("name", Param "instance_name")])
                 (mkPattern [concept_label] [("name", Param "concept_name")])
                 "INSTANCE_OF" (Some rel_properties)
                 (Some [("instance_name", PStr instance_name)])
                 (Some [("concept_name", PStr concept_name)]) ;;
     ret result)
    (fun e => raise ("Failed to create instance relationship: " ++ e)).

(** [create_property_relationship] *)
Definition create_property_relationship
    (subject_name property_name object_name subject_label object_label : string)
    (properties : option Dict) : M Dict :=
  try_except
    (let rel_properties := or_empty properties in
     let rel_properties := dict_set "property" (PStr property_name) rel_properties in
     created_at <- now ;;
     let rel_properties := dict_set "created_at" created_at rel_properties in
     let rel_type := rel_type_of property_name in
     result <- create_relationship
                 (mkPattern [subject_label] [("name", Param "subject_name")])
                 (mkPattern [object_label] [("name", Param "object_name")])
                 rel_type (Some rel_properties)
                 (Some [("subject_name", PStr subject_name)])
                 (Some [("object_name", PStr object_name)]) ;;
     ret result)
    (fun e => raise ("Failed to create property relationship: " ++ e)).

(** [create_custom_relationship] *)
Definition create_custom_relationship
    (from_node_name to_node_name relationship_type from_label to_label : string)
    (properties : option Dict) : M Dict :=
  try_except
    (let rel_properties := or_empty properties in
     created_at <- now ;;
     let rel_properties := dict_set "created_at" created_at rel_properties in
     result <- create_relationship
                 (mkPattern [from_label] [("name", Param "from_name")])
                 (mkPattern [to_label] [("name", Param "to_name")])
                 relationship_type (Some rel_properties)
                 (Some [("from_name", PStr from_node_name)])
                 (Some [("to_name", PStr to_node_name)]) ;;
     ret result)
    (fun e => raise ("Failed to create custom relationship: " ++ e)).

(* ----------------------------------------------------------------- *)
(** *** Properties of concepts *)

(** [if not concept_label: concept_label = await
    self.auto_detect_domain_label(concept_name)] *)
Definition label_or_detect (concept_label : option string) (concept_name : string)
  : M string :=
  match given concept_label with
  | Some l => ret l
  | None => auto_detect_domain_label concept_name
  end.

(** [assign_property_to_concept] *)
Definition assign_property_to_concept (concept_name property_name : string)
    (required default_value : Py) (constraints : option Dict)
    (concept_label : option string) : M Dict :=
  try_except
    (concept_label <- label_or_detect concept_label concept_name ;;
     let rel_properties :=
       [("required", required); ("assignment_type", PStr "direct")] in
     let rel_properties :=
       match default_value with
       | PNone => rel_properties
       | v => dict_set "default_value" v rel_properties
       end in
     let rel_properties :=
       if dict_truthy constraints
       then dict_update rel_properties
              (match constraints with Some d => d | None => [] end)
       else rel_properties in
     created_at <- now ;;
     let rel_properties := dict_set "created_at" created_at rel_properties in
     result <- create_relationship
                 (mkPattern [concept_label] [("name", Param "concept_name")])
                 (mkPattern ["Property"] [("name", Param "property_name")])
                 "HAS_PROPERTY" (Some rel_properties)
                 (Some [("concept_name", PStr concept_name)])
                 (Some [("property_name", PStr property_name)]) ;;
     ret result)
    (fun e => raise ("Failed to assign property to concept: " ++ e)).

(** [if domain:] and the like on an optional string. *)
Definition has (x : option string) : bool :=
  match given x with Some _ => true | None => false end.

Definition str_or_empty (x : option string) : string :=
  match x with Some s => s | None => "" end.

(** [create_property_node] *)
Definition create_property_node (property_name property_type : string)
    (domain range_type : option string) (properties : option Dict)
    (auto_create_relationship : bool) (domain_label : option string) : M Dict :=
  try_except
    (domain_label <-
       (if has domain && negb (has domain_label) then
          detected <- auto_detect_domain_label (str_or_empty domain) ;;
          ret (Some detected)
        else ret domain_label) ;;
     (if has domain && auto_create_relationship then
        domain_node <- get_existing_node (PStr (str_or_empty domain)) domain_label ;;
        if negb (truthy domain_node) then
          raise ("❌ Domain '" ++ str_or_empty domain ++ "' with label '"
                 ++ fmt domain_label
                 ++ "' does not exist in the graph. Cannot create property '"
                 ++ property_name ++ "' with non-existent domain.")
        else ret tt
      else ret tt) ;;;
     let node_properties :=
       [("name", PStr property_name); ("property_type", PStr property_type)] in
     let node_properties :=
       if has domain
       then dict_set "domain" (PStr (str_or_empty domain)) node_properties
       else node_properties in
     let node_properties :=
       if has range_type
       then dict_set "range" (PStr (str_or_empty range_type)) node_properties
       else node_properties in
     let node_properties :=
       if dict_truthy properties
       then dict_update node_properties
              (match properties with Some d => d | None => [] end)
       else node_properties in
     node_properties <- _add_common_properties node_properties ;;
     result <- create_node "Property" node_properties
                 (if negb (String.eqb property_type "Property")
                  then Some [property_type] else None) ;;
     if has domain && auto_create_relationship then
       try_except
         (let required := get_or "required" (PBool false) node_properties in
          let default_value := get "default_value" node_properties in
          relationship_result <-
            assign_property_to_concept (str_or_empty domain) property_name
              required default_value None domain_label ;;
          ret (dict_set "total_operations" (PInt 2)
                 (dict_set "relationships_created"
                    (get_or "relationships_created" (PInt 0) relationship_result)
                    (dict_set "auto_relationship_created" (PBool true) result))))
         (fun rel_error =>
            warn ("⚠️ Property '" ++ property_name
                  ++ "' created but failed to create HAS_PROPERTY relationship: "
                  ++ rel_error) ;;;
            ret (dict_set "relationship_error" (PStr rel_error)
                   (dict_set "auto_relationship_created" (PBool false) result)))
     else
       ret (dict_set "total_operations" (PInt 1)
              (dict_set "auto_relationship_created" (PBool false) result)))
    (fun e => raise ("Failed to create property node: " ++ e)).

(** [get_concept_properties] *)
Definition get_concept_properties (concept_name : string)
    (concept_label : option string) (include_inherited : bool) : M (list Dict) :=
  try_except
    (concept_label <- label_or_detect concept_label concept_name ;;
     (if String.eqb concept_label "Concept" || String.eqb concept_label "Class"
      then ret tt
      else raise ("This method only supports Concept or Class nodes, but got "
                  ++ concept_label)) ;;;
     direct_props <-
       run_query (cy_direct_properties concept_label (PStr concept_name)) ;;
     if include_inherited then
       inherited_props <-
         run_query (cy_inherited_properties concept_label (PStr concept_name)) ;;
       ret (direct_props ++ inherited_props)%list
     else ret direct_props)
    (fun e => raise ("Failed to get concept properties: " ++ e)).

(** The loop of [check_property_inheritance]: each property of the
    superclass goes to the inherited ones or, with the source of the
    override, to the overridden ones; the pair is
    [(inherited_props, overridden_props)]. *)
Definition sort_out (subclass_label subclass_name superclass_name : string)
    (buckets : list Dict * list Dict) (prop : Dict)
  : M (list Dict * list Dict) :=
  let prop_name := get "property_name" prop in
  override_result <-
    run_query_single
      (cy_override_check subclass_label (PStr subclass_name) prop_name
                         (PStr superclass_name)) ;;
  let has_override :=
    match override_result with
    | Some r => get_or "has_override" (PInt 0) r
    | None => PInt 0
    end in
  let override_source :=
    match override_result with
    | Some r => get "override_source" r
    | None => PNone
    end in
  if truthy has_override then
    let prop_info := dict_set "override_source" override_source prop in
    ret (fst buckets, (snd buckets ++ [prop_info])%list)
  else ret ((fst buckets ++ [prop])%list, snd buckets).

(** [check_property_inheritance] *)
Definition check_property_inheritance (subclass_name superclass_name : string)
    (subclass_label superclass_label : option string) : M Dict :=
  try_except
    (subclass_label <- label_or_detect subclass_label subclass_name ;;
     superclass_label <- label_or_detect superclass_label superclass_name ;;
     rel_exists <-
       run_query_value
         (cy_subclass_paths subclass_label (PStr subclass_name)
                            superclass_label (PStr superclass_name))
         (Some "relationship_exists") ;;
     if negb (truthy rel_exists) then
       ret [("inheritance_exists", PBool false);
            ("message", PStr ("No subclass relationship between " ++ subclass_name
                              ++ " and " ++ superclass_name))]
     else
       superclass_props <-
         run_query (cy_superclass_properties superclass_label
                                             (PStr superclass_name)) ;;
       buckets <- fold_m superclass_props ([], [])
                    (sort_out subclass_label subclass_name superclass_name) ;;
       let inherited_props := fst buckets in
       let overridden_props := snd buckets in
       ret [("inheritance_exists", PBool true);
            ("subclass", PStr subclass_name);
            ("superclass", PStr superclass_name);
            ("inherited_properties", PList (map PDict inherited_props));
            ("overridden_properties", PList (map PDict overridden_props));
            ("total_inherited", PNat (length inherited_props));
            ("total_overridden", PNat (length overridden_props));
            ("total_available_from_superclass",
             PNat (length superclass_props))])
    (fun e => raise ("Failed to check property inheritance: " ++ e)).

(* ----------------------------------------------------------------- *)
(** *** Counting, looking up, searching *)

(** [get_node_count] *)
Definition get_node_count (label : option string) : M Py :=
  try_except
    (result <- run_query_value (cy_count_nodes (given label)) (Some "count") ;;
     ret (if truthy result then result else PInt 0))
    (fun e => raise ("Failed to get node count: " ++ e)).

(** [get_node_details]: [None] when there is no such node. *)
Definition get_node_details (name : string) (label : option string)
  : M (option Dict) :=
  try_except
    (node_result <- run_query_single (cy_get_node (given label) (PStr name)) ;;
     match node_result with
     | None => ret None
     | Some record =>
         let node_data := get_or "n" (PDict []) record in
         incoming_rels <- run_query (cy_incoming (PStr name)) ;;
         outgoing_rels <- run_query (cy_outgoing (PStr name)) ;;
         ret (Some [("node", node_data);
                    ("incoming_relationships", PList (map PDict incoming_rels));
                    ("outgoing_relationships", PList (map PDict outgoing_rels));
                    ("total_relationships",
                     PNat (length incoming_rels + length outgoing_rels))])
     end)
    (fun e => raise ("Failed to get node details: " ++ e)).

(** [search_nodes] *)
Definition search_nodes (search_term : string) (label : option string)
    (limit : Z) : M (list Dict) :=
  try_except
    (run_query (cy_search (given label) (PStr search_term) limit))
    (fun e => raise ("Failed to search nodes: " ++ e)).

(* ----------------------------------------------------------------- *)
(** *** Validating the ontology *)

(** [result.get("count", 0) if result else 0] *)
Definition count_of (result : option Dict) : Py :=
  match result with
  | Some record => get_or "count" (PInt 0) record
  | None => PInt 0
  end.

(** [result.get("sample_names", [])], which is read only when the count is
    positive, so that there is a record. *)
Definition sample_of (result : option Dict) : Py :=
  match result with
  | Some record => get_or "sample_names" (PList []) record
  | None => PList []
  end.

(** [x > 0] *)
Definition positive (x : Py) : M bool :=
  match x with
  | PInt z => ret (0 <? z)%Z
  | PBool b => ret b
  | _ => raise ("'>' not supported between instances of '" ++ type_name x
                ++ "' and 'int'")
  end.

(** An entry of [issues] or [warnings]. *)
Definition finding (type : string) (count : Py) (what : string) (sample : Py)
  : Dict :=
  [("type", PStr type);
   ("count", count);
   ("message", PStr ("Found " ++ py_str count ++ " " ++ what));
   ("sample", sample)].

(** [validate_ontology] *)
Definition validate_ontology : M Dict :=
  try_except
    (let valid := true in
     let issues : list Dict := [] in
     let warnings : list Dict := [] in
     orphaned_result <- run_query_single cy_orphaned ;;
     let orphaned_count := count_of orphaned_result in
     some_orphaned <- positive orphaned_count ;;
     let warnings :=
       if some_orphaned
       then (warnings ++ [finding "orphaned_nodes" orphaned_count "orphaned nodes"
                            (sample_of orphaned_result)])%list
       else warnings in
     untyped_result <- run_query_single cy_untyped_instances ;;
     let untyped_count := count_of untyped_result in
     some_untyped <- positive untyped_count ;;
     let issues :=
       if some_untyped
       then (issues ++ [finding "untyped_instances" untyped_count
                          "instances without concept relationships"
                          (sample_of untyped_result)])%list
       else issues in
     let valid := if some_untyped then false else valid in
     circular_result <- run_query_single cy_circular ;;
     let circular_count := count_of circular_result in
     some_circular <- positive circular_count ;;
     let issues :=
       if some_circular
       then (issues ++ [finding "circular_subclass" circular_count
                          "circular subclass relationships"
                          (sample_of circular_result)])%list
       else issues in
     let valid := if some_circular then false else valid in
     total_nodes <- get_node_count None ;;
     ret [("valid", PBool valid);
          ("issues", PList (map PDict issues));
          ("warnings", PList (map PDict warnings));
          ("statistics",
           PDict [("total_nodes", total_nodes);
                  ("orphaned_nodes", orphaned_count);
                  ("untyped_instances", untyped_count);
                  ("circular_references", circular_count)])])
    (fun e => raise ("Failed to validate ontology: " ++ e)).

(* ----------------------------------------------------------------- *)
(** *** Deleting instances *)

(** [delete_instance_node] *)
Definition delete_instance_node (instance_name : string)
    (fail_if_not_found : bool) : M Dict :=
  try_except
    (existing_node <- get_existing_node (PStr instance_name) (Some "Instance") ;;
     if negb (truthy existing_node) then
       let message := "Instance '" ++ instance_name ++ "' not found" in
       if fail_if_not_found then raise message
       else
         warn message ;;;
         ret [("records", PList []);
              ("nodes_created", PInt 0);
              ("nodes_deleted", PInt 0);
              ("relationships_created", PInt 0);
              ("relationships_deleted", PInt 0);
              ("properties_set", PInt 0);
              ("labels_added", PInt 0);
              ("labels_removed", PInt 0);
              ("status", PStr "not_found")]
     else
       result <- execute_write (cy_delete_instance (PStr instance_name)) ;;
       ret (dict_set "status"
              (PStr (if Nat.ltb 0 (get_nat "nodes_deleted" result)
                     then "deleted" else "no_op"))
              result))
    (fun e => raise ("Failed to delete instance node: " ++ e)).

(** The four statements of [delete_nodes_by_name] that add the counts of
    one deletion to [aggregated]. *)
Definition add_result (aggregated : Dict) (name : string) (res : Dict) : Dict :=
  let aggregated :=
    dict_set "processed" (PNat (get_nat "processed" aggregated + 1))
             aggregated in
  let aggregated :=
    dict_set "nodes_deleted"
             (PNat (get_nat "nodes_deleted" aggregated
                    + get_nat "nodes_deleted" res)) aggregated in
  let aggregated :=
    dict_set "relationships_deleted"
             (PNat (get_nat "relationships_deleted" aggregated
                    + get_nat "relationships_deleted" res)) aggregated in
  dict_set "results"
           (PList (as_list (get "results" aggregated)
                   ++ [PDict [("name", PStr name);
                              ("status", get_or "status" (PStr "unknown") res)]]))
           aggregated.

(** The statement of its handler that records an error. *)
Definition add_error (aggregated : Dict) (name error_msg : string) : Dict :=
  dict_set "errors"
           (PList (as_list (get "errors" aggregated)
                   ++ [PDict [("name", PStr name); ("error", PStr error_msg)]]))
           aggregated.

(** The body of the loop: one deletion, with the flag that says whether the
    loop goes on. *)
Definition delete_one (continue_on_error : bool) (aggregated : Dict)
    (name : string) : M (Dict * bool) :=
  try_except
    (res <- delete_instance_node name false ;;
     ret (add_result aggregated name res, true))
    (fun error_msg =>
       ret (add_error aggregated name error_msg, continue_on_error)).

(** [for name in names: ...], left by [break] when the flag says so. *)
Fixpoint delete_each (continue_on_error : bool) (names : list string)
    (aggregated : Dict) : M Dict :=
  match names with
  | [] => ret aggregated
  | name :: names' =>
      step <- delete_one continue_on_error aggregated name ;;
      if snd step then delete_each continue_on_error names' (fst step)
      else ret (fst step)
  end.

(** [delete_nodes_by_name] *)
Definition delete_nodes_by_name (names : list string) (continue_on_error : bool)
  : M Dict :=
  delete_each continue_on_error names
    [("total", PNat (length names));
     ("processed", PInt 0);
     ("nodes_deleted", PInt 0);
     ("relationships_deleted", PInt 0);
     ("errors", PList []);
     ("results", PList [])].

End Service.

(** [delete_object_by_name] *)
Definition delete_object_by_name (object_name : string) (fail_if_not_found : bool)
  : M Dict :=
  try_except
    (exists_ <- run_query_value (cy_object_exists (PStr object_name))
                  (Some "exists") ;;
     if negb (truthy exists_) then
       let message := "Object '" ++ object_name ++ "' not found" in
       if fail_if_not_found then raise message
       else
         warn message ;;;
         ret [("name", PStr object_name);
              ("objects_count", PInt 0);
              ("fields_count", PInt 0);
              ("nodes_deleted", PInt 0);
              ("relationships_deleted", PInt 0);
              ("status", PStr "not_found")]
     else
       counts <- run_query_single (cy_object_counts (PStr object_name)) ;;
       let objects_count :=
         match counts with
         | Some c => get_or "objects_count" (PInt 1) c
         | None => PInt 1
         end in
       let fields_count :=
         match counts with
         | Some c => get_or "fields_count" (PInt 0) c
         | None => PInt 0
         end in
       result <- execute_write (cy_object_delete (PStr object_name)) ;;
       ret [("name", PStr object_name);
            ("objects_count", objects_count);
            ("fields_count", fields_count);
            ("nodes_deleted", get_or "nodes_deleted" (PInt 0) result);
            ("relationships_deleted", get_or "relationships_deleted" (PInt 0) result);
            ("status", PStr "deleted")])
    (fun e => raise ("Failed to delete Object by name: " ++ e)).

(* ----------------------------------------------------------------- *)
(** *** Uniqueness constraints *)

Section Constraints.

Variable labels_to_constrain : list string.

(** The two schema statements, by the name of the constraint (and the label
    it is for).  The graph of this development carries no schema, so what
    the store makes of them is left open: it may answer anything and refuse
    anything.
    [CREATE CONSTRAINT name IF NOT EXISTS FOR (n:label) REQUIRE n.name IS UNIQUE]
    [DROP CONSTRAINT name IF EXISTS] *)
Variable cy_create_constraint : string -> string -> Cypher.
Variable cy_drop_constraint : string -> Cypher.

(** [f"unique_{label.lower()}_name"] *)
Definition constraint_name (label : string) : string :=
  "unique_" ++ lower label ++ "_name".

(** [setup_uniqueness_constraints] *)
Definition setup_uniqueness_constraints : M Dict :=
  try_except
    (constraints_created <-
       fold_m labels_to_constrain []
         (fun constraints_created label =>
            try_except
              (execute_write
                 (cy_create_constraint (constraint_name label) label) ;;;
               ret (constraints_created ++ [label])%list)
              (fun e =>
                 warn ("Failed to create constraint for " ++ label ++ ": " ++ e) ;;;
                 ret constraints_created)) ;;
     ret [("constraints_created", PList (map PStr constraints_created));
          ("total_created", PNat (length constraints_created))])
    (fun e => raise ("Failed to setup uniqueness constraints: " ++ e)).

(** [drop_uniqueness_constraints] *)
Definition drop_uniqueness_constraints : M Dict :=
  try_except
    (constraints_dropped <-
       fold_m labels_to_constrain []
         (fun constraints_dropped label =>
            try_except
              (execute_write (cy_drop_constraint (constraint_name label)) ;;;
               ret (constraints_dropped ++ [label])%list)
              (fun e =>
                 warn ("Failed to drop constraint for " ++ label ++ ": " ++ e) ;;;
                 ret constraints_dropped)) ;;
     ret [("constraints_dropped", PList (map PStr constraints_dropped));
          ("total_dropped", PNat (length constraints_dropped))])
    (fun e => raise ("Failed to drop uniqueness constraints: " ++ e)).

End Constraints.

End OntologyService.

Import Neo4jService OntologyService.

(* ================================================================= *)
(** ** Vocabulary of the properties *)

(** No round trip to the store is going to fail. *)
Definition healthy (w : World) : Prop := w_faults w = [].

(** The world with more warnings logged. *)
Definition logged (w : World) (extra : list string) : World :=
  mkWorld (w_graph w) (w_faults w) (w_clock w) (w_warnings w ++ extra).

Definition DP : Py := PStr "DataProperty".

(** The second loop of [_identify_property_types], without its warnings. *)
Definition defaults (names : list string) (acc : Dict) : Dict :=
  fold_left (fun acc n => if has_key n acc then acc else dict_set n DP acc)
            names acc.

(** The property nodes the query of [_identify_property_types] matches, and
    the row it returns for one. *)
Definition matching_properties (g : Graph) (names : list string) : list Node :=
  filter (fun p => has_label "Property" p && cy_in (prop "name" p) (map PStr names))
         (g_nodes g).

Definition type_row (p : Node) : Dict :=
  [("property_name", prop "name" p); ("property_type", prop "property_type" p)].

(** The [:Property] nodes named [n]. *)
Definition property_nodes (g : Graph) (n : string) : list Node :=
  filter (fun p => has_label "Property" p && cy_eqb (prop "name" p) (PStr n))
         (g_nodes g).

Definition str_named (ps : list Node) : Prop :=
  forall p, In p ps -> exists s, prop "name" p = PStr s.

(* ----------------------------------------------------------------- *)
(** *** Example stores *)

Definition ex_object_property (i : nat) (name : string) : Node :=
  mkNode i ["Property"]
         [("name", PStr name); ("property_type", PStr "ObjectProperty")].

(** A store whose only node is a property with the empty name. *)
Definition w_empty_name : World :=
  mkWorld (mkGraph [ex_object_property 0 ""] [] 1) [] 0 [].

(** A store that holds the property [owner]; [w_down] is the same store when
    its next round trip fails. *)
Definition w_up : World :=
  mkWorld (mkGraph [ex_object_property 0 "owner"] [] 1) [] 0 [].

Definition w_down : World :=
  mkWorld (mkGraph [ex_object_property 0 "owner"] [] 1)
          [Some (OtherError "connection refused")] 0 [].

(** The row [find_nodes_by_name] returns for a node. *)
Definition found_row (n : Node) : Dict :=
  [("name", prop "name" n);
   ("labels", PList (map PStr (n_labels n)));
   ("properties", PDict (n_props n))].

(** The first label of the priority list that the node bears. *)
Definition first_priority_label (priority labels : list string) : option string :=
  find (fun l => str_in l labels) priority.

Definition default_labels : list string :=
  ["Concept"; "Instance"; "Property"; "Class"; "Individual"].

(** A store with a class [Table], an instance [t1] that also bears the label
    [Table], and two nodes named [dup]. *)
Definition w_labels : World :=
  mkWorld
    (mkGraph
       [mkNode 0 ["Table"; "Class"; "Concept"] [("name", PStr "Table")];
        mkNode 1 ["Instance"] [("name", PStr "dup")];
        mkNode 2 ["Class"] [("name", PStr "dup")];
        mkNode 3 ["Widget"] [("name", PStr "gadget")]]
       [] 4)
    [] 0 [].

(** The first node [get_existing_node] finds, as the method returns it. *)
Definition first_node (ns : list Node) : Py :=
  match ns with
  | [] => PNone
  | n :: _ => node_py n
  end.

Definition ex_instance (i : nat) (name concept : string) : Node :=
  mkNode i ["Instance"] [("name", PStr name); ("instance_of", PStr concept)].

(** A store with the instances [x] and [y]. *)
Definition w_xy : World :=
  mkWorld (mkGraph [ex_instance 0 "x" "Thing"; ex_instance 1 "y" "Thing"] [] 2)
          [] 0 [].

(** The world with another graph. *)
Definition with_graph (w : World) (g : Graph) : World :=
  mkWorld g (w_faults w) (w_clock w) (w_warnings w).

(** The pattern mentions the parameter [$x]. *)
Definition uses_param (x : string) (p : NodePattern) : bool :=
  existsb (fun kv => match snd kv with
                     | Param y => String.eqb y x
                     | Lit _ => false
                     end) (pat_props p).

(** The relationships of type [T] from node [a] to node [b]. *)
Definition relationships (T : string) (a b : Node) (g : Graph) : list Edge :=
  filter (links T (n_id a) (n_id b)) (g_edges g).

Definition skip_warning (T : string) : string :=
  "⚠️  Relationship " ++ T ++ " already exists between nodes, skipping creation".

Definition skip_message (T : string) : string :=
  "Relationship " ++ T ++ " already exists and was skipped".

(** The properties [create_relationship] gives a new relationship. *)
Definition rel_props_of (properties : option Dict) : Dict :=
  match (if dict_truthy properties then properties else None) with
  | Some d => set_props [] d
  | None => []
  end.

(** A store with the instance [t1] and the class [Table], not yet linked. *)
Definition w_unlinked : World :=
  mkWorld
    (mkGraph [ex_instance 0 "t1" "Table";
              mkNode 1 ["Class"] [("name", PStr "Table")]] [] 2)
    [] 0 [].

(** The [ObjectField] instances that an [ISOBJECTFIELDOF] relationship links
    to the node [o], each once. *)
Definition object_fields (g : Graph) (o : Node) : list Node :=
  filter (fun f =>
            match_node ["Instance"] [("instance_of", PStr "ObjectField")] f
            && existsb (fun e => String.eqb (e_type e) "ISOBJECTFIELDOF"
                                 && Nat.eqb (e_src e) (n_id f)
                                 && Nat.eqb (e_dst e) (n_id o)) (g_edges g))
         (g_nodes g).

(** The identifiers of the nodes a cascading delete of [o] removes. *)
Definition deleted_ids (g : Graph) (o : Node) : list nat :=
  n_id o :: map n_id (object_fields g o).

(** Node identifiers identify. *)
Definition unique_ids (g : Graph) : Prop := NoDup (map n_id (g_nodes g)).

Definition ex_field (i : nat) (name : string) : Node :=
  mkNode i ["Instance"] [("name", PStr name); ("instance_of", PStr "ObjectField")].

(** A store with the object [orders], its three fields (one of them linked
    twice), a field of another object, and an instance that refers to
    [orders]. *)
Definition w_object : World :=
  mkWorld
    (mkGraph
       [ex_instance 0 "orders" "Object";
        ex_field 1 "id"; ex_field 2 "total"; ex_field 3 "customer";
        ex_instance 4 "users" "Object"; ex_field 5 "email";
        ex_instance 6 "report" "Thing"]
       [mkEdge 0 1 "ISOBJECTFIELDOF" 0 [];
        mkEdge 1 2 "ISOBJECTFIELDOF" 0 [];
        mkEdge 2 3 "ISOBJECTFIELDOF" 0 [];
        mkEdge 3 3 "ISOBJECTFIELDOF" 0 [];
        mkEdge 4 5 "ISOBJECTFIELDOF" 4 [];
        mkEdge 5 6 "USES" 0 [];
        mkEdge 6 6 "USES" 4 []]
       7)
    [] 0 [].

(** The required properties a concept declares itself: the relationship and
    the property node of each. *)
Definition direct_declarations (g : Graph) (label concept_name : string)
  : list (Edge * Node) :=
  flat_map (fun c => required_of g (n_id c))
           (named (Some label) (PStr concept_name) g).

(** The records the inherited query returns. *)
Definition inherited_rows (g : Graph) (label concept_name : string) : list Dict :=
  match cy_inherited_required label (PStr concept_name) g with
  | inr a => a_rows a
  | inl _ => []
  end.

(** The name of every [:Property] node can go into a Python set. *)
Definition hashable_names (g : Graph) : Prop :=
  forall p, In p (g_nodes g) -> has_label "Property" p = true ->
            hashable (prop "name" p) = true.

(** [row["property_name"] == X] *)
Definition row_named (X : string) (row : Dict) : bool :=
  py_eqb (get "property_name" row) (PStr X).

Definition declares (X : string) (rp : Edge * Node) : bool :=
  py_eqb (prop "name" (snd rp)) (PStr X).

Definition ex_class (i : nat) (name : string) : Node :=
  mkNode i ["Class"] [("name", PStr name)].

Definition ex_property (i : nat) (name type : string) : Node :=
  mkNode i ["Property"] [("name", PStr name); ("property_type", PStr type)].

Definition ex_required (i src dst : nat) (default : Py) : Edge :=
  mkEdge i src "HAS_PROPERTY" dst
         (("required", PBool true) ::
          match default with PNone => [] | v => [("default_value", v)] end).

(** A schema: [Table] is a subclass of [Base], which is a subclass of
    [Root].  [Table] requires [a] and [b] (default 5) itself, [Base] requires
    the ObjectProperty [c], and [Root] requires [a] again.  There is one
    instance, [db1]. *)
Definition g_schema : Graph :=
  mkGraph
    [ex_class 0 "Root"; ex_class 1 "Base"; ex_class 2 "Table";
     ex_property 3 "a" "DataProperty"; ex_property 4 "b" "DataProperty";
     ex_property 5 "c" "ObjectProperty";
     ex_instance 6 "db1" "DataSource"]
    [mkEdge 0 2 "SUBCLASS_OF" 1 []; mkEdge 1 1 "SUBCLASS_OF" 0 [];
     ex_required 2 2 3 PNone; ex_required 3 2 4 (PInt 5);
     ex_required 4 1 5 PNone; ex_required 5 0 3 PNone]
    6.

Definition w_schema : World := mkWorld g_schema [] 0 [].

(** The test of the loops that drop a row: its name is not among [names]. *)
Definition keeps (names : list Py) (row : Dict) : bool :=
  negb (py_in (get "property_name" row) names).

(** The records of the direct query, and what
    [get_required_properties_for_concept] makes of them and of the records of
    the inherited query. *)
Definition direct_rows (g : Graph) (label concept_name : string) : list Dict :=
  order_by ["property_name"]
    (map (required_row "direct" (PStr concept_name))
         (direct_declarations g label concept_name)).

Definition required_rows (g : Graph) (label concept_name : string) : list Dict :=
  (direct_rows g label concept_name
   ++ filter (keeps (map (get "property_name") (direct_rows g label concept_name)))
             (inherited_rows g label concept_name))%list.

(** The required properties that [provided_properties] does not provide. *)
Definition missing_rows (g : Graph) (label concept_name : string)
    (provided_properties : Dict) : list Dict :=
  filter (keeps (map PStr (nodup_str (keys provided_properties))))
         (required_rows g label concept_name).

(** A computation that only reads the store: whatever it returns or raises,
    the graph stays as it is, and a healthy store stays healthy. *)
Definition reads {A} (m : M A) : Prop :=
  forall w, w_graph (snd (m w)) = w_graph w
            /\ (healthy w -> healthy (snd (m w))).

(** A query that leaves the graph alone. *)
Definition read_only (q : Cypher) : Prop :=
  forall g a, q g = inr a -> a_graph a = g.

(** The types [_identify_property_types] finds in the graph [g]. *)
Definition property_types_of (g : Graph) (names : list string) : Dict :=
  defaults names (types_of_rows (map type_row (matching_properties g names))).

(** The ObjectProperties among the properties of a call, as
    [create_instance_node] finds them in the graph [g]. *)
Definition object_properties_of (g : Graph) (properties : option Dict) : Dict :=
  if dict_truthy properties then
    let props := match properties with Some d => d | None => [] end in
    snd (split_properties
           (property_types_of g
              (filter (fun p => negb (String.eqb p "name")) (keys props)))
           props)
  else [].

(** The target has no [:Instance] node. *)
Definition target_missing (g : Graph) (pt : string * Py) : bool :=
  Nat.eqb (length (named (Some "Instance") (snd pt) g)) 0.

(** The (property, target) pairs whose target has no [:Instance] node. *)
Definition missing_targets (g : Graph) (object_properties : Dict)
  : list (string * Py) :=
  filter (target_missing g) (all_targets object_properties).

Definition target_warning (pt : string * Py) : string :=
  "ObjectProperty target not found: " ++ fst pt ++ " -> " ++ py_str (snd pt).

(** What [create_instance_node] returns for an instance that exists and is
    not to be updated. *)
Definition already_exists (existing_node : Py) : Dict :=
  [("records", PList [PDict [("n", existing_node)]]);
   ("nodes_created", PInt 0);
   ("nodes_updated", PInt 0);
   ("properties_set", PInt 0);
   ("status", PStr "already_exists");
   ("auto_relationship_created", PBool false)].

(** Run on the graph [g], the computation leaves the graph as it is. *)
Definition preserves {A} (g : Graph) (m : M A) : Prop :=
  forall w, w_graph w = g -> w_graph (snd (m w)) = g.

(** [t1] exists already: the store of [g_schema] with the instance [t1] of
    [Table]. *)
Definition w_with_t1 : World :=
  mkWorld
    (mkGraph (g_nodes g_schema ++
              [mkNode 7 ["Instance"]
                 [("name", PStr "t1"); ("instance_of", PStr "Table");
                  ("a", PInt 1); ("b", PInt 2)]])
             (g_edges g_schema) 8)
    [] 0 [].

(** The relationships that a path which has used [used] can still take. *)
Definition unused (es : list Edge) (used : list nat) : list Edge :=
  filter (fun e => negb (mem_nat (e_id e) used)) es.

(* ----------------------------------------------------------------- *)
(** *** Vocabulary for [Neo4jService] *)

(** The records of the nodes that bear the label and have the properties,
    in storage order. *)
Definition found_nodes (label : option string) (props : Dict) (g : Graph)
  : list Dict :=
  map (fun n => [("n", node_py n)])
      (filter (match_node (label_part label) props) (g_nodes g)).

(** The number of relationships around the nodes that match, as the degree
    query counts them. *)
Definition degree (labels : list string) (props : Dict) (arrow : Arrow)
    (T : option string) (g : Graph) : nat :=
  length (flat_map (fun n => filter (touches arrow T (n_id n)) (g_edges g))
                   (filter (match_node labels props) (g_nodes g))).

(** Those among them that go from a matching node to itself. *)
Definition self_loops (labels : list string) (props : Dict) (T : option string)
    (g : Graph) : nat :=
  length (flat_map (fun n => filter (fun e => touches ArrowIn T (n_id n) e
                                              && touches ArrowOut T (n_id n) e)
                                    (g_edges g))
                   (filter (match_node labels props) (g_nodes g))).

(** Every relationship starts or ends at a node of the store. *)
Definition attached (g : Graph) : Prop :=
  forall e, In e (g_edges g) ->
            In (e_src e) (map n_id (g_nodes g)) \/ In (e_dst e) (map n_id (g_nodes g)).

(* ----------------------------------------------------------------- *)
(** *** Vocabulary for the nodes a call creates *)

(** The world after one reading of the clock. *)
Definition ticked (w : World) : World :=
  mkWorld (w_graph w) (w_faults w) (S (w_clock w)) (w_warnings w).

(** What [_add_common_properties] makes of the properties at time [t]. *)
Definition common_properties (properties : Dict) (t : nat) : Dict :=
  let properties := if negb (has_key "comment" properties)
                    then dict_set "comment" (PStr "") properties
                    else properties in
  let properties := if negb (has_key "tag" properties)
                    then dict_set "tag" (PStr "") properties
                    else properties in
  dict_set "created_at" (PStr (isoformat t)) properties.

(** The properties of a call, none for [None]. *)
Definition props_of (properties : option Dict) : Dict :=
  match properties with Some d => d | None => [] end.

(** The labels of a call, the primary one first. *)
Definition labels_of (label : string) (additional_labels : option (list string))
  : list string :=
  label :: match additional_labels with Some l => l | None => [] end.

(** The node after [_update_node] has set [properties] on it at time [t]. *)
Definition updated_node (name : string) (properties : Dict) (t : nat) (n : Node)
  : Node :=
  let properties := dict_set "updated_at" (PStr (isoformat t)) properties in
  with_props n
    (fold_left (fun acc k =>
                  set_prop k (get k (dict_update [("name", PStr name)] properties))
                           acc)
               (keys properties) (n_props n)).

(* ----------------------------------------------------------------- *)
(** *** Vocabulary for deletions *)

(** The relationship starts or ends at one of the nodes [ns]. *)
Definition attached_to (ns : list Node) (e : Edge) : bool :=
  mem_nat (e_src e) (map n_id ns) || mem_nat (e_dst e) (map n_id ns).

(** The node is an instance called [name]. *)
Definition instance_named (name : string) (n : Node) : bool :=
  match_node ["Instance"] [("name", PStr name)] n.

(** What [delete_instance_node] returns when there is no such instance and
    that is no error. *)
Definition not_found : Dict :=
  [("records", PList []);
   ("nodes_created", PInt 0);
   ("nodes_deleted", PInt 0);
   ("relationships_created", PInt 0);
   ("relationships_deleted", PInt 0);
   ("properties_set", PInt 0);
   ("labels_added", PInt 0);
   ("labels_removed", PInt 0);
   ("status", PStr "not_found")].

(** The entries of the dictionary [delete_nodes_by_name] returns. *)
Definition processed_of (aggregated : Dict) : nat := get_nat "processed" aggregated.
Definition errors_of (aggregated : Dict) : list Py := as_list (get "errors" aggregated).
Definition results_of (aggregated : Dict) : list Py := as_list (get "results" aggregated).

(** The node is an instance called by one of the [names]. *)
Definition instance_among (names : list string) (n : Node) : bool :=
  existsb (fun name => instance_named name n) names.

(* ----------------------------------------------------------------- *)
(** *** Vocabulary for searching and looking up *)

(** The strings are in ascending order. *)
Fixpoint ascending (names : list string) : bool :=
  match names with
  | a :: (b :: _) as rest => String.leb a b && ascending rest
  | _ => true
  end.

(** The node is one that [search_nodes] looks for. *)
Definition search_hit (label : option string) (search_term : string) (n : Node)
  : bool :=
  match_node (opt_label (given label)) [] n
  && cy_contains (prop "name" n) (PStr search_term).

(** Both ends of every relationship are nodes of the store. *)
Definition closed (g : Graph) : Prop :=
  forall e, In e (g_edges g) ->
            In (e_src e) (map n_id (g_nodes g)) /\ In (e_dst e) (map n_id (g_nodes g)).

(** The identifier belongs to a node called [name], whatever its labels. *)
Definition called (name : string) (g : Graph) (i : nat) : bool :=
  mem_nat i (map n_id (named None (PStr name) g)).

(** The records of the two relationship queries of [get_node_details]. *)
Definition incoming_rows (name : string) (g : Graph) : list Dict :=
  match cy_incoming (PStr name) g with
  | inr a => a_rows a
  | inl _ => []
  end.

Definition outgoing_rows (name : string) (g : Graph) : list Dict :=
  match cy_outgoing (PStr name) g with
  | inr a => a_rows a
  | inl _ => []
  end.

(* ----------------------------------------------------------------- *)
(** *** Vocabulary for the properties of concepts *)

(** The properties [assign_property_to_concept] gives the relationship, at
    time [t]. *)
Definition assignment_properties (required default_value : Py)
    (constraints : option Dict) (t : nat) : Dict :=
  let rel_properties :=
    [("required", required); ("assignment_type", PStr "direct")] in
  let rel_properties :=
    match default_value with
    | PNone => rel_properties
    | v => dict_set "default_value" v rel_properties
    end in
  let rel_properties :=
    if dict_truthy constraints
    then dict_update rel_properties
           (match constraints with Some d => d | None => [] end)
    else rel_properties in
  dict_set "created_at" (PStr (isoformat t)) rel_properties.

(** Node identifiers are unique and below the next free one. *)
Definition well_numbered (g : Graph) : Prop :=
  unique_ids g /\ forall n, In n (g_nodes g) -> n_id n < g_next g.

(** The properties [create_property_node] prepares for the node, before the
    common ones are added. *)
Definition property_node_properties (property_name property_type : string)
    (domain range_type : option string) (properties : option Dict) : Dict :=
  let node_properties :=
    [("name", PStr property_name); ("property_type", PStr property_type)] in
  let node_properties :=
    if has domain
    then dict_set "domain" (PStr (str_or_empty domain)) node_properties
    else node_properties in
  let node_properties :=
    if has range_type
    then dict_set "range" (PStr (str_or_empty range_type)) node_properties
    else node_properties in
  if dict_truthy properties
  then dict_update node_properties
         (match properties with Some d => d | None => [] end)
  else node_properties.

(** The number of [SUBCLASS_OF] paths from a node [sub_label] called
    [sub_name] to a node [super_label] called [super_name]. *)
Definition subclass_paths (g : Graph) (sub_label sub_name super_label super_name : string)
  : nat :=
  length
    (flat_map (fun sub =>
       filter (fun t =>
                 match node_by_id g (fst t) with
                 | Some super =>
                     match_node [super_label] [("name", PStr super_name)] super
                 | None => false
                 end) (subclass_trails g [] (n_id sub)))
       (named (Some sub_label) (PStr sub_name) g)).

(** The records of the query for the properties of the superclass. *)
Definition superclass_rows (g : Graph) (label name : string) : list Dict :=
  match cy_superclass_properties label (PStr name) g with
  | inr a => a_rows a
  | inl _ => []
  end.

(** The two buckets [create_instance_node] sorts the properties of a call
    into, as the graph [g] types them: [(data_properties,
    object_properties)]. *)
Definition buckets_of (g : Graph) (properties : option Dict) : Dict * Dict :=
  if dict_truthy properties then
    let props := match properties with Some d => d | None => [] end in
    split_properties
      (property_types_of g
         (filter (fun p => negb (String.eqb p "name")) (keys props)))
      props
  else ([], []).

(** The graph [g] types the property as an ObjectProperty, for a call with
    these [properties]. *)
Definition typed_object (g : Graph) (properties : option Dict) (k : string)
  : bool :=
  py_eqb (get_or k (PStr "DataProperty")
            (property_types_of g
               (filter (fun p => negb (String.eqb p "name"))
                       (keys (props_of properties)))))
         (PStr "ObjectProperty").

(** The properties [create_instance_node] prepares for a new node, before
    the common ones are added. *)
Definition instance_properties (instance_name concept_type : string)
    (data_properties : Dict) : Dict :=
  let node_properties :=
    [("name", PStr instance_name); ("instance_of", PStr concept_type)] in
  if nonempty data_properties
  then dict_update node_properties data_properties
  else node_properties.

(** A store with a concept [A] that is its own subclass, and an instance
    [i] of it, linked the way [create_instance_node] links. *)
Definition w_loop : World :=
  mkWorld
    (mkGraph
       [mkNode 0 ["Concept"] [("name", PStr "A")];
        mkNode 1 ["Instance"] [("name", PStr "i"); ("instance_of", PStr "A")]]
       [mkEdge 2 0 "SUBCLASS_OF" 0 []; mkEdge 3 1 "IS_INSTANCE_OF" 0 []]
       4)
    [] 0 [].

(** ** What the driver and the store take

    The queries splice labels, relationship types and property keys into
    their text, and the driver packs the property values before it sends
    them.  The predicates below say which names and values go through. *)

Fixpoint all_chars (f : ascii -> bool) (s : string) : bool :=
  match s with
  | EmptyString => true
  | String c s' => f c && all_chars f s'
  end.

(** The text is ASCII.  On such text [upper] is [str.upper]: beyond ASCII
    Python also turns letters such as [é] and the dotless [ı] into capitals,
    which [upper] leaves alone. *)
Definition is_ascii (s : string) : bool :=
  all_chars (fun c => Nat.ltb (nat_of_ascii c) 128) s.

Definition is_letter (c : ascii) : bool :=
  let n := nat_of_ascii c in
  (Nat.leb 65 n && Nat.leb n 90) || (Nat.leb 97 n && Nat.leb n 122).

Definition is_digit (c : ascii) : bool :=
  let n := nat_of_ascii c in Nat.leb 48 n && Nat.leb n 57.

(** A name Cypher reads without backticks: an ASCII letter, then ASCII
    letters, digits and underscores. *)
Definition identifier (s : string) : bool :=
  match s with
  | EmptyString => false
  | String c s' =>
      is_letter c
      && all_chars (fun c => is_letter c || is_digit c || Ascii.eqb c "_") s'
  end.

(** The words Cypher keeps to itself where a label or a relationship type
    stands, in any letter case. *)
Definition label_words : list string :=
  ["NOT"; "NULL"; "TYPED"; "NORMALIZED"; "NFC"; "NFD"; "NFKC"; "NFKD"].

(** A label or relationship type that can be spliced into a query. *)
Definition label_name (s : string) : bool :=
  identifier s && negb (str_in (upper s) label_words).

(** The relationship type [get_node_degree] filters by, when it gives one. *)
Definition type_filter_name (relationship_type : option string) : bool :=
  match type_filter relationship_type with
  | Some t => label_name t
  | None => true
  end.

(** An integer of 64 bits; the driver refuses any other. *)
Definition int64 (z : Z) : bool :=
  (Z.leb (- 2 ^ 63) z && Z.ltb z (2 ^ 63))%Z.

Definition is_bool (v : Py) : bool :=
  match v with PBool _ => true | _ => false end.

Definition is_int64 (v : Py) : bool :=
  match v with PInt z => int64 z | _ => false end.

Definition is_str (v : Py) : bool :=
  match v with PStr _ => true | _ => false end.

(** A value the driver sends and the store keeps as a property: [None]
    (which is not stored), a boolean, an integer of 64 bits, a string, or a
    list of one of these kinds.  A dict, a node, a relationship, a nested or
    a mixed list is refused. *)
Definition storable (v : Py) : bool :=
  match v with
  | PNone | PBool _ | PStr _ => true
  | PInt z => int64 z
  | PList l => forallb is_bool l || forallb is_int64 l || forallb is_str l
  | PDict _ | PNode _ _ _ | PRel _ _ _ _ _ => false
  end.

(** The properties of a call as the driver and the store take them: the
    keys are identifiers and the values storable. *)
Definition sendable (properties : Dict) : bool :=
  forallb identifier (keys properties)
  && forallb storable (map snd properties).

(* ================================================================= *)
(** * Properties *)


(** * dictionaries *)
Lemma dict_get_set_same k v d : dict_get k (dict_set k v d) = Some v.
Proof.
  induction d as [|[k' v'] d IH]; simpl.
  - now rewrite String.eqb_refl.
  - destruct (String.eqb k k') eqn:E; simpl.
    + now rewrite String.eqb_refl.
    + now rewrite E.
Qed.

Lemma dict_get_set_other k k' v d :
  k <> k' -> dict_get k (dict_set k' v d) = dict_get k d.
Proof.
  intros Hne. induction d as [|[k2 v2] d IH]; simpl.
  - apply String.eqb_neq in Hne. now rewrite Hne.
  - destruct (String.eqb k' k2) eqn:E; simpl.
    + apply String.eqb_eq in E. subst k2.
      apply String.eqb_neq in Hne. now rewrite Hne.
    + destruct (String.eqb k k2); auto.
Qed.

Lemma dict_get_set k k' v d :
  dict_get k (dict_set k' v d) = if String.eqb k k' then Some v else dict_get k d.
Proof.
  destruct (String.eqb_spec k k') as [->|Hne].
  - apply dict_get_set_same.
  - now apply dict_get_set_other.
Qed.

Lemma logged_nil w : logged w [] = w.
Proof. destruct w; unfold logged; simpl. now rewrite app_nil_r. Qed.

Lemma logged_logged w a b : logged (logged w a) b = logged w (a ++ b).
Proof. unfold logged; simpl. now rewrite app_assoc. Qed.

(** * round trips *)
Lemma session_run_answer q w a :
  hd None (w_faults w) = None -> q (w_graph w) = inr a ->
  session_run q w = (inr a, mkWorld (a_graph a) (tl (w_faults w)) (w_clock w) (w_warnings w)).
Proof. intros H1 H2. unfold session_run. now rewrite H1, H2. Qed.

Lemma session_run_fault q w f :
  hd None (w_faults w) = Some f ->
  session_run q w = (inl f, mkWorld (w_graph w) (tl (w_faults w)) (w_clock w) (w_warnings w)).
Proof. intros H1. unfold session_run. now rewrite H1. Qed.

Lemma healthy_eta w : healthy w ->
  mkWorld (w_graph w) (tl (w_faults w)) (w_clock w) (w_warnings w) = w.
Proof. destruct w; unfold healthy; simpl; intros ->; reflexivity. Qed.

Lemma run_query_reading rows w : healthy w ->
  run_query (reading rows) w = (Return (rows (w_graph w)), w).
Proof.
  intros H. unfold run_query.
  rewrite (session_run_answer _ _ (mkAnswer (rows (w_graph w)) no_counters (w_graph w))).
  - simpl. now rewrite healthy_eta.
  - now rewrite H.
  - reflexivity.
Qed.

(** * the monad *)
Lemma bind_return {A B} (m : M A) (k : A -> M B) w a w' :
  m w = (Return a, w') -> bind m k w = k a w'.
Proof. intros H. unfold bind. now rewrite H. Qed.

Lemma bind_raise {A B} (m : M A) (k : A -> M B) w e w' :
  m w = (Raise e, w') -> bind m k w = (Raise e, w').
Proof. intros H. unfold bind. now rewrite H. Qed.

Lemma try_return {A} (m : M A) h w a w' :
  m w = (Return a, w') -> try_except m h w = (Return a, w').
Proof. intros H. unfold try_except. now rewrite H. Qed.

Lemma try_raise {A} (m : M A) h w e w' :
  m w = (Raise e, w') -> try_except m h w = h e w'.
Proof. intros H. unfold try_except. now rewrite H. Qed.

Lemma warn_logged msg w : warn msg w = (Return tt, logged w [msg]).
Proof. reflexivity. Qed.

Lemma run_query_answer q w a :
  hd None (w_faults w) = None -> q (w_graph w) = inr a ->
  run_query q w
  = (Return (a_rows a),
     mkWorld (a_graph a) (tl (w_faults w)) (w_clock w) (w_warnings w)).
Proof. intros H1 H2. unfold run_query. now rewrite (session_run_answer _ _ a H1 H2). Qed.

Lemma run_query_fault q w f :
  hd None (w_faults w) = Some f ->
  run_query q w
  = (Raise ("Failed to execute query: " ++ fault_msg f),
     mkWorld (w_graph w) (tl (w_faults w)) (w_clock w) (w_warnings w)).
Proof. intros H1. unfold run_query. now rewrite (session_run_fault _ _ f H1). Qed.

Lemma bind_bind {A B C} (m : M A) (k1 : A -> M B) (k2 : B -> M C) w :
  bind (bind m k1) k2 w = bind m (fun x => bind (k1 x) k2) w.
Proof. unfold bind. destruct (m w) as [[a|e] w']; reflexivity. Qed.

Lemma bind_ret {A B} (a : A) (k : A -> M B) w : bind (ret a) k w = k a w.
Proof. reflexivity. Qed.

(** One step of a run: the first action of the computation returns. *)
Ltac run E := rewrite ?bind_bind; rewrite (bind_return _ _ _ _ _ E); cbv beta.



Lemma has_key_get k d : has_key k d = true <-> exists v, dict_get k d = Some v.
Proof.
  unfold has_key. destruct (dict_get k d); split; intros H; eauto; try discriminate.
  now destruct H.
Qed.

Lemma has_key_false k d : has_key k d = false <-> dict_get k d = None.
Proof. unfold has_key. destruct (dict_get k d); split; congruence. Qed.

Lemma fold_default_to_data names : forall acc w,
  exists extra,
    fold_m names acc default_to_data w = (Return (defaults names acc), logged w extra)
    /\ forall n, In n names -> has_key n acc = false -> In (not_found_warning n) extra.
Proof.
  induction names as [|n names IH]; intros acc w.
  - exists []. simpl. rewrite logged_nil. split; [reflexivity | intros ? []].
  - simpl. destruct (has_key n acc) eqn:Hk.
    + destruct (IH acc w) as (extra & Hrun & Hlog).
      exists extra. split.
      * rewrite (bind_return _ _ w acc w); [exact Hrun|].
        unfold default_to_data. now rewrite Hk.
      * intros m [<-|Hin] Hm; [congruence | auto].
    + destruct (IH (dict_set n DP acc) (logged w [not_found_warning n]))
        as (extra & Hrun & Hlog).
      exists (not_found_warning n :: extra). split.
      * rewrite (bind_return _ _ w (dict_set n DP acc)
                   (logged w [not_found_warning n])).
        -- rewrite Hrun, logged_logged. reflexivity.
        -- unfold default_to_data. rewrite Hk. reflexivity.
      * intros m [<-|Hin] Hm; [now left|].
        destruct (String.eqb_spec m n) as [->|Hne]; [now left|].
        right. apply Hlog; auto.
        apply has_key_false. rewrite dict_get_set_other by assumption.
        now apply has_key_false.
Qed.

Lemma defaults_keeps names : forall acc k v,
  dict_get k acc = Some v -> dict_get k (defaults names acc) = Some v.
Proof.
  induction names as [|n names IH]; intros acc k v H; simpl; auto.
  destruct (has_key n acc) eqn:Hk; apply IH; auto.
  rewrite dict_get_set. destruct (String.eqb_spec k n) as [->|]; auto.
  apply has_key_false in Hk. congruence.
Qed.

Lemma defaults_adds names : forall acc k,
  dict_get k acc = None -> In k names -> dict_get k (defaults names acc) = Some DP.
Proof.
  induction names as [|n names IH]; intros acc k H Hin; simpl; [destruct Hin|].
  destruct (String.eqb_spec k n) as [->|Hne].
  - apply has_key_false in H. rewrite H.
    apply defaults_keeps. apply dict_get_set_same.
  - destruct Hin as [->|Hin]; [congruence|].
    destruct (has_key n acc); apply IH; auto.
    now rewrite dict_get_set_other.
Qed.

Lemma defaults_only names : forall acc k,
  dict_get k acc = None -> ~ In k names -> dict_get k (defaults names acc) = None.
Proof.
  induction names as [|n names IH]; intros acc k H Hin; simpl; auto.
  assert (k <> n) by (intros ->; apply Hin; now left).
  assert (~ In k names) by (intros ?; apply Hin; now right).
  destruct (has_key n acc); apply IH; auto.
  now rewrite dict_get_set_other.
Qed.

Lemma dict_set_same_value k v d : dict_get k d = Some v -> dict_set k v d = d.
Proof.
  induction d as [|[k' v'] d IH]; simpl; [discriminate|].
  destruct (String.eqb_spec k k') as [->|Hne].
  - now intros [= ->].
  - intros H. now rewrite IH.
Qed.

Lemma all_data_defaults names : all_data names = defaults names [].
Proof.
  unfold all_data, defaults.
  assert (G : forall acc, (forall k v, dict_get k acc = Some v -> v = DP) ->
     fold_left (fun acc name => dict_set name (PStr "DataProperty") acc) names acc
     = fold_left (fun acc n => if has_key n acc then acc else dict_set n DP acc) names acc).
  { induction names as [|n names IH]; intros acc Hacc; simpl; auto.
    destruct (has_key n acc) eqn:Hk.
    - apply has_key_get in Hk. destruct Hk as [v Hv].
      pose proof (Hacc _ _ Hv) as ->. unfold DP in Hv.
      rewrite (dict_set_same_value _ _ _ Hv). now apply IH.
    - apply IH. intros k v. rewrite dict_get_set.
      destruct (String.eqb k n); [now intros [= <-] | apply Hacc]. }
  apply G. intros k v; discriminate.
Qed.

Lemma all_data_get names n : In n names -> dict_get n (all_data names) = Some DP.
Proof. intros H. rewrite all_data_defaults. now apply defaults_adds. Qed.

Lemma all_data_keys names n : has_key n (all_data names) = true <-> In n names.
Proof.
  rewrite all_data_defaults. split.
  - intros H. destruct (in_dec string_dec n names) as [|Hn]; auto.
    apply has_key_get in H. destruct H as [v Hv].
    rewrite defaults_only in Hv; auto; discriminate.
  - intros H. apply has_key_get. exists DP. now apply defaults_adds.
Qed.

Lemma identify_unfold names :
  names <> [] ->
  _identify_property_types names
  = try_except
      (result <- run_query (cy_property_types (map PStr names)) ;;
       fold_m names (types_of_rows result) default_to_data)
      (fun e => ret (all_data names)).
Proof. destruct names; [congruence | reflexivity]. Qed.

Lemma identify_answered names w :
  names <> [] -> hd None (w_faults w) = None ->
  exists extra,
    let acc := types_of_rows (map type_row (matching_properties (w_graph w) names)) in
    _identify_property_types names w
    = (Return (defaults names acc),
       mkWorld (w_graph w) (tl (w_faults w)) (w_clock w) (w_warnings w ++ extra))
    /\ forall n, In n names -> has_key n acc = false -> In (not_found_warning n) extra.
Proof.
  intros Hne Hh.
  set (w1 := mkWorld (w_graph w) (tl (w_faults w)) (w_clock w) (w_warnings w)).
  destruct (fold_default_to_data names
              (types_of_rows (map type_row (matching_properties (w_graph w) names))) w1)
    as (extra & Hrun & Hlog).
  exists extra. split; [|exact Hlog].
  rewrite (identify_unfold _ Hne).
  apply try_return.
  erewrite bind_return.
  - exact Hrun.
  - apply (run_query_answer _ _
             (mkAnswer (map type_row (matching_properties (w_graph w) names))
                       no_counters (w_graph w)) Hh eq_refl).
Qed.

Lemma identify_faulted names w f :
  names <> [] -> hd None (w_faults w) = Some f ->
  _identify_property_types names w
  = (Return (all_data names),
     mkWorld (w_graph w) (tl (w_faults w)) (w_clock w) (w_warnings w)).
Proof.
  intros Hne Hh. rewrite (identify_unfold _ Hne).
  erewrite try_raise; [reflexivity|].
  apply bind_raise. apply (run_query_fault _ _ f Hh).
Qed.



Lemma cy_eqb_str x s : cy_eqb x (PStr s) = true -> x = PStr s.
Proof.
  destruct x; simpl; try discriminate.
  unfold cy_eqb; simpl. destruct (String.eqb_spec s0 s); [now subst | discriminate].
Qed.

Lemma cy_eqb_str_str s t : cy_eqb (PStr s) (PStr t) = String.eqb s t.
Proof. unfold cy_eqb; simpl. now destruct (String.eqb s t). Qed.

Lemma cy_in_strs x names :
  cy_in x (map PStr names) = true -> exists s, In s names /\ x = PStr s.
Proof.
  unfold cy_in. rewrite existsb_exists. intros (y & Hy & He).
  apply in_map_iff in Hy. destruct Hy as (s & <- & Hs).
  exists s. split; auto. now apply cy_eqb_str.
Qed.

Lemma types_of_rows_snoc rows row :
  types_of_rows (rows ++ [row])
  = (if truthy (get "property_name" row)
     then dict_set (py_str (get "property_name" row))
            (get_or "property_type" (PStr "DataProperty") row) (types_of_rows rows)
     else types_of_rows rows).
Proof. unfold types_of_rows. now rewrite fold_left_app. Qed.

Lemma types_of_rows_last ps n :
  str_named ps -> n <> "" ->
  dict_get n (types_of_rows (map type_row ps))
  = match rev (filter (fun p => cy_eqb (prop "name" p) (PStr n)) ps) with
    | p :: _ => Some (prop "property_type" p)
    | [] => None
    end.
Proof.
  intros Hs Hn. induction ps as [|p ps IH] using rev_ind; [reflexivity|].
  assert (Hs' : str_named ps) by (intros q Hq; apply Hs, in_or_app; now left).
  specialize (IH Hs').
  destruct (Hs p) as [s Hp]; [apply in_or_app; right; now left|].
  rewrite map_app, filter_app, rev_app_distr. cbn [map filter].
  rewrite types_of_rows_snoc.
  change (get "property_name" (type_row p)) with (prop "name" p).
  change (get_or "property_type" (PStr "DataProperty") (type_row p))
    with (prop "property_type" p).
  rewrite Hp, cy_eqb_str_str. cbn [truthy py_str].
  destruct (String.eqb_spec s "") as [->|Hse]; cbn [negb].
  - destruct (String.eqb_spec "" n) as [E|_]; [congruence|]. exact IH.
  - rewrite dict_get_set. rewrite (String.eqb_sym n s).
    destruct (String.eqb s n); [reflexivity | exact IH].
Qed.

Lemma types_of_rows_no_empty ps :
  str_named ps -> dict_get "" (types_of_rows (map type_row ps)) = None.
Proof.
  intros Hs. induction ps as [|p ps IH] using rev_ind; [reflexivity|].
  assert (Hs' : str_named ps) by (intros q Hq; apply Hs, in_or_app; now left).
  destruct (Hs p) as [s Hp]; [apply in_or_app; right; now left|].
  rewrite map_app. cbn [map]. rewrite types_of_rows_snoc.
  change (get "property_name" (type_row p)) with (prop "name" p).
  rewrite Hp. cbn [truthy py_str].
  destruct (String.eqb_spec s "") as [->|Hse]; cbn [negb]; auto.
  rewrite dict_get_set_other; auto.
Qed.

Lemma types_of_rows_keys ps names k :
  (forall p, In p ps -> exists s, In s names /\ prop "name" p = PStr s) ->
  has_key k (types_of_rows (map type_row ps)) = true -> In k names.
Proof.
  intros Hs. induction ps as [|p ps IH] using rev_ind; [discriminate|].
  assert (Hs' : forall q, In q ps -> exists s, In s names /\ prop "name" q = PStr s)
    by (intros q Hq; apply Hs, in_or_app; now left).
  destruct (Hs p) as (s & Hin & Hp); [apply in_or_app; right; now left|].
  rewrite map_app. cbn [map]. rewrite types_of_rows_snoc.
  change (get "property_name" (type_row p)) with (prop "name" p).
  rewrite Hp. cbn [truthy py_str].
  destruct (negb (String.eqb s "")); auto.
  unfold has_key. rewrite dict_get_set.
  destruct (String.eqb_spec k s) as [->|]; auto.
Qed.

Lemma matching_str_named g names :
  forall p, In p (matching_properties g names) ->
            exists s, In s names /\ prop "name" p = PStr s.
Proof.
  intros p Hp. apply filter_In in Hp. destruct Hp as [_ Hp].
  apply andb_true_iff in Hp. destruct Hp as [_ Hp].
  now apply cy_in_strs.
Qed.

Lemma filter_filter {A} (f g : A -> bool) l :
  filter f (filter g l) = filter (fun x => g x && f x) l.
Proof.
  induction l as [|x l IH]; simpl; auto.
  destruct (g x); simpl; [destruct (f x); now rewrite IH | exact IH].
Qed.

Lemma matching_named g names n :
  In n names ->
  filter (fun p => cy_eqb (prop "name" p) (PStr n)) (matching_properties g names)
  = property_nodes g n.
Proof.
  intros Hin. unfold matching_properties, property_nodes.
  rewrite filter_filter. apply filter_ext. intros p.
  destruct (has_label "Property" p); simpl; auto.
  destruct (cy_eqb (prop "name" p) (PStr n)) eqn:E; [|now rewrite andb_false_r].
  rewrite andb_true_r. unfold cy_in. apply existsb_exists.
  exists (PStr n). split; [now apply in_map | exact E].
Qed.



Lemma defaults_keys names acc k :
  (has_key k acc = true -> In k names) ->
  (has_key k (defaults names acc) = true <-> In k names).
Proof.
  intros Hacc. split.
  - intros H. destruct (has_key k acc) eqn:Hk; auto.
    destruct (in_dec string_dec k names) as [|Hn]; auto.
    apply has_key_false in Hk. apply has_key_get in H. destruct H as [v Hv].
    rewrite defaults_only in Hv; auto; discriminate.
  - intros H. apply has_key_get.
    destruct (dict_get k acc) as [v|] eqn:E.
    + exists v. now apply defaults_keeps.
    + exists DP. now apply defaults_adds.
Qed.

(** C9 (as amended).  When the store answers, [_identify_property_types]
    returns a dictionary whose keys are exactly the names asked for.  A
    non-empty name that a [:Property] node bears gets the [property_type] of
    that node (of the last such node in store order); any other name -- one
    no property node bears, or the empty name -- gets ["DataProperty"], and a
    warning about it is logged.  The graph is left as it was. *)
Theorem identify_property_types_classifies (names : list string) (w : World) :
  hd None (w_faults w) = None ->
  exists d w',
    _identify_property_types names w = (Return d, w')
    /\ w_graph w' = w_graph w
    /\ (forall k, has_key k d = true <-> In k names)
    /\ (forall n, In n names ->
          match (if String.eqb n "" then []
                 else rev (property_nodes (w_graph w) n)) with
          | p :: _ => dict_get n d = Some (prop "property_type" p)
          | [] => dict_get n d = Some (PStr "DataProperty")
                  /\ In (not_found_warning n) (w_warnings w')
          end).
Proof.
  intros Hh. destruct names as [|n0 names'] eqn:En.
  - exists [], w. split; [reflexivity|]. split; [reflexivity|]. split.
    + intros k. split; [discriminate | intros []].
    + intros n [].
  - rewrite <- En. assert (Hne : names <> []) by (rewrite En; discriminate).
    clear En. destruct (identify_answered names w Hne Hh) as (extra & Hrun & Hlog).
    cbv zeta in Hrun, Hlog.
    set (ps := matching_properties (w_graph w) names) in *.
    set (acc := types_of_rows (map type_row ps)) in *.
    assert (Hstr : str_named ps).
    { intros p Hp. destruct (matching_str_named _ _ p Hp) as (s & _ & E). eauto. }
    eexists _, _. split; [exact Hrun|]. split; [reflexivity|]. split.
    + intros k. apply defaults_keys.
      apply types_of_rows_keys. apply matching_str_named.
    + intros n Hin. cbn [w_warnings].
      destruct (String.eqb_spec n "") as [->|Hn].
      * pose proof (types_of_rows_no_empty ps Hstr) as Hnone. fold acc in Hnone.
        split; [now apply defaults_adds|].
        apply in_or_app. right. apply Hlog; auto. now apply has_key_false.
      * pose proof (types_of_rows_last ps n Hstr Hn) as Hlast. fold acc in Hlast.
        unfold ps in Hlast. rewrite (matching_named _ _ _ Hin) in Hlast.
        destruct (rev (property_nodes (w_graph w) n)) as [|p rest].
        -- split; [now apply defaults_adds|].
           apply in_or_app. right. apply Hlog; auto. now apply has_key_false.
        -- now apply defaults_keeps.
Qed.

Lemma identify_property_types_classifies_witness :
  hd None (w_faults w_up) = None
  /\ fst (_identify_property_types ["owner"; "size"] w_up)
     = Return [("owner", PStr "ObjectProperty"); ("size", PStr "DataProperty")].
Proof.
  split; [reflexivity|].
  destruct (identify_property_types_classifies ["owner"; "size"] w_up eq_refl)
    as (d & w' & Hrun & _).
  vm_compute. reflexivity.
Defined.

(** C9 as stated fails for the empty name: a [:Property] node bears it, with
    type ["ObjectProperty"], and the name is classified ["DataProperty"]. *)
Lemma identify_property_types_empty_name :
  property_nodes (w_graph w_empty_name) "" = [ex_object_property 0 ""]
  /\ prop "property_type" (ex_object_property 0 "") = PStr "ObjectProperty"
  /\ fst (_identify_property_types [""] w_empty_name)
     = Return [("", PStr "DataProperty")].
Proof. vm_compute. repeat split. Qed.

(** C10.  When the store query of [_identify_property_types] raises, the
    method does not: it returns the dictionary that gives every requested
    name the type ["DataProperty"], and leaves the graph alone.  That is the
    very dictionary a store that answers returns when no [:Property] node
    bears any of the names. *)
Theorem identify_property_types_swallows_store_failure
    (names : list string) (w : World) (f : Fault) :
  hd None (w_faults w) = Some f ->
  exists w',
    _identify_property_types names w = (Return (all_data names), w')
    /\ w_graph w' = w_graph w
    /\ (forall k, has_key k (all_data names) = true <-> In k names)
    /\ (forall n, In n names ->
          dict_get n (all_data names) = Some (PStr "DataProperty"))
    /\ (forall w0, hd None (w_faults w0) = None ->
          matching_properties (w_graph w0) names = [] ->
          fst (_identify_property_types names w0) = Return (all_data names)).
Proof.
  intros Hf.
  assert (Hrest :
    (forall k, has_key k (all_data names) = true <-> In k names)
    /\ (forall n, In n names ->
          dict_get n (all_data names) = Some (PStr "DataProperty"))
    /\ (forall w0, hd None (w_faults w0) = None ->
          matching_properties (w_graph w0) names = [] ->
          fst (_identify_property_types names w0) = Return (all_data names))).
  { split; [apply all_data_keys|]. split; [apply all_data_get|].
    intros w0 H0 Hnone. destruct names as [|n0 names'] eqn:En; [reflexivity|].
    rewrite <- En in *. assert (Hne : names <> []) by (rewrite En; discriminate).
    destruct (identify_answered names w0 Hne H0) as (extra & Hrun & _).
    cbv zeta in Hrun. rewrite Hnone in Hrun. rewrite Hrun.
    cbn [fst map]. now rewrite all_data_defaults. }
  destruct names as [|n0 names'] eqn:En.
  - exists w. split; [reflexivity|]. split; [reflexivity | exact Hrest].
  - rewrite <- En in *. assert (Hne : names <> []) by (rewrite En; discriminate).
    eexists. split; [apply (identify_faulted names w f Hne Hf)|].
    split; [reflexivity | exact Hrest].
Qed.

Lemma identify_property_types_swallows_store_failure_witness :
  hd None (w_faults w_down) = Some (OtherError "connection refused")
  /\ fst (_identify_property_types ["owner"] w_down)
     = Return [("owner", PStr "DataProperty")].
Proof.
  split; [reflexivity|].
  destruct (identify_property_types_swallows_store_failure ["owner"] w_down _ eq_refl)
    as (w' & Hrun & _).
  rewrite Hrun. reflexivity.
Defined.



(** * substrings *)
Lemma prefix_app n a b : prefix n a = true -> prefix n (a ++ b) = true.
Proof.
  revert a. induction n as [|c n IH]; intros a H.
  - now destruct (a ++ b).
  - destruct a as [|c' a]; simpl in *; [discriminate|].
    destruct (ascii_dec c c'); [now apply IH | discriminate].
Qed.

Lemma contains_app_l n a b : contains n a = true -> contains n (a ++ b) = true.
Proof.
  induction a as [|c a IH]; intros H.
  - simpl in H. rewrite orb_false_r in H.
    destruct n; [|discriminate]. now destruct b.
  - cbn [contains] in H. apply orb_true_iff in H.
    change (String c a ++ b) with (String c (a ++ b)). cbn [contains].
    apply orb_true_iff. destruct H as [H|H].
    + left. now apply (prefix_app n (String c a) b).
    + right. now apply IH.
Qed.

Lemma contains_app_r n a b : contains n b = true -> contains n (a ++ b) = true.
Proof.
  intros H. induction a as [|c a IH]; [exact H|].
  change (String c a ++ b) with (String c (a ++ b)). cbn [contains].
  rewrite IH. apply orb_true_r.
Qed.

Lemma prefix_self s t : prefix s (s ++ t) = true.
Proof.
  induction s as [|c s IH]; cbn; [now destruct t|].
  destruct (ascii_dec c c); [exact IH | congruence].
Qed.

Lemma contains_self s t : contains s (s ++ t) = true.
Proof.
  destruct (s ++ t) eqn:E; cbn [contains]; rewrite <- E, prefix_self; reflexivity.
Qed.

Lemma concat_cons x xs : String.concat "" (x :: xs) = x ++ String.concat "" xs.
Proof. destruct xs; cbn; [|reflexivity]. induction x; cbn; congruence. Qed.

Lemma contains_concat s l : In s l -> contains s (String.concat "" l) = true.
Proof.
  induction l as [|x l IH]; intros H; [destruct H|].
  rewrite concat_cons. destruct H as [->|H].
  - apply contains_self.
  - apply contains_app_r. now apply IH.
Qed.

Lemma contains_in_concat s x l :
  In x l -> contains s x = true -> contains s (String.concat "" l) = true.
Proof.
  induction l as [|y l IH]; intros H Hs; [destruct H|].
  rewrite concat_cons. destruct H as [->|H].
  - now apply contains_app_l.
  - apply contains_app_r. now apply IH.
Qed.

(** * sorting *)
Lemma insert_by_perm {A} (leb : A -> A -> bool) x l :
  Permutation (insert_by leb x l) (x :: l).
Proof.
  induction l as [|y l IH]; simpl; auto.
  destruct (leb x y); auto.
  rewrite IH. apply perm_swap.
Qed.

Lemma sort_by_perm {A} (leb : A -> A -> bool) l : Permutation (sort_by leb l) l.
Proof.
  induction l as [|x l IH]; simpl; auto.
  rewrite insert_by_perm. now constructor.
Qed.

Lemma order_by_perm cols rows : Permutation (order_by cols rows) rows.
Proof. apply sort_by_perm. Qed.

Lemma order_by_length cols rows : length (order_by cols rows) = length rows.
Proof. apply Permutation_length, order_by_perm. Qed.

(** * [auto_detect_domain_label] *)
Lemma py_in_strs s labels : py_in (PStr s) (map PStr labels) = str_in s labels.
Proof.
  unfold py_in, str_in. induction labels as [|l labels IH]; [reflexivity|].
  cbn [existsb map]. now rewrite IH.
Qed.

Lemma find_same {A} (f g : A -> bool) l :
  (forall x, f x = g x) -> find f l = find g l.
Proof.
  intros H. induction l as [|x l IH]; simpl; auto.
  rewrite H. now destruct (g x).
Qed.

Lemma primary_label_found priority labels l :
  first_priority_label priority labels = Some l -> l <> "" ->
  primary_label_of priority (map PStr labels) = l.
Proof.
  unfold first_priority_label, primary_label_of. intros Hf Hl.
  rewrite (find_same _ (fun l => str_in l labels)) by (intros; apply py_in_strs).
  rewrite Hf. now destruct (String.eqb_spec l "").
Qed.

Lemma primary_label_fallback priority labels :
  first_priority_label priority labels = None ->
  primary_label_of priority (map PStr labels) = hd "Node" labels.
Proof.
  unfold first_priority_label, primary_label_of. intros Hf.
  rewrite (find_same _ (fun l => str_in l labels)) by (intros; apply py_in_strs).
  rewrite Hf. now destruct labels.
Qed.

Lemma find_nodes_by_name_answered name w :
  hd None (w_faults w) = None ->
  find_nodes_by_name name w
  = (Return (order_by ["labels"] (map found_row (named None (PStr name) (w_graph w)))),
     mkWorld (w_graph w) (tl (w_faults w)) (w_clock w) (w_warnings w)).
Proof.
  intros Hh. unfold find_nodes_by_name. apply try_return.
  apply (run_query_answer _ _
           (mkAnswer (order_by ["labels"]
                        (map found_row (named None (PStr name) (w_graph w))))
                     no_counters (w_graph w)) Hh eq_refl).
Qed.

(** C8.  When the store answers, [auto_detect_domain_label] goes by the number
    of nodes that bear the name, whatever their labels.  None: it raises
    "does not exist".  One: it returns a label of that node, found by going
    through the priority list in order -- the first entry the node bears; only
    when the node bears none of them is its first label returned (["Node"] when
    it has no label).  More: it raises "Multiple nodes found", a message that
    lists the labels of each node and asks for the [domain_label] parameter.
    The graph is left as it was. *)
Theorem auto_detect_domain_label_trichotomy
    (priority : list string) (domain_name : string) (w : World) :
  hd None (w_faults w) = None ->
  exists w',
    w_graph w' = w_graph w /\
    match named None (PStr domain_name) (w_graph w) with
    | [] =>
        auto_detect_domain_label priority domain_name w
        = (Raise ("❌ Domain '" ++ domain_name ++ "' does not exist in the graph"), w')
    | [n] =>
        exists label,
          auto_detect_domain_label priority domain_name w = (Return label, w')
          /\ (forall l, first_priority_label priority (n_labels n) = Some l ->
                        l <> "" -> label = l)
          /\ (first_priority_label priority (n_labels n) = None ->
              label = hd "Node" (n_labels n))
    | nodes =>
        exists msg,
          auto_detect_domain_label priority domain_name w = (Raise msg, w')
          /\ msg = conflict_message domain_name
                     (order_by ["labels"] (map found_row nodes))
          /\ contains "Multiple nodes found" msg = true
          /\ contains "Please specify 'domain_label' parameter to disambiguate." msg
             = true
    end.
Proof.
  intros Hh.
  exists (mkWorld (w_graph w) (tl (w_faults w)) (w_clock w) (w_warnings w)).
  split; [|
    pose proof (find_nodes_by_name_answered domain_name w Hh) as Hfind;
    pose proof (order_by_length ["labels"]
                  (map found_row (named None (PStr domain_name) (w_graph w)))) as Hlen;
    rewrite length_map in Hlen;
    destruct (named None (PStr domain_name) (w_graph w)) as [|n [|n2 rest]] eqn:En ].
  - reflexivity.
  - unfold auto_detect_domain_label. erewrite try_raise.
    2:{ rewrite (bind_return _ _ _ _ _ Hfind). reflexivity. }
    cbv beta.
    replace (contains "does not exist"
               ("❌ Domain '" ++ domain_name ++ "' does not exist in the graph"))
      with true; [now rewrite orb_true_r|].
    symmetry. apply contains_app_r, contains_app_r. reflexivity.
  - exists (primary_label_of priority (map PStr (n_labels n))).
    split; [|split].
    + unfold auto_detect_domain_label. apply try_return.
      rewrite (bind_return _ _ _ _ _ Hfind). reflexivity.
    + intros l Hl Hne. now apply primary_label_found.
    + apply primary_label_fallback.
  - set (rows := order_by ["labels"] (map found_row (n :: n2 :: rest))) in *.
    exists (conflict_message domain_name rows).
    assert (Hc : contains "Multiple nodes found" (conflict_message domain_name rows)
                 = true).
    { unfold conflict_message. apply contains_app_l. reflexivity. }
    assert (Hshape : exists r1 r2 rs, rows = r1 :: r2 :: rs).
    { destruct rows as [|r1 [|r2 rs]]; simpl in Hlen; try discriminate; eauto. }
    split; [|split; [reflexivity | split; [exact Hc|]]].
    + unfold auto_detect_domain_label.
      rewrite (try_raise _ _ _ (conflict_message domain_name rows)
                 (mkWorld (w_graph w) (tl (w_faults w)) (w_clock w) (w_warnings w))).
      * cbv beta. now rewrite Hc.
      * rewrite (bind_return _ _ _ _ _ Hfind).
        destruct Hshape as (r1 & r2 & rs & E). rewrite E. reflexivity.
    + unfold conflict_message.
      do 4 apply contains_app_r. apply contains_app_r. reflexivity.
Qed.

Lemma auto_detect_domain_label_trichotomy_witness :
  hd None (w_faults w_labels) = None
  /\ fst (auto_detect_domain_label default_labels "Table" w_labels) = Return "Concept"
  /\ fst (auto_detect_domain_label default_labels "gadget" w_labels) = Return "Widget".
Proof.
  split; [reflexivity|]. split.
  - destruct (auto_detect_domain_label_trichotomy default_labels "Table" w_labels eq_refl)
      as (w' & _ & H).
    change (named None (PStr "Table") (w_graph w_labels))
      with [mkNode 0 ["Table"; "Class"; "Concept"] [("name", PStr "Table")]] in H.
    destruct H as (label & Hrun & Hfirst & _).
    rewrite Hrun. cbn [fst]. f_equal. apply Hfirst; [reflexivity | discriminate].
  - destruct (auto_detect_domain_label_trichotomy default_labels "gadget" w_labels eq_refl)
      as (w' & _ & H).
    change (named None (PStr "gadget") (w_graph w_labels))
      with [mkNode 3 ["Widget"] [("name", PStr "gadget")]] in H.
    destruct H as (label & Hrun & _ & Hnone).
    rewrite Hrun. cbn [fst]. f_equal. apply Hnone. reflexivity.
Defined.



(** * reading methods on a healthy store *)
Lemma run_query_single_healthy q rows w :
  healthy w -> q (w_graph w) = inr (mkAnswer rows no_counters (w_graph w)) ->
  run_query_single q w = (Return (first_record rows), w).
Proof.
  intros H Hq. unfold run_query_single.
  rewrite (session_run_answer _ _ _ (f_equal (hd None) H) Hq).
  cbn [a_rows a_graph]. now rewrite healthy_eta.
Qed.

Lemma run_query_healthy q rows w :
  healthy w -> q (w_graph w) = inr (mkAnswer rows no_counters (w_graph w)) ->
  run_query q w = (Return rows, w).
Proof.
  intros H Hq. rewrite (run_query_answer _ _ _ (f_equal (hd None) H) Hq).
  cbn [a_rows a_graph]. now rewrite healthy_eta.
Qed.

Lemma check_name_exists_healthy name label w : healthy w ->
  check_name_exists name label w
  = (Return (negb (Nat.eqb (length (named (given label) name (w_graph w))) 0)), w).
Proof.
  intros H. unfold check_name_exists. apply try_return.
  unfold run_query_value.
  run (run_query_single_healthy (cy_name_exists (given label) name) _ w H eq_refl).
  reflexivity.
Qed.

Lemma get_existing_node_healthy name label w : healthy w ->
  get_existing_node name label w
  = (Return (first_node (named (given label) name (w_graph w))), w).
Proof.
  intros H. unfold get_existing_node. apply try_return.
  rewrite (bind_return _ _ _ _ _
             (run_query_single_healthy (cy_get_node (given label) name) _ w H eq_refl)).
  destruct (named (given label) name (w_graph w)); reflexivity.
Qed.

Lemma match_name_props labels v n :
  match_node labels [("name", v)] n = true -> n_props n <> [].
Proof.
  unfold match_node. intros H. apply andb_true_iff in H. destruct H as [_ H].
  cbn [forallb fst snd] in H. rewrite andb_true_r in H.
  unfold prop in H. destruct (n_props n); [discriminate|discriminate].
Qed.

Lemma named_props label name g n :
  In n (named label name g) -> n_props n <> [].
Proof.
  unfold named. intros H. apply filter_In in H. destruct H as [_ H].
  now apply match_name_props in H.
Qed.

Lemma first_node_truthy ns :
  (forall n, In n ns -> n_props n <> []) ->
  truthy (first_node ns) = negb (Nat.eqb (length ns) 0).
Proof.
  destruct ns as [|n ns]; [reflexivity|]. intros H.
  cbn [first_node node_py truthy length Nat.eqb negb].
  specialize (H n (or_introl eq_refl)). now destruct (n_props n).
Qed.

Lemma existing_truthy label name g :
  truthy (first_node (named label name g))
  = negb (Nat.eqb (length (named label name g)) 0).
Proof. apply first_node_truthy. intros n. apply named_props. Qed.

Lemma length_zero_iff {A} (l : list A) : Nat.eqb (length l) 0 = true <-> l = [].
Proof. destruct l; simpl; split; congruence. Qed.

(** C7 (as amended).  A rename to a different name, on a store that answers:
    when no node bears the old name under the label, [_rename_node] raises
    "not found for rename"; when one does and a node bears the new name under
    the same label, it raises "already exists".  Either way the graph is left
    as it was, so every node keeps its name and its properties.  A rename
    to the same name returns [no_op] and does not go to the store at all. *)
Theorem rename_node_checks_before_write (old_name label new_name : string) (w : World) :
  healthy w ->
  (old_name <> new_name ->
   named (given (Some label)) (PStr old_name) (w_graph w) = [] ->
   _rename_node old_name label new_name w
   = (Raise ("Node '" ++ old_name ++ "' with label '" ++ label
             ++ "' not found for rename"), w))
  /\ (old_name <> new_name ->
      named (given (Some label)) (PStr old_name) (w_graph w) <> [] ->
      named (given (Some label)) (PStr new_name) (w_graph w) <> [] ->
      _rename_node old_name label new_name w
      = (Raise ("Target name '" ++ new_name ++ "' already exists for label '"
                ++ label ++ "'"), w))
  /\ (old_name = new_name ->
      _rename_node old_name label new_name w
      = (Return [("records", PList []); ("nodes_created", PInt 0);
                 ("nodes_updated", PInt 0); ("properties_set", PInt 0);
                 ("status", PStr "no_op")], w)).
Proof.
  intros Hh. split; [|split].
  - intros Hne Hold. unfold _rename_node.
    apply String.eqb_neq in Hne. rewrite Hne.
    erewrite try_raise; [reflexivity|].
    rewrite (bind_return _ _ _ _ _ (get_existing_node_healthy _ _ w Hh)).
    rewrite existing_truthy, Hold. reflexivity.
  - intros Hne Hold Hnew. unfold _rename_node.
    apply String.eqb_neq in Hne. rewrite Hne.
    erewrite try_raise; [reflexivity|].
    rewrite (bind_return _ _ _ _ _ (get_existing_node_healthy _ _ w Hh)).
    rewrite existing_truthy.
    destruct (Nat.eqb (length (named (given (Some label)) (PStr old_name) (w_graph w))) 0)
      eqn:E; [apply length_zero_iff in E; contradiction|].
    cbn [negb].
    rewrite (bind_return _ _ _ _ _ (check_name_exists_healthy _ _ w Hh)).
    destruct (Nat.eqb (length (named (given (Some label)) (PStr new_name) (w_graph w))) 0)
      eqn:E'; [apply length_zero_iff in E'; contradiction|].
    reflexivity.
  - intros ->. unfold _rename_node. rewrite String.eqb_refl. reflexivity.
Qed.

Lemma rename_node_checks_before_write_witness :
  healthy w_xy
  /\ fst (_rename_node "x" "Instance" "y" w_xy)
     = Raise "Target name 'y' already exists for label 'Instance'"
  /\ fst (_rename_node "z" "Instance" "y" w_xy)
     = Raise "Node 'z' with label 'Instance' not found for rename"
  /\ w_graph (snd (_rename_node "x" "Instance" "y" w_xy)) = w_graph w_xy.
Proof.
  split; [reflexivity|].
  destruct (rename_node_checks_before_write "x" "Instance" "y" w_xy eq_refl)
    as (_ & Hxy & _).
  destruct (rename_node_checks_before_write "z" "Instance" "y" w_xy eq_refl)
    as (Hzy & _ & _).
  rewrite Hxy, Hzy; try discriminate; try reflexivity.
  repeat split.
Defined.

(** C7 as stated fails for a rename to the same name: a node with the target
    name exists under the label, and the call returns [no_op] instead of
    raising; it returns [no_op] as well when no node bears the name. *)
Lemma rename_node_same_name_is_no_op :
  named (Some "Instance") (PStr "x") (w_graph w_xy) = [ex_instance 0 "x" "Thing"]
  /\ fst (_rename_node "x" "Instance" "x" w_xy)
     = Return [("records", PList []); ("nodes_created", PInt 0);
               ("nodes_updated", PInt 0); ("properties_set", PInt 0);
               ("status", PStr "no_op")]
  /\ named (Some "Instance") (PStr "z") (w_graph w_xy) = []
  /\ fst (_rename_node "z" "Instance" "z" w_xy)
     = Return [("records", PList []); ("nodes_created", PInt 0);
               ("nodes_updated", PInt 0); ("properties_set", PInt 0);
               ("status", PStr "no_op")].
Proof. vm_compute. repeat split. Qed.



(** * [create_relationship] *)
Lemma healthy_with_graph w g : healthy w -> healthy (with_graph w g).
Proof. auto. Qed.

Lemma healthy_logged w extra : healthy w -> healthy (logged w extra).
Proof. auto. Qed.

Lemma execute_write_healthy q a w :
  healthy w -> q (w_graph w) = inr a ->
  execute_write q w
  = (Return (("records", PList (map PDict (a_rows a))) :: counters_dict (a_counters a)),
     with_graph w (a_graph a)).
Proof.
  intros H Hq. unfold execute_write.
  rewrite (session_run_answer _ _ _ (f_equal (hd None) H) Hq).
  unfold with_graph. now rewrite H.
Qed.

Lemma run_query_value_healthy q rows k w :
  healthy w -> q (w_graph w) = inr (mkAnswer rows no_counters (w_graph w)) ->
  k <> "" ->
  run_query_value q (Some k) w
  = (Return (match first_record rows with Some r => get k r | None => PNone end), w).
Proof.
  intros H Hq Hk. unfold run_query_value.
  run (run_query_single_healthy q rows w H Hq).
  apply String.eqb_neq in Hk. rewrite Hk.
  destruct (first_record rows); reflexivity.
Qed.

Lemma resolve_props_set x v params ps :
  existsb (fun kv => match snd kv with
                     | Param y => String.eqb y x
                     | Lit _ => false
                     end) ps = false ->
  resolve_props (dict_set x v params) ps = resolve_props params ps.
Proof.
  induction ps as [|[k [u|y]] ps IH]; intros H; [reflexivity| |].
  - cbn [existsb snd] in H. cbn [resolve_props]. now rewrite IH.
  - cbn [existsb snd] in H. apply orb_false_iff in H. destruct H as [Hy H].
    cbn [resolve_props]. rewrite dict_get_set, Hy, IH; auto.
Qed.

Lemma endpoint_pairs_single l1 p1 l2 p2 g a b :
  filter (match_node l1 p1) (g_nodes g) = [a] ->
  filter (match_node l2 p2) (g_nodes g) = [b] ->
  endpoint_pairs l1 p1 l2 p2 g = [(a, b)].
Proof. unfold endpoint_pairs. intros -> ->. reflexivity. Qed.

Lemma existsb_false_filter {A} (f : A -> bool) l :
  existsb f l = false -> filter f l = [].
Proof.
  induction l as [|x l IH]; simpl; auto.
  destruct (f x); simpl; [discriminate | exact IH].
Qed.

Section Endpoints.

Variables (from_q to_q : NodePattern) (T : string).
Variables (properties from_params to_params : option Dict).
Variables (props1 props2 : Dict) (a b : Node).

Hypothesis from_resolves :
  resolve_props (merged_params from_params to_params) (pat_props from_q) = inr props1.
Hypothesis to_resolves :
  resolve_props (merged_params from_params to_params) (pat_props to_q) = inr props2.
Hypothesis from_plain : uses_param "rel_props" from_q = false.
Hypothesis to_plain : uses_param "rel_props" to_q = false.

Lemma check_query_single g :
  filter (match_node (pat_labels from_q) props1) (g_nodes g) = [a] ->
  filter (match_node (pat_labels to_q) props2) (g_nodes g) = [b] ->
  cy_relationship_exists from_q to_q T (merged_params from_params to_params) g
  = inr (mkAnswer
           [[("relationship_exists",
              PBool (existsb (links T (n_id a) (n_id b)) (g_edges g)))]]
           no_counters g).
Proof.
  intros Ha Hb. unfold cy_relationship_exists, with_patterns.
  rewrite from_resolves, to_resolves.
  now rewrite (endpoint_pairs_single _ _ _ _ _ _ _ Ha Hb).
Qed.

Lemma check_single w :
  healthy w ->
  filter (match_node (pat_labels from_q) props1) (g_nodes (w_graph w)) = [a] ->
  filter (match_node (pat_labels to_q) props2) (g_nodes (w_graph w)) = [b] ->
  run_query_value (cy_relationship_exists from_q to_q T (merged_params from_params to_params))
                  (Some "relationship_exists") w
  = (Return (PBool (existsb (links T (n_id a) (n_id b)) (g_edges (w_graph w)))), w).
Proof.
  intros Hh Ha Hb.
  rewrite (run_query_value_healthy _ _ _ w Hh (check_query_single _ Ha Hb));
    [reflexivity | discriminate].
Qed.

Lemma create_query_single g :
  filter (match_node (pat_labels from_q) props1) (g_nodes g) = [a] ->
  filter (match_node (pat_labels to_q) props2) (g_nodes g) = [b] ->
  let params' :=
    if dict_truthy properties
    then dict_set "rel_props"
           (PDict (match properties with Some d => d | None => [] end))
           (merged_params from_params to_params)
    else merged_params from_params to_params in
  cy_create_relationship from_q to_q T
    (if dict_truthy properties then properties else None) params' g
  = inr (mkAnswer
           [[("r", edge_py (mkEdge (g_next g) (n_id a) T (n_id b) (rel_props_of properties)))]]
           (mkCounters 0 0 1 0 (1 * length (rel_props_of properties)) 0 0 0 0 0 0)
           (mkGraph (g_nodes g)
                    (g_edges g ++ [mkEdge (g_next g) (n_id a) T (n_id b) (rel_props_of properties)])
                    (g_next g + 1))).
Proof.
  intros Ha Hb params'. unfold cy_create_relationship, with_patterns.
  assert (R1 : resolve_props params' (pat_props from_q) = inr props1).
  { unfold params'. destruct (dict_truthy properties); auto.
    rewrite resolve_props_set; auto. }
  assert (R2 : resolve_props params' (pat_props to_q) = inr props2).
  { unfold params'. destruct (dict_truthy properties); auto.
    rewrite resolve_props_set; auto. }
  rewrite R1, R2. rewrite (endpoint_pairs_single _ _ _ _ _ _ _ Ha Hb).
  reflexivity.
Qed.

End Endpoints.

Lemma skipped_status msg : was_skipped_due_to_constraint (skipped msg) = true.
Proof. reflexivity. Qed.

Lemma existsb_true_filter {A} (f : A -> bool) l :
  existsb f l = true -> 1 <= length (filter f l).
Proof.
  induction l as [|x l IH]; cbn; [discriminate|].
  destruct (f x); cbn; [lia | exact IH].
Qed.





(** * [delete_object_by_name] *)
Lemma mem_nat_In x l : mem_nat x l = true <-> In x l.
Proof.
  unfold mem_nat. rewrite existsb_exists. split.
  - intros (y & Hy & E). apply Nat.eqb_eq in E. now subst.
  - intros H. exists x. split; auto. apply Nat.eqb_refl.
Qed.

Lemma node_by_id_spec g i n :
  unique_ids g -> (node_by_id g i = Some n <-> In n (g_nodes g) /\ n_id n = i).
Proof.
  unfold unique_ids, node_by_id. induction (g_nodes g) as [|m ns IH]; intros Hnd.
  - simpl. split; [discriminate | intros [[] _]].
  - cbn [map] in Hnd. inversion Hnd as [|? ? Hm Hns]; subst.
    cbn [find]. destruct (Nat.eqb_spec (n_id m) i) as [E|E].
    + split.
      * intros [= <-]. split; auto. now left.
      * intros [[<-|Hin] Hid]; auto.
        exfalso. apply Hm. rewrite E, <- Hid. now apply in_map.
    + rewrite (IH Hns). split.
      * intros [Hin Hid]. split; auto. now right.
      * intros [[<-|Hin] Hid]; [contradiction | auto].
Qed.

Lemma fields_of_ids g o i :
  unique_ids g ->
  In i (map n_id (fields_of g o)) <-> In i (map n_id (object_fields g o)).
Proof.
  intros Hu. rewrite !in_map_iff. unfold fields_of, object_fields. split.
  - intros (f & <- & Hf). apply in_flat_map in Hf. destruct Hf as (e & He & Hf).
    destruct (String.eqb (e_type e) "ISOBJECTFIELDOF" && Nat.eqb (e_dst e) (n_id o))
      eqn:Et; [|destruct Hf].
    destruct (node_by_id g (e_src e)) as [f'|] eqn:En; [|destruct Hf].
    destruct (match_node ["Instance"] [("instance_of", PStr "ObjectField")] f')
      eqn:Em; [|destruct Hf].
    destruct Hf as [<-|[]].
    apply (node_by_id_spec g _ _ Hu) in En. destruct En as [Hin Hid].
    exists f'. split; auto. apply filter_In. split; auto.
    rewrite Em. cbn [andb]. apply existsb_exists. exists e. split; auto.
    apply andb_true_iff in Et. destruct Et as [Et Ed].
    rewrite Et, Ed, Hid, Nat.eqb_refl. reflexivity.
  - intros (f & <- & Hf). apply filter_In in Hf. destruct Hf as [Hin Hf].
    apply andb_true_iff in Hf. destruct Hf as [Hm He].
    apply existsb_exists in He. destruct He as (e & He & Ht).
    apply andb_true_iff in Ht. destruct Ht as [Ht Hd].
    apply andb_true_iff in Ht. destruct Ht as [Ht Hs].
    apply Nat.eqb_eq in Hs.
    exists f. split; auto. apply in_flat_map. exists e. split; auto.
    rewrite Ht, Hd. cbn [andb].
    assert (En : node_by_id g (e_src e) = Some f)
      by (apply (node_by_id_spec g _ _ Hu); auto).
    rewrite En, Hm. now left.
Qed.

Lemma NoDup_map_filter {A B} (f : A -> B) (p : A -> bool) l :
  NoDup (map f l) -> NoDup (map f (filter p l)).
Proof.
  induction l as [|x l IH]; simpl; intros H; [constructor|].
  inversion H as [|? ? Hx Hl]; subst.
  destruct (p x); simpl; auto.
  constructor; auto. intros Hin. apply Hx.
  apply in_map_iff in Hin. destruct Hin as (y & E & Hy).
  apply filter_In in Hy. destruct Hy as [Hy _].
  rewrite <- E. now apply in_map.
Qed.

Lemma fields_count g o :
  unique_ids g ->
  length (nodup_nat (map n_id (fields_of g o))) = length (object_fields g o).
Proof.
  intros Hu. rewrite <- (length_map n_id (object_fields g o)).
  apply Permutation_length, NoDup_Permutation.
  - apply NoDup_nodup.
  - apply NoDup_map_filter, Hu.
  - intros i. unfold nodup_nat. rewrite nodup_In. now apply fields_of_ids.
Qed.

Lemma same_id_same_node (l : list Node) x y :
  NoDup (map n_id l) -> In x l -> In y l -> n_id x = n_id y -> x = y.
Proof.
  induction l as [|z l IH]; intros Hnd Hx Hy E; [destruct Hx|].
  cbn [map] in Hnd. inversion Hnd as [|? ? Hz Hl]; subst.
  destruct Hx as [<-|Hx], Hy as [<-|Hy]; auto.
  - exfalso. apply Hz. rewrite E. now apply in_map.
  - exfalso. apply Hz. rewrite <- E. now apply in_map.
Qed.

Lemma object_not_field g name o :
  unique_ids g -> In o (objects_named name g) ->
  ~ In (n_id o) (map n_id (object_fields g o)).
Proof.
  intros Hu Ho Hin. apply in_map_iff in Hin. destruct Hin as (f & E & Hf).
  apply filter_In in Ho. destruct Ho as [Ho Hm].
  apply filter_In in Hf. destruct Hf as [Hf Hm'].
  assert (f = o) by (apply (same_id_same_node (g_nodes g)); auto). subst f.
  apply andb_true_iff in Hm'. destruct Hm' as [Hm' _].
  unfold match_node in Hm, Hm'. cbn [forallb fst snd] in Hm, Hm'.
  rewrite !andb_true_r in Hm, Hm'.
  apply andb_true_iff in Hm. destruct Hm as [_ Hm].
  apply andb_true_iff in Hm. destruct Hm as [_ Hm].
  apply andb_true_iff in Hm'. destruct Hm' as [_ Hm'].
  apply cy_eqb_str in Hm. rewrite Hm in Hm'. discriminate.
Qed.

Lemma doomed_ids g o i :
  unique_ids g ->
  In i (nodup_nat (map n_id ([o] ++ flat_map (fields_of g) [o])))
  <-> In i (deleted_ids g o).
Proof.
  intros Hu. unfold nodup_nat, deleted_ids. rewrite nodup_In.
  cbn [flat_map app map]. rewrite app_nil_r. cbn [In].
  now rewrite (fields_of_ids g o i Hu).
Qed.

Lemma deleted_ids_NoDup g name o :
  unique_ids g -> In o (objects_named name g) -> NoDup (deleted_ids g o).
Proof.
  intros Hu Ho. constructor.
  - now apply (object_not_field g name).
  - apply NoDup_map_filter, Hu.
Qed.

Lemma deleted_ids_exist g name o i :
  In o (objects_named name g) -> In i (deleted_ids g o) ->
  In i (map n_id (g_nodes g)).
Proof.
  intros Ho [<-|Hi].
  - apply in_map. apply filter_In in Ho. tauto.
  - apply in_map_iff in Hi. destruct Hi as (f & <- & Hf).
    apply in_map. apply filter_In in Hf. tauto.
Qed.

Lemma nodes_deleted_count g name o doomed :
  unique_ids g -> In o (objects_named name g) ->
  (forall i, In i doomed <-> In i (deleted_ids g o)) ->
  length (filter (fun n => mem_nat (n_id n) doomed) (g_nodes g))
  = S (length (object_fields g o)).
Proof.
  intros Hu Ho Hd.
  rewrite <- (length_map n_id (filter _ _)).
  transitivity (length (deleted_ids g o)).
  - apply Permutation_length, NoDup_Permutation.
    + apply NoDup_map_filter, Hu.
    + now apply (deleted_ids_NoDup g name).
    + intros i. rewrite in_map_iff. split.
      * intros (n & <- & Hn). apply filter_In in Hn. destruct Hn as [_ Hn].
        apply Hd. now apply mem_nat_In.
      * intros Hi. pose proof (deleted_ids_exist g name o i Ho Hi) as Hex.
        apply in_map_iff in Hex. destruct Hex as (n & <- & Hn).
        exists n. split; auto. apply filter_In. split; auto.
        apply mem_nat_In. now apply Hd.
  - unfold deleted_ids. cbn [length]. now rewrite length_map.
Qed.

(** C5.  On a store that answers, where node identifiers identify and [o] is
    the [Object] instance of the name: [delete_object_by_name] returns status
    [deleted] and a [fields_count] that is the number [N] of distinct
    [ObjectField] instances linked to [o] by [ISOBJECTFIELDOF]; it reports
    [N + 1] nodes deleted.  The graph afterwards is what the one
    [DETACH DELETE] query makes of the graph before: [o] and those [N] nodes are
    gone with every relationship that touched one of them, and every other
    node and relationship is still there. *)
Theorem delete_object_cascades
    (object_name : string) (fail_if_not_found : bool) (w : World) (o : Node) :
  healthy w ->
  unique_ids (w_graph w) ->
  objects_named (PStr object_name) (w_graph w) = [o] ->
  exists r w' a,
    delete_object_by_name object_name fail_if_not_found w = (Return r, w')
    /\ dict_get "status" r = Some (PStr "deleted")
    /\ dict_get "fields_count" r
       = Some (PNat (length (object_fields (w_graph w) o)))
    /\ dict_get "nodes_deleted" r
       = Some (PNat (S (length (object_fields (w_graph w) o))))
    /\ cy_object_delete (PStr object_name) (w_graph w) = inr a
    /\ w_graph w' = a_graph a
    /\ (forall n, In n (g_nodes (w_graph w')) <->
                  In n (g_nodes (w_graph w))
                  /\ ~ In (n_id n) (deleted_ids (w_graph w) o))
    /\ (forall e, In e (g_edges (w_graph w')) <->
                  In e (g_edges (w_graph w))
                  /\ ~ In (e_src e) (deleted_ids (w_graph w) o)
                  /\ ~ In (e_dst e) (deleted_ids (w_graph w) o)).
Proof.
  intros Hh Hu Ho.
  set (g := w_graph w) in *.
  assert (Hin : In o (objects_named (PStr object_name) g)) by (rewrite Ho; now left).
  set (doomed := nodup_nat (map n_id ([o] ++ flat_map (fields_of g) [o]))).
  assert (Hd : forall i, In i doomed <-> In i (deleted_ids g o))
    by (intros i; now apply doomed_ids).
  assert (Hq : cy_object_delete (PStr object_name) g
               = inr (mkAnswer []
                       (mkCounters 0
                          (length (filter (fun n => mem_nat (n_id n) doomed) (g_nodes g)))
                          0
                          (length (filter (fun e => mem_nat (e_src e) doomed
                                                    || mem_nat (e_dst e) doomed)
                                          (g_edges g)))
                          0 0 0 0 0 0 0)
                       (mkGraph
                          (filter (fun n => negb (mem_nat (n_id n) doomed)) (g_nodes g))
                          (filter (fun e => negb (mem_nat (e_src e) doomed
                                                  || mem_nat (e_dst e) doomed))
                                  (g_edges g))
                          (g_next g)))).
  { unfold cy_object_delete. fold g. now rewrite Ho. }
  assert (Hc : cy_object_counts (PStr object_name) g
               = inr (mkAnswer
                        [[("objects_count", PInt 1);
                          ("fields_count",
                           PNat (length (nodup_nat
                                   (map n_id (flat_map (fields_of g) [o])))))]]
                        no_counters g)).
  { unfold cy_object_counts, reading. now rewrite Ho. }
  assert (He : cy_object_exists (PStr object_name) g
               = inr (mkAnswer [[("exists", PBool true)]] no_counters g)).
  { unfold cy_object_exists, reading. now rewrite Ho. }
  eexists _, _, _. split.
  { unfold delete_object_by_name. apply try_return.
    rewrite (bind_return _ _ _ _ _
               (run_query_value_healthy _ _ "exists" w Hh He ltac:(discriminate))).
    cbn [first_record length Nat.eqb get dict_get String.eqb truthy negb].
    change (get "exists" [("exists", PBool true)]) with (PBool true).
    cbn [truthy negb].
    rewrite (bind_return _ _ _ _ _ (run_query_single_healthy _ _ w Hh Hc)).
    rewrite (bind_return _ _ _ _ _ (execute_write_healthy _ _ w Hh Hq)).
    reflexivity. }
  split; [reflexivity|]. split.
  { cbn [first_record length Nat.eqb].
    change (dict_get "fields_count" ?d) with
      (Some (PNat (length (nodup_nat (map n_id (flat_map (fields_of g) [o])))))).
    cbn [flat_map]. rewrite app_nil_r. now rewrite (fields_count g o Hu). }
  split.
  { cbn [a_rows a_counters a_graph].
    change (dict_get "nodes_deleted" ?d) with
      (Some (PNat (length (filter (fun n => mem_nat (n_id n) doomed) (g_nodes g))))).
    now rewrite (nodes_deleted_count g (PStr object_name) o doomed Hu Hin Hd). }
  split; [exact Hq|]. split; [reflexivity|]. split.
  - intros n. cbn [with_graph w_graph a_graph g_nodes]. rewrite filter_In.
    rewrite negb_true_iff, <- not_true_iff_false, mem_nat_In, Hd. reflexivity.
  - intros e. cbn [with_graph w_graph a_graph g_edges]. rewrite filter_In.
    rewrite negb_true_iff, orb_false_iff, <- !not_true_iff_false, !mem_nat_In, !Hd.
    reflexivity.
Qed.

Lemma delete_object_cascades_witness :
  healthy w_object
  /\ unique_ids (w_graph w_object)
  /\ exists r w',
       delete_object_by_name "orders" true w_object = (Return r, w')
       /\ dict_get "status" r = Some (PStr "deleted")
       /\ dict_get "fields_count" r = Some (PInt 3)
       /\ dict_get "nodes_deleted" r = Some (PInt 4)
       /\ map n_id (g_nodes (w_graph w')) = [4; 5; 6]
       /\ map e_id (g_edges (w_graph w')) = [4; 6].
Proof.
  assert (Hu : unique_ids (w_graph w_object)).
  { unfold unique_ids. cbn.
    repeat (constructor;
            [cbn; intros H; repeat (destruct H as [H|H]; [discriminate|]); exact H|]).
    constructor. }
  split; [reflexivity|]. split; [exact Hu|].
  destruct (delete_object_cascades "orders" true w_object
              (ex_instance 0 "orders" "Object") eq_refl Hu eq_refl)
    as (r & w' & a & Hrun & Hstatus & Hfields & Hnodes & _).
  exists r, w'. split; [exact Hrun|]. split; [exact Hstatus|].
  split; [rewrite Hfields; reflexivity|]. split; [rewrite Hnodes; reflexivity|].
  assert (E : w' = snd (delete_object_by_name "orders" true w_object))
    by (now rewrite Hrun).
  rewrite E. vm_compute. split; reflexivity.
Defined.



(** * [get_required_properties_for_concept] *)
Lemma py_set_hashable xs w :
  forallb hashable xs = true -> py_set xs w = (Return xs, w).
Proof.
  induction xs as [|x xs IH]; intros H; [reflexivity|].
  cbn [forallb] in H. apply andb_true_iff in H. destruct H as [Hx Hxs].
  cbn [py_set]. rewrite Hx. run (IH Hxs). reflexivity.
Qed.

Lemma not_overridden_hashable names rows w :
  forallb (fun r => hashable (get "property_name" r)) rows = true ->
  not_overridden names rows w = (Return (filter (keeps names) rows), w).
Proof.
  induction rows as [|r rows IH]; intros H; [reflexivity|].
  cbn [forallb] in H. apply andb_true_iff in H. destruct H as [Hr Hrows].
  cbn [not_overridden filter]. unfold in_set at 1. rewrite Hr.
  rewrite bind_ret.
  run (IH Hrows).
  change (keeps names r) with (negb (py_in (get "property_name" r) names)).
  now destruct (py_in (get "property_name" r) names).
Qed.

Lemma missing_of_hashable names rows w :
  forallb (fun r => hashable (get "property_name" r)) rows = true ->
  missing_of names rows w = (Return (map prop_info (filter (keeps names) rows)), w).
Proof.
  induction rows as [|r rows IH]; intros H; [reflexivity|].
  cbn [forallb] in H. apply andb_true_iff in H. destruct H as [Hr Hrows].
  cbn [missing_of filter]. unfold in_set at 1. rewrite Hr.
  rewrite bind_ret.
  run (IH Hrows).
  change (keeps names r) with (negb (py_in (get "property_name" r) names)).
  now destruct (py_in (get "property_name" r) names).
Qed.

Lemma flat_map_map {A B C} (f : B -> C) (g : A -> list B) l :
  flat_map (fun x => map f (g x)) l = map f (flat_map g l).
Proof.
  induction l as [|x l IH]; simpl; auto. now rewrite IH, map_app.
Qed.

Lemma direct_query g label C :
  cy_direct_required label (PStr C) g
  = inr (mkAnswer
           (order_by ["property_name"]
              (map (required_row "direct" (PStr C)) (direct_declarations g label C)))
           no_counters g).
Proof.
  unfold cy_direct_required, reading, direct_declarations.
  now rewrite flat_map_map.
Qed.

Lemma inherited_query g label C :
  cy_inherited_required label (PStr C) g
  = inr (mkAnswer (inherited_rows g label C) no_counters g).
Proof. reflexivity. Qed.

Lemma row_name kind src rp :
  get "property_name" (required_row kind src rp) = prop "name" (snd rp).
Proof. now destruct rp. Qed.

Lemma row_kind kind src rp :
  get "inheritance_type" (required_row kind src rp) = PStr kind.
Proof. now destruct rp. Qed.

Lemma row_source kind src rp :
  get "source_concept" (required_row kind src rp) = src.
Proof. now destruct rp. Qed.

Lemma required_of_property g i r p :
  In (r, p) (required_of g i) ->
  In p (g_nodes g) /\ has_label "Property" p = true.
Proof.
  unfold required_of. intros H. apply in_flat_map in H. destruct H as (e & _ & H).
  destruct (_ && _); [|destruct H].
  destruct (node_by_id g (e_dst e)) as [q|] eqn:En; [|destruct H].
  destruct (has_label "Property" q) eqn:El; [|destruct H].
  destruct H as [[= <- <-]|[]]. split; auto.
  unfold node_by_id in En. now apply find_some in En.
Qed.

Lemma direct_declarations_property g label C r p :
  In (r, p) (direct_declarations g label C) ->
  In p (g_nodes g) /\ has_label "Property" p = true.
Proof.
  unfold direct_declarations. intros H. apply in_flat_map in H.
  destruct H as (c & _ & H). now apply required_of_property in H.
Qed.

Lemma distinct_incl rows r : In r (distinct rows) -> In r rows.
Proof.
  revert r. induction rows as [|x rows IH]; intros r H; [destruct H|].
  cbn [distinct] in H. destruct H as [<-|H]; [now left|].
  right. apply IH. apply filter_In in H. tauto.
Qed.

Lemma inherited_rows_shape g label C row :
  In row (inherited_rows g label C) ->
  exists src r p, row = required_row "inherited" src (r, p)
                  /\ In p (g_nodes g) /\ has_label "Property" p = true.
Proof.
  unfold inherited_rows, cy_inherited_required, reading. cbn [a_rows].
  intros H. apply (Permutation_in _ (order_by_perm _ _)) in H.
  apply distinct_incl in H.
  apply in_flat_map in H. destruct H as (c & _ & H).
  apply in_flat_map in H. destruct H as (t & _ & H).
  destruct (node_by_id g (fst t)) as [parent|]; [|destruct H].
  apply in_flat_map in H. destruct H as ([r p] & Hrp & H).
  destruct (declared_between g (n_id c) parent (snd (r, p))); [destruct H|].
  destruct H as [<-|[]].
  exists (prop "name" parent), r, p. split; auto.
  now apply required_of_property in Hrp.
Qed.

Lemma required_properties_healthy C label w :
  healthy w -> hashable_names (w_graph w) ->
  get_required_properties_for_concept C label true w
  = (Return
       (order_by ["property_name"]
          (map (required_row "direct" (PStr C))
               (direct_declarations (w_graph w) label C))
        ++ filter (keeps (map (get "property_name")
                        (order_by ["property_name"]
                           (map (required_row "direct" (PStr C))
                                (direct_declarations (w_graph w) label C)))))
                  (inherited_rows (w_graph w) label C))%list, w).
Proof.
  intros Hh Hn. unfold get_required_properties_for_concept. apply try_return.
  run (run_query_healthy _ _ w Hh (direct_query (w_graph w) label C)).
  run (run_query_healthy _ _ w Hh (inherited_query (w_graph w) label C)).
  assert (Hd : forallb hashable
                 (map (get "property_name")
                    (order_by ["property_name"]
                       (map (required_row "direct" (PStr C))
                          (direct_declarations (w_graph w) label C)))) = true).
  { apply forallb_forall. intros v Hv. apply in_map_iff in Hv.
    destruct Hv as (row & <- & Hrow).
    apply (Permutation_in _ (order_by_perm _ _)) in Hrow.
    apply in_map_iff in Hrow. destruct Hrow as ([r p] & <- & Hrp).
    rewrite row_name. apply direct_declarations_property in Hrp.
    now apply Hn. }
  assert (Hi : forallb (fun r => hashable (get "property_name" r))
                 (inherited_rows (w_graph w) label C) = true).
  { apply forallb_forall. intros row Hrow.
    apply inherited_rows_shape in Hrow. destruct Hrow as (src & r & p & -> & Hp & Hl).
    rewrite row_name. now apply Hn. }
  run (py_set_hashable _ w Hd).
  run (not_overridden_hashable
         (map (get "property_name")
            (order_by ["property_name"]
               (map (required_row "direct" (PStr C))
                  (direct_declarations (w_graph w) label C)))) _ w Hi).
  reflexivity.
Qed.

Lemma py_eqb_str v s : py_eqb v (PStr s) = true -> v = PStr s.
Proof.
  destruct v; cbn; try discriminate.
  intros H. apply String.eqb_eq in H. now subst.
Qed.

Lemma py_eqb_str_refl s : py_eqb (PStr s) (PStr s) = true.
Proof. cbn. apply String.eqb_refl. Qed.

Lemma filter_perm_length {A} (f : A -> bool) l l' :
  Permutation l l' -> length (filter f l) = length (filter f l').
Proof.
  induction 1 as [|x l l' _ IH|x y l|l l' l'' _ IH1 _ IH2]; cbn; auto.
  - destruct (f x); cbn; auto.
  - destruct (f x), (f y); reflexivity.
  - congruence.
Qed.

Lemma filter_named_rows X kind src decls :
  filter (row_named X) (map (required_row kind src) decls)
  = map (required_row kind src) (filter (declares X) decls).
Proof.
  induction decls as [|rp decls IH]; [reflexivity|].
  cbn [map filter]. unfold row_named at 1. rewrite row_name.
  fold (declares X rp). destruct (declares X rp); cbn [map]; now rewrite IH.
Qed.

Lemma keeps_spec names row v :
  keeps names row = true -> In v names -> py_eqb (get "property_name" row) v = false.
Proof.
  unfold keeps, py_in. intros H Hv. apply negb_true_iff in H.
  destruct (py_eqb (get "property_name" row) v) eqn:E; auto.
  assert (existsb (py_eqb (get "property_name" row)) names = true)
    by (apply existsb_exists; eauto).
  congruence.
Qed.

Lemma length_one {A} (l : list A) : length l = 1 -> exists x, l = [x].
Proof. destruct l as [|x [|y l]]; try discriminate. eauto. Qed.

(** C2.  On a store that answers and whose property names can go into a set,
    [get_required_properties_for_concept] with [include_inherited = True]
    returns: every required property the concept declares itself, tagged
    [direct] with the concept as [source_concept]; and of the rows of the
    inherited query only those whose name is the name of no direct property --
    whatever the distance of the ancestor.  So a property [X] that the
    concept declares once itself is in the result exactly once, tagged [direct]
    and sourced from the concept, also when an ancestor declares it too. *)
Theorem required_properties_direct_wins (C label : string) (w : World) :
  healthy w ->
  hashable_names (w_graph w) ->
  exists rows,
    get_required_properties_for_concept C label true w = (Return rows, w)
    /\ (forall rp, In rp (direct_declarations (w_graph w) label C) ->
          In (required_row "direct" (PStr C) rp) rows)
    /\ (forall row, In row rows ->
          (get "inheritance_type" row = PStr "direct"
           /\ get "source_concept" row = PStr C
           /\ exists rp, In rp (direct_declarations (w_graph w) label C)
                         /\ row = required_row "direct" (PStr C) rp)
          \/ (get "inheritance_type" row = PStr "inherited"
              /\ In row (inherited_rows (w_graph w) label C)
              /\ forall rp, In rp (direct_declarations (w_graph w) label C) ->
                   py_eqb (get "property_name" row) (prop "name" (snd rp)) = false))
    /\ (forall X,
          length (filter (declares X) (direct_declarations (w_graph w) label C)) = 1 ->
          exists row,
            filter (row_named X) rows = [row]
            /\ get "inheritance_type" row = PStr "direct"
            /\ get "source_concept" row = PStr C).
Proof.
  intros Hh Hn. eexists. split; [apply (required_properties_healthy C label w Hh Hn)|].
  set (decls := direct_declarations (w_graph w) label C).
  set (D := order_by ["property_name"] (map (required_row "direct" (PStr C)) decls)).
  set (names := map (get "property_name") D).
  assert (HD : Permutation D (map (required_row "direct" (PStr C)) decls))
    by apply order_by_perm.
  assert (Hnames : forall rp, In rp decls -> In (prop "name" (snd rp)) names).
  { intros rp Hrp. unfold names. apply in_map_iff.
    exists (required_row "direct" (PStr C) rp). split; [apply row_name|].
    apply (Permutation_in _ (Permutation_sym HD)). now apply in_map. }
  split; [|split].
  - intros rp Hrp. apply in_or_app. left.
    apply (Permutation_in _ (Permutation_sym HD)). now apply in_map.
  - intros row Hrow. apply in_app_or in Hrow. destruct Hrow as [Hrow|Hrow].
    + left. apply (Permutation_in _ HD) in Hrow. apply in_map_iff in Hrow.
      destruct Hrow as (rp & <- & Hrp).
      rewrite row_kind, row_source. repeat split; eauto.
    + right. apply filter_In in Hrow. destruct Hrow as [Hrow Hk].
      destruct (inherited_rows_shape _ _ _ _ Hrow) as (src & r & p & E & _).
      split; [rewrite E; apply row_kind|]. split; [exact Hrow|].
      intros rp Hrp. apply (keeps_spec names); auto.
  - intros X HX. rewrite filter_app.
    assert (HK : filter (row_named X)
                   (filter (keeps names) (inherited_rows (w_graph w) label C)) = []).
    { destruct (length_one _ HX) as (rp & Erp).
      assert (Hrp : In rp decls /\ declares X rp = true).
      { apply filter_In. fold decls in Erp. rewrite Erp. now left. }
      destruct Hrp as [Hrp HrpX]. apply py_eqb_str in HrpX.
      destruct (filter (row_named X) _) as [|row rest] eqn:E; [reflexivity|].
      exfalso.
      assert (Hrow : In row (filter (row_named X)
                         (filter (keeps names) (inherited_rows (w_graph w) label C))))
        by (rewrite E; now left).
      apply filter_In in Hrow. destruct Hrow as [Hrow HrowX].
      apply filter_In in Hrow. destruct Hrow as [_ Hk].
      apply py_eqb_str in HrowX.
      pose proof (keeps_spec names row _ Hk (Hnames rp Hrp)) as Hne.
      rewrite HrowX, HrpX, py_eqb_str_refl in Hne. discriminate. }
    rewrite HK, app_nil_r.
    assert (Hlen : length (filter (row_named X) D) = 1).
    { rewrite (filter_perm_length _ _ _ HD), filter_named_rows, length_map.
      exact HX. }
    destruct (length_one _ Hlen) as (row & Erow). exists row. split; [exact Erow|].
    assert (Hrow : In row D).
    { assert (In row (filter (row_named X) D)) by (rewrite Erow; now left).
      apply filter_In in H. tauto. }
    apply (Permutation_in _ HD) in Hrow. apply in_map_iff in Hrow.
    destruct Hrow as (rp & <- & _). now rewrite row_kind, row_source.
Qed.

Lemma w_schema_hashable : hashable_names (w_graph w_schema).
Proof.
  intros p Hp _. cbn in Hp.
  repeat (destruct Hp as [<-|Hp]; [reflexivity|]). destruct Hp.
Qed.

Lemma required_properties_direct_wins_witness :
  healthy w_schema
  /\ hashable_names (w_graph w_schema)
  /\ length (filter (declares "a") (direct_declarations g_schema "Class" "Table")) = 1
  /\ length (filter (row_named "a") (inherited_rows g_schema "Class" "Table")) = 1
  /\ exists rows row,
       get_required_properties_for_concept "Table" "Class" true w_schema
       = (Return rows, w_schema)
       /\ filter (row_named "a") rows = [row]
       /\ get "inheritance_type" row = PStr "direct"
       /\ get "source_concept" row = PStr "Table".
Proof.
  pose proof w_schema_hashable as Hn.
  split; [reflexivity|]. split; [exact Hn|]. split; [reflexivity|].
  split; [reflexivity|].
  destruct (required_properties_direct_wins "Table" "Class" w_schema eq_refl Hn)
    as (rows & Hrun & _ & _ & Honce).
  destruct (Honce "a" eq_refl) as (row & Hrow & Hkind & Hsrc).
  exists rows, row. repeat split; assumption.
Defined.



(** * [validate_instance_properties] *)
Lemma required_rows_healthy C label w :
  healthy w -> hashable_names (w_graph w) ->
  get_required_properties_for_concept C label true w
  = (Return (required_rows (w_graph w) label C), w).
Proof. apply required_properties_healthy. Qed.

Lemma required_rows_shape g label C row :
  In row (required_rows g label C) ->
  exists kind src r p,
    row = required_row kind src (r, p)
    /\ (kind = "direct" \/ kind = "inherited")
    /\ In p (g_nodes g) /\ has_label "Property" p = true.
Proof.
  unfold required_rows, direct_rows. intros H. apply in_app_or in H.
  destruct H as [H|H].
  - apply (Permutation_in _ (order_by_perm _ _)) in H. apply in_map_iff in H.
    destruct H as ([r p] & <- & Hrp). apply direct_declarations_property in Hrp.
    exists "direct", (PStr C), r, p. tauto.
  - apply filter_In in H. destruct H as [H _].
    apply inherited_rows_shape in H. destruct H as (src & r & p & -> & Hp).
    exists "inherited", src, r, p. tauto.
Qed.

Lemma required_rows_hashable g label C :
  hashable_names g ->
  forallb (fun r => hashable (get "property_name" r)) (required_rows g label C) = true.
Proof.
  intros Hn. apply forallb_forall. intros row Hrow.
  apply required_rows_shape in Hrow.
  destruct Hrow as (kind & src & r & p & -> & _ & Hp & Hl).
  rewrite row_name. now apply Hn.
Qed.

Lemma prop_info_fields kind src rp :
  get "name" (prop_info (required_row kind src rp)) = prop "name" (snd rp)
  /\ get "inheritance_type" (prop_info (required_row kind src rp)) = PStr kind
  /\ get "source_concept" (prop_info (required_row kind src rp)) = src
  /\ get "default_value" (prop_info (required_row kind src rp))
     = get "default_value" (e_props (fst rp)).
Proof. destruct rp. repeat split. Qed.

Lemma missing_message_marked label C md mi a b c d e :
  contains "Missing required properties" (missing_message label C md mi a b c d e)
  = true.
Proof. unfold missing_message. apply contains_app_l. reflexivity. Qed.

Lemma missing_names names rows :
  map (get "name") (map prop_info (filter (keeps names) rows))
  = filter (fun n => negb (py_in n names)) (map (get "property_name") rows).
Proof.
  induction rows as [|r rs IH]; [reflexivity|].
  cbn [filter map]. unfold keeps at 1.
  destruct (py_in (get "property_name" r) names); cbn [negb map]; now rewrite IH.
Qed.

Lemma missing_direct_listed label C md mi a b c d e m s :
  In m md -> contains s (direct_line m) = true ->
  contains s (missing_message label C md mi a b c d e) = true.
Proof.
  intros Hin Hs. unfold missing_message.
  do 6 apply contains_app_r. apply contains_app_l.
  destruct md as [|m0 md]; [destruct Hin|].
  do 5 apply contains_app_r.
  apply contains_in_concat with (x := direct_line m); [|exact Hs].
  now apply in_map.
Qed.

Lemma missing_inherited_listed label C md mi a b c d e m s :
  In m mi -> contains s (inherited_line m) = true ->
  contains s (missing_message label C md mi a b c d e) = true.
Proof.
  intros Hin Hs. unfold missing_message.
  do 7 apply contains_app_r. apply contains_app_l.
  destruct mi as [|m0 mi]; [destruct Hin|].
  do 5 apply contains_app_r.
  apply contains_in_concat with (x := inherited_line m); [|exact Hs].
  now apply in_map.
Qed.

Lemma direct_line_named m :
  contains (py_str (get "name" m)) (direct_line m) = true.
Proof. unfold direct_line. apply contains_app_r. apply contains_self. Qed.

Lemma inherited_line_named m :
  contains (py_str (get "name" m)) (inherited_line m) = true.
Proof. unfold inherited_line. apply contains_app_r. apply contains_self. Qed.

Lemma line_self s : contains s s = true.
Proof.
  assert (E : s ++ "" = s) by (induction s; cbn; congruence).
  rewrite <- E at 2. apply contains_self.
Qed.

(** C3.  On a store that answers and whose property names can go into a set.
    The required properties of the concept (direct and inherited) whose name is
    not a key of [provided_properties] are the missing ones.  When there is
    none, [validate_instance_properties] returns [valid = True].  When there
    are some, it raises; the message is built from all of them, not from the
    first: each is listed among the missing direct or the missing inherited
    properties with its name, its declaring concept and its default value, and
    nothing else is listed.  The text of the message has a line for every one
    of them, the line of a direct property or that of an inherited one, and
    so it names every one.  So for a concept that requires [a], [b] and [c]
    and a call that provides [a] alone, the missing ones are [b] and [c]. *)
Theorem validate_reports_all_missing
    (C label : string) (provided : Dict) (w : World) :
  healthy w ->
  hashable_names (w_graph w) ->
  let rows := required_rows (w_graph w) label C in
  let missing := map prop_info (missing_rows (w_graph w) label C provided) in
  let msg := missing_message label C
               (filter (of_kind "direct") missing)
               (filter (of_kind "inherited") missing)
               (length rows)
               (length (filter (of_kind "direct") rows))
               (length (filter (of_kind "inherited") rows))
               (length (nodup_str (keys provided)))
               (length missing) in
  get_required_properties_for_concept C label true w = (Return rows, w)
  /\ map (get "name") missing
     = filter (fun n => negb (py_in n (map PStr (nodup_str (keys provided)))))
              (map (get "property_name") rows)
  /\ (missing = [] ->
      exists result,
        validate_instance_properties C provided label true w = (Return result, w)
        /\ get "valid" result = PBool true)
  /\ (missing <> [] ->
      validate_instance_properties C provided label true w = (Raise msg, w))
  /\ (forall row, In row (missing_rows (w_graph w) label C provided) ->
        validate_instance_properties C provided label true w = (Raise msg, w)
        /\ contains (py_str (get "property_name" row)) msg = true
        /\ ((of_kind "direct" (prop_info row) = true
             /\ contains (direct_line (prop_info row)) msg = true)
            \/ (of_kind "inherited" (prop_info row) = true
                /\ contains (inherited_line (prop_info row)) msg = true)))
  /\ (forall row, In row (missing_rows (w_graph w) label C provided) ->
        (In (prop_info row) (filter (of_kind "direct") missing)
         \/ In (prop_info row) (filter (of_kind "inherited") missing))
        /\ get "name" (prop_info row) = get "property_name" row
        /\ get "source_concept" (prop_info row) = get "source_concept" row
        /\ get "default_value" (prop_info row) = get "default_value" row)
  /\ (forall m, In m (filter (of_kind "direct") missing
                      ++ filter (of_kind "inherited") missing) ->
        exists row, In row (missing_rows (w_graph w) label C provided)
                    /\ m = prop_info row)
  /\ (forall a b c,
        map (get "property_name") rows = [PStr a; PStr b; PStr c] ->
        keys provided = [a] -> a <> b -> a <> c ->
        map (get "name") missing = [PStr b; PStr c]).
Proof.
  intros Hh Hn rows missing msg.
  pose proof (required_rows_healthy C label w Hh Hn) as Hreq. fold rows in Hreq.
  pose proof (required_rows_hashable (w_graph w) label C Hn) as Hhash. fold rows in Hhash.
  assert (Hmiss : missing_of (map PStr (nodup_str (keys provided))) rows w
                  = (Return missing, w))
    by (apply missing_of_hashable; exact Hhash).
  split; [exact Hreq|]. split.
  { apply missing_names. }
  assert (Hraise : missing <> [] ->
            validate_instance_properties C provided label true w = (Raise msg, w)).
  { intros Hsome.
    assert (Hlen : Nat.eqb (length missing) 0 = false)
      by (destruct missing; [congruence | reflexivity]).
    unfold validate_instance_properties.
    rewrite (try_raise _ _ _ msg w).
    + cbv beta. unfold msg. now rewrite missing_message_marked.
    + run Hreq. run Hmiss.
      unfold get at 1. cbn [dict_get]. rewrite String.eqb_refl.
      cbn [truthy]. rewrite Hlen. reflexivity. }
  assert (Hlisted : forall row,
            In row (missing_rows (w_graph w) label C provided) ->
            (In (prop_info row) (filter (of_kind "direct") missing)
             \/ In (prop_info row) (filter (of_kind "inherited") missing))
            /\ get "name" (prop_info row) = get "property_name" row
            /\ get "source_concept" (prop_info row) = get "source_concept" row
            /\ get "default_value" (prop_info row) = get "default_value" row).
  { intros row Hrow.
    assert (Hin : In row rows) by (apply filter_In in Hrow; tauto).
    destruct (required_rows_shape _ _ _ _ Hin) as (kind & src & r & p & -> & Hk & _).
    destruct (prop_info_fields kind src (r, p)) as (En & Ek & Es & Ed).
    split.
    + assert (Hm : In (prop_info (required_row kind src (r, p))) missing)
        by (now apply in_map).
      destruct Hk as [->| ->]; [left|right]; apply filter_In; split; auto;
        unfold of_kind; rewrite Ek; reflexivity.
    + rewrite En, Es, Ed, row_name, row_source. repeat split. }
  split; [|split; [exact Hraise|split; [|split; [exact Hlisted|split]]]].
  - intros Hnil. eexists. split.
    + unfold validate_instance_properties. apply try_return.
      run Hreq. run Hmiss. rewrite Hnil. reflexivity.
    + reflexivity.
  - intros row Hrow.
    assert (Hsome : missing <> []).
    { unfold missing. intros E. apply map_eq_nil in E.
      rewrite E in Hrow. destruct Hrow. }
    split; [exact (Hraise Hsome)|].
    destruct (Hlisted row Hrow) as (Hkind & Ename & _).
    rewrite <- Ename. unfold msg.
    destruct Hkind as [Hd|Hi].
    + split; [exact (missing_direct_listed _ _ _ _ _ _ _ _ _ _ _ Hd
                       (direct_line_named _))|].
      left. split; [apply filter_In in Hd; tauto|].
      exact (missing_direct_listed _ _ _ _ _ _ _ _ _ _ _ Hd (line_self _)).
    + split; [exact (missing_inherited_listed _ _ _ _ _ _ _ _ _ _ _ Hi
                       (inherited_line_named _))|].
      right. split; [apply filter_In in Hi; tauto|].
      exact (missing_inherited_listed _ _ _ _ _ _ _ _ _ _ _ Hi (line_self _)).
  - intros m Hm. apply in_app_or in Hm.
    assert (Hin : In m missing) by (destruct Hm as [Hm|Hm]; apply filter_In in Hm; tauto).
    apply in_map_iff in Hin. destruct Hin as (row & <- & Hrow). eauto.
  - intros a b c Hrows Hkeys Hab Hac.
    unfold missing, missing_rows. fold rows. rewrite missing_names, Hrows, Hkeys.
    cbn [nodup_str filter map py_in existsb py_eqb]. rewrite orb_false_r.
    rewrite String.eqb_refl. cbn [negb].
    apply String.eqb_neq in Hab, Hac.
    rewrite (String.eqb_sym b a), (String.eqb_sym c a), Hab, Hac. reflexivity.
Qed.

Lemma validate_reports_all_missing_witness :
  healthy w_schema
  /\ hashable_names (w_graph w_schema)
  /\ map (get "property_name") (required_rows g_schema "Class" "Table")
     = [PStr "a"; PStr "b"; PStr "c"]
  /\ map (get "name")
         (map prop_info (missing_rows g_schema "Class" "Table" [("a", PInt 1)]))
     = [PStr "b"; PStr "c"]
  /\ (exists msg,
       validate_instance_properties "Table" [("a", PInt 1)] "Class" true w_schema
       = (Raise msg, w_schema)
       /\ contains "b (DataProperty) [default: 5]" msg = true
       /\ contains "c (ObjectProperty) - from 'Base'" msg = true
       /\ contains "Missing: 2 properties" msg = true)
  /\ map (get "name")
         (map prop_info (missing_rows g_schema "Class" "Table" []))
     = [PStr "a"; PStr "b"; PStr "c"]
  /\ exists msg,
       validate_instance_properties "Table" [] "Class" true w_schema
       = (Raise msg, w_schema)
       /\ (forall row, In row (missing_rows g_schema "Class" "Table" []) ->
             contains (py_str (get "property_name" row)) msg = true)
       /\ contains "Missing Direct Properties (2)" msg = true
       /\ contains "  • a (" msg = true
       /\ contains "  • b (" msg = true
       /\ contains "  • c (" msg = true
       /\ contains "Missing: 3 properties" msg = true.
Proof.
  split; [reflexivity|]. split; [exact w_schema_hashable|].
  split; [reflexivity|]. split; [reflexivity|].
  split; [|split; [reflexivity|]].
  - destruct (validate_reports_all_missing "Table" "Class" [("a", PInt 1)] w_schema
                eq_refl w_schema_hashable)
      as (_ & _ & _ & Hraise & _).
    eexists. split; [apply Hraise; discriminate|].
    vm_compute. repeat split.
  - destruct (validate_reports_all_missing "Table" "Class" [] w_schema
                eq_refl w_schema_hashable)
      as (_ & _ & _ & Hraise & Hnamed & _).
    eexists. split; [apply Hraise; discriminate|].
    split; [intros row Hrow; exact (proj1 (proj2 (Hnamed row Hrow)))|].
    vm_compute. repeat split.
Defined.



(** * computations that only read *)
Lemma reads_ret {A} (a : A) : reads (ret a).
Proof. intros w. split; auto. Qed.

Lemma reads_raise {A} e : reads (@raise A e).
Proof. intros w. split; auto. Qed.

Lemma reads_warn msg : reads (warn msg).
Proof. intros w. split; auto. Qed.

Lemma reads_bind {A B} (m : M A) (k : A -> M B) :
  reads m -> (forall a, reads (k a)) -> reads (bind m k).
Proof.
  intros Hm Hk w. unfold bind. specialize (Hm w).
  destruct (m w) as [[a|e] w1]; cbn [snd] in *; [|exact Hm].
  destruct (Hk a w1) as [Hg Hh]. destruct Hm as [Hg1 Hh1].
  split; [congruence | auto].
Qed.

Lemma reads_try {A} (m : M A) h :
  reads m -> (forall e, reads (h e)) -> reads (try_except m h).
Proof.
  intros Hm Hh w. unfold try_except. specialize (Hm w).
  destruct (m w) as [[a|e] w1]; cbn [snd] in *; [exact Hm|].
  destruct (Hh e w1) as [Hg Hh']. destruct Hm as [Hg1 Hh1].
  split; [congruence | auto].
Qed.

Lemma reads_fold_m {A S} (xs : list A) (body : S -> A -> M S) :
  (forall acc x, reads (body acc x)) -> forall acc, reads (fold_m xs acc body).
Proof.
  intros Hb. induction xs as [|x xs IH]; intros acc; cbn [fold_m].
  - apply reads_ret.
  - apply reads_bind; auto.
Qed.

Lemma healthy_tl w g c l : healthy w -> healthy (mkWorld g (tl (w_faults w)) c l).
Proof. unfold healthy. cbn. now intros ->. Qed.

Lemma session_run_reads q w :
  read_only q ->
  w_graph (snd (session_run q w)) = w_graph w
  /\ (healthy w -> healthy (snd (session_run q w))).
Proof.
  intros Hq. unfold session_run.
  destruct (hd None (w_faults w)); [split; [reflexivity | apply healthy_tl]|].
  destruct (q (w_graph w)) as [e|a] eqn:E; cbn [snd w_graph].
  - split; [reflexivity | apply healthy_tl].
  - split; [now apply Hq | apply healthy_tl].
Qed.

Lemma reads_run_query q : read_only q -> reads (run_query q).
Proof.
  intros Hq w. unfold run_query. pose proof (session_run_reads q w Hq) as H.
  destruct (session_run q w) as [[f|a] w1]; exact H.
Qed.

Lemma reads_run_query_single q : read_only q -> reads (run_query_single q).
Proof.
  intros Hq w. unfold run_query_single. pose proof (session_run_reads q w Hq) as H.
  destruct (session_run q w) as [[f|a] w1]; exact H.
Qed.

Lemma reads_run_query_value q key : read_only q -> reads (run_query_value q key).
Proof.
  intros Hq. unfold run_query_value. apply reads_bind.
  - now apply reads_run_query_single.
  - intros [r|]; [|apply reads_ret].
    destruct key as [k|]; [destruct (negb (String.eqb k ""))|]; apply reads_ret.
Qed.

Lemma read_only_reading rows : read_only (reading rows).
Proof. intros g a [= <-]. reflexivity. Qed.

Lemma reads_check_name_exists name label : reads (check_name_exists name label).
Proof.
  unfold check_name_exists. apply reads_try; [|intros; apply reads_raise].
  apply reads_bind; [|intros; apply reads_ret].
  apply reads_run_query_value, read_only_reading.
Qed.

Lemma reads_get_existing_node name label : reads (get_existing_node name label).
Proof.
  unfold get_existing_node. apply reads_try; [|intros; apply reads_raise].
  apply reads_bind; [|intros; apply reads_ret].
  apply reads_run_query_single, read_only_reading.
Qed.

Lemma reads_find_nodes_by_name name : reads (find_nodes_by_name name).
Proof.
  unfold find_nodes_by_name. apply reads_try; [|intros; apply reads_raise].
  apply reads_run_query, read_only_reading.
Qed.

Lemma reads_auto_detect priority name : reads (auto_detect_domain_label priority name).
Proof.
  unfold auto_detect_domain_label. apply reads_try.
  - apply reads_bind; [apply reads_find_nodes_by_name|].
    intros [|n [|n2 rest]]; try apply reads_raise. apply reads_ret.
  - intros e. destruct (_ || _); apply reads_raise.
Qed.

Lemma reads_identify names : reads (_identify_property_types names).
Proof.
  unfold _identify_property_types. apply reads_try; [|intros; apply reads_ret].
  destruct names as [|n names]; [apply reads_ret|].
  apply reads_bind; [apply reads_run_query, read_only_reading|].
  intros rows. apply reads_fold_m. intros acc x. unfold default_to_data.
  destruct (negb (has_key x acc)); [|apply reads_ret].
  apply reads_bind; [apply reads_warn | intros; apply reads_ret].
Qed.

Lemma reads_py_set xs : reads (py_set xs).
Proof.
  induction xs as [|x xs IH]; cbn [py_set]; [apply reads_ret|].
  destruct (hashable x); [|apply reads_raise].
  apply reads_bind; auto. intros; apply reads_ret.
Qed.

Lemma reads_in_set x s : reads (in_set x s).
Proof. unfold in_set. destruct (hashable x); [apply reads_ret | apply reads_raise]. Qed.

Lemma reads_not_overridden names rows : reads (not_overridden names rows).
Proof.
  induction rows as [|r rows IH]; cbn [not_overridden]; [apply reads_ret|].
  apply reads_bind; [apply reads_in_set|]. intros hit.
  apply reads_bind; auto. intros; apply reads_ret.
Qed.

Lemma reads_missing_of names rows : reads (missing_of names rows).
Proof.
  induction rows as [|r rows IH]; cbn [missing_of]; [apply reads_ret|].
  apply reads_bind; [apply reads_in_set|]. intros hit.
  apply reads_bind; auto. intros; apply reads_ret.
Qed.

Lemma reads_get_required C label inc :
  reads (get_required_properties_for_concept C label inc).
Proof.
  unfold get_required_properties_for_concept.
  apply reads_try; [|intros; apply reads_raise].
  apply reads_bind; [apply reads_run_query, read_only_reading|]. intros D.
  destruct inc; [|apply reads_ret].
  apply reads_bind; [apply reads_run_query, read_only_reading|]. intros I.
  apply reads_bind; [apply reads_py_set|]. intros s.
  apply reads_bind; [apply reads_not_overridden|]. intros; apply reads_ret.
Qed.

Lemma reads_validate C provided label inc :
  reads (validate_instance_properties C provided label inc).
Proof.
  unfold validate_instance_properties. apply reads_try.
  - apply reads_bind; [apply reads_get_required|]. intros rows.
    apply reads_bind; [apply reads_missing_of|]. intros missing.
    destruct (negb _); [apply reads_raise | apply reads_ret].
  - intros e. destruct (contains _ e); apply reads_raise.
Qed.

Lemma reads_validate_targets obj : reads (_validate_object_property_targets obj).
Proof.
  unfold _validate_object_property_targets. apply reads_try.
  - apply reads_bind.
    + apply reads_fold_m. intros acc pt.
      apply reads_bind; [apply reads_check_name_exists|]. intros b.
      destruct (negb b); [|apply reads_ret].
      apply reads_bind; [apply reads_warn | intros; apply reads_ret].
    + intros [|m ms]; [apply reads_ret | apply reads_raise].
  - intros e. destruct (contains _ e); apply reads_raise.
Qed.

(** * the steps of [create_instance_node] *)
Lemma reads_resolve_concept priority i C label auto :
  reads (resolve_concept priority i C label auto).
Proof.
  unfold resolve_concept. destruct auto; [|apply reads_ret].
  apply reads_bind.
  - destruct (given label); [apply reads_ret | apply reads_auto_detect].
  - intros l. apply reads_bind; [apply reads_get_existing_node|].
    intros n. destruct (negb (truthy n)); [apply reads_raise | apply reads_ret].
Qed.

Lemma reads_classify properties : reads (classify_properties properties).
Proof.
  unfold classify_properties. destruct (dict_truthy properties); [|apply reads_ret].
  apply reads_bind; [apply reads_identify | intros; apply reads_ret].
Qed.

Lemma reads_check_required v C properties label :
  reads (check_required_properties v C properties label).
Proof.
  unfold check_required_properties.
  destruct (v && dict_truthy properties);
    [apply reads_bind; [apply reads_validate | intros; apply reads_ret]|].
  destruct v; [|apply reads_ret].
  apply reads_bind; [apply reads_validate | intros; apply reads_ret].
Qed.

Lemma reads_check_targets auto obj : reads (check_object_property_targets auto obj).
Proof.
  unfold check_object_property_targets.
  destruct (auto && nonempty obj); [apply reads_validate_targets | apply reads_ret].
Qed.



(** * [create_instance_node] on an instance that exists *)
Lemma reads_preserves {A} g (m : M A) : reads m -> preserves g m.
Proof. intros H w <-. apply H. Qed.

Lemma preserves_bind {A B} g (m : M A) (k : A -> M B) :
  preserves g m -> (forall a, preserves g (k a)) -> preserves g (bind m k).
Proof.
  intros Hm Hk w Hw. unfold bind. specialize (Hm w Hw).
  destruct (m w) as [[a|e] w1]; cbn [snd] in *; [|exact Hm].
  now apply Hk.
Qed.

Lemma preserves_try_raise {A} g (m : M A) (f : string -> string) :
  preserves g m -> preserves g (try_except m (fun e => raise (f e))).
Proof.
  intros Hm w Hw. unfold try_except. specialize (Hm w Hw).
  destruct (m w) as [[a|e] w1]; exact Hm.
Qed.

Lemma get_existing_node_cases name label w :
  (exists e w', get_existing_node name label w = (Raise e, w')
                /\ w_graph w' = w_graph w)
  \/ (exists w', get_existing_node name label w
                 = (Return (first_node (named (given label) name (w_graph w))), w')
                 /\ w_graph w' = w_graph w /\ (healthy w -> healthy w')).
Proof.
  unfold get_existing_node, try_except, bind, run_query_single, session_run.
  destruct (hd None (w_faults w)) as [f|].
  - left. eexists _, _. split; reflexivity.
  - right. cbn [cy_get_node reading a_rows a_graph].
    exists (mkWorld (w_graph w) (tl (w_faults w)) (w_clock w) (w_warnings w)).
    split; [|split; [reflexivity | apply healthy_tl]].
    destruct (named (given label) name (w_graph w)); reflexivity.
Qed.

Lemma preserves_existing_branch {A} g name label (k_some k_none : Py -> M A) :
  named (given label) name g <> [] ->
  (forall n, preserves g (k_some n)) ->
  preserves g (bind (get_existing_node name label)
                    (fun n => if truthy n then k_some n else k_none n)).
Proof.
  intros Hex Hk w Hw. unfold bind.
  destruct (get_existing_node_cases name label w)
    as [(e & w' & -> & Hg)|(w' & -> & Hg & _)]; cbn [snd].
  - congruence.
  - rewrite existing_truthy, Hw.
    destruct (Nat.eqb (length (named (given label) name g)) 0) eqn:E;
      [apply length_zero_iff in E; contradiction|].
    cbn [negb]. apply Hk. congruence.
Qed.

Lemma reads_existing_no_update n i C properties v label auto data obj :
  reads (existing_instance n i C properties false v label auto data obj).
Proof.
  unfold existing_instance. cbn [andb].
  destruct (rename_requested _ i); [apply reads_raise | apply reads_ret].
Qed.

(** C6.  [create_instance_node] with [allow_update = False] for an instance
    that exists.  Whatever else happens, the graph is afterwards what it was
    before: no node, property or relationship is written.  When the store
    answers, the validations pass (the concept, the required properties, the
    targets of the ObjectProperties) and no rename is asked for, the call
    returns the existing node with status [already_exists] and
    [nodes_created], [nodes_updated] and [properties_set] all 0. *)
Theorem create_existing_instance_unchanged
    (priority : list string) (instance_name concept_type : string)
    (properties : option Dict) (additional_labels : option (list string))
    (validate_required_properties : bool) (concept_label : option string)
    (auto_create_relationship auto_create_object_property_relationships : bool)
    (w : World) :
  named (Some "Instance") (PStr instance_name) (w_graph w) <> [] ->
  w_graph (snd (create_instance_node priority instance_name concept_type
                  properties additional_labels false validate_required_properties
                  concept_label auto_create_relationship
                  auto_create_object_property_relationships w))
  = w_graph w
  /\ forall label w1 buckets w2 w3 w4,
       healthy w ->
       rename_requested (requested_name properties) instance_name = false ->
       resolve_concept priority instance_name concept_type concept_label
         auto_create_relationship w = (Return label, w1) ->
       classify_properties properties w1 = (Return buckets, w2) ->
       check_required_properties validate_required_properties concept_type
         properties label w2 = (Return tt, w3) ->
       check_object_property_targets auto_create_object_property_relationships
         (snd buckets) w3 = (Return tt, w4) ->
       exists result,
         create_instance_node priority instance_name concept_type
           properties additional_labels false validate_required_properties
           concept_label auto_create_relationship
           auto_create_object_property_relationships w
         = (Return result, w4)
         /\ result = already_exists
                       (first_node (named (Some "Instance") (PStr instance_name)
                                          (w_graph w)))
         /\ dict_get "status" result = Some (PStr "already_exists")
         /\ dict_get "nodes_created" result = Some (PInt 0)
         /\ dict_get "nodes_updated" result = Some (PInt 0)
         /\ dict_get "properties_set" result = Some (PInt 0).
Proof.
  intros Hex. split.
  - unfold create_instance_node.
    apply (preserves_try_raise (w_graph w)); [|reflexivity].
    apply preserves_bind; [apply reads_preserves, reads_resolve_concept|]. intros label.
    apply preserves_bind; [apply reads_preserves, reads_classify|]. intros buckets.
    apply preserves_bind; [apply reads_preserves, reads_check_required|]. intros _.
    apply preserves_bind; [apply reads_preserves, reads_check_targets|]. intros _.
    apply (preserves_existing_branch (w_graph w) (PStr instance_name) (Some "Instance"));
      [exact Hex|].
    intros n. apply reads_preserves, reads_existing_no_update.
  - intros label w1 buckets w2 w3 w4 Hh Hren H1 H2 H3 H4.
    destruct (reads_resolve_concept priority instance_name concept_type concept_label
                auto_create_relationship w) as [G1 L1].
    destruct (reads_classify properties w1) as [G2 L2].
    destruct (reads_check_required validate_required_properties concept_type
                properties label w2) as [G3 L3].
    destruct (reads_check_targets auto_create_object_property_relationships
                (snd buckets) w3) as [G4 L4].
    rewrite H1 in G1, L1. rewrite H2 in G2, L2. rewrite H3 in G3, L3.
    rewrite H4 in G4, L4. cbn [snd] in *.
    assert (Hh4 : healthy w4) by auto.
    assert (Hg4 : w_graph w4 = w_graph w) by congruence.
    eexists. split; [|split; [reflexivity | repeat split]].
    unfold create_instance_node. apply try_return.
    run H1. run H2. run H3. run H4.
    run (get_existing_node_healthy (PStr instance_name) (Some "Instance") w4 Hh4).
    rewrite existing_truthy, Hg4.
    destruct (Nat.eqb (length (named (given (Some "Instance")) (PStr instance_name)
                                     (w_graph w))) 0) eqn:E;
      [apply length_zero_iff in E; contradiction|].
    cbn [negb]. unfold existing_instance. cbn [andb]. rewrite Hren. reflexivity.
Qed.

Lemma create_existing_instance_unchanged_witness :
  named (Some "Instance") (PStr "t1") (w_graph w_with_t1) <> []
  /\ healthy w_with_t1
  /\ w_graph (snd (create_instance_node default_labels "t1" "Table"
                     (Some [("a", PInt 1); ("b", PInt 2); ("c", PStr "db1")])
                     None false true None true true w_with_t1))
     = w_graph w_with_t1
  /\ exists result,
       create_instance_node default_labels "t1" "Table"
         (Some [("a", PInt 1); ("b", PInt 2); ("c", PStr "db1")])
         None false true None true true w_with_t1
       = (Return result, w_with_t1)
       /\ dict_get "status" result = Some (PStr "already_exists")
       /\ dict_get "nodes_created" result = Some (PInt 0)
       /\ dict_get "nodes_updated" result = Some (PInt 0)
       /\ dict_get "properties_set" result = Some (PInt 0).
Proof.
  assert (Hex : named (Some "Instance") (PStr "t1") (w_graph w_with_t1) <> [])
    by (vm_compute; discriminate).
  destruct (create_existing_instance_unchanged default_labels "t1" "Table"
              (Some [("a", PInt 1); ("b", PInt 2); ("c", PStr "db1")])
              None true None true true w_with_t1 Hex) as [Hgraph Hret].
  split; [exact Hex|]. split; [reflexivity|]. split; [exact Hgraph|].
  destruct (Hret (Some "Class") w_with_t1
              ([("a", PInt 1); ("b", PInt 2)], [("c", PStr "db1")])
              w_with_t1 w_with_t1 w_with_t1
              eq_refl eq_refl)
    as (result & Hrun & _ & Hs & Hc & Hu & Hp);
    try (vm_compute; reflexivity).
  exists result. repeat split; assumption.
Defined.



(** * the targets of ObjectProperties *)
Lemma healthy_logged_eq w extra :
  healthy w ->
  mkWorld (w_graph w) (tl (w_faults w)) (w_clock w) (w_warnings w ++ extra)
  = logged w extra.
Proof. unfold healthy, logged. now intros ->. Qed.

Lemma matching_none g : matching_properties g [] = [].
Proof.
  unfold matching_properties. induction (g_nodes g) as [|n ns IH]; [reflexivity|].
  cbn [filter map cy_in existsb]. now rewrite andb_false_r.
Qed.

Lemma identify_healthy names w :
  healthy w ->
  exists extra,
    _identify_property_types names w
    = (Return (property_types_of (w_graph w) names), logged w extra).
Proof.
  intros Hh. destruct names as [|n rest] eqn:En.
  - exists []. rewrite logged_nil. unfold property_types_of.
    now rewrite matching_none.
  - rewrite <- En. assert (Hne : names <> []) by (rewrite En; discriminate).
    destruct (identify_answered names w Hne (f_equal (hd None) Hh))
      as (extra & Hrun & _).
    exists extra. cbv zeta in Hrun. rewrite Hrun.
    now rewrite (healthy_logged_eq w extra Hh).
Qed.

Lemma classify_healthy properties w :
  healthy w ->
  exists buckets extra,
    classify_properties properties w = (Return buckets, logged w extra)
    /\ snd buckets = object_properties_of (w_graph w) properties.
Proof.
  intros Hh. unfold classify_properties, object_properties_of.
  destruct (dict_truthy properties).
  - destruct (identify_healthy
                (filter (fun p => negb (String.eqb p "name"))
                        (keys match properties with Some d => d | None => [] end))
                w Hh) as (extra & Hrun).
    eexists _, extra. split; [run Hrun; reflexivity | reflexivity].
  - exists ([], []), []. rewrite logged_nil. split; reflexivity.
Qed.

Lemma fold_targets targets : forall acc w,
  healthy w ->
  fold_m targets acc
    (fun missing_targets pt =>
       target_exists <- check_name_exists (snd pt) (Some "Instance") ;;
       if negb target_exists then
         warn ("ObjectProperty target not found: " ++ fst pt ++ " -> "
               ++ py_str (snd pt)) ;;;
         ret (missing_targets ++ [pt])%list
       else ret missing_targets) w
  = (Return (acc ++ filter (target_missing (w_graph w)) targets)%list,
     logged w (map target_warning (filter (target_missing (w_graph w)) targets))).
Proof.
  induction targets as [|pt targets IH]; intros acc w Hh.
  - cbn [fold_m filter map]. now rewrite app_nil_r, logged_nil.
  - cbn [fold_m filter].
    rewrite bind_bind.
    run (check_name_exists_healthy (snd pt) (Some "Instance") w Hh).
    change (Nat.eqb (length (named (given (Some "Instance")) (snd pt) (w_graph w))) 0)
      with (target_missing (w_graph w) pt).
    rewrite negb_involutive.
    destruct (target_missing (w_graph w) pt).
    + rewrite bind_bind. rewrite (bind_return _ _ _ _ _ (warn_logged _ w)).
      rewrite bind_ret. rewrite (IH _ _ (healthy_logged _ _ Hh)).
      cbn [logged w_graph map]. rewrite logged_logged, <- app_assoc. reflexivity.
    + rewrite bind_ret. now rewrite (IH _ _ Hh).
Qed.

Lemma missing_targets_marked missing :
  contains "ObjectProperty validation failed" (missing_targets_message missing) = true.
Proof. unfold missing_targets_message. apply contains_app_l. reflexivity. Qed.

Lemma validate_targets_missing obj w :
  healthy w -> missing_targets (w_graph w) obj <> [] ->
  _validate_object_property_targets obj w
  = (Raise (missing_targets_message (missing_targets (w_graph w) obj)),
     logged w (map target_warning (missing_targets (w_graph w) obj))).
Proof.
  intros Hh Hm. unfold _validate_object_property_targets.
  rewrite (try_raise _ _ _ (missing_targets_message (missing_targets (w_graph w) obj))
             (logged w (map target_warning (missing_targets (w_graph w) obj)))).
  - cbv beta. now rewrite missing_targets_marked.
  - run (fold_targets (all_targets obj) [] w Hh). cbn [app].
    fold (missing_targets (w_graph w) obj).
    destruct (missing_targets (w_graph w) obj); [congruence | reflexivity].
Qed.

Lemma missing_nonempty g obj : missing_targets g obj <> [] -> nonempty obj = true.
Proof. destruct obj; [intros H; now contradiction H | reflexivity]. Qed.

Lemma missing_target_listed missing pt :
  In pt missing ->
  contains (missing_target_line pt) (missing_targets_message missing) = true.
Proof.
  intros H. unfold missing_targets_message.
  apply contains_app_r, contains_app_r, contains_app_l.
  apply contains_concat. now apply in_map.
Qed.

(** * [create_instance_node] and missing targets *)
Lemma create_blocked_after_checks
    priority instance_name concept_type properties additional_labels
    allow_update validate concept_label auto_rel w label w1 w2 :
  healthy w ->
  missing_targets (w_graph w) (object_properties_of (w_graph w) properties) <> [] ->
  resolve_concept priority instance_name concept_type concept_label auto_rel w
  = (Return label, w1) ->
  check_required_properties validate concept_type properties label
    (snd (classify_properties properties w1)) = (Return tt, w2) ->
  exists w',
    create_instance_node priority instance_name concept_type properties
      additional_labels allow_update validate concept_label auto_rel true w
    = (Raise ("Failed to create instance node: "
              ++ missing_targets_message
                   (missing_targets (w_graph w)
                      (object_properties_of (w_graph w) properties))), w')
    /\ w_graph w' = w_graph w.
Proof.
  intros Hh Hm H1 H3.
  destruct (reads_resolve_concept priority instance_name concept_type concept_label
              auto_rel w) as [G1 L1].
  rewrite H1 in G1, L1. cbn [snd] in G1, L1. specialize (L1 Hh).
  destruct (classify_healthy properties w1 L1) as (buckets & extra & H2 & Hobj).
  rewrite H2 in H3. cbn [snd] in H3.
  destruct (reads_check_required validate concept_type properties label
              (logged w1 extra)) as [G3 L3].
  rewrite H3 in G3, L3. cbn [snd] in G3, L3.
  specialize (L3 (healthy_logged _ _ L1)). cbn [logged w_graph] in G3.
  assert (Hg2 : w_graph w2 = w_graph w) by congruence.
  rewrite G1 in Hobj.
  eexists. split.
  - unfold create_instance_node. erewrite try_raise; [reflexivity|].
    run H1. run H2. run H3.
    apply bind_raise. unfold check_object_property_targets.
    rewrite Hobj, (missing_nonempty _ _ Hm). cbn [andb].
    rewrite <- Hg2. apply validate_targets_missing; [exact L3|].
    now rewrite Hg2.
  - cbn [logged w_graph]. exact Hg2.
Qed.

(** C4 (as amended).  On a store that answers, ObjectProperty auto-creation
    enabled, and among the values of the properties the graph types as
    ObjectProperty at least one target that no [:Instance] node bears.
    Then [create_instance_node] raises and the graph is afterwards what it
    was before: no node is created.  And when the concept check and the
    validation of the required properties pass, the exception is the one of
    the targets: its message has a line for every missing (property, target)
    pair, not only for the first. *)
Theorem missing_targets_block_creation
    (priority : list string) (instance_name concept_type : string)
    (properties : option Dict) (additional_labels : option (list string))
    (allow_update validate_required_properties : bool)
    (concept_label : option string) (auto_create_relationship : bool)
    (w : World) :
  healthy w ->
  missing_targets (w_graph w) (object_properties_of (w_graph w) properties) <> [] ->
  (exists e w',
     create_instance_node priority instance_name concept_type properties
       additional_labels allow_update validate_required_properties concept_label
       auto_create_relationship true w = (Raise e, w')
     /\ w_graph w' = w_graph w)
  /\ (forall label w1 w2,
        resolve_concept priority instance_name concept_type concept_label
          auto_create_relationship w = (Return label, w1) ->
        check_required_properties validate_required_properties concept_type
          properties label (snd (classify_properties properties w1))
        = (Return tt, w2) ->
        exists w',
          create_instance_node priority instance_name concept_type properties
            additional_labels allow_update validate_required_properties
            concept_label auto_create_relationship true w
          = (Raise ("Failed to create instance node: "
                    ++ missing_targets_message
                         (missing_targets (w_graph w)
                            (object_properties_of (w_graph w) properties))), w')
          /\ w_graph w' = w_graph w)
  /\ (forall pt,
        In pt (missing_targets (w_graph w)
                 (object_properties_of (w_graph w) properties)) ->
        contains (missing_target_line pt)
          (missing_targets_message
             (missing_targets (w_graph w)
                (object_properties_of (w_graph w) properties))) = true).
Proof.
  intros Hh Hm. split; [|split].
  - destruct (resolve_concept priority instance_name concept_type concept_label
                auto_create_relationship w) as [[label|e] w1] eqn:H1.
    + destruct (check_required_properties validate_required_properties concept_type
                  properties label (snd (classify_properties properties w1)))
        as [[[]|e] w2] eqn:H3.
      * destruct (create_blocked_after_checks priority instance_name concept_type
                    properties additional_labels allow_update
                    validate_required_properties concept_label
                    auto_create_relationship w label w1 w2 Hh Hm H1 H3)
          as (w' & Hrun & Hg).
        eauto.
      * destruct (reads_resolve_concept priority instance_name concept_type
                    concept_label auto_create_relationship w) as [G1 _].
        rewrite H1 in G1. cbn [snd] in G1.
        destruct (reads_classify properties w1) as [G2 _].
        destruct (reads_check_required validate_required_properties concept_type
                    properties label (snd (classify_properties properties w1)))
          as [G3 _].
        rewrite H3 in G3. cbn [snd] in G3.
        destruct (classify_properties properties w1) as [[buckets|e2] wc] eqn:H2.
        -- eexists _, w2. split; [|cbn [snd] in *; congruence].
           unfold create_instance_node. erewrite try_raise; [reflexivity|].
           run H1. run H2. apply bind_raise. exact H3.
        -- eexists _, wc. split; [|cbn [snd] in *; congruence].
           unfold create_instance_node. erewrite try_raise; [reflexivity|].
           run H1. apply bind_raise. exact H2.
    + destruct (reads_resolve_concept priority instance_name concept_type
                  concept_label auto_create_relationship w) as [G1 _].
      rewrite H1 in G1. cbn [snd] in G1.
      eexists _, w1. split; [|exact G1].
      unfold create_instance_node. erewrite try_raise; [reflexivity|].
      apply bind_raise. exact H1.
  - intros label w1 w2 H1 H3.
    now apply (create_blocked_after_checks priority instance_name concept_type
                 properties additional_labels allow_update
                 validate_required_properties concept_label
                 auto_create_relationship w label w1 w2).
  - intros pt. apply missing_target_listed.
Qed.

Lemma missing_targets_block_creation_witness :
  healthy w_schema
  /\ missing_targets (w_graph w_schema)
       (object_properties_of (w_graph w_schema)
          (Some [("a", PInt 1); ("b", PInt 2);
                 ("c", PList [PStr "db1"; PStr "ghost"; PStr "g2"])]))
     = [("c", PStr "ghost"); ("c", PStr "g2")]
  /\ exists msg w',
       create_instance_node default_labels "t1" "Table"
         (Some [("a", PInt 1); ("b", PInt 2);
                ("c", PList [PStr "db1"; PStr "ghost"; PStr "g2"])])
         None false true None true true w_schema = (Raise msg, w')
       /\ w_graph w' = w_graph w_schema
       /\ contains "Property 'c' targets 'ghost' (Instance not found)" msg = true
       /\ contains "Property 'c' targets 'g2' (Instance not found)" msg = true.
Proof.
  split; [reflexivity|]. split; [reflexivity|].
  destruct (missing_targets_block_creation default_labels "t1" "Table"
              (Some [("a", PInt 1); ("b", PInt 2);
                     ("c", PList [PStr "db1"; PStr "ghost"; PStr "g2"])])
              None false true None true w_schema eq_refl)
    as (_ & Hmsg & _); [discriminate|].
  destruct (Hmsg (Some "Class") w_schema w_schema) as (w' & Hrun & Hg);
    try (vm_compute; reflexivity).
  eexists _, w'. split; [exact Hrun|]. split; [exact Hg|].
  split; vm_compute; reflexivity.
Defined.

(** C4 as stated fails when an earlier check fails: the target [ghost] of the
    ObjectProperty [c] does not exist, but [Table] also requires [a] and [b],
    which the call does not provide; the exception raised is the one of the
    required properties, and it does not name the missing target. *)
Lemma missing_target_not_reported :
  missing_targets (w_graph w_schema)
    (object_properties_of (w_graph w_schema) (Some [("c", PStr "ghost")]))
  = [("c", PStr "ghost")]
  /\ exists msg,
       fst (create_instance_node default_labels "t1" "Table"
              (Some [("c", PStr "ghost")]) None false true None true true w_schema)
       = Raise msg
       /\ contains "Missing required properties" msg = true
       /\ contains "ghost" msg = false.
Proof.
  split; [reflexivity|]. eexists. split; [vm_compute; reflexivity|].
  split; vm_compute; reflexivity.
Qed.



(** * the fuel of [trails] is enough *)
Lemma filter_shrinks {A} (p q : A -> bool) l e :
  (forall x, q x = true -> p x = true) ->
  In e l -> p e = true -> q e = false ->
  length (filter q l) < length (filter p l).
Proof.
  intros Hqp. induction l as [|x l IH]; intros Hin Hp Hq; [destruct Hin|].
  assert (Hle : length (filter q l) <= length (filter p l)).
  { clear - Hqp. induction l as [|y l IHl]; cbn; [lia|].
    destruct (q y) eqn:Eq.
    - rewrite (Hqp y Eq). cbn. lia.
    - destruct (p y); cbn; lia. }
  cbn [filter]. destruct Hin as [->|Hin].
  - rewrite Hp, Hq. cbn. lia.
  - specialize (IH Hin Hp Hq). destruct (q x) eqn:Eq.
    + rewrite (Hqp x Eq). cbn. lia.
    + destruct (p x); cbn; lia.
Qed.

Lemma unused_shrinks es used e :
  In e es -> mem_nat (e_id e) used = false ->
  length (unused es (e_id e :: used)) < length (unused es used).
Proof.
  intros Hin Hfresh. unfold unused. apply (filter_shrinks _ _ es e); auto.
  - intros x. cbn [mem_nat existsb]. rewrite negb_true_iff, orb_false_iff.
    intros [_ H]. unfold mem_nat. now rewrite H.
  - now rewrite Hfresh.
  - cbn [mem_nat existsb]. now rewrite Nat.eqb_refl.
Qed.

Lemma flat_map_same {A B} (f g : A -> list B) l :
  (forall x, In x l -> f x = g x) -> flat_map f l = flat_map g l.
Proof.
  induction l as [|x l IH]; intros H; [reflexivity|].
  cbn [flat_map]. rewrite (H x (or_introl eq_refl)), IH; auto.
  intros y Hy. apply H. now right.
Qed.

Lemma trails_no_fuel_needed es used i fuel :
  length (unused es used) = 0 -> trails fuel es used i = [].
Proof.
  intros H. destruct fuel; [reflexivity|]. cbn [trails].
  rewrite (flat_map_same _ (fun _ => [])).
  - clear. induction es as [|x l IHl]; cbn; auto.
  - intros e He.
    destruct (mem_nat (e_id e) used) eqn:Em; [now rewrite andb_false_r|].
    exfalso. assert (Hin : In e (unused es used)).
    { apply filter_In. now rewrite Em. }
    destruct (unused es used); [destruct Hin | discriminate].
Qed.

(** Any fuel from the number of relationships not yet used on gives the same
    paths: the fuel the queries give, the number of all relationships, never
    runs out before the relationships do. *)
Lemma trails_fuel es : forall fuel1 fuel2 used i,
  length (unused es used) <= fuel1 -> length (unused es used) <= fuel2 ->
  trails fuel1 es used i = trails fuel2 es used i.
Proof.
  induction fuel1 as [|fuel1 IH]; intros fuel2 used i H1 H2.
  - rewrite (trails_no_fuel_needed es used i fuel2) by lia. reflexivity.
  - destruct fuel2 as [|fuel2].
    + now rewrite (trails_no_fuel_needed es used i (S fuel1)) by lia.
    + cbn [trails]. apply flat_map_same. intros e He.
      destruct (String.eqb (e_type e) "SUBCLASS_OF" && Nat.eqb (e_src e) i) eqn:Et;
        [|reflexivity].
      destruct (mem_nat (e_id e) used) eqn:Em; [reflexivity|].
      cbn [negb andb]. f_equal.
      pose proof (unused_shrinks es used e He Em).
      apply IH; lia.
Qed.

Lemma subclass_trails_fuel g used i fuel :
  length (g_edges g) <= fuel ->
  trails fuel (g_edges g) used i = subclass_trails g used i.
Proof.
  intros H. unfold subclass_trails.
  assert (length (unused (g_edges g) used) <= length (g_edges g))
    by apply filter_length_le.
  apply trails_fuel; lia.
Qed.



(** * [Neo4jService]: writes and their flags *)
Lemma graph_eta g : mkGraph (g_nodes g) (g_edges g) (g_next g) = g.
Proof. now destruct g. Qed.

Lemma world_eta w : mkWorld (w_graph w) (w_faults w) (w_clock w) (w_warnings w) = w.
Proof. now destruct w. Qed.

Lemma with_graph_same w : with_graph w (w_graph w) = w.
Proof. apply world_eta. Qed.

Lemma written_not_skipped rows c :
  was_skipped_due_to_constraint
    (("records", PList (map PDict rows)) :: counters_dict c) = false
  /\ get_warning_message (("records", PList (map PDict rows)) :: counters_dict c)
     = PNone.
Proof. split; reflexivity. Qed.

(** X1.  The dictionary [execute_write] returns is flagged by
    [was_skipped_due_to_constraint] exactly when the driver raised a
    [ConstraintError] whose text says "already exists" in any letter case.
    A flagged write has left the graph alone, reports nothing created, has
    logged a warning and carries a warning message; a write that is not
    flagged carries none. *)
Theorem execute_write_skip_flag (q : Cypher) (w w' : World) (r : Dict) :
  execute_write q w = (Return r, w') ->
  (was_skipped_due_to_constraint r = true <->
   exists e, hd None (w_faults w) = Some (ConstraintError e)
             /\ contains "already exists" (lower e) = true)
  /\ (was_skipped_due_to_constraint r = true ->
      w_graph w' = w_graph w
      /\ get "nodes_created" r = PInt 0
      /\ get "relationships_created" r = PInt 0
      /\ length (w_warnings w') = S (length (w_warnings w))
      /\ exists m, get_warning_message r = PStr m)
  /\ (was_skipped_due_to_constraint r = false -> get_warning_message r = PNone).
Proof.
  unfold execute_write, session_run.
  destruct (hd None (w_faults w)) as [[e|e]|] eqn:F.
  - destruct (contains "already exists" (lower e)) eqn:C; [|discriminate].
    rewrite bind_return with (a := tt)
      (w' := logged (mkWorld (w_graph w) (tl (w_faults w)) (w_clock w)
                             (w_warnings w))
                    ["⚠️  Node/relationship already exists, skipping creation: " ++ e])
      by apply warn_logged.
    unfold ret. intros E. inversion E; subst r w'; clear E.
    split; [split; [intros _; exists e; auto | reflexivity]|].
    split; [|discriminate].
    intros _. cbn [logged w_graph w_warnings].
    split; [reflexivity|]. split; [reflexivity|]. split; [reflexivity|].
    split; [rewrite length_app; cbn; lia|]. eexists; reflexivity.
  - discriminate.
  - destruct (q (w_graph w)) as [e|a]; [discriminate|].
    intros E. inversion E; subst r w'; clear E.
    destruct (written_not_skipped (a_rows a) (a_counters a)) as [S1 S2].
    split; [split; [rewrite S1; discriminate | intros (e & E & _); discriminate]|].
    split; [rewrite S1; discriminate | intros _; exact S2].
Qed.

Lemma execute_write_skip_flag_witness :
  exists r w',
    execute_write cy_clear
      (mkWorld (w_graph w_xy)
               [Some (ConstraintError "Node(0) Already Exists with label")] 0 [])
    = (Return r, w')
    /\ was_skipped_due_to_constraint r = true
    /\ w_graph w' = w_graph w_xy
    /\ exists m, get_warning_message r = PStr m.
Proof.
  eexists _, _. split; [reflexivity|].
  destruct (execute_write_skip_flag cy_clear
              (mkWorld (w_graph w_xy)
                 [Some (ConstraintError "Node(0) Already Exists with label")] 0 [])
              _ _ eq_refl) as (Hiff & Hskip & _).
  assert (S : was_skipped_due_to_constraint
                (skipped ("Item already exists and was skipped: "
                          ++ "Node(0) Already Exists with label")) = true).
  { apply Hiff. eexists. split; reflexivity. }
  split; [exact S|].
  destruct (Hskip S) as (G & _ & _ & _ & M). split; [exact G | exact M].
Defined.

(* ----------------------------------------------------------------- *)
(** ** [create_relationship] on any number of matching nodes *)

Lemma new_edges_length next T props pairs :
  length (new_edges next T props pairs) = length pairs.
Proof.
  revert next. induction pairs as [|[a b] pairs IH]; intros next; cbn; auto.
Qed.

Section Patterns.

Variables (from_q to_q : NodePattern) (T : string).
Variables (properties from_params to_params : option Dict).
Variables (props1 props2 : Dict).

Hypothesis from_resolves :
  resolve_props (merged_params from_params to_params) (pat_props from_q) = inr props1.
Hypothesis to_resolves :
  resolve_props (merged_params from_params to_params) (pat_props to_q) = inr props2.
Hypothesis from_plain : uses_param "rel_props" from_q = false.
Hypothesis to_plain : uses_param "rel_props" to_q = false.

Lemma check_query g :
  cy_relationship_exists from_q to_q T (merged_params from_params to_params) g
  = inr (mkAnswer
           (map (fun ab =>
                   [("relationship_exists",
                     PBool (existsb (links T (n_id (fst ab)) (n_id (snd ab)))
                                    (g_edges g)))])
                (endpoint_pairs (pat_labels from_q) props1
                                (pat_labels to_q) props2 g))
           no_counters g).
Proof.
  unfold cy_relationship_exists, with_patterns.
  now rewrite from_resolves, to_resolves.
Qed.

Lemma check_value w :
  healthy w ->
  run_query_value (cy_relationship_exists from_q to_q T
                     (merged_params from_params to_params))
                  (Some "relationship_exists") w
  = (Return (match endpoint_pairs (pat_labels from_q) props1
                                  (pat_labels to_q) props2 (w_graph w) with
             | [] => PNone
             | ab :: _ =>
                 PBool (existsb (links T (n_id (fst ab)) (n_id (snd ab)))
                                (g_edges (w_graph w)))
             end), w).
Proof.
  intros Hh.
  rewrite (run_query_value_healthy _ _ _ w Hh (check_query _)); [|discriminate].
  destruct (endpoint_pairs _ _ _ _ _); reflexivity.
Qed.

Lemma create_query g :
  let params' :=
    if dict_truthy properties
    then dict_set "rel_props"
           (PDict (match properties with Some d => d | None => [] end))
           (merged_params from_params to_params)
    else merged_params from_params to_params in
  let created :=
    new_edges (g_next g) T (rel_props_of properties)
      (endpoint_pairs (pat_labels from_q) props1 (pat_labels to_q) props2 g) in
  cy_create_relationship from_q to_q T
    (if dict_truthy properties then properties else None) params' g
  = inr (mkAnswer
           (map (fun e => [("r", edge_py e)]) created)
           (mkCounters 0 0 (length created) 0
                       (length created * length (rel_props_of properties))
                       0 0 0 0 0 0)
           (mkGraph (g_nodes g) (g_edges g ++ created)
                    (g_next g + length created))).
Proof.
  intros params' created. unfold cy_create_relationship, with_patterns.
  assert (R1 : resolve_props params' (pat_props from_q) = inr props1).
  { unfold params'. destruct (dict_truthy properties); auto.
    rewrite resolve_props_set; auto. }
  assert (R2 : resolve_props params' (pat_props to_q) = inr props2).
  { unfold params'. destruct (dict_truthy properties); auto.
    rewrite resolve_props_set; auto. }
  rewrite R1, R2. reflexivity.
Qed.

(** What [create_relationship] does on a store that answers. *)
Lemma create_relationship_healthy w :
  healthy w ->
  let g := w_graph w in
  let pairs := endpoint_pairs (pat_labels from_q) props1
                              (pat_labels to_q) props2 g in
  let created := new_edges (g_next g) T (rel_props_of properties) pairs in
  create_relationship from_q to_q T properties from_params to_params w
  = if match pairs with
       | [] => false
       | ab :: _ => existsb (links T (n_id (fst ab)) (n_id (snd ab))) (g_edges g)
       end
    then (Return (skipped (skip_message T)), logged w [skip_warning T])
    else (Return (("records", PList (map PDict (map (fun e => [("r", edge_py e)]) created)))
                  :: counters_dict
                       (mkCounters 0 0 (length created) 0
                          (length created * length (rel_props_of properties))
                          0 0 0 0 0 0)),
          with_graph w (mkGraph (g_nodes g) (g_edges g ++ created)
                                (g_next g + length created))).
Proof.
  intros Hh g pairs created. unfold create_relationship.
  run (check_value w Hh). fold g. fold pairs.
  assert (Ht : truthy (match pairs with
                       | [] => PNone
                       | ab :: _ =>
                           PBool (existsb (links T (n_id (fst ab)) (n_id (snd ab)))
                                          (g_edges g))
                       end)
               = match pairs with
                 | [] => false
                 | ab :: _ =>
                     existsb (links T (n_id (fst ab)) (n_id (snd ab))) (g_edges g)
                 end) by (destruct pairs; reflexivity).
  rewrite Ht.
  destruct (match pairs with
            | [] => false
            | ab :: _ =>
                existsb (links T (n_id (fst ab)) (n_id (snd ab))) (g_edges g)
            end); [reflexivity|].
  exact (execute_write_healthy _ _ w Hh (create_query (w_graph w))).
Qed.

End Patterns.





(** * [create_node] and [find_nodes] *)
Lemma dict_set_fresh k v d : ~ In k (keys d) -> dict_set k v d = (d ++ [(k, v)])%list.
Proof.
  induction d as [|[k' v'] d IH]; intros H; [reflexivity|].
  cbn [dict_set]. destruct (String.eqb k k') eqn:E.
  - apply String.eqb_eq in E. subst. exfalso. apply H. now left.
  - cbn. rewrite IH; auto. intros Hin. apply H. now right.
Qed.

Lemma set_prop_value k v d : v <> PNone -> set_prop k v d = dict_set k v d.
Proof. destruct v; intros H; try reflexivity. now elim H. Qed.

Lemma set_props_app d : forall acc,
  NoDup (keys d) ->
  (forall k, In k (keys d) -> ~ In k (keys acc)) ->
  (forall kv, In kv d -> snd kv <> PNone) ->
  set_props acc d = (acc ++ d)%list.
Proof.
  unfold set_props.
  induction d as [|[k v] d IH]; intros acc Hnd Hdis Hval.
  - cbn. now rewrite app_nil_r.
  - cbn [fold_left fst snd]. cbn [keys map fst] in Hnd. inversion Hnd; subst.
    rewrite set_prop_value by exact (Hval (k, v) (or_introl eq_refl)).
    rewrite dict_set_fresh by (apply Hdis; now left).
    rewrite IH.
    + now rewrite <- app_assoc.
    + assumption.
    + intros k' Hk'. unfold keys. rewrite map_app, in_app_iff. cbn.
      intros [Hin | [-> | []]].
      * apply (Hdis k'); [now right | exact Hin].
      * contradiction.
    + intros kv Hkv. apply Hval. now right.
Qed.

Lemma set_props_new d :
  NoDup (keys d) -> (forall kv, In kv d -> snd kv <> PNone) ->
  set_props [] d = d.
Proof. intros H1 H2. now rewrite set_props_app. Qed.

Lemma dict_get_In k v d : NoDup (keys d) -> In (k, v) d -> dict_get k d = Some v.
Proof.
  induction d as [|[k' v'] d IH]; intros Hnd Hin; [contradiction|].
  cbn [keys map fst] in Hnd. inversion Hnd; subst.
  cbn [dict_get]. destruct Hin as [E | Hin].
  - inversion E; subst. now rewrite String.eqb_refl.
  - destruct (String.eqb k k') eqn:E.
    + apply String.eqb_eq in E. subst. exfalso. apply H1.
      change k' with (fst (k', v)). now apply in_map.
    + now apply IH.
Qed.

Lemma cy_eqb_not_null v : cy_eqb v v = true -> v <> PNone.
Proof. intros H ->. discriminate. Qed.

Lemma prefixed_inj (p a b : string) : (p ++ a = p ++ b)%string -> a = b.
Proof. induction p; cbn; intros H; [exact H | inversion H; auto]. Qed.

Lemma fold_params_other d : forall acc x,
  (forall k, In k (keys d) -> "prop_" ++ k <> x) ->
  dict_get x (fold_left (fun params kv => dict_set ("prop_" ++ fst kv) (snd kv) params)
                        d acc)
  = dict_get x acc.
Proof.
  induction d as [|[k v] d IH]; intros acc x H; [reflexivity|].
  cbn [fold_left fst snd]. rewrite IH.
  - rewrite dict_get_set_other; auto. intros E. apply (H k); [now left | auto].
  - intros k' Hk'. apply H. now right.
Qed.

Lemma fold_params_get d : forall acc k v,
  NoDup (keys d) -> In (k, v) d ->
  dict_get ("prop_" ++ k)
    (fold_left (fun params kv => dict_set ("prop_" ++ fst kv) (snd kv) params) d acc)
  = Some v.
Proof.
  induction d as [|[k' v'] d IH]; intros acc k v Hnd Hin; [contradiction|].
  cbn [keys map fst] in Hnd. inversion Hnd; subst.
  cbn [fold_left fst snd]. destruct Hin as [E | Hin].
  - inversion E; subst. rewrite fold_params_other.
    + apply dict_get_set_same.
    + intros k0 Hk0 E0. apply prefixed_inj in E0. subst. contradiction.
  - now apply IH.
Qed.

Lemma resolve_conditions params d :
  (forall k v, In (k, v) d -> dict_get ("prop_" ++ k) params = Some v) ->
  resolve_props params (map (fun kv => (fst kv, Param ("prop_" ++ fst kv))) d)
  = inr d.
Proof.
  induction d as [|[k v] d IH]; intros H; [reflexivity|].
  cbn [map fst resolve_props]. rewrite (H k v) by now left.
  rewrite IH; auto. intros k' v' Hin. apply H. now right.
Qed.

Lemma resolve_prop_conditions d :
  NoDup (keys d) ->
  resolve_props (prop_params (Some d)) (prop_conditions (Some d)) = inr d.
Proof.
  intros Hnd. unfold prop_params, prop_conditions.
  destruct d as [|kv d]; [reflexivity|]. cbn [dict_truthy].
  apply resolve_conditions. intros k v Hin. now apply fold_params_get.
Qed.

Lemma find_nodes_query label d limit g :
  NoDup (keys d) ->
  cy_find_nodes (mkPattern (label_part label) (prop_conditions (Some d)))
                limit (prop_params (Some d)) g
  = match cy_limit limit (found_nodes label d g) with
    | inl e => inl e
    | inr rows => inr (mkAnswer rows no_counters g)
    end.
Proof.
  intros Hnd. unfold cy_find_nodes. cbn [pat_props pat_labels].
  now rewrite (resolve_prop_conditions d Hnd).
Qed.

Lemma run_query_refused q e w :
  healthy w -> q (w_graph w) = inl e ->
  run_query q w = (Raise ("Failed to execute query: " ++ e), w).
Proof.
  intros H Hq. unfold run_query, session_run. unfold healthy in H.
  rewrite H. cbn [hd tl]. rewrite Hq. cbn [fault_msg].
  f_equal. destruct w; cbn in *; now subst.
Qed.

Lemma find_nodes_healthy label d limit w :
  healthy w -> NoDup (keys d) ->
  find_nodes label (Some d) limit w
  = match cy_limit (limit_part limit) (found_nodes label d (w_graph w)) with
    | inl e => (Raise ("Failed to execute query: " ++ e), w)
    | inr rows => (Return rows, w)
    end.
Proof.
  intros Hh Hnd. unfold find_nodes.
  pose proof (find_nodes_query label d (limit_part limit) (w_graph w) Hnd) as Q.
  destruct (cy_limit (limit_part limit) (found_nodes label d (w_graph w)))
    as [e|rows].
  - now apply run_query_refused.
  - now apply run_query_healthy.
Qed.

Lemma firstn_In {A} n (l : list A) x : In x (firstn n l) -> In x l.
Proof.
  revert n. induction l as [|y l IH]; intros [|n] H; cbn in *; try contradiction.
  destruct H as [-> | H]; [now left | right; eauto].
Qed.



Lemma has_own_label label rest props i :
  has_label label (mkNode i (label :: rest) props) = true.
Proof. unfold has_label, str_in. cbn. now rewrite String.eqb_refl. Qed.

Lemma match_own_props labels i d :
  NoDup (keys d) -> (forall kv, In kv d -> cy_eqb (snd kv) (snd kv) = true) ->
  forallb (fun kv => cy_eqb (prop (fst kv) (mkNode i labels d)) (snd kv)) d = true.
Proof.
  intros Hnd Hv. apply forallb_forall. intros [k v] Hin.
  unfold prop, get. cbn [n_props fst snd].
  rewrite (dict_get_In k v d Hnd Hin). exact (Hv (k, v) Hin).
Qed.

Lemma label_name_given label : label_name label = true -> label <> "".
Proof. intros H ->. discriminate. Qed.

Lemma first_label_named label additional_labels :
  forallb label_name (labels_of label additional_labels) = true ->
  label_name label = true.
Proof. unfold labels_of. cbn [forallb]. intros H. now apply andb_prop in H. Qed.

(** What [sendable] keeps out: an integer the driver refuses, and a key
    that [find_nodes] cannot splice into its query. *)
Lemma beyond_int64_not_sendable :
  sendable [("size", PInt (2 ^ 63))] = false
  /\ sendable [("size", PInt (2 ^ 63 - 1))] = true
  /\ sendable [("first name", PStr "Ada")] = false.
Proof. repeat split. Qed.

(** X4.  A node made by [create_node] is found again.  The labels are names
    Cypher reads as they stand, the keys are identifiers ([find_nodes]
    splices each key into its query) and the values are ones the driver
    sends and the store keeps (an integer beyond 64 bits, for one, is
    refused and no node is made).  Then, on a store that answers,
    [create_node] adds one node that has exactly the given properties, and
    [find_nodes] with the same label and properties returns it.  No value
    may be [None]: such a property is not stored and never matches. *)
Theorem create_node_then_find (label : string) (properties : Dict)
    (additional_labels : option (list string)) (w : World) :
  healthy w ->
  forallb label_name (labels_of label additional_labels) = true ->
  NoDup (keys properties) ->
  sendable properties = true ->
  (forall kv, In kv properties -> cy_eqb (snd kv) (snd kv) = true) ->
  exists r w1 rows n,
    create_node label properties additional_labels w = (Return r, w1)
    /\ dict_get "nodes_created" r = Some (PInt 1)
    /\ dict_get "records" r = Some (PList [PDict [("n", node_py n)]])
    /\ n_props n = properties
    /\ g_nodes (w_graph w1) = (g_nodes (w_graph w) ++ [n])%list
    /\ g_edges (w_graph w1) = g_edges (w_graph w)
    /\ find_nodes (Some label) (Some properties) None w1 = (Return rows, w1)
    /\ In [("n", node_py n)] rows.
Proof.
  intros Hh Hlabels Hnd Hsend Hv.
  assert (Hl : label <> "")
    by (apply label_name_given, (first_label_named _ _ Hlabels)).
  set (labels := (label :: match additional_labels with
                           | Some l => l
                           | None => []
                           end)%list).
  set (n := mkNode (g_next (w_graph w)) labels properties).
  assert (Hset : set_props [] properties = properties).
  { apply set_props_new; auto. intros kv Hin. apply cy_eqb_not_null. auto. }
  set (g1 := mkGraph (g_nodes (w_graph w) ++ [n]) (g_edges (w_graph w))
                     (S (g_next (w_graph w)))).
  assert (Hq : cy_create_node labels properties (w_graph w)
               = inr (mkAnswer [[("n", node_py n)]]
                        (mkCounters 1 0 0 0 (length properties) (length labels)
                                    0 0 0 0 0) g1)).
  { unfold cy_create_node. now rewrite Hset. }
  exists (("records", PList (map PDict [[("n", node_py n)]]))
          :: counters_dict (mkCounters 1 0 0 0 (length properties) (length labels)
                                       0 0 0 0 0)),
         (with_graph w g1),
         (found_nodes (Some label) properties g1), n.
  split.
  { unfold create_node. fold labels.
    exact (execute_write_healthy _ _ w Hh Hq). }
  split; [reflexivity|]. split; [reflexivity|]. split; [reflexivity|].
  split; [reflexivity|]. split; [reflexivity|]. split.
  - rewrite (find_nodes_healthy (Some label) properties None (with_graph w g1)
               (healthy_with_graph _ _ Hh) Hnd).
    reflexivity.
  - unfold found_nodes. apply in_map_iff. exists n. split; [reflexivity|].
    apply filter_In. split.
    + unfold g1. cbn [g_nodes]. apply in_or_app. right. now left.
    + unfold match_node, label_part.
      apply String.eqb_neq in Hl. rewrite Hl. cbn [forallb].
      unfold n, labels. rewrite has_own_label. cbn [andb].
      now apply match_own_props.
Qed.

Lemma create_node_then_find_witness :
  healthy w_xy
  /\ exists r w1 rows n,
       create_node "Widget" [("name", PStr "gadget"); ("size", PInt 3)] None w_xy
       = (Return r, w1)
       /\ n_props n = [("name", PStr "gadget"); ("size", PInt 3)]
       /\ find_nodes (Some "Widget")
            (Some [("name", PStr "gadget"); ("size", PInt 3)]) None w1
          = (Return rows, w1)
       /\ In [("n", node_py n)] rows.
Proof.
  split; [reflexivity|].
  assert (Hnd : NoDup (keys [("name", PStr "gadget"); ("size", PInt 3)])).
  { repeat constructor; cbn; intuition discriminate. }
  assert (Hv : forall kv, In kv [("name", PStr "gadget"); ("size", PInt 3)] ->
                          cy_eqb (snd kv) (snd kv) = true).
  { intros kv [<- | [<- | []]]; reflexivity. }
  destruct (create_node_then_find "Widget"
              [("name", PStr "gadget"); ("size", PInt 3)] None w_xy
              eq_refl eq_refl Hnd eq_refl Hv)
    as (r & w1 & rows & n & E & _ & _ & P & _ & _ & F & I).
  exists r, w1, rows, n. repeat split; assumption.
Defined.



(** * [get_node_degree], [ping], [clear_database] *)
Lemma upper_char_idem c : upper_char (upper_char c) = upper_char c.
Proof. destruct c as [[] [] [] [] [] [] [] []]; reflexivity. Qed.

Lemma upper_idem s : upper (upper s) = upper s.
Proof.
  unfold upper. induction s as [|c s IH]; [reflexivity|].
  cbn [str_map]. now rewrite upper_char_idem, IH.
Qed.

Lemma direction_arrow_upper d : direction_arrow (upper d) = direction_arrow d.
Proof. unfold direction_arrow. now rewrite upper_idem. Qed.

Lemma direction_arrow_other d :
  upper d <> "INCOMING" -> upper d <> "BOTH" -> direction_arrow d = ArrowOut.
Proof.
  intros H1 H2. unfold direction_arrow.
  apply String.eqb_neq in H1, H2. rewrite H1, H2.
  unfold direction_map, lookup_or. rewrite H1, H2.
  destruct (String.eqb (upper d) "OUTGOING"); reflexivity.
Qed.

Lemma or_zero_nat n : (if truthy (PNat n) then PNat n else PInt 0) = PNat n.
Proof.
  unfold PNat, truthy. destruct (Z.eqb_spec (Z.of_nat n) 0) as [E|E]; cbn.
  - now rewrite E.
  - reflexivity.
Qed.

Lemma get_node_degree_healthy q d T params props w :
  healthy w ->
  resolve_props (if dict_truthy params
                 then match params with Some p => p | None => [] end
                 else []) (pat_props q) = inr props ->
  get_node_degree q d T params w
  = (Return (PNat (degree (pat_labels q) props (direction_arrow d)
                          (type_filter T) (w_graph w))), w).
Proof.
  intros Hh R. unfold get_node_degree.
  assert (Q : cy_degree q (direction_arrow d) (type_filter T)
                (if dict_truthy params
                 then match params with Some p => p | None => [] end
                 else []) (w_graph w)
              = inr (mkAnswer
                       [[("degree",
                          PNat (degree (pat_labels q) props (direction_arrow d)
                                       (type_filter T) (w_graph w)))]]
                       no_counters (w_graph w))).
  { unfold cy_degree. now rewrite R. }
  run (run_query_value_healthy _ _ "degree" w Hh Q ltac:(discriminate)).
  cbn [first_record length Nat.eqb get dict_get String.eqb].
  change (get "degree" [("degree", ?x)]) with x.
  unfold ret. now rewrite or_zero_nat.
Qed.

Lemma filter_or_and {A} (f g : A -> bool) l :
  length (filter (fun x => f x || g x) l) + length (filter (fun x => f x && g x) l)
  = length (filter f l) + length (filter g l).
Proof.
  induction l as [|x l IH]; [reflexivity|].
  cbn [filter]. destruct (f x), (g x); cbn [orb andb length]; lia.
Qed.

Lemma touches_both T i e :
  touches ArrowBoth T i e = touches ArrowOut T i e || touches ArrowIn T i e.
Proof.
  unfold touches. destruct (match T with Some t => _ | None => _ end); cbn;
    [reflexivity|reflexivity].
Qed.

Lemma degree_both labels props T g :
  degree labels props ArrowBoth T g + self_loops labels props T g
  = degree labels props ArrowIn T g + degree labels props ArrowOut T g.
Proof.
  unfold degree, self_loops.
  induction (filter (match_node labels props) (g_nodes g)) as [|n ns IH];
    [reflexivity|].
  cbn [flat_map]. rewrite !length_app.
  pose proof (filter_or_and (touches ArrowOut T (n_id n))
                            (touches ArrowIn T (n_id n)) (g_edges g)) as H.
  rewrite (filter_ext (touches ArrowBoth T (n_id n))
                      (fun e => touches ArrowOut T (n_id n) e
                                || touches ArrowIn T (n_id n) e))
    by (intros e; apply touches_both).
  rewrite (filter_ext (fun e => touches ArrowIn T (n_id n) e
                                && touches ArrowOut T (n_id n) e)
                      (fun e => touches ArrowOut T (n_id n) e
                                && touches ArrowIn T (n_id n) e))
    by (intros e; apply andb_comm).
  lia.
Qed.

(** Directions that are not ASCII, which [str.upper] may turn into a word
    that [upper] does not give, are not [is_ascii]. *)
Lemma dotless_not_ascii :
  is_ascii "ıncoming" = false /\ is_ascii "incoming" = true.
Proof. split; reflexivity. Qed.

(** X5.  On a store that answers, [get_node_degree] counts the
    relationships into the matching nodes for ["INCOMING"], out of them for
    ["OUTGOING"], and both kinds for ["BOTH"], where a relationship from a
    node to itself counts once: both = incoming + outgoing - loops.  A
    direction in ASCII is read without regard to letter case, and any other
    ASCII word counts the outgoing relationships.  (Beyond ASCII
    [str.upper] knows more capitals: it turns a dotless [ı] into [I].)  The
    relationship type, when one is given, is a name Cypher reads as it
    stands, and the parameters are values the driver sends. *)
Theorem get_node_degree_directions (q : NodePattern)
    (T : option string) (params : option Dict) (props : Dict) (w : World) :
  healthy w ->
  type_filter_name T = true ->
  forallb storable (map snd (props_of params)) = true ->
  resolve_props (if dict_truthy params
                 then match params with Some p => p | None => [] end
                 else []) (pat_props q) = inr props ->
  let deg arrow := degree (pat_labels q) props arrow (type_filter T) (w_graph w) in
  get_node_degree q "INCOMING" T params w = (Return (PNat (deg ArrowIn)), w)
  /\ get_node_degree q "OUTGOING" T params w = (Return (PNat (deg ArrowOut)), w)
  /\ get_node_degree q "BOTH" T params w = (Return (PNat (deg ArrowBoth)), w)
  /\ deg ArrowBoth + self_loops (pat_labels q) props (type_filter T) (w_graph w)
     = deg ArrowIn + deg ArrowOut
  /\ (forall d, is_ascii d = true ->
                get_node_degree q d T params w
                = get_node_degree q (upper d) T params w)
  /\ (forall d, is_ascii d = true ->
                upper d <> "INCOMING" -> upper d <> "BOTH" ->
                get_node_degree q d T params w = (Return (PNat (deg ArrowOut)), w)).
Proof.
  intros Hh HT Hp R deg.
  split; [exact (get_node_degree_healthy q "INCOMING" T params props w Hh R)|].
  split; [exact (get_node_degree_healthy q "OUTGOING" T params props w Hh R)|].
  split; [exact (get_node_degree_healthy q "BOTH" T params props w Hh R)|].
  split; [apply degree_both|]. split.
  - intros d _.
    rewrite !(get_node_degree_healthy q _ T params props w Hh R).
    now rewrite direction_arrow_upper.
  - intros d _ H1 H2.
    rewrite (get_node_degree_healthy q d T params props w Hh R).
    now rewrite (direction_arrow_other d H1 H2).
Qed.

Lemma get_node_degree_directions_witness :
  healthy w_object
  /\ get_node_degree (mkPattern ["Instance"] [("name", Param "name")])
       "incoming" None (Some [("name", PStr "orders")]) w_object
     = (Return (PInt 5), w_object)
  /\ get_node_degree (mkPattern ["Instance"] [("name", Param "name")])
       "sideways" None (Some [("name", PStr "report")]) w_object
     = (Return (PInt 2), w_object).
Proof.
  split; [reflexivity|]. split.
  - destruct (get_node_degree_directions
                (mkPattern ["Instance"] [("name", Param "name")])
                None (Some [("name", PStr "orders")]) [("name", PStr "orders")]
                w_object eq_refl eq_refl eq_refl eq_refl)
      as (HI & _ & _ & _ & Hup & _).
    rewrite (Hup "incoming" eq_refl). exact HI.
  - destruct (get_node_degree_directions
                (mkPattern ["Instance"] [("name", Param "name")])
                None (Some [("name", PStr "report")]) [("name", PStr "report")]
                w_object eq_refl eq_refl eq_refl eq_refl)
      as (_ & _ & _ & _ & _ & Hother).
    exact (Hother "sideways" eq_refl ltac:(discriminate) ltac:(discriminate)).
Defined.

(** X6.  [ping] never raises and never changes the graph, and it answers
    [True] exactly when the round trip to the store does not fail. *)
Theorem ping_never_raises (w : World) :
  exists b w',
    ping w = (Return b, w')
    /\ w_graph w' = w_graph w
    /\ (b = true <-> hd None (w_faults w) = None).
Proof.
  unfold ping, try_except, bind, run_query_value, bind, run_query_single,
    session_run.
  destruct (hd None (w_faults w)) as [f|] eqn:F.
  - eexists _, _. split; [reflexivity|]. split; [reflexivity|].
    split; discriminate.
  - cbn. eexists _, _. split; [reflexivity|]. split; [reflexivity|].
    split; reflexivity.
Qed.

(* ----------------------------------------------------------------- *)
(** ** Deleting with [DETACH DELETE] *)

Lemma mem_nodup x l : mem_nat x (nodup_nat l) = mem_nat x l.
Proof.
  destruct (mem_nat x l) eqn:E.
  - apply mem_nat_In. apply nodup_In. now apply mem_nat_In.
  - destruct (mem_nat x (nodup_nat l)) eqn:E'; [|reflexivity].
    apply mem_nat_In in E'. apply nodup_In in E'. apply mem_nat_In in E'.
    congruence.
Qed.

Lemma filter_all {A} (f : A -> bool) l :
  (forall x, In x l -> f x = true) -> filter f l = l.
Proof.
  induction l as [|x l IH]; intros H; [reflexivity|].
  cbn. rewrite (H x) by now left. f_equal. apply IH. intros y Hy. apply H. now right.
Qed.

Lemma filter_none {A} (f : A -> bool) l :
  (forall x, In x l -> f x = false) -> filter f l = [].
Proof.
  induction l as [|x l IH]; intros H; [reflexivity|].
  cbn. rewrite (H x) by now left. apply IH. intros y Hy. apply H. now right.
Qed.

Lemma get_node_count_healthy label w :
  healthy w ->
  get_node_count label w
  = (Return (PNat (length (filter (match_node (opt_label (given label)) [])
                                  (g_nodes (w_graph w))))), w).
Proof.
  intros Hh. unfold get_node_count. apply try_return.
  run (run_query_value_healthy (cy_count_nodes (given label)) _ "count" w Hh
         eq_refl ltac:(discriminate)).
  cbn [first_record length Nat.eqb].
  change (get "count" [("count", ?x)]) with x.
  unfold ret. now rewrite or_zero_nat.
Qed.

(** X7.  On a store that answers and whose relationships are attached to
    nodes, [clear_database] leaves neither a node nor a relationship, logs
    its warning, and reports as deleted the numbers that were there; a count
    of the nodes afterwards gives 0. *)
Theorem clear_database_empties (w : World) :
  healthy w ->
  attached (w_graph w) ->
  exists r w',
    clear_database w = (Return r, w')
    /\ g_nodes (w_graph w') = []
    /\ g_edges (w_graph w') = []
    /\ dict_get "nodes_deleted" r = Some (PNat (length (g_nodes (w_graph w))))
    /\ dict_get "relationships_deleted" r
       = Some (PNat (length (g_edges (w_graph w))))
    /\ length (w_warnings w') = S (length (w_warnings w))
    /\ forall label, fst (get_node_count label w') = Return (PInt 0).
Proof.
  intros Hh Ha.
  set (g := w_graph w).
  set (ids := nodup_nat (map n_id (g_nodes g))).
  assert (Hn : forall n, In n (g_nodes g) -> mem_nat (n_id n) ids = true).
  { intros n Hin. unfold ids. rewrite mem_nodup. apply mem_nat_In.
    now apply in_map. }
  assert (He : forall e, In e (g_edges g) ->
                         mem_nat (e_src e) ids || mem_nat (e_dst e) ids = true).
  { intros e Hin. unfold ids. rewrite !mem_nodup. apply orb_true_iff.
    destruct (Ha e Hin) as [H|H]; [left|right]; now apply mem_nat_In. }
  assert (N1 : filter (fun n => mem_nat (n_id n) ids) (g_nodes g) = g_nodes g)
    by (apply filter_all; exact Hn).
  assert (N2 : filter (fun n => negb (mem_nat (n_id n) ids)) (g_nodes g) = []).
  { apply filter_none. intros n Hin. now rewrite Hn. }
  assert (E1 : filter (fun e => mem_nat (e_src e) ids || mem_nat (e_dst e) ids)
                      (g_edges g) = g_edges g)
    by (apply filter_all; exact He).
  assert (E2 : filter (fun e => negb (mem_nat (e_src e) ids || mem_nat (e_dst e) ids))
                      (g_edges g) = []).
  { apply filter_none. intros e Hin. now rewrite He. }
  set (w0 := logged w ["Clearing entire Neo4j database - this will delete ALL data!"]).
  assert (Hh0 : healthy w0) by (apply healthy_logged; exact Hh).
  pose proof (execute_write_healthy cy_clear _ w0 Hh0 eq_refl) as W.
  cbn [logged w0 w_graph] in W. fold g in W. fold ids in W.
  unfold detach_delete in W. cbn [a_rows a_counters a_graph] in W.
  rewrite N1, N2, E1, E2 in W.
  eexists _, _. split.
  { unfold clear_database. rewrite (bind_return _ _ _ _ _ (warn_logged _ w)).
    exact W. }
  split; [reflexivity|]. split; [reflexivity|].
  split; [reflexivity|]. split; [reflexivity|]. split.
  - cbn. rewrite length_app. cbn. lia.
  - intros label. rewrite get_node_count_healthy; [reflexivity|].
    apply healthy_with_graph. exact Hh0.
Qed.

Lemma clear_database_empties_witness :
  healthy w_object
  /\ attached (w_graph w_object)
  /\ exists r w',
       clear_database w_object = (Return r, w')
       /\ g_nodes (w_graph w') = []
       /\ g_edges (w_graph w') = []
       /\ dict_get "nodes_deleted" r = Some (PInt 7)
       /\ dict_get "relationships_deleted" r = Some (PInt 7).
Proof.
  split; [reflexivity|].
  assert (Ha : attached (w_graph w_object)).
  { intros e He. left. cbn in He.
    repeat (destruct He as [<- | He]; [cbn; tauto|]). contradiction. }
  split; [exact Ha|].
  destruct (clear_database_empties w_object eq_refl Ha)
    as (r & w' & E & N & R & C1 & C2 & _).
  exists r, w'. repeat split; assumption.
Defined.



(** * Dictionaries that are built up key by key *)
Lemma keys_dict_set k v d x :
  In x (keys (dict_set k v d)) -> x = k \/ In x (keys d).
Proof.
  induction d as [|[k' v'] d IH]; cbn.
  - intros [<- | []]. now left.
  - destruct (String.eqb k k') eqn:E; cbn.
    + apply String.eqb_eq in E. subst. intros [<- | H]; auto.
    + intros [<- | H]; auto. destruct (IH H); auto.
Qed.

Lemma dict_set_NoDup k v d : NoDup (keys d) -> NoDup (keys (dict_set k v d)).
Proof.
  induction d as [|[k' v'] d IH]; intros H.
  - cbn. constructor; [tauto | constructor].
  - cbn [keys map fst] in H. inversion H; subst.
    cbn [dict_set]. destruct (String.eqb k k') eqn:E.
    + apply String.eqb_eq in E. subst. cbn. now constructor.
    + cbn. constructor; [|now apply IH].
      intros Hin. apply keys_dict_set in Hin. destruct Hin as [-> | Hin].
      * now rewrite String.eqb_refl in E.
      * contradiction.
Qed.

Lemma dict_update_NoDup other : forall base,
  NoDup (keys base) -> NoDup (keys (dict_update base other)).
Proof.
  unfold dict_update. induction other as [|[k v] other IH]; intros base H; cbn; auto.
  apply IH. now apply dict_set_NoDup.
Qed.

Lemma dict_get_update_absent other : forall base k,
  has_key k other = false ->
  dict_get k (dict_update base other) = dict_get k base.
Proof.
  unfold dict_update. induction other as [|[k' v'] other IH]; intros base k H; cbn; auto.
  unfold has_key in H. cbn [dict_get] in H.
  destruct (String.eqb k k') eqn:E; [discriminate|].
  rewrite IH by exact H. cbn [fst snd].
  apply dict_get_set_other. intros ->. now rewrite String.eqb_refl in E.
Qed.

Lemma dict_get_update_In other : forall base k v,
  NoDup (keys other) -> In (k, v) other ->
  dict_get k (dict_update base other) = Some v.
Proof.
  unfold dict_update.
  induction other as [|[k' v'] other IH]; intros base k v Hnd Hin; [contradiction|].
  cbn [keys map fst] in Hnd. inversion Hnd; subst.
  cbn [fold_left fst snd]. destruct Hin as [E | Hin].
  - inversion E; subst.
    change (fold_left _ other (dict_set k v base))
      with (dict_update (dict_set k v base) other).
    rewrite dict_get_update_absent.
    + apply dict_get_set_same.
    + apply has_key_false. destruct (dict_get k other) eqn:G; [|reflexivity].
      exfalso. apply H1. clear - G.
      induction other as [|[k0 v0] other IH]; [discriminate|].
      cbn in G. destruct (String.eqb k k0) eqn:E.
      * apply String.eqb_eq in E. subst. now left.
      * right. now apply IH.
  - now apply IH.
Qed.

Lemma dict_get_remove_other k k' d :
  k <> k' -> dict_get k (dict_remove k' d) = dict_get k d.
Proof.
  intros H. induction d as [|[k0 v0] d IH]; [reflexivity|].
  cbn [dict_remove dict_get]. destruct (String.eqb k' k0) eqn:E.
  - apply String.eqb_eq in E. subst.
    rewrite IH. apply String.eqb_neq in H. now rewrite H.
  - cbn [dict_get]. now rewrite IH.
Qed.

Lemma get_set_prop_other k k' v d : k <> k' -> get k (set_prop k' v d) = get k d.
Proof.
  intros H. unfold get, set_prop.
  destruct v; rewrite ?dict_get_remove_other, ?dict_get_set_other; auto.
Qed.

Lemma get_set_prop_same k v d : v <> PNone -> get k (set_prop k v d) = v.
Proof.
  intros H. rewrite set_prop_value by exact H.
  unfold get. now rewrite dict_get_set_same.
Qed.

Lemma set_props_get_absent k m : forall acc,
  ~ In k (keys m) -> get k (set_props acc m) = get k acc.
Proof.
  unfold set_props. induction m as [|[k' v'] m IH]; intros acc H; [reflexivity|].
  cbn [fold_left fst snd]. rewrite IH.
  - apply get_set_prop_other. intros ->. apply H. now left.
  - intros Hin. apply H. now right.
Qed.

Lemma set_props_get k v m : forall acc,
  NoDup (keys m) -> dict_get k m = Some v -> v <> PNone ->
  get k (set_props acc m) = v.
Proof.
  induction m as [|[k' v'] m IH]; intros acc Hnd Hg Hv; [discriminate|].
  cbn [keys map fst] in Hnd. inversion Hnd; subst.
  cbn [dict_get] in Hg. unfold set_props. cbn [fold_left fst snd].
  destruct (String.eqb k k') eqn:E.
  - apply String.eqb_eq in E. subst. inversion Hg; subst.
    change (fold_left _ m (set_prop k' v acc)) with (set_props (set_prop k' v acc) m).
    rewrite set_props_get_absent by assumption.
    now apply get_set_prop_same.
  - now apply IH.
Qed.

(* ----------------------------------------------------------------- *)
(** ** The common properties *)

Lemma add_common_run properties w :
  _add_common_properties properties w
  = (Return (common_properties properties (w_clock w)), ticked w).
Proof. reflexivity. Qed.

Lemma common_NoDup properties t :
  NoDup (keys properties) -> NoDup (keys (common_properties properties t)).
Proof.
  intros H. unfold common_properties. apply dict_set_NoDup.
  destruct (negb (has_key "tag" _)); [apply dict_set_NoDup|];
    (destruct (negb (has_key "comment" properties)); [apply dict_set_NoDup|]);
    exact H.
Qed.

Lemma common_get_other properties t k :
  k <> "comment" -> k <> "tag" -> k <> "created_at" ->
  dict_get k (common_properties properties t) = dict_get k properties.
Proof.
  intros H1 H2 H3. unfold common_properties.
  rewrite dict_get_set_other by exact H3.
  destruct (negb (has_key "tag" _)); [rewrite dict_get_set_other by exact H2|];
    (destruct (negb (has_key "comment" properties));
     [rewrite dict_get_set_other by exact H1|]); reflexivity.
Qed.

Lemma common_get_created properties t :
  dict_get "created_at" (common_properties properties t) = Some (PStr (isoformat t)).
Proof. unfold common_properties. apply dict_get_set_same. Qed.

Lemma common_get_comment properties t :
  has_key "comment" properties = false ->
  dict_get "comment" (common_properties properties t) = Some (PStr "").
Proof.
  intros H. unfold common_properties. rewrite H. cbn [negb].
  rewrite dict_get_set_other by discriminate.
  destruct (negb (has_key "tag" _)); [rewrite dict_get_set_other by discriminate|];
    apply dict_get_set_same.
Qed.

Lemma common_get_tag properties t :
  has_key "tag" properties = false ->
  dict_get "tag" (common_properties properties t) = Some (PStr "").
Proof.
  intros H. unfold common_properties.
  rewrite dict_get_set_other by discriminate.
  assert (T : has_key "tag"
                (if negb (has_key "comment" properties)
                 then dict_set "comment" (PStr "") properties
                 else properties) = false).
  { destruct (negb (has_key "comment" properties)); [|exact H].
    apply has_key_false. rewrite dict_get_set_other by discriminate.
    now apply has_key_false. }
  rewrite T. cbn [negb]. apply dict_get_set_same.
Qed.

Lemma named_properties_NoDup name properties :
  NoDup (keys (named_properties name properties)).
Proof.
  unfold named_properties.
  assert (B : NoDup (keys [("name", PStr name)]))
    by (cbn; constructor; [tauto | constructor]).
  destruct (dict_truthy properties); [now apply dict_update_NoDup | exact B].
Qed.

Lemma named_properties_get_absent name properties k :
  has_key k (props_of properties) = false ->
  dict_get k (named_properties name properties)
  = dict_get k [("name", PStr name)].
Proof.
  intros H. unfold named_properties.
  destruct (dict_truthy properties); [|reflexivity].
  now apply dict_get_update_absent.
Qed.

Lemma named_properties_get_In name properties k v :
  NoDup (keys (props_of properties)) -> In (k, v) (props_of properties) ->
  dict_get k (named_properties name properties) = Some v.
Proof.
  intros Hnd Hin. unfold named_properties.
  destruct properties as [[|kv d]|]; try contradiction.
  cbn [dict_truthy]. now apply dict_get_update_In.
Qed.

(** The properties of the node a creating call stores, at time [t]. *)
Lemma stored_name name properties t acc :
  has_key "name" (props_of properties) = false ->
  get "name" (set_props acc (common_properties (named_properties name properties) t))
  = PStr name.
Proof.
  intros H. apply set_props_get.
  - apply common_NoDup, named_properties_NoDup.
  - rewrite common_get_other by discriminate.
    now rewrite named_properties_get_absent.
  - discriminate.
Qed.

Lemma stored_created name properties t acc :
  get "created_at"
      (set_props acc (common_properties (named_properties name properties) t))
  = PStr (isoformat t).
Proof.
  apply set_props_get.
  - apply common_NoDup, named_properties_NoDup.
  - apply common_get_created.
  - discriminate.
Qed.

Lemma stored_comment name properties t acc :
  has_key "comment" (props_of properties) = false ->
  get "comment"
      (set_props acc (common_properties (named_properties name properties) t))
  = PStr "".
Proof.
  intros H. apply set_props_get.
  - apply common_NoDup, named_properties_NoDup.
  - apply common_get_comment. apply has_key_false.
    now rewrite named_properties_get_absent.
  - discriminate.
Qed.

Lemma stored_tag name properties t acc :
  has_key "tag" (props_of properties) = false ->
  get "tag"
      (set_props acc (common_properties (named_properties name properties) t))
  = PStr "".
Proof.
  intros H. apply set_props_get.
  - apply common_NoDup, named_properties_NoDup.
  - apply common_get_tag. apply has_key_false.
    now rewrite named_properties_get_absent.
  - discriminate.
Qed.

Lemma stored_given name properties t acc k v :
  NoDup (keys (props_of properties)) -> In (k, v) (props_of properties) ->
  k <> "created_at" -> v <> PNone ->
  get k (set_props acc (common_properties (named_properties name properties) t))
  = v.
Proof.
  intros Hnd Hin Hk Hv. apply set_props_get; [| |exact Hv].
  - apply common_NoDup, named_properties_NoDup.
  - assert (G : dict_get k (named_properties name properties) = Some v)
      by now apply named_properties_get_In.
    unfold common_properties. rewrite dict_get_set_other by exact Hk.
    assert (S : forall k' d, dict_get k d = Some v ->
                  dict_get k (if negb (has_key k' d)
                              then dict_set k' (PStr "") d else d) = Some v).
    { intros k' d Hd. destruct (has_key k' d) eqn:K; cbn [negb]; [exact Hd|].
      rewrite dict_get_set_other; [exact Hd|].
      intros ->. apply has_key_false in K. congruence. }
    now apply S, S.
Qed.

(* ----------------------------------------------------------------- *)
(** ** Matching by name *)

Lemma match_first_label l ls props n :
  match_node (l :: ls) props n = true -> match_node [l] props n = true.
Proof.
  unfold match_node. cbn [forallb]. intros H.
  apply andb_true_iff in H. destruct H as [H1 H2].
  apply andb_true_iff in H1. destruct H1 as [H1 _].
  now rewrite H1, H2.
Qed.

Lemma no_named_no_match label extra name g :
  named (Some label) name g = [] ->
  filter (match_node (label :: extra) [("name", name)]) (g_nodes g) = [].
Proof.
  unfold named. cbn [opt_label]. intros H.
  apply filter_none. intros n Hin.
  destruct (match_node (label :: extra) [("name", name)] n) eqn:E; [|reflexivity].
  apply match_first_label in E.
  assert (In n (filter (match_node [label] [("name", name)]) (g_nodes g)))
    by (apply filter_In; auto).
  rewrite H in H0. contradiction.
Qed.

Lemma match_new_node label extra name props i :
  get "name" props = PStr name ->
  match_node [label] [("name", PStr name)] (mkNode i (label :: extra) props) = true.
Proof.
  intros H. unfold match_node. cbn [forallb fst snd]. rewrite has_own_label.
  unfold prop. cbn [n_props]. rewrite H, cy_eqb_str_str, String.eqb_refl.
  reflexivity.
Qed.

Lemma named_app label name nodes n edges next next' :
  named label name (mkGraph (nodes ++ [n]) edges next)
  = (named label name (mkGraph nodes edges next')
     ++ if match_node (opt_label label) [("name", name)] n then [n] else [])%list.
Proof. unfold named. cbn [g_nodes]. now rewrite filter_app. Qed.

Lemma merge_creates label name properties additional_labels w :
  healthy w ->
  named (Some label) (PStr name) (w_graph w) = [] ->
  let n := mkNode (g_next (w_graph w)) (labels_of label additional_labels)
                  (set_props [("name", PStr name)] properties) in
  _create_node_with_merge label name properties additional_labels w
  = (Return (("records", PList [PDict [("n", node_py n)]])
             :: counters_dict
                  (mkCounters 1 0 0 0 (1 + length properties)
                     (length (labels_of label additional_labels)) 0 0 0 0 0)),
     with_graph w (mkGraph (g_nodes (w_graph w) ++ [n]) (g_edges (w_graph w))
                           (S (g_next (w_graph w))))).
Proof.
  intros Hh Hnone n. unfold _create_node_with_merge. apply try_return.
  assert (Q : cy_merge_node (labels_of label additional_labels) (PStr name)
                properties (w_graph w)
              = inr (mkAnswer [[("n", node_py n)]]
                       (mkCounters 1 0 0 0 (1 + length properties)
                          (length (labels_of label additional_labels)) 0 0 0 0 0)
                       (mkGraph (g_nodes (w_graph w) ++ [n]) (g_edges (w_graph w))
                                (S (g_next (w_graph w)))))).
  { unfold cy_merge_node, labels_of.
    now rewrite (no_named_no_match label _ (PStr name) (w_graph w) Hnone). }
  exact (execute_write_healthy _ _ w Hh Q).
Qed.

Lemma healthy_ticked w : healthy w -> healthy (ticked w).
Proof. auto. Qed.

(** What [create_concept_node] does when no concept has the name. *)
Lemma create_concept_new concept_name properties additional_labels allow_update w :
  healthy w ->
  named (Some "Concept") (PStr concept_name) (w_graph w) = [] ->
  let n := mkNode (g_next (w_graph w)) (labels_of "Concept" additional_labels)
                  (set_props [("name", PStr concept_name)]
                     (common_properties
                        (named_properties concept_name properties) (w_clock w))) in
  create_concept_node concept_name properties additional_labels allow_update w
  = (Return (("records", PList [PDict [("n", node_py n)]])
             :: counters_dict
                  (mkCounters 1 0 0 0
                     (1 + length (common_properties
                                    (named_properties concept_name properties)
                                    (w_clock w)))
                     (length (labels_of "Concept" additional_labels)) 0 0 0 0 0)),
     with_graph (ticked w)
       (mkGraph (g_nodes (w_graph w) ++ [n]) (g_edges (w_graph w))
                (S (g_next (w_graph w))))).
Proof.
  intros Hh Hnone n. unfold create_concept_node. apply try_return.
  run (get_existing_node_healthy (PStr concept_name) (Some "Concept") w Hh).
  cbn [given String.eqb Ascii.eqb Bool.eqb]. rewrite Hnone. cbn [first_node truthy].
  run (add_common_run (named_properties concept_name properties) w).
  rewrite (bind_return _ _ _ _ _
             (merge_creates "Concept" concept_name _ additional_labels (ticked w)
                (healthy_ticked _ Hh) Hnone)).
  reflexivity.
Qed.

(** What it does when one has, and no update is asked for. *)
Lemma create_concept_existing concept_name properties additional_labels w :
  healthy w ->
  named (Some "Concept") (PStr concept_name) (w_graph w) <> [] ->
  create_concept_node concept_name properties additional_labels false w
  = (Return [("records",
              PList [PDict [("n", first_node (named (Some "Concept")
                                                    (PStr concept_name)
                                                    (w_graph w)))]]);
             ("nodes_created", PInt 0);
             ("nodes_updated", PInt 0);
             ("properties_set", PInt 0);
             ("status", PStr "already_exists")], w).
Proof.
  intros Hh Hsome. unfold create_concept_node. apply try_return.
  run (get_existing_node_healthy (PStr concept_name) (Some "Concept") w Hh).
  cbn [given String.eqb Ascii.eqb Bool.eqb].
  rewrite existing_truthy.
  destruct (named (Some "Concept") (PStr concept_name) (w_graph w));
    [contradiction | reflexivity].
Qed.





Lemma count_app labels props (nodes : list Node) n :
  length (filter (match_node labels props) (nodes ++ [n]))
  = length (filter (match_node labels props) nodes)
    + (if match_node labels props n then 1 else 0).
Proof.
  rewrite filter_app, length_app. cbn [filter].
  destruct (match_node labels props n); reflexivity.
Qed.

(** X10.  [create_custom_node] looks nothing up.  The labels are names
    Cypher reads as they stand, and the properties have identifiers for keys
    and values the driver sends and the store keeps (for an integer beyond
    64 bits, say, the call raises and adds nothing).  Then, on a store that
    answers, every call adds one node with the label, the name and the
    common properties, also when a node of that label and name is there
    already.  The number of nodes of that name, and the count
    [get_node_count] gives for the label, each grow by one. *)
Theorem create_custom_node_always_adds
    (label name : string) (properties : option Dict)
    (additional_labels : option (list string)) (w : World) :
  healthy w ->
  forallb label_name (labels_of label additional_labels) = true ->
  sendable (props_of properties) = true ->
  has_key "name" (props_of properties) = false ->
  exists r w' n,
    create_custom_node label name properties additional_labels w = (Return r, w')
    /\ dict_get "nodes_created" r = Some (PInt 1)
    /\ dict_get "records" r = Some (PList [PDict [("n", node_py n)]])
    /\ g_nodes (w_graph w') = (g_nodes (w_graph w) ++ [n])%list
    /\ g_edges (w_graph w') = g_edges (w_graph w)
    /\ n_labels n = labels_of label additional_labels
    /\ prop "name" n = PStr name
    /\ prop "created_at" n = PStr (isoformat (w_clock w))
    /\ length (named (Some label) (PStr name) (w_graph w'))
       = S (length (named (Some label) (PStr name) (w_graph w)))
    /\ exists c,
         fst (get_node_count (Some label) w) = Return (PNat c)
         /\ fst (get_node_count (Some label) w') = Return (PNat (S c)).
Proof.
  intros Hh Hlabels Hsend Hname.
  set (m := common_properties (named_properties name properties) (w_clock w)).
  set (n := mkNode (g_next (w_graph w)) (labels_of label additional_labels)
                   (set_props [] m)).
  set (g1 := mkGraph (g_nodes (w_graph w) ++ [n]) (g_edges (w_graph w))
                     (S (g_next (w_graph w)))).
  assert (Hn : prop "name" n = PStr name) by (apply stored_name; exact Hname).
  assert (E : create_custom_node label name properties additional_labels w
              = (Return (("records", PList [PDict [("n", node_py n)]])
                         :: counters_dict
                              (mkCounters 1 0 0 0 (length (set_props [] m))
                                 (length (labels_of label additional_labels))
                                 0 0 0 0 0)),
                 with_graph (ticked w) g1)).
  { unfold create_custom_node. apply try_return.
    run (add_common_run (named_properties name properties) w). fold m.
    rewrite bind_return with
      (a := ("records", PList [PDict [("n", node_py n)]])
            :: counters_dict
                 (mkCounters 1 0 0 0 (length (set_props [] m))
                    (length (labels_of label additional_labels)) 0 0 0 0 0))
      (w' := with_graph (ticked w) g1); [reflexivity|].
    unfold create_node.
    exact (execute_write_healthy (cy_create_node _ m) _ (ticked w)
             (healthy_ticked _ Hh) eq_refl). }
  eexists _, _, n. split; [exact E|].
  split; [reflexivity|]. split; [reflexivity|]. split; [reflexivity|].
  split; [reflexivity|]. split; [reflexivity|]. split; [exact Hn|].
  split; [apply stored_created|].
  cbn [with_graph w_graph]. split.
  - unfold named, g1. cbn [g_nodes opt_label]. rewrite count_app.
    unfold n at 1, labels_of. rewrite match_new_node by exact Hn. lia.
  - exists (length (filter (match_node (opt_label (given (Some label))) [])
                           (g_nodes (w_graph w)))).
    rewrite (get_node_count_healthy (Some label) w Hh).
    rewrite (get_node_count_healthy (Some label) (with_graph (ticked w) g1)
               (healthy_with_graph _ _ (healthy_ticked _ Hh))).
    split; [reflexivity|]. cbn [fst with_graph w_graph]. do 2 f_equal.
    unfold g1. cbn [g_nodes]. rewrite count_app.
    assert (M : match_node (opt_label (given (Some label))) [] n = true).
    { unfold match_node, given. cbn [forallb]. rewrite andb_true_r.
      destruct (String.eqb label ""); cbn [opt_label forallb]; [reflexivity|].
      unfold n, labels_of. now rewrite has_own_label. }
    rewrite M. lia.
Qed.

Lemma create_custom_node_always_adds_witness :
  healthy w_labels
  /\ exists r w' n,
       create_custom_node "Widget" "gadget" None None w_labels = (Return r, w')
       /\ prop "name" n = PStr "gadget"
       /\ length (named (Some "Widget") (PStr "gadget") (w_graph w')) = 2.
Proof.
  split; [reflexivity|].
  destruct (create_custom_node_always_adds "Widget" "gadget" None None w_labels
              eq_refl eq_refl eq_refl eq_refl)
    as (r & w' & n & E & _ & _ & _ & _ & _ & Hn & _ & Hlen & _).
  exists r, w', n. repeat split; assumption.
Defined.



(** * [_update_node] *)
Lemma dict_get_remove_same k d : dict_get k (dict_remove k d) = None.
Proof.
  induction d as [|[k0 v0] d IH]; [reflexivity|].
  cbn [dict_remove]. destruct (String.eqb k k0) eqn:E; [exact IH|].
  cbn [dict_get]. now rewrite E.
Qed.

Lemma get_set_prop k v d : get k (set_prop k v d) = v.
Proof.
  destruct v; try (apply get_set_prop_same; discriminate).
  unfold get, set_prop. now rewrite dict_get_remove_same.
Qed.

Lemma fold_set_get_out params ks : forall acc k,
  ~ In k ks ->
  get k (fold_left (fun acc k => set_prop k (get k params) acc) ks acc) = get k acc.
Proof.
  induction ks as [|k0 ks IH]; intros acc k H; [reflexivity|].
  cbn [fold_left]. rewrite IH by (intros Hin; apply H; now right).
  apply get_set_prop_other. intros ->. apply H. now left.
Qed.

Lemma fold_set_get_in params ks : forall acc k,
  NoDup ks -> In k ks ->
  get k (fold_left (fun acc k => set_prop k (get k params) acc) ks acc)
  = get k params.
Proof.
  induction ks as [|k0 ks IH]; intros acc k Hnd Hin; [contradiction|].
  inversion Hnd; subst. cbn [fold_left]. destruct Hin as [-> | Hin].
  - rewrite fold_set_get_out by assumption. apply get_set_prop.
  - now apply IH.
Qed.

Lemma keys_In k d : In k (keys d) -> exists v, In (k, v) d.
Proof.
  unfold keys. intros H. apply in_map_iff in H.
  destruct H as ([k' v] & E & H). cbn in E. subst. now exists v.
Qed.

Lemma update_params_get name properties k :
  NoDup (keys properties) -> In k (keys properties) ->
  get k (dict_update [("name", PStr name)] properties) = get k properties.
Proof.
  intros Hnd Hin. destruct (keys_In _ _ Hin) as [v Hv].
  unfold get. rewrite (dict_get_update_In properties _ k v Hnd Hv).
  now rewrite (dict_get_In k v properties Hnd Hv).
Qed.

Lemma update_params_name name properties :
  has_key "name" properties = false ->
  get "name" (dict_update [("name", PStr name)] properties) = PStr name.
Proof.
  intros H. unfold get. now rewrite dict_get_update_absent.
Qed.

Lemma has_key_set_other k k' v d :
  k <> k' -> has_key k (dict_set k' v d) = has_key k d.
Proof. intros H. unfold has_key. now rewrite dict_get_set_other. Qed.

Lemma has_key_keys k d : has_key k d = true <-> In k (keys d).
Proof.
  unfold has_key. induction d as [|[k0 v0] d IH]; cbn.
  - split; [discriminate | contradiction].
  - destruct (String.eqb k k0) eqn:E.
    + apply String.eqb_eq in E. subst. split; auto.
    + split.
      * intros H. right. now apply IH.
      * intros [-> | H]; [now rewrite String.eqb_refl in E | now apply IH].
Qed.

(** What [_update_node] does on a store that answers. *)
Lemma update_node_healthy name label properties w :
  healthy w ->
  has_key "name" properties = false ->
  let hit := match_node [label] [("name", PStr name)] in
  let upd := updated_node name properties (w_clock w) in
  _update_node name label properties w
  = (Return [("records",
              PList (map PDict (map (fun n => [("n", node_py (upd n))])
                                    (filter hit (g_nodes (w_graph w))))));
             ("nodes_created", PInt 0);
             ("nodes_updated", PInt 1);
             ("properties_set",
              PNat (length (dict_set "updated_at" (PStr (isoformat (w_clock w)))
                                     properties)));
             ("status", PStr "updated")],
     with_graph (ticked w)
       (mkGraph (map (fun n => if hit n then upd n else n) (g_nodes (w_graph w)))
                (g_edges (w_graph w)) (g_next (w_graph w)))).
Proof.
  intros Hh Hname hit upd. unfold _update_node. apply try_return.
  rewrite bind_return with (a := PStr (isoformat (w_clock w))) (w' := ticked w)
    by reflexivity.
  set (props' := dict_set "updated_at" (PStr (isoformat (w_clock w))) properties).
  set (params := dict_update [("name", PStr name)] props').
  assert (N : get "name" params = PStr name).
  { apply update_params_name. unfold props'.
    now rewrite has_key_set_other by discriminate. }
  assert (Q : cy_set_node label params (keys props') (w_graph w)
              = inr (mkAnswer
                       (map (fun n => [("n", node_py (upd n))])
                            (filter hit (g_nodes (w_graph w))))
                       (mkCounters 0 0 0 0
                          (length (filter hit (g_nodes (w_graph w)))
                           * length (keys props')) 0 0 0 0 0 0)
                       (mkGraph (map (fun n => if hit n then upd n else n)
                                     (g_nodes (w_graph w)))
                                (g_edges (w_graph w)) (g_next (w_graph w))))).
  { unfold cy_set_node. rewrite N. reflexivity. }
  rewrite (bind_return _ _ _ _ _
             (execute_write_healthy _ _ (ticked w) (healthy_ticked _ Hh) Q)).
  reflexivity.
Qed.

Lemma updated_node_given name properties t n k :
  NoDup (keys properties) -> In k (keys properties) -> k <> "updated_at" ->
  prop k (updated_node name properties t n) = get k properties.
Proof.
  intros Hnd Hin Hk. unfold updated_node, prop, with_props. cbn [n_props].
  set (props' := dict_set "updated_at" (PStr (isoformat t)) properties).
  assert (Hnd' : NoDup (keys props')) by now apply dict_set_NoDup.
  assert (Hin' : In k (keys props')).
  { apply has_key_keys. unfold props'. rewrite has_key_set_other by exact Hk.
    now apply has_key_keys. }
  rewrite fold_set_get_in by assumption.
  rewrite update_params_get by assumption.
  unfold props', get. now rewrite dict_get_set_other.
Qed.

Lemma updated_node_stamp name properties t n :
  NoDup (keys properties) ->
  prop "updated_at" (updated_node name properties t n) = PStr (isoformat t).
Proof.
  intros Hnd. unfold updated_node, prop, with_props. cbn [n_props].
  set (props' := dict_set "updated_at" (PStr (isoformat t)) properties).
  assert (Hnd' : NoDup (keys props')) by now apply dict_set_NoDup.
  assert (Hin' : In "updated_at" (keys props')).
  { apply has_key_keys. unfold props', has_key. now rewrite dict_get_set_same. }
  rewrite fold_set_get_in by assumption.
  rewrite update_params_get by assumption.
  unfold props', get. now rewrite dict_get_set_same.
Qed.

Lemma updated_node_other name properties t n k :
  ~ In k (keys properties) -> k <> "updated_at" ->
  prop k (updated_node name properties t n) = prop k n.
Proof.
  intros Hout Hk. unfold updated_node, prop, with_props. cbn [n_props].
  apply fold_set_get_out. intros Hin.
  apply keys_dict_set in Hin. destruct Hin as [-> | Hin]; contradiction.
Qed.





(** * [delete_instance_node] *)
Lemma named_is_filter name g :
  named (Some "Instance") (PStr name) g = filter (instance_named name) (g_nodes g).
Proof. reflexivity. Qed.

Lemma doomed_iff name g n :
  unique_ids g -> In n (g_nodes g) ->
  mem_nat (n_id n) (nodup_nat (map n_id (named (Some "Instance") (PStr name) g)))
  = instance_named name n.
Proof.
  intros Hu Hin. rewrite mem_nodup.
  destruct (instance_named name n) eqn:E.
  - apply mem_nat_In. apply in_map. rewrite named_is_filter. apply filter_In. auto.
  - destruct (mem_nat _ _) eqn:M; [|reflexivity].
    apply mem_nat_In in M. apply in_map_iff in M. destruct M as (m & Hid & Hm).
    rewrite named_is_filter in Hm. apply filter_In in Hm. destruct Hm as [Hm1 Hm2].
    assert (m = n) by (eapply same_id_same_node; eauto).
    subst. congruence.
Qed.

Lemma filter_same {A} (f g : A -> bool) l :
  (forall x, In x l -> f x = g x) -> filter f l = filter g l.
Proof.
  induction l as [|x l IH]; intros H; [reflexivity|].
  cbn. rewrite (H x) by now left.
  rewrite IH by (intros y Hy; apply H; now right). reflexivity.
Qed.

Lemma gone_attached name g e :
  mem_nat (e_src e) (nodup_nat (map n_id (named (Some "Instance") (PStr name) g)))
  || mem_nat (e_dst e) (nodup_nat (map n_id (named (Some "Instance") (PStr name) g)))
  = attached_to (named (Some "Instance") (PStr name) g) e.
Proof. unfold attached_to. now rewrite !mem_nodup. Qed.

Lemma delete_query name g :
  unique_ids g ->
  cy_delete_instance (PStr name) g
  = inr (mkAnswer []
           (mkCounters 0 (length (named (Some "Instance") (PStr name) g))
              0 (length (filter (attached_to (named (Some "Instance") (PStr name) g))
                                (g_edges g))) 0 0 0 0 0 0 0)
           (mkGraph (filter (fun n => negb (instance_named name n)) (g_nodes g))
                    (filter (fun e => negb (attached_to
                                              (named (Some "Instance") (PStr name) g) e))
                            (g_edges g))
                    (g_next g))).
Proof.
  intros Hu. unfold cy_delete_instance, detach_delete.
  rewrite (filter_same
             (fun n => mem_nat (n_id n)
                         (nodup_nat (map n_id (named (Some "Instance") (PStr name) g))))
             (instance_named name) (g_nodes g))
    by (intros n Hn; now apply doomed_iff).
  rewrite (filter_same
             (fun n => negb (mem_nat (n_id n)
                         (nodup_nat (map n_id (named (Some "Instance") (PStr name) g)))))
             (fun n => negb (instance_named name n)) (g_nodes g))
    by (intros n Hn; now rewrite doomed_iff).
  rewrite (filter_ext _ (attached_to (named (Some "Instance") (PStr name) g))
             (gone_attached name g)).
  rewrite (filter_ext
             (fun e => negb (mem_nat (e_src e) _ || mem_nat (e_dst e) _))
             (fun e => negb (attached_to (named (Some "Instance") (PStr name) g) e)))
    by (intros e; now rewrite gone_attached).
  reflexivity.
Qed.

Lemma delete_instance_absent name w :
  healthy w ->
  named (Some "Instance") (PStr name) (w_graph w) = [] ->
  delete_instance_node name true w
  = (Raise ("Failed to delete instance node: Instance '" ++ name ++ "' not found"), w)
  /\ delete_instance_node name false w
     = (Return not_found, logged w ["Instance '" ++ name ++ "' not found"]).
Proof.
  intros Hh Hnone. split.
  - unfold delete_instance_node.
    rewrite try_raise with (e := "Instance '" ++ name ++ "' not found") (w' := w);
      [reflexivity|].
    run (get_existing_node_healthy (PStr name) (Some "Instance") w Hh).
    cbn [given String.eqb Ascii.eqb Bool.eqb]. now rewrite Hnone.
  - unfold delete_instance_node. apply try_return.
    run (get_existing_node_healthy (PStr name) (Some "Instance") w Hh).
    cbn [given String.eqb Ascii.eqb Bool.eqb]. rewrite Hnone.
    cbn [first_node truthy negb].
    rewrite (bind_return _ _ _ _ _ (warn_logged _ w)). reflexivity.
Qed.

Lemma delete_instance_present name fail w :
  healthy w -> unique_ids (w_graph w) ->
  named (Some "Instance") (PStr name) (w_graph w) <> [] ->
  let g := w_graph w in
  let doomed := named (Some "Instance") (PStr name) g in
  delete_instance_node name fail w
  = (Return (("records", PList [])
             :: dict_set "status" (PStr "deleted")
                  (counters_dict
                     (mkCounters 0 (length doomed) 0
                        (length (filter (attached_to doomed) (g_edges g)))
                        0 0 0 0 0 0 0))),
     with_graph w
       (mkGraph (filter (fun n => negb (instance_named name n)) (g_nodes g))
                (filter (fun e => negb (attached_to doomed e)) (g_edges g))
                (g_next g))).
Proof.
  intros Hh Hu Hsome g doomed. unfold delete_instance_node. apply try_return.
  run (get_existing_node_healthy (PStr name) (Some "Instance") w Hh).
  cbn [given String.eqb Ascii.eqb Bool.eqb]. rewrite existing_truthy.
  assert (L : Nat.eqb (length doomed) 0 = false).
  { unfold doomed, g. destruct (named (Some "Instance") (PStr name) (w_graph w));
      [contradiction | reflexivity]. }
  fold g. fold doomed. rewrite L. cbn [negb].
  rewrite (bind_return _ _ _ _ _
             (execute_write_healthy _ _ w Hh (delete_query name (w_graph w) Hu))).
  fold g. fold doomed.
  cbn [a_rows a_counters a_graph map]. unfold ret. f_equal. f_equal.
  unfold get_nat. cbn [counters_dict c_nodes_deleted dict_get String.eqb Ascii.eqb
                       Bool.eqb].
  unfold PNat. rewrite Nat2Z.id.
  destruct (length doomed); [discriminate | reflexivity].
Qed.

Lemma filter_negb_self {A} (f : A -> bool) l :
  filter f (filter (fun x => negb (f x)) l) = [].
Proof.
  apply filter_none. intros x Hx. apply filter_In in Hx.
  destruct Hx as [_ Hx]. now destruct (f x).
Qed.

Lemma unique_ids_filter (f : Node -> bool) nodes edges next edges' next' :
  unique_ids (mkGraph nodes edges next) ->
  unique_ids (mkGraph (filter f nodes) edges' next').
Proof. unfold unique_ids. cbn [g_nodes]. apply NoDup_map_filter. Qed.

(** X12.  [delete_instance_node] removes the instances of the name and
    nothing else.  On a store that answers and whose node identifiers are
    unique: when instances of the name exist, the call returns status
    [deleted] with their number; exactly the nodes that bear the label
    [Instance] and have the name are gone, with exactly the relationships
    that started or ended at one of them; afterwards no instance has the
    name, and deleting again finds nothing.  When no instance has the name,
    nothing is changed: the call raises if [fail_if_not_found] is set, and
    otherwise logs a warning and returns status [not_found]. *)
Theorem delete_instance_node_removes
    (instance_name : string) (fail_if_not_found : bool) (w : World) :
  healthy w ->
  unique_ids (w_graph w) ->
  let g := w_graph w in
  let doomed := named (Some "Instance") (PStr instance_name) g in
  (doomed <> [] ->
   exists r w',
     delete_instance_node instance_name fail_if_not_found w = (Return r, w')
     /\ dict_get "status" r = Some (PStr "deleted")
     /\ dict_get "nodes_deleted" r = Some (PNat (length doomed))
     /\ dict_get "relationships_deleted" r
        = Some (PNat (length (filter (attached_to doomed) (g_edges g))))
     /\ g_nodes (w_graph w')
        = filter (fun n => negb (instance_named instance_name n)) (g_nodes g)
     /\ g_edges (w_graph w')
        = filter (fun e => negb (attached_to doomed e)) (g_edges g)
     /\ named (Some "Instance") (PStr instance_name) (w_graph w') = []
     /\ fst (delete_instance_node instance_name false w') = Return not_found)
  /\ (doomed = [] ->
      delete_instance_node instance_name true w
      = (Raise ("Failed to delete instance node: Instance '" ++ instance_name
                ++ "' not found"), w)
      /\ delete_instance_node instance_name false w
         = (Return not_found,
            logged w ["Instance '" ++ instance_name ++ "' not found"])).
Proof.
  intros Hh Hu g doomed. split.
  - intros Hsome.
    pose proof (delete_instance_present instance_name fail_if_not_found w
                  Hh Hu Hsome) as E.
    cbv zeta in E. fold g in E. fold doomed in E.
    eexists _, _. split; [exact E|].
    split; [reflexivity|]. split; [reflexivity|]. split; [reflexivity|].
    split; [reflexivity|]. split; [reflexivity|].
    assert (Hgone : named (Some "Instance") (PStr instance_name)
                      (w_graph
                         (with_graph w
                            (mkGraph
                               (filter (fun n => negb (instance_named instance_name n))
                                       (g_nodes g))
                               (filter (fun e => negb (attached_to doomed e))
                                       (g_edges g))
                               (g_next g)))) = []).
    { cbn [with_graph w_graph]. rewrite named_is_filter. cbn [g_nodes].
      apply filter_negb_self. }
    split; [exact Hgone|].
    destruct (delete_instance_absent instance_name _
                (healthy_with_graph _ _ Hh) Hgone) as [_ E2].
    now rewrite E2.
  - intros Hnone. now apply delete_instance_absent.
Qed.

Lemma delete_instance_node_removes_witness :
  healthy w_object
  /\ unique_ids (w_graph w_object)
  /\ (exists r w',
        delete_instance_node "orders" true w_object = (Return r, w')
        /\ dict_get "status" r = Some (PStr "deleted")
        /\ dict_get "nodes_deleted" r = Some (PInt 1)
        /\ dict_get "relationships_deleted" r = Some (PInt 5)
        /\ length (g_nodes (w_graph w')) = 6)
  /\ fst (delete_instance_node "nobody" true w_object)
     = Raise "Failed to delete instance node: Instance 'nobody' not found".
Proof.
  split; [reflexivity|].
  assert (Hu : unique_ids (w_graph w_object)).
  { unfold unique_ids. cbn. repeat constructor; cbn; intuition discriminate. }
  split; [exact Hu|].
  destruct (delete_instance_node_removes "orders" true w_object eq_refl Hu)
    as [Hfound _].
  destruct (delete_instance_node_removes "nobody" true w_object eq_refl Hu)
    as [_ Habsent].
  split.
  - destruct (Hfound ltac:(discriminate))
      as (r & w' & E & S & N & R & G & _).
    exists r, w'. split; [exact E|]. split; [exact S|].
    split; [exact N|]. split; [exact R|]. now rewrite G.
  - destruct (Habsent eq_refl) as [E _]. now rewrite E.
Defined.

(* ----------------------------------------------------------------- *)
(** ** [delete_nodes_by_name] *)

Lemma get_nat_PNat k n d : get_nat k (dict_set k (PNat n) d) = n.
Proof. unfold get_nat. rewrite dict_get_set_same. unfold PNat. apply Nat2Z.id. Qed.

Lemma get_nat_set_other k k' v d : k <> k' -> get_nat k (dict_set k' v d) = get_nat k d.
Proof. intros H. unfold get_nat. now rewrite dict_get_set_other. Qed.

Lemma get_set_other k k' v d : k <> k' -> get k (dict_set k' v d) = get k d.
Proof. intros H. unfold get. now rewrite dict_get_set_other. Qed.

Lemma get_set_same k v d : get k (dict_set k v d) = v.
Proof. unfold get. now rewrite dict_get_set_same. Qed.

Lemma add_result_fields aggregated name res :
  get_nat "total" (add_result aggregated name res) = get_nat "total" aggregated
  /\ processed_of (add_result aggregated name res) = S (processed_of aggregated)
  /\ get_nat "nodes_deleted" (add_result aggregated name res)
     = get_nat "nodes_deleted" aggregated + get_nat "nodes_deleted" res
  /\ errors_of (add_result aggregated name res) = errors_of aggregated
  /\ as_list (get "results" (add_result aggregated name res))
     = (results_of aggregated
        ++ [PDict [("name", PStr name);
                   ("status", get_or "status" (PStr "unknown") res)]])%list.
Proof.
  unfold add_result, processed_of, errors_of, results_of.
  split; [now rewrite !get_nat_set_other by discriminate|].
  split.
  { rewrite !get_nat_set_other by discriminate. rewrite get_nat_PNat. lia. }
  split.
  { rewrite !get_nat_set_other by discriminate. rewrite get_nat_PNat.
    now rewrite !get_nat_set_other by discriminate. }
  split.
  { now rewrite !get_set_other by discriminate. }
  rewrite get_set_same. cbn [as_list].
  now rewrite !get_set_other by discriminate.
Qed.

(** One turn of the loop: either the name is processed, or an error is
    recorded; never both, and never an exception. *)
Lemma delete_one_accounts continue_on_error aggregated name w :
  exists aggregated' go w',
    delete_one continue_on_error aggregated name w = (Return (aggregated', go), w')
    /\ get_nat "total" aggregated' = get_nat "total" aggregated
    /\ ((go = true
         /\ processed_of aggregated' = S (processed_of aggregated)
         /\ errors_of aggregated' = errors_of aggregated
         /\ length (results_of aggregated') = S (length (results_of aggregated)))
        \/ (go = continue_on_error
            /\ processed_of aggregated' = processed_of aggregated
            /\ length (errors_of aggregated') = S (length (errors_of aggregated))
            /\ results_of aggregated' = results_of aggregated)).
Proof.
  unfold delete_one.
  destruct (delete_instance_node name false w) as [[res|e] w1] eqn:D.
  - exists (add_result aggregated name res), true, w1. split.
    { apply try_return. rewrite (bind_return _ _ _ _ _ D). reflexivity. }
    destruct (add_result_fields aggregated name res) as (T & P & _ & Er & Rs).
    split; [exact T|]. left.
    split; [reflexivity|]. split; [exact P|]. split; [exact Er|].
    unfold results_of at 1. rewrite Rs, length_app. cbn. lia.
  - exists (add_error aggregated name e), continue_on_error, w1. split.
    { rewrite try_raise with (e := e) (w' := w1);
        [reflexivity | now rewrite (bind_raise _ _ _ _ _ D)]. }
    unfold add_error, processed_of, errors_of, results_of.
    split.
    { rewrite !get_nat_set_other by discriminate. reflexivity. }
    right. split; [reflexivity|]. split.
    { rewrite !get_nat_set_other by discriminate. reflexivity. }
    split.
    { rewrite get_set_same. cbn [as_list]. rewrite length_app. cbn. lia. }
    rewrite !get_set_other by discriminate. reflexivity.
Qed.

Lemma delete_each_accounts continue_on_error names : forall aggregated w,
  exists r w',
    delete_each continue_on_error names aggregated w = (Return r, w')
    /\ get_nat "total" r = get_nat "total" aggregated
    /\ length (results_of r) - length (results_of aggregated)
       = processed_of r - processed_of aggregated
    /\ processed_of aggregated <= processed_of r
    /\ length (results_of aggregated) <= length (results_of r)
    /\ length (errors_of aggregated) <= length (errors_of r)
    /\ (continue_on_error = true ->
        (processed_of r - processed_of aggregated)
        + (length (errors_of r) - length (errors_of aggregated))
        = length names)
    /\ (continue_on_error = false ->
        (processed_of r - processed_of aggregated)
        + (length (errors_of r) - length (errors_of aggregated))
        <= length names
        /\ length (errors_of r) - length (errors_of aggregated) <= 1).
Proof.
  induction names as [|name names IH]; intros aggregated w.
  - exists aggregated, w. cbn. repeat split; try lia.
  - destruct (delete_one_accounts continue_on_error aggregated name w)
      as (agg1 & go & w1 & E & T & H).
    cbn [delete_each]. rewrite (bind_return _ _ _ _ _ E). cbn [fst snd].
    destruct H as [(-> & P & Er & Rs) | (-> & P & Er & Rs)].
    + destruct (IH agg1 w1) as (r & w' & E' & T' & H1 & H2 & H3 & H4 & H5 & H6).
      exists r, w'. split; [exact E'|]. split; [congruence|].
      rewrite Er in *. cbn [length].
      split; [lia|]. split; [lia|]. split; [lia|]. split; [lia|]. split.
      * intros C. specialize (H5 C). lia.
      * intros C. specialize (H6 C). lia.
    + destruct continue_on_error.
      * destruct (IH agg1 w1) as (r & w' & E' & T' & H1 & H2 & H3 & H4 & H5 & H6).
        exists r, w'. split; [exact E'|]. split; [congruence|].
        rewrite Rs in *. cbn [length].
        split; [lia|]. split; [lia|]. split; [lia|]. split; [lia|]. split.
        -- intros C. specialize (H5 C). lia.
        -- discriminate.
      * exists agg1, w1. split; [reflexivity|]. split; [exact T|].
        rewrite Rs. cbn [length].
        split; [lia|]. split; [lia|]. split; [lia|]. split; [lia|]. split.
        -- discriminate.
        -- intros _. lia.
Qed.

(** X13.  [delete_nodes_by_name] never raises and accounts for every name.
    Whatever the store does, the call returns; [total] is the number of
    names and there is one entry in [results] for each processed name.
    With [continue_on_error] every name is either processed or listed in
    [errors]: processed + errors = total.  Without it the loop stops at the
    first error, so there is at most one error and processed + errors is at
    most the total. *)
Theorem delete_nodes_by_name_accounts
    (names : list string) (continue_on_error : bool) (w : World) :
  exists r w',
    delete_nodes_by_name names continue_on_error w = (Return r, w')
    /\ get_nat "total" r = length names
    /\ length (results_of r) = processed_of r
    /\ (if continue_on_error
        then processed_of r + length (errors_of r) = length names
        else processed_of r + length (errors_of r) <= length names
             /\ length (errors_of r) <= 1).
Proof.
  unfold delete_nodes_by_name.
  destruct (delete_each_accounts continue_on_error names
              [("total", PNat (length names)); ("processed", PInt 0);
               ("nodes_deleted", PInt 0); ("relationships_deleted", PInt 0);
               ("errors", PList []); ("results", PList [])] w)
    as (r & w' & E & T & H1 & H2 & H3 & H4 & H5 & H6).
  exists r, w'. split; [exact E|].
  change (get_nat "total" [("total", PNat (length names)); ("processed", PInt 0);
               ("nodes_deleted", PInt 0); ("relationships_deleted", PInt 0);
               ("errors", PList []); ("results", PList [])])
    with (Z.to_nat (Z.of_nat (length names))) in T.
  rewrite Nat2Z.id in T.
  cbn in H1, H2, H3, H4, H5, H6.
  split; [exact T|]. split; [lia|].
  destruct continue_on_error.
  - specialize (H5 eq_refl). lia.
  - specialize (H6 eq_refl). lia.
Qed.

(* ----------------------------------------------------------------- *)
(** ** The batch on a store that answers *)

Lemma attached_to_nil e : attached_to [] e = false.
Proof. reflexivity. Qed.

(** One deletion that is not to fail, found or not: the instances of the
    name go, with the relationships attached to them. *)
Lemma delete_instance_step name w :
  healthy w -> unique_ids (w_graph w) ->
  let g := w_graph w in
  let doomed := filter (instance_named name) (g_nodes g) in
  exists res w',
    delete_instance_node name false w = (Return res, w')
    /\ healthy w'
    /\ get_nat "nodes_deleted" res = length doomed
    /\ g_nodes (w_graph w') = filter (fun n => negb (instance_named name n)) (g_nodes g)
    /\ g_edges (w_graph w')
       = filter (fun e => negb (attached_to doomed e)) (g_edges g)
    /\ unique_ids (w_graph w').
Proof.
  intros Hh Hu g doomed.
  destruct (named (Some "Instance") (PStr name) (w_graph w)) as [|d ds] eqn:N.
  - destruct (delete_instance_absent name w Hh N) as [_ E].
    assert (D : doomed = []) by (unfold doomed, g; now rewrite <- named_is_filter).
    exists not_found, (logged w ["Instance '" ++ name ++ "' not found"]).
    split; [exact E|]. split; [now apply healthy_logged|].
    rewrite D. split; [reflexivity|]. cbn [logged w_graph]. fold g.
    split; [|split].
    + symmetry. apply filter_all. intros n Hn.
      destruct (instance_named name n) eqn:I; [|reflexivity].
      assert (In n doomed) by (apply filter_In; auto).
      rewrite D in H. contradiction.
    + symmetry. now apply filter_all.
    + exact Hu.
  - assert (Hsome : named (Some "Instance") (PStr name) (w_graph w) <> [])
      by (rewrite N; discriminate).
    pose proof (delete_instance_present name false w Hh Hu Hsome) as E.
    cbv zeta in E. rewrite named_is_filter in E. fold g in E. fold doomed in E.
    eexists _, _. split; [exact E|].
    split; [now apply healthy_with_graph|]. split.
    { unfold get_nat. cbn. unfold PNat. now rewrite Nat2Z.id. }
    split; [reflexivity|]. split; [reflexivity|].
    cbn [with_graph w_graph]. unfold g.
    apply (unique_ids_filter _ _ (g_edges (w_graph w)) (g_next (w_graph w))).
    now rewrite graph_eta.
Qed.

Lemma mem_nat_app x l1 l2 : mem_nat x (l1 ++ l2) = mem_nat x l1 || mem_nat x l2.
Proof. unfold mem_nat. apply existsb_app. Qed.

Lemma mem_nat_same x l1 l2 :
  (forall y, In y l1 <-> In y l2) -> mem_nat x l1 = mem_nat x l2.
Proof.
  intros H. destruct (mem_nat x l1) eqn:E1, (mem_nat x l2) eqn:E2; auto.
  - apply mem_nat_In in E1. apply H in E1. apply mem_nat_In in E1. congruence.
  - apply mem_nat_In in E2. apply H in E2. apply mem_nat_In in E2. congruence.
Qed.

Lemma attached_split name names nodes e :
  attached_to (filter (instance_among (name :: names)) nodes) e
  = attached_to (filter (instance_named name) nodes) e
    || attached_to (filter (instance_among names)
                           (filter (fun n => negb (instance_named name n)) nodes)) e.
Proof.
  unfold attached_to.
  assert (S : forall x,
             mem_nat x (map n_id (filter (instance_among (name :: names)) nodes))
             = mem_nat x (map n_id (filter (instance_named name) nodes))
               || mem_nat x (map n_id
                    (filter (instance_among names)
                            (filter (fun n => negb (instance_named name n)) nodes)))).
  { intros x. rewrite <- mem_nat_app, <- map_app. apply mem_nat_same.
    intros y. rewrite !in_map_iff. split; intros (n & Hid & Hn); exists n;
      (split; [exact Hid|]).
    - apply filter_In in Hn. destruct Hn as [Hn Hd].
      apply in_or_app. cbn [instance_among existsb] in Hd.
      destruct (instance_named name n) eqn:I.
      + left. apply filter_In. auto.
      + right. apply filter_In. split; [|exact Hd].
        apply filter_In. split; [exact Hn | now rewrite I].
    - apply in_app_or in Hn. apply filter_In.
      destruct Hn as [Hn | Hn]; apply filter_In in Hn; destruct Hn as [Hn Hd].
      + split; [exact Hn|]. cbn [instance_among existsb]. now rewrite Hd.
      + apply filter_In in Hn. destruct Hn as [Hn _]. split; [exact Hn|].
        cbn [instance_among existsb]. unfold instance_among in Hd.
        rewrite Hd. apply orb_true_r. }
  rewrite !S. destruct (mem_nat (e_src e) _), (mem_nat (e_dst e) _),
    (mem_nat (e_src e) _), (mem_nat (e_dst e) _); reflexivity.
Qed.

Lemma filter_length_split {A} (f g : A -> bool) l :
  length (filter (fun x => f x || g x) l)
  = length (filter f l) + length (filter g (filter (fun x => negb (f x)) l)).
Proof.
  induction l as [|x l IH]; [reflexivity|].
  cbn [filter]. destruct (f x); cbn [orb negb filter length].
  - now rewrite IH.
  - destruct (g x); cbn [length]; now rewrite IH.
Qed.

Lemma delete_each_healthy continue_on_error names : forall aggregated w,
  healthy w -> unique_ids (w_graph w) ->
  let g := w_graph w in
  exists r w',
    delete_each continue_on_error names aggregated w = (Return r, w')
    /\ errors_of r = errors_of aggregated
    /\ processed_of r = processed_of aggregated + length names
    /\ get_nat "nodes_deleted" r
       = get_nat "nodes_deleted" aggregated
         + length (filter (instance_among names) (g_nodes g))
    /\ g_nodes (w_graph w')
       = filter (fun n => negb (instance_among names n)) (g_nodes g)
    /\ g_edges (w_graph w')
       = filter (fun e => negb (attached_to
                                  (filter (instance_among names) (g_nodes g)) e))
                (g_edges g).
Proof.
  induction names as [|name names IH]; intros aggregated w Hh Hu g.
  - exists aggregated, w. split; [reflexivity|]. split; [reflexivity|].
    split; [cbn [length]; lia|].
    rewrite (filter_none (instance_among [])) by reflexivity.
    split; [cbn [length]; lia|]. split.
    + symmetry. now apply filter_all.
    + symmetry. now apply filter_all.
  - destruct (delete_instance_step name w Hh Hu)
      as (res & w1 & E & Hh1 & Nd & Gn & Ge & Hu1).
    cbv zeta in Nd, Gn, Ge. fold g in Nd, Gn, Ge.
    cbn [delete_each].
    rewrite bind_return with (a := (add_result aggregated name res, true)) (w' := w1)
      by (unfold delete_one; apply try_return;
          rewrite (bind_return _ _ _ _ _ E); reflexivity).
    cbn [fst snd].
    destruct (IH (add_result aggregated name res) w1 Hh1 Hu1)
      as (r & w' & E' & Er & Pr & Nr & Gn' & Ge').
    cbv zeta in Nr, Gn', Ge'.
    destruct (add_result_fields aggregated name res) as (_ & P1 & N1 & E1 & _).
    exists r, w'. split; [exact E'|].
    split; [congruence|]. split; [cbn [length]; lia|].
    split.
    { rewrite Nr, N1, Nd, Gn.
      rewrite (filter_ext (instance_among (name :: names))
                 (fun n => instance_named name n || instance_among names n))
        by reflexivity.
      rewrite filter_length_split. lia. }
    split.
    { rewrite Gn', Gn, filter_filter. apply filter_ext. intros n.
      cbn [instance_among existsb]. now rewrite negb_orb. }
    rewrite Ge', Ge, Gn, filter_filter. apply filter_ext. intros e.
    rewrite attached_split. now rewrite negb_orb.
Qed.

(** X14.  On a store that answers and whose node identifiers are unique,
    [delete_nodes_by_name] records no error and processes every name.  The
    nodes that are gone are exactly the instances called by one of the
    names, and [nodes_deleted] is their number; the relationships that are
    gone are exactly those attached to one of them.  Afterwards no instance
    is called by any of the names, and every node without the label
    [Instance] is still there. *)
Theorem delete_nodes_by_name_deletes
    (names : list string) (continue_on_error : bool) (w : World) :
  healthy w ->
  unique_ids (w_graph w) ->
  let g := w_graph w in
  let doomed := filter (instance_among names) (g_nodes g) in
  exists r w',
    delete_nodes_by_name names continue_on_error w = (Return r, w')
    /\ errors_of r = []
    /\ processed_of r = length names
    /\ get_nat "nodes_deleted" r = length doomed
    /\ g_nodes (w_graph w')
       = filter (fun n => negb (instance_among names n)) (g_nodes g)
    /\ g_edges (w_graph w')
       = filter (fun e => negb (attached_to doomed e)) (g_edges g)
    /\ (forall name, In name names ->
                     named (Some "Instance") (PStr name) (w_graph w') = [])
    /\ (forall n, In n (g_nodes g) -> has_label "Instance" n = false ->
                  In n (g_nodes (w_graph w'))).
Proof.
  intros Hh Hu g doomed. unfold delete_nodes_by_name.
  destruct (delete_each_healthy continue_on_error names
              [("total", PNat (length names)); ("processed", PInt 0);
               ("nodes_deleted", PInt 0); ("relationships_deleted", PInt 0);
               ("errors", PList []); ("results", PList [])] w Hh Hu)
    as (r & w' & E & Er & Pr & Nr & Gn & Ge).
  cbv zeta in Nr, Gn, Ge. fold g in Nr, Gn, Ge. fold doomed in Nr, Ge.
  exists r, w'. split; [exact E|]. split; [exact Er|]. split; [exact Pr|].
  split; [exact Nr|]. split; [exact Gn|]. split; [exact Ge|]. split.
  - intros name Hin. rewrite named_is_filter, Gn. apply filter_none.
    intros n Hn. apply filter_In in Hn. destruct Hn as [_ Hn].
    destruct (instance_named name n) eqn:I; [|reflexivity].
    assert (A : instance_among names n = true).
    { unfold instance_among. apply existsb_exists. exists name. auto. }
    now rewrite A in Hn.
  - intros n Hn Hl. rewrite Gn. apply filter_In. split; [exact Hn|].
    apply negb_true_iff. unfold instance_among.
    destruct (existsb _ names) eqn:X; [|reflexivity].
    apply existsb_exists in X. destruct X as (name & _ & I).
    unfold instance_named, match_node in I. cbn [forallb] in I.
    rewrite Hl in I. discriminate.
Qed.

Lemma delete_nodes_by_name_deletes_witness :
  healthy w_object
  /\ unique_ids (w_graph w_object)
  /\ exists r w',
       delete_nodes_by_name ["id"; "nobody"; "id"; "email"] true w_object
       = (Return r, w')
       /\ errors_of r = []
       /\ processed_of r = 4
       /\ get_nat "nodes_deleted" r = 2
       /\ length (g_nodes (w_graph w')) = 5
       /\ length (g_edges (w_graph w')) = 5.
Proof.
  split; [reflexivity|].
  assert (Hu : unique_ids (w_graph w_object)).
  { unfold unique_ids. cbn. repeat constructor; cbn; intuition discriminate. }
  split; [exact Hu|].
  destruct (delete_nodes_by_name_deletes ["id"; "nobody"; "id"; "email"] true
              w_object eq_refl Hu)
    as (r & w' & E & Er & Pr & Nr & Gn & Ge & _).
  exists r, w'. split; [exact E|]. split; [exact Er|]. split; [exact Pr|].
  split; [exact Nr|]. split; [now rewrite Gn | now rewrite Ge].
Defined.



(** * [search_nodes] *)
Lemma compare_flip a b : String.compare a b = Gt -> String.compare b a = Lt.
Proof.
  intros H. rewrite String.compare_antisym, H. reflexivity.
Qed.

Lemma leb_total a b : String.leb a b = false -> String.leb b a = true.
Proof.
  unfold String.leb. destruct (String.compare a b) eqn:E; try discriminate.
  intros _. now rewrite (compare_flip a b E).
Qed.

(** The order of [ORDER BY name] on two rows whose names are strings. *)
Lemma name_order r1 r2 a b :
  get "name" r1 = PStr a -> get "name" r2 = PStr b ->
  cy_leb (PList (map (fun c => get c r1) ["name"]))
         (PList (map (fun c => get c r2) ["name"]))
  = String.leb a b.
Proof.
  intros H1 H2. cbn [map]. rewrite H1, H2. unfold cy_leb, String.leb. cbn.
  destruct (String.compare a b); reflexivity.
Qed.

Lemma ascending_cons a l :
  ascending (a :: l) = match l with
                       | [] => true
                       | b :: _ => String.leb a b && ascending l
                       end.
Proof. destruct l; reflexivity. Qed.

Lemma insert_by_ascending {A} (leb : A -> A -> bool) (key : A -> string) x l :
  (forall a b, In a (x :: l) -> In b (x :: l) ->
               leb a b = String.leb (key a) (key b)) ->
  ascending (map key l) = true ->
  ascending (map key (insert_by leb x l)) = true.
Proof.
  induction l as [|y l IH]; intros Hleb Hs; [reflexivity|].
  cbn [insert_by].
  rewrite (Hleb x y) by (cbn; auto).
  destruct (String.leb (key x) (key y)) eqn:E.
  - cbn [map]. rewrite ascending_cons. cbn [map] in Hs. now rewrite E.
  - cbn [map] in *. rewrite ascending_cons in Hs.
    assert (Hl : ascending (map key l) = true).
    { destruct (map key l); [reflexivity|].
      apply andb_true_iff in Hs. tauto. }
    assert (IH' : ascending (map key (insert_by leb x l)) = true).
    { apply IH; [|exact Hl]. intros a b Ha Hb. apply Hleb.
      - destruct Ha as [-> | Ha]; [now left | right; now right].
      - destruct Hb as [-> | Hb]; [now left | right; now right]. }
    rewrite ascending_cons.
    destruct l as [|z l]; cbn [insert_by map] in *.
    + now rewrite (leb_total _ _ E).
    + rewrite (Hleb x z) in * by (cbn; auto).
      destruct (String.leb (key x) (key z)); cbn [map].
      * rewrite (leb_total _ _ E). exact IH'.
      * apply andb_true_iff in Hs. destruct Hs as [Hs _]. rewrite Hs. exact IH'.
Qed.

Lemma sort_by_ascending {A} (leb : A -> A -> bool) (key : A -> string) l :
  (forall a b, In a l -> In b l -> leb a b = String.leb (key a) (key b)) ->
  ascending (map key (sort_by leb l)) = true.
Proof.
  induction l as [|x l IH]; intros Hleb; [reflexivity|].
  cbn [sort_by]. apply insert_by_ascending.
  - intros a b Ha Hb. apply Hleb.
    + destruct Ha as [-> | Ha]; [now left|].
      right. apply (Permutation_in _ (sort_by_perm leb l)). exact Ha.
    + destruct Hb as [-> | Hb]; [now left|].
      right. apply (Permutation_in _ (sort_by_perm leb l)). exact Hb.
  - apply IH. intros a b Ha Hb. apply Hleb; now right.
Qed.

Lemma ascending_firstn n : forall l,
  ascending l = true -> ascending (firstn n l) = true.
Proof.
  induction n as [|n IH]; intros l H; [reflexivity|].
  destruct l as [|a l]; [reflexivity|]. cbn [firstn].
  rewrite ascending_cons in H. rewrite ascending_cons.
  destruct l as [|b l]; [destruct n; reflexivity|].
  apply andb_true_iff in H. destruct H as [H1 H2].
  specialize (IH (b :: l) H2).
  destruct n as [|n]; [reflexivity|]. cbn [firstn] in *.
  now rewrite H1.
Qed.

Lemma search_hit_name label term n :
  search_hit label term n = true ->
  exists s, prop "name" n = PStr s /\ contains term s = true.
Proof.
  unfold search_hit, cy_contains. intros H.
  apply andb_true_iff in H. destruct H as [_ H].
  destruct (prop "name" n); try discriminate. eauto.
Qed.

Lemma search_query label term limit g :
  cy_search (given label) (PStr term) limit g
  = match cy_limit (Some limit)
            (order_by ["name"]
               (map found_row (filter (search_hit label term) (g_nodes g)))) with
    | inl e => inl e
    | inr rows => inr (mkAnswer rows no_counters g)
    end.
Proof. reflexivity. Qed.

Lemma search_nodes_healthy term label limit w :
  healthy w ->
  search_nodes term label limit w
  = match cy_limit (Some limit)
            (order_by ["name"]
               (map found_row
                    (filter (search_hit label term) (g_nodes (w_graph w))))) with
    | inl e => (Raise ("Failed to search nodes: Failed to execute query: " ++ e), w)
    | inr rows => (Return rows, w)
    end.
Proof.
  intros Hh. unfold search_nodes.
  pose proof (search_query label term limit (w_graph w)) as Q.
  destruct (cy_limit (Some limit) _) as [e|rows].
  - rewrite try_raise with (e := "Failed to execute query: " ++ e) (w' := w);
      [reflexivity | now apply run_query_refused].
  - apply try_return. now apply run_query_healthy.
Qed.

Lemma found_rows_sorted label term g :
  ascending (map (fun r => py_str (get "name" r))
                 (order_by ["name"]
                    (map found_row (filter (search_hit label term) (g_nodes g)))))
  = true.
Proof.
  unfold order_by. apply sort_by_ascending.
  intros a b Ha Hb.
  apply in_map_iff in Ha. destruct Ha as (na & <- & Ha).
  apply in_map_iff in Hb. destruct Hb as (nb & <- & Hb).
  apply filter_In in Ha. destruct Ha as [_ Ha].
  apply filter_In in Hb. destruct Hb as [_ Hb].
  destruct (search_hit_name _ _ _ Ha) as (sa & Na & _).
  destruct (search_hit_name _ _ _ Hb) as (sb & Nb & _).
  assert (Ga : get "name" (found_row na) = PStr sa) by exact Na.
  assert (Gb : get "name" (found_row nb) = PStr sb) by exact Nb.
  rewrite (name_order _ _ sa sb Ga Gb). now rewrite Ga, Gb.
Qed.



(* ----------------------------------------------------------------- *)
(** * [get_node_details] *)

Lemma mem_named label name g n :
  unique_ids g -> In n (g_nodes g) ->
  mem_nat (n_id n) (map n_id (named label name g))
  = match_node (opt_label label) [("name", name)] n.
Proof.
  intros Hu Hin. unfold named.
  destruct (match_node (opt_label label) [("name", name)] n) eqn:E.
  - apply mem_nat_In. apply in_map. apply filter_In. auto.
  - destruct (mem_nat _ _) eqn:M; [|reflexivity].
    apply mem_nat_In in M. apply in_map_iff in M. destruct M as (m & Hid & Hm).
    apply filter_In in Hm. destruct Hm as [Hm1 Hm2].
    assert (m = n) by (eapply same_id_same_node; eauto).
    subst. congruence.
Qed.

Lemma node_by_id_closed g i :
  unique_ids g -> In i (map n_id (g_nodes g)) ->
  exists n, node_by_id g i = Some n /\ In n (g_nodes g) /\ n_id n = i.
Proof.
  intros Hu Hin. apply in_map_iff in Hin. destruct Hin as (n & Hid & Hn).
  exists n. split; [|auto]. apply node_by_id_spec; auto.
Qed.

Lemma flat_map_count {A B} (F : A -> list B) (P : A -> bool) l :
  (forall x, In x l -> length (F x) = if P x then 1 else 0) ->
  length (flat_map F l) = length (filter P l).
Proof.
  induction l as [|x l IH]; intros H; [reflexivity|].
  cbn [flat_map filter]. rewrite length_app, (H x) by now left.
  rewrite IH by (intros y Hy; apply H; now right).
  destruct (P x); reflexivity.
Qed.

Lemma incoming_count name g :
  unique_ids g -> closed g ->
  length (incoming_rows name g)
  = length (filter (fun e => called name g (e_dst e)) (g_edges g)).
Proof.
  intros Hu Hc. unfold incoming_rows, cy_incoming, reading. cbn [a_rows].
  apply flat_map_count. intros e He.
  destruct (Hc e He) as [Hs Hd].
  destruct (node_by_id_closed g _ Hu Hs) as (other & -> & _ & _).
  destruct (node_by_id_closed g _ Hu Hd) as (n & -> & Hn & Hid).
  unfold called. rewrite <- Hid, (mem_named None (PStr name) g n Hu Hn).
  cbn [opt_label]. destruct (match_node [] [("name", PStr name)] n); reflexivity.
Qed.

Lemma outgoing_count name g :
  unique_ids g -> closed g ->
  length (outgoing_rows name g)
  = length (filter (fun e => called name g (e_src e)) (g_edges g)).
Proof.
  intros Hu Hc. unfold outgoing_rows, cy_outgoing, reading. cbn [a_rows].
  apply flat_map_count. intros e He.
  destruct (Hc e He) as [Hs Hd].
  destruct (node_by_id_closed g _ Hu Hs) as (n & -> & Hn & Hid).
  destruct (node_by_id_closed g _ Hu Hd) as (other & -> & _ & _).
  unfold called. rewrite <- Hid, (mem_named None (PStr name) g n Hu Hn).
  cbn [opt_label]. destruct (match_node [] [("name", PStr name)] n); reflexivity.
Qed.

Lemma get_node_details_healthy name label w :
  healthy w ->
  get_node_details name label w
  = (Return
       (match named (given label) (PStr name) (w_graph w) with
        | [] => None
        | n :: _ =>
            Some [("node", node_py n);
                  ("incoming_relationships",
                   PList (map PDict (incoming_rows name (w_graph w))));
                  ("outgoing_relationships",
                   PList (map PDict (outgoing_rows name (w_graph w))));
                  ("total_relationships",
                   PNat (length (incoming_rows name (w_graph w))
                         + length (outgoing_rows name (w_graph w))))]
        end), w).
Proof.
  intros Hh. unfold get_node_details. apply try_return.
  run (run_query_single_healthy (cy_get_node (given label) (PStr name)) _ w Hh
         eq_refl).
  destruct (named (given label) (PStr name) (w_graph w)) as [|n rest];
    [reflexivity|].
  cbn [map first_record length Nat.eqb].
  run (run_query_healthy (cy_incoming (PStr name)) _ w Hh eq_refl).
  run (run_query_healthy (cy_outgoing (PStr name)) _ w Hh eq_refl).
  reflexivity.
Qed.

(** X16.  [get_node_details] looks the node up under the label, but the
    relationships without it.  On a store that answers, with unique node
    identifiers and relationships between nodes of the store: when no node
    of the label has the name the call returns [None]; otherwise it returns
    the first such node, and as incoming (outgoing) relationships one row
    for every relationship that ends (starts) at any node called by the
    name, whatever that node's labels; [total_relationships] is the sum of
    the two numbers, so that a relationship from such a node to itself is
    counted twice. *)
Theorem get_node_details_relationships (name : string) (label : option string)
    (w : World) :
  healthy w ->
  unique_ids (w_graph w) ->
  closed (w_graph w) ->
  let g := w_graph w in
  (named (given label) (PStr name) g = [] ->
   get_node_details name label w = (Return None, w))
  /\ (forall n rest,
        named (given label) (PStr name) g = n :: rest ->
        exists inc out,
          get_node_details name label w
          = (Return (Some [("node", node_py n);
                           ("incoming_relationships", PList (map PDict inc));
                           ("outgoing_relationships", PList (map PDict out));
                           ("total_relationships",
                            PNat (length inc + length out))]), w)
          /\ length inc
             = length (filter (fun e => called name g (e_dst e)) (g_edges g))
          /\ length out
             = length (filter (fun e => called name g (e_src e)) (g_edges g))).
Proof.
  intros Hh Hu Hc g.
  pose proof (get_node_details_healthy name label w Hh) as E. fold g in E.
  split.
  - intros Hnone. now rewrite Hnone in E.
  - intros n rest Hsome. rewrite Hsome in E.
    exists (incoming_rows name g), (outgoing_rows name g).
    split; [exact E|]. split; [now apply incoming_count | now apply outgoing_count].
Qed.

Lemma get_node_details_relationships_witness :
  healthy w_labels
  /\ unique_ids (w_graph w_labels)
  /\ closed (w_graph w_labels)
  /\ get_node_details "dup" (Some "Concept") w_labels = (Return None, w_labels)
  /\ exists inc out,
       get_node_details "dup" (Some "Class") w_labels
       = (Return (Some [("node", PNode 2 ["Class"] [("name", PStr "dup")]);
                        ("incoming_relationships", PList (map PDict inc));
                        ("outgoing_relationships", PList (map PDict out));
                        ("total_relationships", PNat (length inc + length out))]),
          w_labels).
Proof.
  split; [reflexivity|].
  assert (Hu : unique_ids (w_graph w_labels)).
  { unfold unique_ids. cbn. repeat constructor; cbn; intuition discriminate. }
  assert (Hc : closed (w_graph w_labels)) by (intros e []).
  split; [exact Hu|]. split; [exact Hc|].
  destruct (get_node_details_relationships "dup" (Some "Concept") w_labels
              eq_refl Hu Hc) as [Hnone _].
  destruct (get_node_details_relationships "dup" (Some "Class") w_labels
              eq_refl Hu Hc) as [_ Hsome].
  split; [exact (Hnone eq_refl)|].
  destruct (Hsome _ _ eq_refl) as (inc & out & E & _).
  exists inc, out. exact E.
Defined.



(** * [assign_property_to_concept] *)
Section Assignment.

Variable labels_to_constrain : list string.
Variables (concept_name property_name L : string).
Variables (required default_value : Py) (constraints : option Dict).

Lemma rel_properties_NoDup t :
  NoDup (keys (assignment_properties required default_value constraints t)).
Proof.
  unfold assignment_properties. apply dict_set_NoDup.
  assert (B : NoDup (keys [("required", required); ("assignment_type", PStr "direct")])).
  { cbn. repeat constructor; cbn; intuition discriminate. }
  assert (B' : NoDup (keys match default_value with
                           | PNone => [("required", required);
                                       ("assignment_type", PStr "direct")]
                           | v => dict_set "default_value" v
                                    [("required", required);
                                     ("assignment_type", PStr "direct")]
                           end)).
  { destruct default_value; try (apply dict_set_NoDup); exact B. }
  destruct (dict_truthy constraints); [now apply dict_update_NoDup | exact B'].
Qed.

Lemma rel_properties_required t :
  has_key "required" (or_empty constraints) = false ->
  dict_get "required" (assignment_properties required default_value constraints t)
  = Some required.
Proof.
  intros H. unfold assignment_properties. rewrite dict_get_set_other by discriminate.
  assert (B : dict_get "required"
                match default_value with
                | PNone => [("required", required); ("assignment_type", PStr "direct")]
                | v => dict_set "default_value" v
                         [("required", required); ("assignment_type", PStr "direct")]
                end = Some required).
  { destruct default_value; reflexivity. }
  unfold or_empty in H.
  destruct (dict_truthy constraints); [|exact B].
  now rewrite dict_get_update_absent.
Qed.

Lemma rel_properties_truthy t :
  dict_truthy (Some (assignment_properties required default_value constraints t))
  = true.
Proof.
  unfold assignment_properties.
  match goal with |- dict_truthy (Some (dict_set ?k ?v ?d)) = true =>
    destruct d as [|[k' v'] d'] end; [reflexivity|].
  cbn [dict_set]. destruct (String.eqb "created_at" k'); reflexivity.
Qed.

(** What the call does when the label is given, on a store that answers. *)
Lemma assign_healthy w :
  healthy w -> L <> "" ->
  let g := w_graph w in
  let pairs := endpoint_pairs [L] [("name", PStr concept_name)]
                              ["Property"] [("name", PStr property_name)] g in
  let created :=
    new_edges (g_next g) "HAS_PROPERTY"
              (set_props [] (assignment_properties required default_value constraints (w_clock w))) pairs in
  assign_property_to_concept labels_to_constrain concept_name property_name
    required default_value constraints (Some L) w
  = if match pairs with
       | [] => false
       | ab :: _ => has_property g (n_id (fst ab)) (n_id (snd ab))
       end
    then (Return (skipped (skip_message "HAS_PROPERTY")),
          logged (ticked w) [skip_warning "HAS_PROPERTY"])
    else (Return (("records",
                   PList (map PDict (map (fun e => [("r", edge_py e)]) created)))
                  :: counters_dict
                       (mkCounters 0 0 (length created) 0
                          (length created
                           * length (set_props [] (assignment_properties required default_value constraints (w_clock w))))
                          0 0 0 0 0 0)),
          with_graph (ticked w)
            (mkGraph (g_nodes g) (g_edges g ++ created)
                     (g_next g + length created))).
Proof.
  intros Hh HL g pairs created. unfold assign_property_to_concept.
  apply String.eqb_neq in HL.
  unfold label_or_detect, given. rewrite HL.
  set (P1 := mkPattern [L] [("name", Param "concept_name")]).
  set (P2 := mkPattern ["Property"] [("name", Param "property_name")]).
  pose proof (create_relationship_healthy P1 P2 "HAS_PROPERTY"
                (Some (assignment_properties required default_value constraints (w_clock w)))
                (Some [("concept_name", PStr concept_name)])
                (Some [("property_name", PStr property_name)])
                [("name", PStr concept_name)] [("name", PStr property_name)]
                eq_refl eq_refl eq_refl eq_refl (ticked w) (healthy_ticked _ Hh))
    as E.
  cbv zeta in E. cbn [pat_labels P1 P2 ticked w_graph] in E.
  fold g in E. fold pairs in E.
  unfold rel_props_of in E. rewrite rel_properties_truthy in E. fold created in E.
  destruct (match pairs with
            | [] => false
            | ab :: _ =>
                existsb (links "HAS_PROPERTY" (n_id (fst ab)) (n_id (snd ab)))
                        (g_edges g)
            end) eqn:X.
  - unfold has_property. rewrite X. apply try_return.
    rewrite bind_ret.
    rewrite bind_return with (a := PStr (isoformat (w_clock w))) (w' := ticked w)
      by reflexivity.
    fold (assignment_properties required default_value constraints (w_clock w)).
    rewrite (bind_return _ _ _ _ _ E). reflexivity.
  - unfold has_property. rewrite X. apply try_return.
    rewrite bind_ret.
    rewrite bind_return with (a := PStr (isoformat (w_clock w))) (w' := ticked w)
      by reflexivity.
    fold (assignment_properties required default_value constraints (w_clock w)).
    rewrite (bind_return _ _ _ _ _ E). reflexivity.
Qed.

End Assignment.

Lemma required_direct_healthy C label w :
  healthy w ->
  get_required_properties_for_concept C label false w
  = (Return (direct_rows (w_graph w) label C), w).
Proof.
  intros Hh. unfold get_required_properties_for_concept. apply try_return.
  run (run_query_healthy _ _ w Hh (direct_query (w_graph w) label C)).
  reflexivity.
Qed.

Lemma node_by_id_nodes g g' i :
  g_nodes g' = g_nodes g -> node_by_id g' i = node_by_id g i.
Proof. unfold node_by_id. now intros ->. Qed.

Lemma required_of_more g edges' next' i :
  required_of (mkGraph (g_nodes g) (g_edges g ++ edges') next') i
  = (required_of g i
     ++ required_of (mkGraph (g_nodes g) edges' next') i)%list.
Proof.
  unfold required_of. cbn [g_edges]. rewrite flat_map_app. f_equal.
Qed.

Lemma named_nodes label name g g' :
  g_nodes g' = g_nodes g -> named label name g' = named label name g.
Proof. unfold named. now intros ->. Qed.

Lemma named_one_In label name g n :
  named label name g = [n] ->
  In n (g_nodes g) /\ match_node (opt_label label) [("name", name)] n = true.
Proof.
  intros H. apply filter_In. unfold named in H. rewrite H. now left.
Qed.

Lemma match_name_str labels name n :
  match_node labels [("name", PStr name)] n = true -> prop "name" n = PStr name.
Proof.
  unfold match_node. cbn [forallb fst snd]. intros H.
  apply andb_true_iff in H. destruct H as [_ H].
  rewrite andb_true_r in H. now apply cy_eqb_str.
Qed.

Lemma set_props_get_any k v m : forall acc,
  NoDup (keys m) -> dict_get k m = Some v -> get k (set_props acc m) = v.
Proof.
  induction m as [|[k' v'] m IH]; intros acc Hnd Hg; [discriminate|].
  cbn [keys map fst] in Hnd. inversion Hnd; subst.
  cbn [dict_get] in Hg. unfold set_props. cbn [fold_left fst snd].
  destruct (String.eqb k k') eqn:E.
  - apply String.eqb_eq in E. subst. inversion Hg; subst.
    change (fold_left _ m (set_prop k' v acc)) with (set_props (set_prop k' v acc) m).
    rewrite set_props_get_absent by assumption.
    apply get_set_prop.
  - now apply IH.
Qed.




(* ----------------------------------------------------------------- *)
(** * [create_property_node] and [get_concept_properties]: the gates *)

(** X18.  [create_property_node] creates nothing for a domain that does not
    exist.  On a store that answers, when a domain and its label are given,
    the relationship to the domain is wanted, and no node of that label has
    the domain's name, the call raises the error that names the domain and
    the property, and the store is exactly as before: no [Property] node
    has been created. *)
Theorem create_property_node_needs_domain
    (labels_to_constrain : list string)
    (property_name property_type domain domain_label : string)
    (range_type : option string) (properties : option Dict) (w : World) :
  healthy w ->
  domain <> "" ->
  domain_label <> "" ->
  named (Some domain_label) (PStr domain) (w_graph w) = [] ->
  create_property_node labels_to_constrain property_name property_type
    (Some domain) range_type properties true (Some domain_label) w
  = (Raise ("Failed to create property node: ❌ Domain '" ++ domain
            ++ "' with label '" ++ domain_label
            ++ "' does not exist in the graph. Cannot create property '"
            ++ property_name ++ "' with non-existent domain."), w).
Proof.
  intros Hh Hd Hl Hnone. unfold create_property_node.
  apply String.eqb_neq in Hd, Hl.
  assert (H1 : has (Some domain) = true) by (unfold has, given; now rewrite Hd).
  assert (H2 : has (Some domain_label) = true)
    by (unfold has, given; now rewrite Hl).
  rewrite H1, H2. cbn [negb andb str_or_empty fmt].
  rewrite try_raise with
    (e := "❌ Domain '" ++ domain ++ "' with label '" ++ domain_label
          ++ "' does not exist in the graph. Cannot create property '"
          ++ property_name ++ "' with non-existent domain.")
    (w' := w); [reflexivity|].
  rewrite bind_ret.
  rewrite bind_raise with
    (e := "❌ Domain '" ++ domain ++ "' with label '" ++ domain_label
          ++ "' does not exist in the graph. Cannot create property '"
          ++ property_name ++ "' with non-existent domain.")
    (w' := w); [reflexivity|].
  run (get_existing_node_healthy (PStr domain) (Some domain_label) w Hh).
  unfold given. rewrite Hl, Hnone. reflexivity.
Qed.

Lemma create_property_node_needs_domain_witness :
  healthy w_schema
  /\ create_property_node default_labels "owner" "ObjectProperty"
       (Some "Desk") None None true (Some "Class") w_schema
     = (Raise ("Failed to create property node: ❌ Domain 'Desk' with label 'Class'"
               ++ " does not exist in the graph. Cannot create property 'owner'"
               ++ " with non-existent domain."), w_schema).
Proof.
  split; [reflexivity|].
  exact (create_property_node_needs_domain default_labels "owner" "ObjectProperty"
           "Desk" "Class" None None w_schema eq_refl
           ltac:(discriminate) ltac:(discriminate) eq_refl).
Defined.

(** X19.  [get_concept_properties] refuses every label but [Concept] and
    [Class] before it asks the store anything: with such a label given, the
    call raises the error that names the label and the world is untouched,
    whatever state the store is in.  The same error is raised when the
    label is left out and the one node of the name bears, for example, the
    label [Instance]. *)
Theorem get_concept_properties_label_gate
    (labels_to_constrain : list string)
    (concept_name concept_label : string) (include_inherited : bool) (w : World) :
  concept_label <> "" ->
  concept_label <> "Concept" ->
  concept_label <> "Class" ->
  get_concept_properties labels_to_constrain concept_name (Some concept_label)
    include_inherited w
  = (Raise ("Failed to get concept properties: "
            ++ "This method only supports Concept or Class nodes, but got "
            ++ concept_label), w)
  /\ (healthy w ->
      forall n,
        named None (PStr concept_name) (w_graph w) = [n] ->
        primary_label_of labels_to_constrain (map PStr (n_labels n)) = concept_label ->
        get_concept_properties labels_to_constrain concept_name None
          include_inherited w
        = (Raise ("Failed to get concept properties: "
                  ++ "This method only supports Concept or Class nodes, but got "
                  ++ concept_label), w)).
Proof.
  intros H0 H1 H2. apply String.eqb_neq in H0, H1, H2.
  split.
  - unfold get_concept_properties, label_or_detect, given. rewrite H0.
    rewrite try_raise with
      (e := "This method only supports Concept or Class nodes, but got "
            ++ concept_label) (w' := w); [reflexivity|].
    rewrite bind_ret. rewrite H1, H2. reflexivity.
  - intros Hh n Hn Hp.
    unfold get_concept_properties, label_or_detect. cbn [given].
    rewrite try_raise with
      (e := "This method only supports Concept or Class nodes, but got "
            ++ concept_label) (w' := w); [reflexivity|].
    assert (D : auto_detect_domain_label labels_to_constrain concept_name w
                = (Return concept_label, w)).
    { unfold auto_detect_domain_label. apply try_return.
      rewrite (bind_return _ _ _ _ _
                 (find_nodes_by_name_answered concept_name w (f_equal (hd None) Hh))).
      rewrite Hn. cbn [map order_by sort_by insert_by found_row].
      rewrite healthy_eta by exact Hh. unfold ret. f_equal. f_equal.
      exact Hp. }
    run D. rewrite H1, H2. reflexivity.
Qed.

Lemma get_concept_properties_label_gate_witness :
  get_concept_properties default_labels "db1" (Some "Instance") true w_down
  = (Raise ("Failed to get concept properties: "
            ++ "This method only supports Concept or Class nodes, but got Instance"),
     w_down)
  /\ get_concept_properties default_labels "db1" None true w_schema
     = (Raise ("Failed to get concept properties: "
               ++ "This method only supports Concept or Class nodes, but got Instance"),
        w_schema).
Proof.
  destruct (get_concept_properties_label_gate default_labels "db1" "Instance" true
              w_down ltac:(discriminate) ltac:(discriminate) ltac:(discriminate))
    as [H _].
  destruct (get_concept_properties_label_gate default_labels "db1" "Instance" true
              w_schema ltac:(discriminate) ltac:(discriminate) ltac:(discriminate))
    as [_ H'].
  split; [exact H|].
  exact (H' eq_refl (ex_instance 6 "db1" "DataSource") eq_refl eq_refl).
Defined.



(** * [create_property_node]: the property and its link *)
Lemma new_required_listed g g1 L C c pn e p :
  unique_ids g ->
  g_nodes g1 = g_nodes g ->
  g_edges g1 = (g_edges g ++ [e])%list ->
  named (Some L) (PStr C) g = [c] ->
  In pn (g_nodes g) -> has_label "Property" pn = true -> prop "name" pn = PStr p ->
  e_type e = "HAS_PROPERTY" -> e_src e = n_id c -> e_dst e = n_id pn ->
  get "required" (e_props e) = PBool true ->
  exists row,
    In row (direct_rows g1 L C)
    /\ get "property_name" row = PStr p
    /\ get "inheritance_type" row = PStr "direct".
Proof.
  intros Hu Hn He Hc Hp Hl Hname Ht Hs Hd Hr.
  exists (required_row "direct" (PStr C) (e, pn)). split.
  - unfold direct_rows.
    apply (Permutation_in _ (Permutation_sym (order_by_perm _ _))).
    apply in_map. unfold direct_declarations.
    rewrite (named_nodes (Some L) (PStr C) g g1 Hn), Hc. cbn [flat_map].
    rewrite app_nil_r. unfold required_of. rewrite He, flat_map_app.
    apply in_or_app. right. cbn [flat_map].
    rewrite Ht, Hs, Hd, Hr, Nat.eqb_refl. cbn.
    rewrite (node_by_id_nodes g g1 _ Hn).
    assert (N : node_by_id g (n_id pn) = Some pn) by (apply node_by_id_spec; auto).
    rewrite N, Hl. now left.
  - rewrite row_name, row_kind. cbn [snd]. auto.
Qed.

Lemma property_node_NoDup p type domain range properties :
  NoDup (keys (property_node_properties p type domain range properties)).
Proof.
  unfold property_node_properties.
  assert (B : NoDup (keys [("name", PStr p); ("property_type", PStr type)])).
  { cbn. repeat constructor; cbn; intuition discriminate. }
  destruct (dict_truthy properties); [apply dict_update_NoDup|];
    (destruct (has range); [apply dict_set_NoDup|]);
    (destruct (has domain); [apply dict_set_NoDup|]); exact B.
Qed.

Lemma property_node_get_absent p type domain range properties k :
  has_key k (props_of properties) = false ->
  dict_get k (property_node_properties p type domain range properties)
  = dict_get k (property_node_properties p type domain range None).
Proof.
  intros H. unfold property_node_properties at 1.
  destruct (dict_truthy properties) eqn:T.
  - destruct properties as [d|]; [|discriminate].
    rewrite dict_get_update_absent by exact H. reflexivity.
  - reflexivity.
Qed.

Lemma property_node_get_In p type domain range properties k v :
  NoDup (keys (props_of properties)) -> In (k, v) (props_of properties) ->
  dict_get k (property_node_properties p type domain range properties) = Some v.
Proof.
  intros Hnd Hin. unfold property_node_properties.
  destruct properties as [[|kv d]|]; try contradiction.
  cbn [dict_truthy]. now apply dict_get_update_In.
Qed.

Lemma property_node_name p type domain range :
  dict_get "name" (property_node_properties p type domain range None)
  = Some (PStr p).
Proof.
  unfold property_node_properties. cbn [dict_truthy].
  destruct (has range), (has domain);
    rewrite ?dict_get_set_other by discriminate; reflexivity.
Qed.

Lemma get_or_get k dflt d v : dict_get k d = Some v -> get_or k dflt d = v.
Proof. unfold get_or. now intros ->. Qed.

Lemma get_get k d v : dict_get k d = Some v -> get k d = v.
Proof. unfold get. now intros ->. Qed.

Lemma dict_get_Some_In k v d : dict_get k d = Some v -> In (k, v) d.
Proof.
  induction d as [|[k0 v0] d IH]; [discriminate|].
  cbn [dict_get]. destruct (String.eqb k k0) eqn:E.
  - apply String.eqb_eq in E. intros G. inversion G; subst. now left.
  - intros G. right. now apply IH.
Qed.

Lemma fresh_not_linked g T a :
  closed g -> well_numbered g ->
  existsb (links T a (g_next g)) (g_edges g) = false.
Proof.
  intros Hc [_ Hlt]. apply not_true_is_false. intros H.
  apply existsb_exists in H. destruct H as (e & He & Hl).
  unfold links in Hl. apply andb_true_iff in Hl. destruct Hl as [_ Hl].
  apply Nat.eqb_eq in Hl. destruct (Hc e He) as [_ Hd].
  apply in_map_iff in Hd. destruct Hd as (n & Hid & Hn).
  specialize (Hlt n Hn). lia.
Qed.

Lemma fresh_unique g labels props edges next :
  well_numbered g ->
  unique_ids (mkGraph (g_nodes g ++ [mkNode (g_next g) labels props]) edges next).
Proof.
  intros [Hu Hlt]. unfold unique_ids. cbn [g_nodes].
  rewrite map_app. cbn [map n_id]. apply NoDup_app; [exact Hu | | ].
  - constructor; [tauto | constructor].
  - intros i Hi [<- | []]. apply in_map_iff in Hi.
    destruct Hi as (m & Hid & Hm). specialize (Hlt m Hm). lia.
Qed.





(** * [check_property_inheritance] *)

(** One turn of the loop on a store that answers: the property goes to one
    of the two lists, as it is or with the source of the override. *)
Lemma sort_out_healthy subL sub super buckets prop w :
  healthy w ->
  exists buckets',
    sort_out subL sub super buckets prop w = (Return buckets', w)
    /\ ((fst buckets' = (fst buckets ++ [prop])%list /\ snd buckets' = snd buckets)
        \/ (fst buckets' = fst buckets
            /\ exists src, snd buckets'
                           = (snd buckets ++ [dict_set "override_source" src prop])%list)).
Proof.
  intros Hh. unfold sort_out.
  rewrite (bind_return _ _ _ _ _
             (run_query_single_healthy
                (cy_override_check subL (PStr sub) (get "property_name" prop)
                                   (PStr super)) _ w Hh eq_refl)).
  cbn [first_record length Nat.eqb].
  destruct (truthy _).
  - eexists. split; [reflexivity|]. right. split; [reflexivity|].
    eexists. reflexivity.
  - eexists. split; [reflexivity|]. left. split; reflexivity.
Qed.

Lemma fold_sort_out_healthy subL sub super props : forall buckets w,
  healthy w ->
  exists buckets',
    fold_m props buckets (sort_out subL sub super) w = (Return buckets', w)
    /\ length (fst buckets') + length (snd buckets')
       = length (fst buckets) + length (snd buckets) + length props
    /\ (forall p, In p (fst buckets') -> In p (fst buckets) \/ In p props)
    /\ (forall p, In p (snd buckets') ->
          In p (snd buckets)
          \/ exists q src, In q props /\ p = dict_set "override_source" src q).
Proof.
  induction props as [|prop props IH]; intros buckets w Hh.
  - exists buckets. split; [reflexivity|]. split; [cbn; lia|]. split; auto.
  - destruct (sort_out_healthy subL sub super buckets prop w Hh)
      as (b1 & E1 & H1).
    destruct (IH b1 w Hh) as (b2 & E2 & L2 & F2 & S2).
    exists b2. split.
    { cbn [fold_m]. now rewrite (bind_return _ _ _ _ _ E1). }
    destruct H1 as [(Hf & Hs) | (Hf & src & Hs)].
    + rewrite Hf, Hs in *. rewrite length_app in L2. cbn [length] in *.
      split; [lia|]. split.
      * intros p Hp. destruct (F2 p Hp) as [H | H].
        -- apply in_app_or in H. destruct H as [H | [<- | []]]; auto.
           right. now left.
        -- right. now right.
      * intros p Hp. destruct (S2 p Hp) as [H | (q & s & Hq & ->)]; auto.
        right. exists q, s. split; [now right | reflexivity].
    + rewrite Hf, Hs in *. rewrite length_app in L2. cbn [length] in *.
      split; [lia|]. split.
      * intros p Hp. destruct (F2 p Hp) as [H | H]; auto. right. now right.
      * intros p Hp. destruct (S2 p Hp) as [H | (q & s & Hq & ->)].
        -- apply in_app_or in H. destruct H as [H | [<- | []]]; auto.
           right. exists prop, src. split; [now left | reflexivity].
        -- right. exists q, s. split; [now right | reflexivity].
Qed.

Lemma truthy_PNat n : truthy (PNat n) = negb (Nat.eqb n 0).
Proof.
  unfold truthy, PNat. destruct n; [reflexivity|].
  cbn [Nat.eqb negb]. destruct (Z.eqb_spec (Z.of_nat (S n)) 0); [lia | reflexivity].
Qed.

Lemma paths_value subL sub superL super w :
  healthy w ->
  run_query_value
    (cy_subclass_paths subL (PStr sub) superL (PStr super))
    (Some "relationship_exists") w
  = (Return (PNat (subclass_paths (w_graph w) subL sub superL super)), w).
Proof.
  intros Hh.
  rewrite (run_query_value_healthy _ _ _ w Hh eq_refl) by discriminate.
  reflexivity.
Qed.

(** X21.  [check_property_inheritance] sorts every property of the
    superclass into exactly one of its two lists.  On a store that answers,
    with both labels given, the call returns and changes nothing.  When no
    [SUBCLASS_OF] path leads from the subclass to the superclass the answer
    is [inheritance_exists = False] with the message that names the two.
    Otherwise [inheritance_exists] is [True], each entry of
    [inherited_properties] is a property of the superclass as the store
    returned it, each entry of [overridden_properties] is one with an
    [override_source] added, and the totals add up:
    [total_inherited + total_overridden = total_available_from_superclass]. *)
Theorem check_property_inheritance_accounts
    (labels_to_constrain : list string)
    (subclass_name superclass_name subclass_label superclass_label : string)
    (w : World) :
  healthy w ->
  subclass_label <> "" ->
  superclass_label <> "" ->
  let g := w_graph w in
  let available := superclass_rows g superclass_label superclass_name in
  exists r,
    check_property_inheritance labels_to_constrain subclass_name superclass_name
      (Some subclass_label) (Some superclass_label) w = (Return r, w)
    /\ (subclass_paths g subclass_label subclass_name
                       superclass_label superclass_name = 0 ->
        r = [("inheritance_exists", PBool false);
             ("message", PStr ("No subclass relationship between "
                               ++ subclass_name ++ " and " ++ superclass_name))])
    /\ (subclass_paths g subclass_label subclass_name
                       superclass_label superclass_name <> 0 ->
        exists inherited overridden,
          dict_get "inheritance_exists" r = Some (PBool true)
          /\ dict_get "inherited_properties" r = Some (PList (map PDict inherited))
          /\ dict_get "overridden_properties" r = Some (PList (map PDict overridden))
          /\ dict_get "total_inherited" r = Some (PNat (length inherited))
          /\ dict_get "total_overridden" r = Some (PNat (length overridden))
          /\ dict_get "total_available_from_superclass" r
             = Some (PNat (length available))
          /\ length inherited + length overridden = length available
          /\ (forall p, In p inherited -> In p available)
          /\ (forall p, In p overridden ->
                exists q src, In q available
                              /\ p = dict_set "override_source" src q)).
Proof.
  intros Hh H1 H2 g available.
  apply String.eqb_neq in H1, H2.
  destruct (fold_sort_out_healthy subclass_label subclass_name superclass_name
              available ([], []) w Hh) as (b & Eb & Lb & Fb & Sb).
  change (length (fst b) + length (snd b) = 0 + 0 + length available) in Lb.
  cbn [fst snd] in Fb, Sb.
  destruct (Nat.eqb (subclass_paths g subclass_label subclass_name
                       superclass_label superclass_name) 0) eqn:P.
  - eexists. split.
    { unfold check_property_inheritance, label_or_detect, given.
      rewrite H1, H2. apply try_return. rewrite !bind_ret.
      run (paths_value subclass_label subclass_name superclass_label
             superclass_name w Hh).
      fold g. rewrite truthy_PNat, P. reflexivity. }
    split; [reflexivity|].
    intros Hne. apply Nat.eqb_eq in P. contradiction.
  - eexists. split.
    { unfold check_property_inheritance, label_or_detect, given.
      rewrite H1, H2. apply try_return. rewrite !bind_ret.
      run (paths_value subclass_label subclass_name superclass_label
             superclass_name w Hh).
      fold g. rewrite truthy_PNat, P. cbn [negb].
      run (run_query_healthy
             (cy_superclass_properties superclass_label (PStr superclass_name))
             _ w Hh eq_refl).
      change (order_by ["property_name"] _) with available.
      run Eb. reflexivity. }
    split.
    { intros Hz. rewrite Hz in P. discriminate. }
    intros _. exists (fst b), (snd b).
    split; [reflexivity|]. split; [reflexivity|]. split; [reflexivity|].
    split; [reflexivity|]. split; [reflexivity|]. split; [reflexivity|].
    split; [exact Lb|]. split.
    + intros p Hp. destruct (Fb p Hp) as [[] | H]; exact H.
    + intros p Hp. destruct (Sb p Hp) as [[] | H]; exact H.
Qed.

Lemma check_property_inheritance_accounts_witness :
  healthy w_schema
  /\ exists r,
       check_property_inheritance default_labels "Table" "Root"
         (Some "Class") (Some "Class") w_schema = (Return r, w_schema)
       /\ dict_get "inheritance_exists" r = Some (PBool true)
       /\ dict_get "total_inherited" r = Some (PInt 0)
       /\ dict_get "total_overridden" r = Some (PInt 1)
       /\ dict_get "total_available_from_superclass" r = Some (PInt 1).
Proof.
  split; [reflexivity|].
  destruct (check_property_inheritance_accounts default_labels "Table" "Root"
              "Class" "Class" w_schema eq_refl ltac:(discriminate)
              ltac:(discriminate)) as (r & E & _ & _).
  exists r. split; [exact E|].
  vm_compute in E. inversion E. repeat split; reflexivity.
Defined.



(** * [create_subclass_relationship], then [check_property_inheritance] *)
Lemma trails_first fuel es used i e :
  In e es -> e_type e = "SUBCLASS_OF" -> e_src e = i ->
  mem_nat (e_id e) used = false ->
  In (e_dst e, e_id e :: used) (trails (S fuel) es used i).
Proof.
  intros He Ht Hs Hu. cbn [trails]. apply in_flat_map. exists e.
  split; [exact He|].
  rewrite Ht, Hs, Hu, Nat.eqb_refl. cbn. now left.
Qed.

Lemma linked_has_path g subL sub superL super a b :
  unique_ids g ->
  In a (named (Some subL) (PStr sub) g) ->
  In b (named (Some superL) (PStr super) g) ->
  existsb (links "SUBCLASS_OF" (n_id a) (n_id b)) (g_edges g) = true ->
  subclass_paths g subL sub superL super <> 0.
Proof.
  intros Hu Ha Hb Hl. apply existsb_exists in Hl. destruct Hl as (e & He & Hl).
  unfold links in Hl. apply andb_true_iff in Hl. destruct Hl as [Hl Hd].
  apply andb_true_iff in Hl. destruct Hl as [Ht Hs].
  apply String.eqb_eq in Ht. apply Nat.eqb_eq in Hs, Hd.
  unfold subclass_paths.
  assert (Hin : In (n_id b, [e_id e])
                   (flat_map (fun sub0 =>
                      filter (fun t =>
                                match node_by_id g (fst t) with
                                | Some super0 =>
                                    match_node [superL] [("name", PStr super)] super0
                                | None => false
                                end) (subclass_trails g [] (n_id sub0)))
                      (named (Some subL) (PStr sub) g))).
  { apply in_flat_map. exists a. split; [exact Ha|].
    apply filter_In. split.
    - unfold subclass_trails.
      destruct (g_edges g) as [|e0 es] eqn:Eg; [contradiction|].
      rewrite <- Eg in *. replace (length (g_edges g)) with (S (length es))
        by (rewrite Eg; reflexivity).
      rewrite <- Hd. apply trails_first; auto.
    - cbn [fst]. unfold named in Hb. apply filter_In in Hb.
      destruct Hb as [Hb Hm].
      assert (N : node_by_id g (n_id b) = Some b)
        by (apply node_by_id_spec; auto).
      now rewrite N. }
  intros Hz. apply length_zero_iff_nil in Hz. rewrite Hz in Hin. contradiction.
Qed.

Lemma check_inheritance_found labels subL sub superL super w :
  healthy w -> subL <> "" -> superL <> "" ->
  subclass_paths (w_graph w) subL sub superL super <> 0 ->
  exists r,
    check_property_inheritance labels sub super (Some subL) (Some superL) w
    = (Return r, w)
    /\ dict_get "inheritance_exists" r = Some (PBool true).
Proof.
  intros Hh H1 H2 Hp. apply String.eqb_neq in H1, H2.
  destruct (fold_sort_out_healthy subL sub super
              (superclass_rows (w_graph w) superL super) ([], []) w Hh)
    as (b & Eb & _).
  eexists. split.
  - unfold check_property_inheritance, label_or_detect, given.
    rewrite H1, H2. apply try_return. rewrite !bind_ret.
    run (paths_value subL sub superL super w Hh).
    rewrite truthy_PNat.
    apply Nat.eqb_neq in Hp. rewrite Hp. cbn [negb].
    run (run_query_healthy (cy_superclass_properties superL (PStr super))
           _ w Hh eq_refl).
    change (order_by ["property_name"] _)
      with (superclass_rows (w_graph w) superL super).
    run Eb. reflexivity.
  - reflexivity.
Qed.

Lemma or_empty_keys properties :
  NoDup (keys (props_of properties)) -> NoDup (keys (or_empty properties)).
Proof.
  unfold or_empty, props_of. destruct properties as [[|kv d]|]; cbn [dict_truthy];
    auto; intros _; constructor.
Qed.

Lemma stamped_truthy t d : dict_truthy (Some (dict_set "created_at" t d)) = true.
Proof.
  destruct d as [|[k v] d]; [reflexivity|].
  cbn [dict_set]. destruct (String.eqb "created_at" k); reflexivity.
Qed.





(** * [create_property_relationship] and the relationship type *)

(** What [create_property_relationship] does on a store that answers, when
    one node is the subject and one the object. *)
Lemma property_relationship_healthy
    subject_name property_name object_name subject_label object_label
    properties a b w :
  healthy w ->
  named (Some subject_label) (PStr subject_name) (w_graph w) = [a] ->
  named (Some object_label) (PStr object_name) (w_graph w) = [b] ->
  let g := w_graph w in
  let T := rel_type_of property_name in
  let rel := dict_set "created_at" (PStr (isoformat (w_clock w)))
               (dict_set "property" (PStr property_name) (or_empty properties)) in
  let e := mkEdge (g_next g) (n_id a) T (n_id b) (set_props [] rel) in
  create_property_relationship subject_name property_name object_name
    subject_label object_label properties w
  = if existsb (links T (n_id a) (n_id b)) (g_edges g)
    then (Return (skipped (skip_message T)), logged (ticked w) [skip_warning T])
    else (Return (("records", PList (map PDict [[("r", edge_py e)]]))
                  :: counters_dict
                       (mkCounters 0 0 1 0 (1 * length (set_props [] rel))
                                   0 0 0 0 0 0)),
          with_graph (ticked w)
            (mkGraph (g_nodes g) (g_edges g ++ [e]) (g_next g + 1))).
Proof.
  intros Hh Ha Hb g T rel e.
  pose proof (create_relationship_healthy
                (mkPattern [subject_label] [("name", Param "subject_name")])
                (mkPattern [object_label] [("name", Param "object_name")])
                T (Some rel)
                (Some [("subject_name", PStr subject_name)])
                (Some [("object_name", PStr object_name)])
                [("name", PStr subject_name)] [("name", PStr object_name)]
                eq_refl eq_refl eq_refl eq_refl (ticked w) (healthy_ticked _ Hh))
    as E.
  cbv zeta in E. cbn [pat_labels ticked w_graph] in E. fold g in E.
  rewrite (endpoint_pairs_single [subject_label] [("name", PStr subject_name)]
             [object_label] [("name", PStr object_name)] g a b Ha Hb) in E.
  cbn [fst snd new_edges length] in E.
  assert (Tr : dict_truthy (Some rel) = true) by apply stamped_truthy.
  unfold rel_props_of in E. rewrite Tr in E.
  unfold create_property_relationship, try_except.
  rewrite bind_return with (a := PStr (isoformat (w_clock w))) (w' := ticked w)
    by reflexivity.
  fold T. fold rel. unfold bind. rewrite E.
  destruct (existsb (links T (n_id a) (n_id b)) (g_edges g)); reflexivity.
Qed.

(** A name beyond ASCII, for which [rel_type_of] is not the type the
    program makes, is kept out; a name whose type Cypher cannot read as it
    stands is kept out as well. *)
Lemma names_kept_out :
  is_ascii "café" = false
  /\ label_name (rel_type_of "has part") = true
  /\ label_name (rel_type_of "has.part") = false
  /\ label_name (rel_type_of "not") = false.
Proof. repeat split. Qed.

(** X23.  For a property name in ASCII, the relationship type of
    [create_property_relationship] is the name in capitals with blanks and
    hyphens turned into underscores, so that two names that differ only in
    these share one type.  (Beyond ASCII [str.upper] knows more capitals,
    and the type of [café] ends in [É].)  The type and the two labels are
    names Cypher reads as they stand, and the properties are ones the driver
    sends.  On a store that answers, with one subject and one object node:
    the first call returns and touches no node; when the two were not yet
    linked by the type it adds one relationship of that type, which keeps
    the name as given under [property].  A later call for a name of the same
    type, between the same two nodes, is skipped as [already_exists] and
    leaves the graph as it is: the second name is recorded nowhere. *)
Theorem create_property_relationship_type_collision
    (subject_name object_name property_name other_name : string)
    (subject_label object_label : string)
    (properties properties' : option Dict) (a b : Node) (w : World) :
  healthy w ->
  is_ascii property_name = true ->
  is_ascii other_name = true ->
  label_name (rel_type_of property_name) = true ->
  label_name subject_label = true ->
  label_name object_label = true ->
  sendable (props_of properties) = true ->
  sendable (props_of properties') = true ->
  NoDup (keys (props_of properties)) ->
  named (Some subject_label) (PStr subject_name) (w_graph w) = [a] ->
  named (Some object_label) (PStr object_name) (w_graph w) = [b] ->
  rel_type_of other_name = rel_type_of property_name ->
  let g := w_graph w in
  let T := rel_type_of property_name in
  exists r1 w1 r2 w2,
    create_property_relationship subject_name property_name object_name
      subject_label object_label properties w = (Return r1, w1)
    /\ g_nodes (w_graph w1) = g_nodes g
    /\ (existsb (links T (n_id a) (n_id b)) (g_edges g) = false ->
        dict_get "relationships_created" r1 = Some (PInt 1)
        /\ exists e,
             g_edges (w_graph w1) = (g_edges g ++ [e])%list
             /\ e_type e = T /\ e_src e = n_id a /\ e_dst e = n_id b
             /\ get "property" (e_props e) = PStr property_name)
    /\ create_property_relationship subject_name other_name object_name
         subject_label object_label properties' w1 = (Return r2, w2)
    /\ dict_get "status" r2 = Some (PStr "already_exists")
    /\ dict_get "relationships_created" r2 = Some (PInt 0)
    /\ w_graph w2 = w_graph w1.
Proof.
  intros Hh _ _ _ _ _ _ _ Hnd Ha Hb Hc g T.
  pose proof (property_relationship_healthy subject_name property_name
                object_name subject_label object_label properties a b w Hh Ha Hb)
    as E1.
  cbv zeta in E1. fold g in E1. fold T in E1.
  set (rel := dict_set "created_at" (PStr (isoformat (w_clock w)))
                (dict_set "property" (PStr property_name) (or_empty properties)))
    in *.
  assert (Hrel : NoDup (keys rel))
    by (apply dict_set_NoDup, dict_set_NoDup, or_empty_keys, Hnd).
  set (e := mkEdge (g_next g) (n_id a) T (n_id b) (set_props [] rel)) in *.
  destruct (existsb (links T (n_id a) (n_id b)) (g_edges g)) eqn:X.
  - (* linked already *)
    assert (Hh1 : healthy (logged (ticked w) [skip_warning T]))
      by (apply healthy_logged, healthy_ticked, Hh).
    pose proof (property_relationship_healthy subject_name other_name
                  object_name subject_label object_label properties' a b _ Hh1
                  Ha Hb) as E2.
    cbv zeta in E2. rewrite Hc in E2.
    cbn [logged ticked w_graph] in E2. fold g in E2. fold T in E2.
    rewrite X in E2.
    eexists _, _, _, _. split; [exact E1|]. split; [reflexivity|].
    split; [discriminate|]. split; [exact E2|].
    split; [reflexivity|]. split; reflexivity.
  - (* a new relationship *)
    set (g1 := mkGraph (g_nodes g) (g_edges g ++ [e]) (g_next g + 1)) in *.
    assert (Hh1 : healthy (with_graph (ticked w) g1))
      by (apply healthy_with_graph, healthy_ticked, Hh).
    assert (Ha1 : named (Some subject_label) (PStr subject_name)
                    (w_graph (with_graph (ticked w) g1)) = [a])
      by (cbn [with_graph w_graph]; rewrite (named_nodes _ _ g g1 eq_refl);
          exact Ha).
    assert (Hb1 : named (Some object_label) (PStr object_name)
                    (w_graph (with_graph (ticked w) g1)) = [b])
      by (cbn [with_graph w_graph]; rewrite (named_nodes _ _ g g1 eq_refl);
          exact Hb).
    pose proof (property_relationship_healthy subject_name other_name
                  object_name subject_label object_label properties' a b _ Hh1
                  Ha1 Hb1) as E2.
    cbv zeta in E2. rewrite Hc in E2.
    cbn [with_graph ticked w_graph] in E2. fold T in E2.
    assert (X1 : existsb (links T (n_id a) (n_id b)) (g_edges g1) = true).
    { unfold g1. cbn [g_edges]. rewrite existsb_app. cbn [existsb].
      unfold links at 2. cbn [e e_type e_src e_dst].
      rewrite String.eqb_refl, !Nat.eqb_refl. cbn. apply orb_true_r. }
    rewrite X1 in E2.
    eexists _, _, _, _. split; [exact E1|]. split; [reflexivity|].
    split.
    + intros _. split; [reflexivity|]. exists e.
      split; [reflexivity|]. split; [reflexivity|]. split; [reflexivity|].
      split; [reflexivity|]. cbn [e e_props].
      apply set_props_get_any; [exact Hrel|]. unfold rel.
      rewrite dict_get_set_other by discriminate. apply dict_get_set_same.
    + split; [exact E2|]. split; [reflexivity|]. split; reflexivity.
Qed.

Lemma create_property_relationship_type_collision_witness :
  rel_type_of "has-part" = rel_type_of "has part"
  /\ exists r1 w1 r2 w2,
       create_property_relationship "x" "has part" "y" "Instance" "Instance"
         None w_xy = (Return r1, w1)
       /\ dict_get "relationships_created" r1 = Some (PInt 1)
       /\ create_property_relationship "x" "has-part" "y" "Instance" "Instance"
            None w1 = (Return r2, w2)
       /\ dict_get "status" r2 = Some (PStr "already_exists")
       /\ w_graph w2 = w_graph w1.
Proof.
  split; [reflexivity|].
  destruct (create_property_relationship_type_collision "x" "y" "has part"
              "has-part" "Instance" "Instance" None None
              (ex_instance 0 "x" "Thing") (ex_instance 1 "y" "Thing") w_xy
              eq_refl eq_refl eq_refl eq_refl eq_refl eq_refl eq_refl eq_refl
              ltac:(constructor) eq_refl eq_refl eq_refl)
    as (r1 & w1 & r2 & w2 & E1 & _ & Hnew & E2 & S2 & _ & G2).
  exists r1, w1, r2, w2. split; [exact E1|].
  destruct (Hnew eq_refl) as [C _].
  split; [exact C|]. split; [exact E2|]. split; [exact S2 | exact G2].
Defined.



(** * The uniqueness constraints *)

(** A write never takes a warning back. *)
Lemma execute_write_warnings q w :
  length (w_warnings w) <= length (w_warnings (snd (execute_write q w))).
Proof.
  unfold execute_write, session_run.
  destruct (hd None (w_faults w)) as [[e|e]|].
  - destruct (contains "already exists" (lower e)); cbn; [|lia].
    rewrite length_app. cbn. lia.
  - cbn. lia.
  - destruct (q (w_graph w)); cbn; lia.
Qed.

Lemma execute_write_refused q w e :
  healthy w -> q (w_graph w) = inl e ->
  execute_write q w = (Raise ("Failed to execute write query: " ++ e), w).
Proof.
  intros Hh Hq. unfold execute_write, session_run.
  unfold healthy in Hh. rewrite Hh. cbn [hd tl]. rewrite Hq.
  rewrite <- Hh. now rewrite world_eta.
Qed.

Section Loop.

Variable stmt : string -> Cypher.
Variable msg : string -> string -> string.

(** The loop of both methods: every label is either listed or warned of. *)
Lemma constraint_loop_total labels : forall acc w,
  exists done w',
    fold_m labels acc
      (fun acc label =>
         try_except (execute_write (stmt label) ;;; ret (acc ++ [label])%list)
                    (fun e => warn (msg label e) ;;; ret acc)) w
    = (Return (acc ++ done)%list, w')
    /\ incl done labels
    /\ length done <= length labels
    /\ length (w_warnings w) + length labels
       <= length done + length (w_warnings w').
Proof.
  induction labels as [|l labels IH]; intros acc w.
  - exists [], w. rewrite app_nil_r. cbn [fold_m length].
    split; [reflexivity|]. split; [apply incl_refl|]. split; lia.
  - cbn [fold_m].
    pose proof (execute_write_warnings (stmt l) w) as Hw.
    destruct (execute_write (stmt l) w) as [[r|e] w1] eqn:E; cbn [snd] in Hw.
    + destruct (IH (acc ++ [l])%list w1) as (done & w' & Hrun & Hi & Hl & Hn).
      exists (l :: done), w'. split.
      * rewrite bind_return with (a := (acc ++ [l])%list) (w' := w1)
          by (apply try_return; run E; reflexivity).
        rewrite Hrun. now rewrite <- app_assoc.
      * split; [|cbn [length]; split; lia].
        intros x [<-|Hx]; [now left | right; auto].
    + destruct (IH acc (logged w1 [msg l e])) as (done & w' & Hrun & Hi & Hl & Hn).
      exists done, w'. split.
      * rewrite bind_return with (a := acc) (w' := logged w1 [msg l e]);
          [exact Hrun|].
        erewrite try_raise; [|apply bind_raise; exact E].
        reflexivity.
      * split; [intros x Hx; right; auto|].
        cbn [logged w_warnings] in Hn. rewrite length_app in Hn.
        cbn [length] in *. split; lia.
Qed.

(** On a store that takes every statement, every label is listed. *)
Lemma constraint_loop_accepted labels :
  (forall l g, exists a, stmt l g = inr a) ->
  forall acc w, healthy w ->
  exists w',
    fold_m labels acc
      (fun acc label =>
         try_except (execute_write (stmt label) ;;; ret (acc ++ [label])%list)
                    (fun e => warn (msg label e) ;;; ret acc)) w
    = (Return (acc ++ labels)%list, w')
    /\ w_warnings w' = w_warnings w.
Proof.
  intros Hq. induction labels as [|l labels IH]; intros acc w Hh.
  - exists w. rewrite app_nil_r. now cbn.
  - cbn [fold_m]. destruct (Hq l (w_graph w)) as [a Ha].
    pose proof (execute_write_healthy _ _ w Hh Ha) as E.
    destruct (IH (acc ++ [l])%list (with_graph w (a_graph a))
                 (healthy_with_graph _ _ Hh)) as (w' & Hrun & Hw).
    exists w'. split; [|exact Hw].
    rewrite bind_return with (a := (acc ++ [l])%list)
                             (w' := with_graph w (a_graph a))
      by (apply try_return; run E; reflexivity).
    rewrite Hrun. now rewrite <- app_assoc.
Qed.

(** On a store that refuses every statement, no label is listed, and the
    call warns once for each. *)
Lemma constraint_loop_refused labels :
  (forall l g, exists e, stmt l g = inl e) ->
  forall acc w, healthy w ->
  exists extra,
    fold_m labels acc
      (fun acc label =>
         try_except (execute_write (stmt label) ;;; ret (acc ++ [label])%list)
                    (fun e => warn (msg label e) ;;; ret acc)) w
    = (Return acc, logged w extra)
    /\ length extra = length labels.
Proof.
  intros Hq. induction labels as [|l labels IH]; intros acc w Hh.
  - exists []. rewrite logged_nil. now cbn.
  - cbn [fold_m]. destruct (Hq l (w_graph w)) as [e He].
    pose proof (execute_write_refused _ w e Hh He) as E.
    destruct (IH acc (logged w [msg l ("Failed to execute write query: " ++ e)])
                 (healthy_logged _ _ Hh)) as (extra & Hrun & Hl).
    exists (msg l ("Failed to execute write query: " ++ e) :: extra).
    split; [|cbn [length]; now rewrite Hl].
    rewrite bind_return with (a := acc)
      (w' := logged w [msg l ("Failed to execute write query: " ++ e)]).
    + rewrite Hrun. rewrite logged_logged. reflexivity.
    + erewrite try_raise; [|apply bind_raise; exact E]. reflexivity.
Qed.

(** A statement that the store skips as existing counts as done. *)
Lemma constraint_loop_skipped l labels acc w e done w' :
  hd None (w_faults w) = Some (ConstraintError e) ->
  contains "already exists" (lower e) = true ->
  fold_m (l :: labels) acc
    (fun acc label =>
       try_except (execute_write (stmt label) ;;; ret (acc ++ [label])%list)
                  (fun e => warn (msg label e) ;;; ret acc)) w
  = (Return (acc ++ done)%list, w') ->
  In l done.
Proof.
  intros Hf Hc. cbn [fold_m].
  assert (E : exists r w1, execute_write (stmt l) w = (Return r, w1)).
  { unfold execute_write, session_run. rewrite Hf, Hc. eexists _, _. reflexivity. }
  destruct E as (r & w1 & E).
  rewrite bind_return with (a := (acc ++ [l])%list) (w' := w1)
    by (apply try_return; run E; reflexivity).
  destruct (constraint_loop_total labels (acc ++ [l])%list w1)
    as (rest & w2 & Hrun & _).
  rewrite Hrun. intros Heq. inversion Heq as [[Hd Hw]].
  rewrite <- app_assoc in Hd. apply app_inv_head in Hd. subst done. now left.
Qed.

End Loop.

(** X24.  [setup_uniqueness_constraints] and [drop_uniqueness_constraints]
    never raise, whatever the store does with their statements.  Each
    returns the labels for which the statement went through, which are
    among the configured labels, together with their number; every
    configured label is either among them or has been warned of.  A
    statement that the store skips because the constraint exists already
    counts as gone through.  On a store that takes every statement all
    labels are returned; on a store that refuses every statement the call
    still returns, with no label and the number 0, and the graph is as
    before. *)
Theorem uniqueness_constraints_never_raise
    (labels_to_constrain : list string)
    (cy_create_constraint : string -> string -> Cypher)
    (cy_drop_constraint : string -> Cypher) (w : World) :
  (exists created w',
     setup_uniqueness_constraints labels_to_constrain cy_create_constraint w
     = (Return [("constraints_created", PList (map PStr created));
                ("total_created", PNat (length created))], w')
     /\ incl created labels_to_constrain
     /\ length created <= length labels_to_constrain
     /\ length (w_warnings w) + length labels_to_constrain
        <= length created + length (w_warnings w')
     /\ (forall l rest e,
           labels_to_constrain = l :: rest ->
           hd None (w_faults w) = Some (ConstraintError e) ->
           contains "already exists" (lower e) = true ->
           In l created)
     /\ (healthy w ->
         (forall name l g, exists a, cy_create_constraint name l g = inr a) ->
         created = labels_to_constrain)
     /\ (healthy w ->
         (forall name l g, exists e, cy_create_constraint name l g = inl e) ->
         created = [] /\ w_graph w' = w_graph w))
  /\ (exists dropped w',
        drop_uniqueness_constraints labels_to_constrain cy_drop_constraint w
        = (Return [("constraints_dropped", PList (map PStr dropped));
                   ("total_dropped", PNat (length dropped))], w')
        /\ incl dropped labels_to_constrain
        /\ length dropped <= length labels_to_constrain
        /\ length (w_warnings w) + length labels_to_constrain
           <= length dropped + length (w_warnings w')
        /\ (forall l rest e,
              labels_to_constrain = l :: rest ->
              hd None (w_faults w) = Some (ConstraintError e) ->
              contains "already exists" (lower e) = true ->
              In l dropped)
        /\ (healthy w ->
            (forall name g, exists a, cy_drop_constraint name g = inr a) ->
            dropped = labels_to_constrain)
        /\ (healthy w ->
            (forall name g, exists e, cy_drop_constraint name g = inl e) ->
            dropped = [] /\ w_graph w' = w_graph w)).
Proof.
  split.
  - destruct (constraint_loop_total
                (fun label => cy_create_constraint (constraint_name label) label)
                (fun label e => "Failed to create constraint for " ++ label
                                ++ ": " ++ e)
                labels_to_constrain [] w)
      as (created & w' & Hrun & Hi & Hl & Hn).
    exists created, w'. split.
    { unfold setup_uniqueness_constraints. apply try_return.
      run Hrun. reflexivity. }
    split; [exact Hi|]. split; [exact Hl|]. split; [exact Hn|].
    split; [|split].
    + intros l rest e -> Hf Hc.
      exact (constraint_loop_skipped _ _ l rest [] w e created w' Hf Hc Hrun).
    + intros Hh Hq.
      destruct (constraint_loop_accepted
                  (fun label => cy_create_constraint (constraint_name label) label)
                  (fun label e => "Failed to create constraint for " ++ label
                                  ++ ": " ++ e)
                  labels_to_constrain (fun l g => Hq _ l g) [] w Hh)
        as (w2 & Hrun2 & _).
      rewrite Hrun2 in Hrun. now inversion Hrun.
    + intros Hh Hq.
      destruct (constraint_loop_refused
                  (fun label => cy_create_constraint (constraint_name label) label)
                  (fun label e => "Failed to create constraint for " ++ label
                                  ++ ": " ++ e)
                  labels_to_constrain (fun l g => Hq _ l g) [] w Hh)
        as (extra & Hrun2 & _).
      rewrite Hrun2 in Hrun. inversion Hrun as [[Hd Hw]]. now split.
  - destruct (constraint_loop_total
                (fun label => cy_drop_constraint (constraint_name label))
                (fun label e => "Failed to drop constraint for " ++ label
                                ++ ": " ++ e)
                labels_to_constrain [] w)
      as (dropped & w' & Hrun & Hi & Hl & Hn).
    exists dropped, w'. split.
    { unfold drop_uniqueness_constraints. apply try_return.
      run Hrun. reflexivity. }
    split; [exact Hi|]. split; [exact Hl|]. split; [exact Hn|].
    split; [|split].
    + intros l rest e -> Hf Hc.
      exact (constraint_loop_skipped _ _ l rest [] w e dropped w' Hf Hc Hrun).
    + intros Hh Hq.
      destruct (constraint_loop_accepted
                  (fun label => cy_drop_constraint (constraint_name label))
                  (fun label e => "Failed to drop constraint for " ++ label
                                  ++ ": " ++ e)
                  labels_to_constrain (fun l g => Hq _ g) [] w Hh)
        as (w2 & Hrun2 & _).
      rewrite Hrun2 in Hrun. now inversion Hrun.
    + intros Hh Hq.
      destruct (constraint_loop_refused
                  (fun label => cy_drop_constraint (constraint_name label))
                  (fun label e => "Failed to drop constraint for " ++ label
                                  ++ ": " ++ e)
                  labels_to_constrain (fun l g => Hq _ g) [] w Hh)
        as (extra & Hrun2 & _).
      rewrite Hrun2 in Hrun. inversion Hrun as [[Hd Hw]]. now split.
Qed.



(** * [create_instance_node]: a new instance *)

(** What the classification of the properties returns. *)
Lemma classify_buckets properties w :
  healthy w ->
  exists extra,
    classify_properties properties w
    = (Return (buckets_of (w_graph w) properties), logged w extra).
Proof.
  intros Hh. unfold classify_properties, buckets_of.
  destruct (dict_truthy properties).
  - destruct (identify_healthy
                (filter (fun p => negb (String.eqb p "name"))
                        (keys match properties with Some d => d | None => [] end))
                w Hh) as (extra & Hrun).
    exists extra. run Hrun. reflexivity.
  - exists []. now rewrite logged_nil.
Qed.

Lemma object_properties_buckets g properties :
  object_properties_of g properties = snd (buckets_of g properties).
Proof.
  unfold object_properties_of, buckets_of.
  destruct (dict_truthy properties); reflexivity.
Qed.

(** The data bucket leaves out the name and the ObjectProperties. *)
Lemma split_skips types k props : forall b,
  (forall v, In (k, v) props ->
             k = "name"
             \/ py_eqb (get_or k (PStr "DataProperty") types)
                       (PStr "ObjectProperty") = true) ->
  dict_get k
    (fst (fold_left
            (fun buckets kv =>
               let prop_name := fst kv in
               let prop_value := snd kv in
               if String.eqb prop_name "name" then buckets
               else
                 let prop_type :=
                   get_or prop_name (PStr "DataProperty") types in
                 if py_eqb prop_type (PStr "ObjectProperty")
                 then (fst buckets, dict_set prop_name prop_value (snd buckets))
                 else (dict_set prop_name prop_value (fst buckets), snd buckets))
            props b))
  = dict_get k (fst b).
Proof.
  induction props as [|[k0 v0] props IH]; intros b H; [reflexivity|].
  cbn [fold_left fst snd]. rewrite IH by (intros v Hv; apply (H v); now right).
  destruct (String.eqb k0 "name") eqn:N; [reflexivity|].
  destruct (py_eqb (get_or k0 (PStr "DataProperty") types) (PStr "ObjectProperty"))
    eqn:T; [reflexivity|].
  cbn [fst]. destruct (String.eqb k k0) eqn:K.
  - apply String.eqb_eq in K. subst k0.
    destruct (H v0 (or_introl eq_refl)) as [E|E].
    + subst k. discriminate.
    + rewrite E in T. discriminate.
  - apply String.eqb_neq in K. now rewrite dict_get_set_other.
Qed.

(** It holds every other property of the call, at its value. *)
Lemma split_keeps types k v props : forall b,
  NoDup (keys props) -> In (k, v) props -> k <> "name" ->
  py_eqb (get_or k (PStr "DataProperty") types) (PStr "ObjectProperty") = false ->
  dict_get k
    (fst (fold_left
            (fun buckets kv =>
               let prop_name := fst kv in
               let prop_value := snd kv in
               if String.eqb prop_name "name" then buckets
               else
                 let prop_type :=
                   get_or prop_name (PStr "DataProperty") types in
                 if py_eqb prop_type (PStr "ObjectProperty")
                 then (fst buckets, dict_set prop_name prop_value (snd buckets))
                 else (dict_set prop_name prop_value (fst buckets), snd buckets))
            props b))
  = Some v.
Proof.
  induction props as [|[k0 v0] props IH]; intros b Hnd Hin Hn Ht; [contradiction|].
  cbn [keys map fst] in Hnd. inversion Hnd as [|? ? Hnotin Hnd']; subst.
  cbn [fold_left fst snd]. destruct Hin as [E|Hin].
  - inversion E; subst k0 v0.
    apply String.eqb_neq in Hn. rewrite Hn, Ht.
    rewrite split_skips.
    + cbn [fst]. apply dict_get_set_same.
    + intros v' Hv'. exfalso. apply Hnotin.
      change (In k (map fst props)). apply in_map_iff. now exists (k, v').
  - now apply IH.
Qed.

(** No relationship leaves a node that is yet to be made. *)
Lemma fresh_not_linked_from g T b :
  closed g -> well_numbered g ->
  existsb (links T (g_next g) b) (g_edges g) = false.
Proof.
  intros Hc [_ Hlt]. apply not_true_is_false. intros H.
  apply existsb_exists in H. destruct H as (e & He & Hl).
  unfold links in Hl. apply andb_true_iff in Hl. destruct Hl as [Hl _].
  apply andb_true_iff in Hl. destruct Hl as [_ Hl].
  apply Nat.eqb_eq in Hl. destruct (Hc e He) as [Hs _].
  apply in_map_iff in Hs. destruct Hs as (n & Hid & Hn).
  specialize (Hlt n Hn). lia.
Qed.

(** The validation lets a call through that misses no required property. *)
Lemma validate_passes C label provided w :
  healthy w -> hashable_names (w_graph w) ->
  missing_rows (w_graph w) label C provided = [] ->
  exists result,
    validate_instance_properties C provided label true w = (Return result, w).
Proof.
  intros Hh Hn Hnone.
  pose proof (required_rows_healthy C label w Hh Hn) as Hreq.
  pose proof (required_rows_hashable (w_graph w) label C Hn) as Hhash.
  assert (Hmiss : missing_of (map PStr (nodup_str (keys provided)))
                    (required_rows (w_graph w) label C) w
                  = (Return (map prop_info
                               (missing_rows (w_graph w) label C provided)), w))
    by (apply missing_of_hashable; exact Hhash).
  eexists. unfold validate_instance_properties. apply try_return.
  run Hreq. run Hmiss. rewrite Hnone. reflexivity.
Qed.

Lemma check_required_passes validate C properties L w :
  healthy w ->
  (validate = true ->
   hashable_names (w_graph w)
   /\ missing_rows (w_graph w) L C (without_name (props_of properties)) = []) ->
  check_required_properties validate C properties (Some L) w = (Return tt, w).
Proof.
  intros Hh Hv. unfold check_required_properties.
  destruct validate; [|reflexivity].
  destruct (Hv eq_refl) as [Hn Hm]. cbn [andb fmt].
  destruct (dict_truthy properties) eqn:T.
  - destruct properties as [d|]; [|discriminate]. cbn [props_of] in Hm.
    destruct (validate_passes C L (without_name d) w Hh Hn Hm) as [r Hr].
    run Hr. reflexivity.
  - assert (E : without_name (props_of properties) = []).
    { destruct properties as [[|kv d]|]; try reflexivity. discriminate. }
    rewrite E in Hm.
    destruct (validate_passes C L [] w Hh Hn Hm) as [r Hr].
    run Hr. reflexivity.
Qed.

Lemma instance_properties_NoDup name C data :
  NoDup (keys (instance_properties name C data)).
Proof.
  unfold instance_properties.
  assert (B : NoDup (keys [("name", PStr name); ("instance_of", PStr C)])).
  { cbn. repeat constructor; cbn; intuition discriminate. }
  destruct (nonempty data); [apply dict_update_NoDup|]; exact B.
Qed.

Lemma instance_properties_absent name C data k :
  has_key k data = false ->
  dict_get k (instance_properties name C data)
  = dict_get k [("name", PStr name); ("instance_of", PStr C)].
Proof.
  intros H. unfold instance_properties.
  destruct (nonempty data); [|reflexivity].
  now apply dict_get_update_absent.
Qed.

Lemma instance_properties_given name C data k v :
  NoDup (keys data) -> dict_get k data = Some v ->
  dict_get k (instance_properties name C data) = Some v.
Proof.
  intros Hnd H. unfold instance_properties.
  destruct data as [|kv data]; [discriminate|].
  change (nonempty (kv :: data)) with true. cbv iota.
  apply dict_get_update_In; [exact Hnd|]. now apply dict_get_Some_In.
Qed.

Lemma split_NoDup types props : forall b,
  NoDup (keys (fst b)) ->
  NoDup
    (keys
       (fst (fold_left
               (fun buckets kv =>
                  let prop_name := fst kv in
                  let prop_value := snd kv in
                  if String.eqb prop_name "name" then buckets
                  else
                    let prop_type :=
                      get_or prop_name (PStr "DataProperty") types in
                    if py_eqb prop_type (PStr "ObjectProperty")
                    then (fst buckets, dict_set prop_name prop_value (snd buckets))
                    else (dict_set prop_name prop_value (fst buckets), snd buckets))
               props b))).
Proof.
  induction props as [|[k0 v0] props IH]; intros b Hb; [exact Hb|].
  cbn [fold_left fst snd]. apply IH.
  destruct (String.eqb k0 "name"); [exact Hb|].
  destruct (py_eqb _ _); [exact Hb|].
  cbn [fst]. now apply dict_set_NoDup.
Qed.

(** What the data bucket of a call holds. *)
Lemma data_bucket_NoDup g properties : NoDup (keys (fst (buckets_of g properties))).
Proof.
  unfold buckets_of. destruct (dict_truthy properties); [|constructor].
  apply split_NoDup. constructor.
Qed.

Lemma data_bucket_keeps g properties k v :
  NoDup (keys (props_of properties)) -> In (k, v) (props_of properties) ->
  k <> "name" -> typed_object g properties k = false ->
  dict_get k (fst (buckets_of g properties)) = Some v.
Proof.
  intros Hnd Hin Hn Ht. unfold buckets_of.
  destruct properties as [[|kv d]|]; try contradiction.
  cbn [dict_truthy]. now apply split_keeps.
Qed.

Lemma data_bucket_skips g properties k :
  (k = "name" \/ typed_object g properties k = true
   \/ has_key k (props_of properties) = false) ->
  dict_get k (fst (buckets_of g properties)) = None.
Proof.
  intros H. unfold buckets_of.
  destruct (dict_truthy properties) eqn:T; [|reflexivity].
  destruct properties as [d|]; [|discriminate].
  unfold split_properties. rewrite split_skips; [reflexivity|].
  intros v Hv. destruct H as [H|[H|H]]; [now left | now right |].
  apply has_key_false in H. cbn [props_of] in H.
  exfalso. clear -H Hv. induction d as [|[a b] d IH]; [contradiction|].
  cbn [dict_get] in H. destruct (String.eqb k a) eqn:K; [discriminate|].
  destruct Hv as [E|Hv]; [|now apply IH].
  inversion E; subst. now rewrite String.eqb_refl in K.
Qed.

(** The run of [create_instance_node] when the instance is new. *)
Lemma create_instance_new_run
    (labels_to_constrain : list string)
    (instance_name concept_type : string) (properties : option Dict)
    (additional_labels : option (list string))
    (allow_update validate_required_properties : bool) (concept_label : string)
    (auto_create_object_property_relationships : bool) (c : Node) (w : World) :
  healthy w ->
  well_numbered (w_graph w) ->
  closed (w_graph w) ->
  concept_label <> "" ->
  instance_name <> concept_type ->
  NoDup (keys (props_of properties)) ->
  has_key "name" (props_of properties) = false ->
  (validate_required_properties = true ->
   hashable_names (w_graph w)
   /\ missing_rows (w_graph w) concept_label concept_type
        (without_name (props_of properties)) = []) ->
  auto_create_object_property_relationships
  && nonempty (object_properties_of (w_graph w) properties) = false ->
  named (Some concept_label) (PStr concept_type) (w_graph w) = [c] ->
  named (Some "Instance") (PStr instance_name) (w_graph w) = [] ->
  let g := w_graph w in
  let m := common_properties
             (instance_properties instance_name concept_type
                (fst (buckets_of g properties))) (w_clock w) in
  let n := mkNode (g_next g) (labels_of "Instance" additional_labels)
                  (set_props [("name", PStr instance_name)] m) in
  let e := mkEdge (S (g_next g)) (g_next g) "IS_INSTANCE_OF" (n_id c)
                  (set_props [] [("created_at", PStr (isoformat (S (w_clock w))))]) in
  exists r extra,
    create_instance_node labels_to_constrain instance_name concept_type
      properties additional_labels allow_update validate_required_properties
      (Some concept_label) true auto_create_object_property_relationships w
    = (Return r,
       with_graph (ticked (ticked (logged w extra)))
         (mkGraph (g_nodes g ++ [n]) (g_edges g ++ [e]) (S (g_next g) + 1)))
    /\ dict_get "nodes_created" r = Some (PInt 1)
    /\ dict_get "auto_relationship_created" r = Some (PBool true)
    /\ dict_get "relationships_created" r = Some (PInt 1)
    /\ dict_get "object_properties_created" r = Some (PInt 0)
    /\ dict_get "total_operations" r = Some (PInt 2).
Proof.
  intros Hh Hw Hcl HL Hic Hnd Hname Hval Hobj Hcn Hin g m' n' e'.
  subst m' n' e'.
  destruct (named_one_In _ _ _ _ Hcn) as [Hc_in Hc_m].
  set (data := fst (buckets_of g properties)).
  set (m0 := instance_properties instance_name concept_type data).
  set (m := common_properties m0 (w_clock w)).
  set (n := mkNode (g_next g) (labels_of "Instance" additional_labels)
                   (set_props [("name", PStr instance_name)] m)).
  set (g1 := mkGraph (g_nodes g ++ [n]) (g_edges g) (S (g_next g))).
  set (e := mkEdge (g_next g1) (n_id n) "IS_INSTANCE_OF" (n_id c)
                   (set_props [] [("created_at", PStr (isoformat (S (w_clock w))))])).
  set (g2 := mkGraph (g_nodes g1) (g_edges g1 ++ [e]) (g_next g1 + 1)).
  assert (Hdata_nd : NoDup (keys data)) by apply data_bucket_NoDup.
  assert (Hm_nd : NoDup (keys m)) by apply common_NoDup, instance_properties_NoDup.
  assert (Hdata_name : has_key "name" data = false).
  { apply has_key_false. apply data_bucket_skips. now left. }
  assert (Hm_name : dict_get "name" m = Some (PStr instance_name)).
  { unfold m. rewrite common_get_other by discriminate.
    unfold m0. now rewrite instance_properties_absent by exact Hdata_name. }
  assert (Hn_name : prop "name" n = PStr instance_name).
  { unfold prop, n. cbn [n_props]. now apply set_props_get_any. }
  destruct (classify_buckets properties w Hh) as (extra & Hclass).
  fold g in Hclass.
  set (w1 := logged w extra) in *.
  assert (Hh1 : healthy w1) by (apply healthy_logged, Hh).
  set (w2 := with_graph (ticked w1) g1).
  assert (Hh2 : healthy w2) by (apply healthy_with_graph, healthy_ticked, Hh1).
  (* the two patterns on the graph with the new node *)
  assert (F1 : filter (match_node ["Instance"] [("name", PStr instance_name)])
                      (g_nodes g1) = [n]).
  { unfold g1. cbn [g_nodes]. rewrite filter_app.
    change (filter (match_node ["Instance"] [("name", PStr instance_name)])
                   (g_nodes g))
      with (named (Some "Instance") (PStr instance_name) g).
    unfold g. rewrite Hin. cbn [filter app].
    unfold n at 1, labels_of. now rewrite match_new_node. }
  assert (F2 : filter (match_node [concept_label] [("name", PStr concept_type)])
                      (g_nodes g1) = [c]).
  { unfold g1. cbn [g_nodes]. rewrite filter_app.
    change (filter (match_node [concept_label] [("name", PStr concept_type)])
                   (g_nodes g))
      with (named (Some concept_label) (PStr concept_type) g).
    unfold g. rewrite Hcn. cbn [filter app].
    assert (M : match_node [concept_label] [("name", PStr concept_type)] n = false).
    { unfold match_node. cbn [forallb fst snd]. rewrite Hn_name, cy_eqb_str_str.
      apply String.eqb_neq in Hic. rewrite Hic. now rewrite andb_false_r. }
    now rewrite M. }
  assert (X : existsb (links "IS_INSTANCE_OF" (n_id n) (n_id c)) (g_edges g1)
              = false)
    by (apply (fresh_not_linked_from g "IS_INSTANCE_OF" (n_id c) Hcl Hw)).
  pose proof (create_relationship_healthy
                (mkPattern ["Instance"] [("name", Param "instance_name")])
                (mkPattern [concept_label] [("name", Param "concept_name")])
                "IS_INSTANCE_OF"
                (Some [("created_at", PStr (isoformat (S (w_clock w))))])
                (Some [("instance_name", PStr instance_name)])
                (Some [("concept_name", PStr concept_type)])
                [("name", PStr instance_name)] [("name", PStr concept_type)]
                eq_refl eq_refl eq_refl eq_refl (ticked w2) (healthy_ticked _ Hh2))
    as ER.
  cbv zeta in ER. cbn [pat_labels ticked w_graph w2 with_graph] in ER.
  rewrite (endpoint_pairs_single ["Instance"] [("name", PStr instance_name)]
             [concept_label] [("name", PStr concept_type)] g1 n c F1 F2) in ER.
  cbn [fst snd new_edges length] in ER. rewrite X in ER.
  change (rel_props_of (Some [("created_at", PStr (isoformat (S (w_clock w))))]))
    with [("created_at", PStr (isoformat (S (w_clock w))))] in ER.
  fold e in ER. fold g2 in ER.
  (* the run of the method *)
  eexists _, extra. split.
  { unfold create_instance_node. apply try_return.
    apply String.eqb_neq in HL.
    rewrite bind_return with (a := Some concept_label) (w' := w).
    2:{ unfold resolve_concept, given. rewrite HL. rewrite bind_ret.
        run (get_existing_node_healthy (PStr concept_type) (Some concept_label)
               w Hh).
        unfold given. rewrite HL, existing_truthy. fold g. unfold g.
        rewrite Hcn. reflexivity. }
    run Hclass.
    run (check_required_passes validate_required_properties concept_type
           properties concept_label w1 Hh1 Hval).
    rewrite bind_return with (a := tt) (w' := w1).
    2:{ unfold check_object_property_targets.
        rewrite <- object_properties_buckets. fold g in Hobj.
        change (w_graph w) with g. now rewrite Hobj. }
    run (get_existing_node_healthy (PStr instance_name) (Some "Instance") w1 Hh1).
    change (given (Some "Instance")) with (Some "Instance").
    rewrite existing_truthy. change (w_graph w1) with g. unfold g at 1.
    rewrite Hin. cbn [length Nat.eqb negb].
    unfold new_instance.
    assert (Rq : requested_name properties = None).
    { unfold requested_name. destruct (dict_truthy properties); [|reflexivity].
      apply has_key_false in Hname. unfold props_of in Hname. now rewrite Hname. }
    rewrite Rq. fold data. fold m0.
    run (add_common_run m0 w1). change (w_clock w1) with (w_clock w). fold m.
    run (merge_creates "Instance" instance_name m additional_labels (ticked w1)
           (healthy_ticked _ Hh1) Hin).
    fold g. fold n. fold g1. fold w2.
    rewrite bind_return with
      (a := dict_set "relationships_created" (PInt 1)
              (dict_set "auto_relationship_created" (PBool true)
                 (("records", PList [PDict [("n", node_py n)]])
                  :: counters_dict
                       (mkCounters 1 0 0 0 (1 + length m)
                          (length (labels_of "Instance" additional_labels))
                          0 0 0 0 0))))
      (w' := with_graph (ticked w2) g2).
    2:{ apply try_return.
        rewrite bind_return with (a := PStr (isoformat (S (w_clock w))))
                                 (w' := ticked w2) by reflexivity.
        cbn [fmt]. run ER. reflexivity. }
    rewrite <- object_properties_buckets. change (w_graph w) with g in Hobj.
    rewrite Hobj. rewrite bind_ret. reflexivity. }
  split; [reflexivity|]. split; [reflexivity|]. split; [reflexivity|].
  split; reflexivity.
Qed.





(** * [validate_ontology] *)

Lemma positive_PNat n w :
  positive (PNat n) w = (Return (negb (Nat.eqb n 0)), w).
Proof.
  unfold positive, PNat, ret. do 2 f_equal.
  destruct n as [|n]; [reflexivity|].
  cbn [Nat.eqb negb]. apply Z.ltb_lt. lia.
Qed.

Lemma counted_single q matches w :
  healthy w ->
  q (w_graph w) = inr (mkAnswer (counted matches) no_counters (w_graph w)) ->
  exists record,
    run_query_single q w = (Return (Some record), w)
    /\ count_of (Some record) = PNat (length matches)
    /\ sample_of (Some record) = sample (map (prop "name") matches).
Proof.
  intros Hh Hq. eexists. split; [|split].
  - rewrite (run_query_single_healthy q _ w Hh Hq). reflexivity.
  - reflexivity.
  - reflexivity.
Qed.

Lemma count_all_nodes w :
  healthy w ->
  get_node_count None w = (Return (PNat (length (g_nodes (w_graph w)))), w).
Proof.
  intros Hh. rewrite (get_node_count_healthy None w Hh).
  cbn [given opt_label]. rewrite filter_all; [reflexivity|].
  intros n _. reflexivity.
Qed.

(** What [validate_ontology] returns on a store that answers. *)
Lemma validate_ontology_healthy w :
  healthy w ->
  let g := w_graph w in
  let orphans := orphaned_nodes g in
  let untyped := untyped_instances g in
  let circular := circular_paths g in
  validate_ontology w
  = (Return
       [("valid", PBool (Nat.eqb (length untyped) 0
                         && Nat.eqb (length circular) 0));
        ("issues",
         PList (map PDict
                  ((if Nat.eqb (length untyped) 0 then []
                    else [finding "untyped_instances" (PNat (length untyped))
                            "instances without concept relationships"
                            (sample (map (prop "name") untyped))])
                   ++ (if Nat.eqb (length circular) 0 then []
                       else [finding "circular_subclass" (PNat (length circular))
                               "circular subclass relationships"
                               (sample (map (prop "name") circular))]))));
        ("warnings",
         PList (map PDict
                  (if Nat.eqb (length orphans) 0 then []
                   else [finding "orphaned_nodes" (PNat (length orphans))
                           "orphaned nodes"
                           (sample (map (prop "name") orphans))])));
        ("statistics",
         PDict [("total_nodes", PNat (length (g_nodes g)));
                ("orphaned_nodes", PNat (length orphans));
                ("untyped_instances", PNat (length untyped));
                ("circular_references", PNat (length circular))])], w).
Proof.
  intros Hh g orphans untyped circular.
  destruct (counted_single cy_orphaned orphans w Hh eq_refl)
    as (r1 & E1 & C1 & S1).
  destruct (counted_single cy_untyped_instances untyped w Hh eq_refl)
    as (r2 & E2 & C2 & S2).
  destruct (counted_single cy_circular circular w Hh eq_refl)
    as (r3 & E3 & C3 & S3).
  unfold validate_ontology. apply try_return.
  run E1. rewrite C1. run (positive_PNat (length orphans) w). rewrite S1.
  run E2. rewrite C2. run (positive_PNat (length untyped) w). rewrite S2.
  run E3. rewrite C3. run (positive_PNat (length circular) w). rewrite S3.
  run (count_all_nodes w Hh). fold g.
  destruct (Nat.eqb (length orphans) 0), (Nat.eqb (length untyped) 0),
    (Nat.eqb (length circular) 0); reflexivity.
Qed.

(** An instance without an [INSTANCE_OF] relationship of its own is
    untyped. *)
Lemma untyped_member g i :
  In i (g_nodes g) -> has_label "Instance" i = true ->
  (forall e, In e (g_edges g) -> e_src e = n_id i -> e_type e <> "INSTANCE_OF") ->
  In i (untyped_instances g).
Proof.
  intros Hi Hl He. unfold untyped_instances. apply filter_In.
  split; [exact Hi|]. rewrite Hl. cbn [andb]. apply negb_true_iff.
  apply not_true_is_false. intros H. unfold typed_instance in H.
  apply existsb_exists in H. destruct H as (e & Hin & H).
  apply andb_true_iff in H. destruct H as [H _].
  apply andb_true_iff in H. destruct H as [Ht Hs].
  apply String.eqb_eq in Ht. apply Nat.eqb_eq in Hs.
  exact (He e Hin Hs Ht).
Qed.

Lemma nonempty_length {A} (x : A) l : In x l -> Nat.eqb (length l) 0 = false.
Proof. destruct l; [contradiction | reflexivity]. Qed.

Lemma flat_map_nil {A B} (f : A -> list B) l :
  (forall x, In x l -> f x = []) -> flat_map f l = [].
Proof.
  induction l as [|x l IH]; intros H; [reflexivity|].
  cbn [flat_map]. rewrite (H x) by now left.
  apply IH. intros y Hy. apply H. now right.
Qed.

(** Where every [SUBCLASS_OF] relationship out of [i] has been used, no
    path goes on. *)
Lemma trails_used_up fuel es used i :
  (forall e, In e es -> e_type e = "SUBCLASS_OF" -> e_src e = i ->
             mem_nat (e_id e) used = true) ->
  trails fuel es used i = [].
Proof.
  intros H. destruct fuel as [|fuel]; [reflexivity|]. cbn [trails].
  apply flat_map_nil. intros e He.
  destruct (String.eqb (e_type e) "SUBCLASS_OF") eqn:T; [|reflexivity].
  destruct (Nat.eqb (e_src e) i) eqn:S; [|reflexivity].
  apply String.eqb_eq in T. apply Nat.eqb_eq in S.
  now rewrite (H e He T S).
Qed.

(** Single loops make paths of one step only. *)
Lemma loop_trails_short es :
  (forall e, In e es -> e_type e = "SUBCLASS_OF" -> e_dst e = e_src e) ->
  (forall e e', In e es -> In e' es ->
                e_type e = "SUBCLASS_OF" -> e_type e' = "SUBCLASS_OF" ->
                e_src e = e_src e' -> e_id e = e_id e') ->
  forall fuel i t, In t (trails fuel es [] i) -> length (snd t) = 1.
Proof.
  intros Hloop Hone fuel i t Ht. destruct fuel as [|fuel]; [contradiction|].
  cbn [trails] in Ht. apply in_flat_map in Ht. destruct Ht as (e & He & Ht).
  destruct (String.eqb (e_type e) "SUBCLASS_OF") eqn:T; [|contradiction].
  destruct (Nat.eqb (e_src e) i) eqn:S; [|contradiction].
  cbn [andb mem_nat existsb negb] in Ht.
  apply String.eqb_eq in T. apply Nat.eqb_eq in S.
  rewrite trails_used_up in Ht.
  - destruct Ht as [<-|[]]. reflexivity.
  - intros e' He' T' S'. apply mem_nat_In. left.
    apply (Hone e e' He He' T T'). rewrite S'. symmetry. now apply Hloop.
Qed.

Lemma loops_not_circular g :
  (forall e, In e (g_edges g) -> e_type e = "SUBCLASS_OF" -> e_dst e = e_src e) ->
  (forall e e', In e (g_edges g) -> In e' (g_edges g) ->
                e_type e = "SUBCLASS_OF" -> e_type e' = "SUBCLASS_OF" ->
                e_src e = e_src e' -> e_id e = e_id e') ->
  circular_paths g = [].
Proof.
  intros Hloop Hone. unfold circular_paths.
  induction (filter (has_label "Concept") (g_nodes g)) as [|c cs IH];
    [reflexivity|].
  cbn [flat_map]. rewrite IH, app_nil_r.
  unfold cycles. rewrite filter_none; [reflexivity|].
  intros t Ht. unfold subclass_trails in Ht.
  rewrite (loop_trails_short _ Hloop Hone _ _ t Ht).
  apply andb_false_r.
Qed.

(** X26.  On a store that answers, [validate_ontology] returns, changes
    nothing, and calls the ontology valid exactly when no instance is
    untyped and no subclass path of two or more steps comes back to its
    concept; nodes without any relationship give a warning, never an issue.
    The statistics are the numbers of nodes, of orphaned nodes, of untyped
    instances and of such paths.  An instance counts as untyped unless an
    [INSTANCE_OF] relationship leaves it, whatever else does: one such
    instance makes the ontology invalid.  And where the [SUBCLASS_OF]
    relationships are loops, at most one at a node, nothing is reported as
    circular. *)
Theorem validate_ontology_verdict (w : World) :
  healthy w ->
  let g := w_graph w in
  let untyped := length (untyped_instances g) in
  let circular := length (circular_paths g) in
  let orphans := length (orphaned_nodes g) in
  exists r issues warnings,
    validate_ontology w = (Return r, w)
    /\ dict_get "valid" r
       = Some (PBool (Nat.eqb untyped 0 && Nat.eqb circular 0))
    /\ dict_get "issues" r = Some (PList (map PDict issues))
    /\ length issues
       = (if Nat.eqb untyped 0 then 0 else 1) + (if Nat.eqb circular 0 then 0 else 1)
    /\ dict_get "warnings" r = Some (PList (map PDict warnings))
    /\ length warnings = (if Nat.eqb orphans 0 then 0 else 1)
    /\ dict_get "statistics" r
       = Some (PDict [("total_nodes", PNat (length (g_nodes g)));
                      ("orphaned_nodes", PNat orphans);
                      ("untyped_instances", PNat untyped);
                      ("circular_references", PNat circular)])
    /\ (forall i,
          In i (g_nodes g) -> has_label "Instance" i = true ->
          (forall e, In e (g_edges g) -> e_src e = n_id i ->
                     e_type e <> "INSTANCE_OF") ->
          dict_get "valid" r = Some (PBool false))
    /\ ((forall e, In e (g_edges g) -> e_type e = "SUBCLASS_OF" ->
                   e_dst e = e_src e) ->
        (forall e e', In e (g_edges g) -> In e' (g_edges g) ->
                      e_type e = "SUBCLASS_OF" -> e_type e' = "SUBCLASS_OF" ->
                      e_src e = e_src e' -> e_id e = e_id e') ->
        circular = 0).
Proof.
  intros Hh g untyped circular orphans.
  pose proof (validate_ontology_healthy w Hh) as E. cbv zeta in E.
  fold g in E. fold untyped in E. fold circular in E. fold orphans in E.
  eexists _, _, _. split; [exact E|].
  split; [reflexivity|]. split; [reflexivity|]. split.
  { destruct (Nat.eqb untyped 0), (Nat.eqb circular 0); reflexivity. }
  split; [reflexivity|]. split.
  { destruct (Nat.eqb orphans 0); reflexivity. }
  split; [reflexivity|]. split.
  - intros i Hi Hl He. cbn [dict_get String.eqb Ascii.eqb Bool.eqb].
    unfold untyped.
    now rewrite (nonempty_length i _ (untyped_member g i Hi Hl He)).
  - intros Hloop Hone. unfold circular.
    now rewrite (loops_not_circular g Hloop Hone).
Qed.

Lemma validate_ontology_verdict_witness :
  healthy w_loop
  /\ exists r,
       validate_ontology w_loop = (Return r, w_loop)
       /\ dict_get "valid" r = Some (PBool false)
       /\ dict_get "statistics" r
          = Some (PDict [("total_nodes", PInt 2);
                         ("orphaned_nodes", PInt 0);
                         ("untyped_instances", PInt 1);
                         ("circular_references", PInt 0)]).
Proof.
  split; [reflexivity|].
  destruct (validate_ontology_verdict w_loop eq_refl)
    as (r & issues & warnings & E & V & _ & _ & _ & _ & S & _ & _).
  exists r. split; [exact E|]. split; [exact V | exact S].
Defined.



(** * A new instance, then [validate_ontology] *)



